(* ===== verification/_CoqProject ===== *)
-Q . S2P
Prelude.v
Bits.v
Snowp.v
SkipPointers.v
MerkleTypes.v
MerkleTrie.v
MerkleStorage.v
MerkleSql.v
MerkleEngine.v
MerkleLookup.v
MerkleInsert.v
MerkleRefine.v
MerkleVerify.v
MerkleExamples.v
MerkleSession.v
MerkleCache.v
Role.v
Roster.v
RosterAuth.v
RosterKeys.v
RosterExamples.v
Rational.v
TeamRoster.v
TeamRosterFacts.v
TeamBoxes.v
TeamExamples.v
TeamIndex.v
TeamIndexExamples.v
Sigs.v
HostChain.v
HostChainFacts.v
HostChainWriter.v
HostChainExamples.v
ChainLoader.v
ChainLoaderFacts.v
GenericChain.v
ChainLoaderExamples.v
UserChain.v
UserLoader.v
UserAccount.v
UserPlay.v
UserFacts.v
UserSave.v
UserExamples.v
UserWriter.v
UserWriterFacts.v
UserMade.v
UserMadeExamples.v
TeamChain.v
TeamLoader.v
TeamEdit.v
TeamPlay.v
TeamRing.v
TeamMade.v
TeamLoaderExamples.v
