(* ===== verification/Prelude.v ===== *)
(** * FOKS: a verification library

    FOKS is a federated key-management service.  A host serves users and teams to
    their clients and is trusted as little as possible: what it has published is
    committed to in a Merkle tree whose root each client follows, and what a team
    is (its members, their roles, its keys) is determined by a chain of signed edits
    that every client replays.  Users, teams and hosts each have such a chain, and the loaders
    tie the links of a chain to the tree.  The library models these mechanisms, the code
    under [src/lib/merkle] and [src/lib/team], the host chain, the checks of the
    sigchain loader and the sigchains of users, with the parts of [src/lib/core], [src/proto/lib], [src/server/shared] and
    [src/client/libclient] they rest on.

    ** The parts and where they are modelled

    Shared:
    - [Prelude]: results of fallible Go operations, byte slices with Go's range
      checks, machine-width wrap-around, generic lemmas, the [foks] hint database.

    The Merkle tree:
    - [Bits] ([lib/core/bits.go]): bit strings inside byte slices.
    - [SkipPointers] ([lib/merkle/bits.go]): the back pointers of a root and the walk
      of a client from a new root to a known one.
    - [MerkleTypes] ([proto/lib/merkle.go], [lib/merkle/lib.go]): records and hashing.
    - [MerkleTrie]: the specification, a path-compressed binary trie with its
      contents, insertion and hash.
    - [MerkleStorage] (the interfaces of [lib/merkle/server.go]) with the laws the
      engine relies on; [MerkleSql] ([server/shared/merkle_sql_storage.go] over
      [server/sql/foks_merkle_tree.sql]) satisfies them.
    - [MerkleEngine] ([lib/merkle/server.go], [lib/merkle/init.go]): lookup, insertion,
      root construction, path compression, initialisation and the read entry points,
      over any storage.
    - [MerkleLookup], [MerkleInsert], [MerkleRefine]: the engine implements the trie.
    - [MerkleVerify] ([lib/merkle/client.go]): the client's check of a path.
    - [MerkleSession] ([lib/merkle/client.go]): the client's check that the roots it is
      shown form one history; [MerkleCache] ([client/libclient/merkle_agent.go]) is the
      local cache it runs over.
    - [MerkleExamples] (and the end of [MerkleCache]): concrete runs.

    Teams:
    - [Role] ([proto/lib/extras.go], [lib/core/role.go]): roles and their order.
    - [Roster] ([lib/team/core.go], [lib/team/delegation.go]): the roster, change sets,
      who may make which change, and the plan of key rotations.
    - [RosterAuth], [RosterKeys]: what the check admits, what the plan does to the keys.
    - [TeamRoster], [TeamRosterFacts] ([lib/team/hilev.go]): the roster with the keys of
      its members, as replayed from wire records.
    - [TeamBoxes] ([lib/team/validate.go]): the server's comparison of posted keys with
      the schedule.
    - [RosterExamples], [TeamExamples]: concrete runs.
    - [Rational] ([lib/core/rational.go]): the numbers of index ranges, and
      [TeamIndex] ([server/shared/team.go], [client/libclient/team_minder_index_range.go]):
      the tables and checks that keep teams inside teams free of cycles;
      [TeamIndexExamples]: concrete runs.

    Encodings, signatures and chains:
    - [Snowp] ([lib/core/snowp.go]): the check that an encoding is the canonical one, against a
      reference MessagePack encoder and decoder.
    - [Sigs] ([lib/core/sigs.go]): signatures of entity keys and stacks of them.
    - [HostChain], [HostChainFacts] ([lib/core/hostchain.go]): a host's chain of signing keys, as
      clients play it; [HostChainWriter] ([server/shared/hostchains.go]): as the server
      writes it; [HostChainExamples]: concrete runs.
    - [ChainLoader], [ChainLoaderFacts] ([client/libclient/base_chain_loader.go], with the keys
      that [server/shared/chain_loader.go] makes): the checks of a loaded sigchain against the
      Merkle tree, in a state and error monad over the loader, which an error does not
      roll back; [GenericChain] ([server/shared/chain_loader.go],
      [client/libclient/chain_loader.go]): a generic chain from the server's tables through the
      engine to the client's checks; [ChainLoaderExamples]: concrete runs.
    - [UserChain] ([lib/core/chain.go], with [keysuite.go] and [hepk.go]): opening the links of a user and the
      checks on them; [UserLoader] ([client/libclient/user_loader.go], [stale_keys.go]): playing them, saving
      and reloading the state, and the queries on it; [UserAccount]: the specification, a machine of
      active devices, key generations and stale keys; [UserPlay], [UserFacts], [UserSave]: the loader
      implements the machine, and what follows; [UserExamples]: concrete runs.
    - [UserWriter] ([lib/core/chain.go], [keysuite.go], [sharedkey.go]): the links that a client makes, their
      commitments and signatures; [UserWriterFacts]: such a link opens and plays; [UserMade]: the
      chains that a client makes, step by step, and their load; [UserMadeExamples]: a concrete one.
    - [TeamChain] ([lib/team/chain.go]): opening and making the links of teams; [TeamLoader]
      ([client/libclient/team_loader.go], [team_keyring.go]): playing them over the roster of [TeamRoster], the ring of
      team keys, saving and reloading; [TeamEdit]: the plan of the client that makes an edit
      ([runGameplan] of [client/libclient/team_minder_edit.go], which has no position and time yet) and that of whoever opens the link; [TeamPlay]: the specification, a run of the roster policy of [RosterAuth], and the
      proof that a played chain is one; [TeamRing]: the keys it leaves; [TeamMade]: the chains that a client makes
      and their load; [TeamLoaderExamples]: concrete runs.

    ** How the model reads the code

    A function that returns [(T, error)] is a function to [result T]; a panic (index
    out of range, nil dereference) is the error [GoPanic].  Integers are [Z], with
    [wrap8], [wrap64] or [wrapS64] where Go wraps and the value can get there; byte
    arrays are lists of [Z].  A pointer that may be nil is an [option].  A Go map is a
    [gmap]; where the code ranges over one, the model ranges over [map_to_list].  Database
    tables are maps or lists of rows with their keys checked on insertion.  Locks are
    held for a whole operation, so an operation is a function of the state; transactions
    are atomic.

    Code outside the repository is a class whose instances the theorems quantify over:
    [Codec] and [ChainLib] (the MessagePack encoders, SHA-512/256 and HMAC), [Crypto] (Ed25519, ECDSA),
    [HostchainLib] (certificates, encoders), [UserLib], [UserLoaderLib] and [UserWriterLib] (the encoders of user links, labels and names) and [SortLib]
    ([slices.SortFunc]: the result is a permutation, ordered when the comparison is a total order).
    The engine's and the client's theorems are proved against the interfaces
    [StorageReader], [StorageTransactor], [StorageWriter] and [ClientInterface].

    ** What the theorems show

    - Proofs to the client: an accepted path tells the truth about the tree under
      the root, for presence and for absence ([VerifyPresence_sound],
      [VerifyAbsence_sound]); and the paths that the engine serves are accepted
      ([served_paths_verify]).  Hash collisions are excluded only among the nodes of a set [P] that
      the theorem names ([coll_free P]), not for all inputs; likewise for the roots and back pointers that
      [historical_root_agrees] compares ([examined_no_clash]).
    - The server: on every lawful storage the engine implements insertion into the
      trie ([insert_refines]) and lookup ([lookup_correct]); every reachable store holds
      a well-formed tree ([reachable_stores_hold_tree]) whose root hash depends on its contents
      only ([root_hash_determined_by_contents]).
    - Histories: a client's accepted roots are one chain ([session_run_consistent],
      [historical_root_agrees], [session_run_rollback], [run_latest_monotone]).
    - Teams: the check decides a declarative policy ([check_decides_policy]) with
      no escalation, confined delegation and a permanent owner; in every
      reachable team the current key of a role has been sent to exactly the members at or
      above it ([team_keys_match_roles]), and lost access rotates keys
      ([lost_access_rotates_key]); an edit is signed by its doer
      ([edit_signed_by_doer]), and the keys and boxes posted are the scheduled ones
      ([MatchBoxes_exact], [MatchKeys_exact]).
    - Teams inside teams: with index ranges of moderate size the membership graph is
      acyclic in every interleaving of edits ([team_graph_acyclic], on
      [Cmp_is_value_order]; [index_commands_shrink], [shifts_scale_value]); with exponents
      at the end of [int64] it is not ([index_overflow_admits_cycle]).
    - Encodings: the checker accepts only shortest encodings of the protocol's values, and all of them but
      those with lists of 16 to 31 elements ([canonical_iff_shortest], [list_of_16_to_31_refused]), so a value has one
      ([canonical_encoding_unique]).
    - Host chains: a played chain's keys and CAs are those of its history ([played_keys_exact],
      [host_keys_filed_by_type]; keys of the type of CAs are an exception, [tlsca_key_survives_revocation]), its links are authorized by the keys before them
      ([host_links_authorized], [play_accepts_exactly]), a newer chain extends the known one
      ([prior_chain_is_prefix]), and what the server writes is accepted
      ([server_chain_accepted], on [stacked_sign_verify]).
    - Sigchains: an accepted load is the chain the tree publishes
      ([loaded_chain_is_published]), so there are no forks under one root ([loads_agree]), and
      what an honest server loads is accepted ([served_chain_accepted]).  Retries keep this for the
      loader of teams, whatever the refused attempts were ([team_retries_sound]); the loaders of users and generic chains compare the
      leaves with the hashes of the first attempt ([user_retry_accepts_unpublished],
      [user_retry_refuses_published]).  A name with a second link is refused
      ([reused_name_refused]).
    - Users: a played sigchain is a run of the account machine, every link signed by the keys it brings
      and a device that is active then ([loaded_links_authorised]); revocation takes exactly the device out and
      rotates or marks the keys it saw ([revocation_effect]); an owner remains ([owner_remains]); the saved state
      loads back ([saved_state_loads]).  In the other direction, every chain that a client makes with the software keys of its
      active devices is opened and played to the client's account ([made_chain_loads]).  Where this fails: rotations by devices that are not owners are played
      ([rotation_not_checked]), a device that is added twice comes back after its revocation
      ([readded_device_survives_revocation]), and an identifier padded with a zero byte revokes the last
      owner ([padded_id_revokes_last_owner]).
    - Team chains: a played chain is a run of the roster policy, every link signed with the key on record of
      a member who may make its changes ([team_links_authorised]); the ring holds exactly the keys of the links, in order
      ([team_ring_exact]); every chain that a client makes with edits that its own plan accepts is played to the client's planned roster, floor and
      range ([made_team_chain_loads]).  Where this fails: the first key of a role is never revoked
      ([first_team_key_never_revoked]) and missing rotations are not noticed ([rotation_not_enforced]).
    - Behaviour worth knowing: [collect_roots_epoch_zero_diverges],
      [cache_error_disables_check], [single_leaf_has_no_path], [member_GreaterThan_never],
      [upgrade_keeps_keys], [removed_signer_panics], [oversized_member_panics].

    ** Fuel

    Some loops of the source are not structural.  [mbs_loop] (the back
    pointers of an epoch) has fuel 65, enough for every 64-bit epoch; [mcr_loop] (the walk
    along them) takes its fuel as an argument, and [collect_roots_correct] shows that the
    128 hops of [collect_fuel] reach every valid target.  [lookup_loop] has the key's bit
    count plus two, each step but the last consuming a bit ([lookup_terminates]);
    [unpack_path] has the length of the path plus one, at least one byte per step.  The
    digit loop of [Cmp] may run [2 ^ 65] rounds, more than a 64-bit index can take without
    repeating itself; [Cmp_is_value_order] shows that it ends.  [run] of the
    canonical check recurses on the nesting depth, which the code limits ([maxDepth]); [run_attempts]
    on the number of retries left.

    ** Not modelled

    - The encoders, hashes, signature primitives and boxes (parameters, or opaque bytes).
    - Private keys of teams (unboxing, removal keys), tokens, names and member details of the team loader; deriving keys from seeds and hardware keys;
      probing and discovery ([lib/chains]); the check of a loaded user's name; the bookends of signing keys in generic chains.
    - The RPC servers, SQL outside the tables named above, the rest of the client's loaders and minders, the
      key-value store, and the user interfaces: orchestration around the modelled parts.
    - Generated protocol code, except for the records and accessors that are used. *)

From stdpp Require Export base list numbers gmap strings sorting.
From Stdlib Require Export ZArith Lia ZifyBool ZifyNat.

(** ** Results of fallible operations

    Go's [(T, error)] pair, with the zero [T] on the error side dropped.  The
    constructors of [error] are the dynamic error types of [lib/core/errors.go]
    that the modelled code creates or tests for; [GoPanic] is an index or slice
    expression out of range or a nil dereference, [OutOfFuel] the bound of a modelled
    loop (theorems show that it is not reached), and [SqlError] a failure reported by the database
    driver (a unique violation, or [pgx.ErrNoRows] passed on unchanged).
    [GoError] is [errors.New], and [StructStep] a step of the path that
    [CanonicalEncodingError] reports ([lib/core/snowp.go]). *)
Record StructStep := mkStructStep { ssIndex : Z; ssKey : list Z }.

Inductive error :=
  | InternalError (msg : string)
  | BitPrefixMatchError (bit : Z)
  | MerkleNoRootError
  | MerkleLeafNotFoundError
  | MerkleLeafExistsError
  | MerkleInitError (msg : string)
  | MerkleTreeError (msg : string)
  | MerkleVerifyError (msg : string)
  | MerkleRollbackError (have saw : Z)
  | MerkleBackPointerVerifyError (msg : string) (epno : Z)
  | InsertError (msg : string)
  | VersionNotSupportedError (msg : string)
  | ValidationError (msg : string)
  | LinkError (msg : string)
  | TeamError (msg : string)
  | TeamRosterError (msg : string)
  | TeamNoSrcRoleError
  | DataError (msg : string)
  | EntityError (msg : string)
  | BadArgsError (msg : string)
  | BadRangeError
  | BadServerDataError (msg : string)
  | KeyNotFoundError (which : string)
  | UpdateError (msg : string)
  | TeamRaceError (msg : string)
  | TeamIndexRangeError (msg : string)
  | TeamCycleError
  | CanonicalEncodingError (err : error) (path : list StructStep)
  | GoError (msg : string)
  | PublicKeyError (msg : string)
  | VerifyError (msg : string)
  | SignatureError (msg : string)
  | HostchainError (msg : string)
  | HostMismatchError (which : string)
  | HostKeyError (msg : string)
  | PrevError (msg : string)
  | ChainLoaderError (race : bool) (err : error)
  | CLBadSeqnoError (which : string) (expected actual : Z)
  | CLBadPrevError (seqno : Z) (expected actual : option (list Z))
  | CLBadCountError (which : string) (expected actual : Z)
  | CLBadTreeLocationError (err : error) (seqno : Z)
  | CLBadMerklePathError (err : error) (which : string) (seqno : Z)
  | CLBadMerkleLeafValueError (which : string) (seqno : Z)
  | CommitmentError (msg : string)
  | RevokeError (msg : string)
  | KexVerifyError
  | KeyImportError (msg : string)
  | MissingHostError
  | PermissionError (msg : string)
  | NormalizationError (msg : string)
  | CLInvalidSeqnoError
  | CLInvalidSignerError (seqno : Z) (entity host : list Z)
  | CLOpenLinkError (err : error) (n : Z)
  | CLBadKeySequenceError (which : string) (gen : Z)
  | CLIndexRangeError (msg : string) (seqno : Z)
  | CLBoxError (desc : string) (gen : Z)
  | TeamKeyError (msg : string)
  | CLProvisionError (seqno : Z) (err : error)
  | ULEldestError (err : error)
  | ULRevokeError (seqno : Z) (err : error)
  | ULOpenCommitmentError (which : string) (idx : Z) (err : error)
  | CodecError (msg : string)
  | SqlError (msg : string)
  | GoPanic
  | OutOfFuel.

Inductive result (A : Type) :=
  | Ok (a : A)
  | Err (e : error).
Arguments Ok {A} a.
Arguments Err {A} e.

#[global] Instance StructStep_eq_dec : EqDecision StructStep.
Proof. solve_decision. Defined.
#[global] Instance error_eq_dec : EqDecision error.
Proof. solve_decision. Defined.
#[global] Instance result_eq_dec `{EqDecision A} : EqDecision (result A).
Proof. solve_decision. Defined.

#[global] Instance result_ret : MRet result := @Ok.
#[global] Instance result_bind : MBind result := λ A B f r,
  match r with Ok a => f a | Err e => Err e end.
#[global] Instance result_fmap : FMap result := λ A B f r,
  match r with Ok a => Ok (f a) | Err e => Err e end.

(** Turning a lookup into a result, and a Go guard [if b { return err }]. *)
Definition of_option {A} (e : error) (o : option A) : result A :=
  match o with Some a => Ok a | None => Err e end.
Definition guard_err (b : bool) (e : error) : result () := if b then Err e else Ok ().

Definition is_ok {A} (r : result A) : bool := match r with Ok _ => true | Err _ => false end.
Definition ok_or {A} (d : A) (r : result A) : A := match r with Ok a => a | Err _ => d end.
Lemma ok_or_Ok {A} (d : A) r : is_ok r = true → r = Ok (ok_or d r).
Proof. by destruct r. Qed.

Fixpoint mapM_r {A B} (f : A → result B) (l : list A) : result (list B) :=
  match l with
  | [] => Ok []
  | x :: l' => y ← f x; ys ← mapM_r f l'; Ok (y :: ys)
  end.

(** ** Machine integers *)
Definition wrap64 (z : Z) : Z := z mod 2 ^ 64.
(** Go's [int] and [int64]. *)
Definition wrapS64 (z : Z) : Z := (z + 2 ^ 63) mod 2 ^ 64 - 2 ^ 63.
Definition wrap8 (z : Z) : Z := z mod 256.
(** Two's complement wrap-around of a Go [int] on a 64-bit platform; it is also
    the conversion [int(x)] of a [uint64]. *)
Definition wrap_int (z : Z) : Z := ((z + 2 ^ 63) mod 2 ^ 64 - 2 ^ 63)%Z.
(** Go's [x != 0] on an integer. *)
Definition nz (z : Z) : bool := negb (z =? 0)%Z.

(** ** Slices *)
Definition len {A} (l : list A) : Z := Z.of_nat (length l).
(** Go's [l[i]], which panics out of range. *)
Definition index {A} (l : list A) (i : Z) : result A :=
  if ((0 <=? i) && (i <? len l))%Z then of_option GoPanic (l !! Z.to_nat i) else Err GoPanic.
(** Go's [l[i:j]] for a slice whose capacity is its length. *)
Definition slice_go {A} (l : list A) (i j : Z) : result (list A) :=
  if ((0 <=? i) && (i <=? j) && (j <=? len l))%Z
  then Ok (take (Z.to_nat (j - i)) (drop (Z.to_nat i) l)) else Err GoPanic.

(** ** Bytes and bit strings *)
Abbreviation bytes := (list Z).
Definition byte_ok (b : Z) : Prop := (0 ≤ b < 256)%Z.
Definition bytes_ok (bs : bytes) : Prop := Forall byte_ok bs.

#[global] Instance byte_ok_dec b : Decision (byte_ok b).
Proof. unfold byte_ok. apply _. Defined.
#[global] Instance bytes_ok_dec bs : Decision (bytes_ok bs).
Proof. unfold bytes_ok. apply _. Defined.

(** [slice i n l] is Go's [l[i:i+n]], truncated where [l] ends. *)
Definition slice {A} (i n : nat) (l : list A) : list A := take n (drop i l).

(** First position where two lists differ, within the shorter one. *)
Fixpoint mismatch (xs ys : list bool) : option nat :=
  match xs, ys with
  | x :: xs', y :: ys' => if Bool.eqb x y then S <$> mismatch xs' ys' else Some 0
  | _, _ => None
  end.

(** ** Automation *)
Ltac Zify.zify_post_hook ::= Z.div_mod_to_equations.

#[global] Arguments Nat.div : simpl never.
#[global] Arguments Nat.modulo : simpl never.
#[global] Arguments Nat.mul : simpl never.

Create HintDb foks.
#[export] Hint Unfold byte_ok bytes_ok : foks.

(** Splits the successful runs of a monadic computation in a hypothesis. *)
Lemma bind_Ok {A B} (r : result A) (f : A → result B) b :
  (r ≫= f) = Ok b ↔ ∃ a, r = Ok a ∧ f a = Ok b.
Proof. destruct r; simpl; naive_solver. Qed.

Lemma fmap_Ok {A B} (r : result A) (f : A → B) b :
  (f <$> r) = Ok b ↔ ∃ a, r = Ok a ∧ f a = b.
Proof. destruct r; simpl; naive_solver. Qed.

Lemma guard_err_Ok b e u : guard_err b e = Ok u ↔ b = false.
Proof. destruct u, b; naive_solver. Qed.

Lemma of_option_Ok {A} e (o : option A) a : of_option e o = Ok a ↔ o = Some a.
Proof. destruct o; naive_solver. Qed.

Ltac inv_ok :=
  repeat match goal with
  | H : mbind _ _ = Ok _ |- _ => apply bind_Ok in H as (? & ? & H)
  | H : fmap _ _ = Ok _ |- _ => apply fmap_Ok in H as (? & ? & H)
  | H : guard_err _ _ = Ok _ |- _ => apply guard_err_Ok in H
  | H : of_option _ _ = Ok _ |- _ => apply of_option_Ok in H
  | H : Ok _ = Ok _ |- _ => injection H as H
  | H : Err _ = Ok _ |- _ => discriminate H
  end; simplify_eq/=.

Lemma mapM_r_Ok {A B} (f : A → result B) l l' :
  mapM_r f l = Ok l' → Forall2 (λ x y, f x = Ok y) l l'.
Proof.
  revert l'. induction l as [|x l IH]; simpl; intros l' Hl; inv_ok; constructor; eauto.
Qed.

Lemma mapM_r_Forall2 {A B} (f : A → result B) l l' :
  Forall2 (λ x y, f x = Ok y) l l' → mapM_r f l = Ok l'.
Proof. induction 1 as [|x y l l' Hf _ IH]; [done|]. simpl. by rewrite Hf; simpl; rewrite IH. Qed.

Lemma index_nat {A} (l : list A) k : index l (Z.of_nat k) = of_option GoPanic (l !! k).
Proof.
  unfold index, len. rewrite Nat2Z.id. destruct (l !! k) eqn:Hk.
  - apply lookup_lt_Some in Hk. by replace (_ && _) with true by lia.
  - by case_match.
Qed.

(** ** Lists *)
Section lists.
Context {A : Type}.
Implicit Types (l : list A).

Lemma length_slice i n l : length (slice i n l) = n `min` (length l - i).
Proof. unfold slice. rewrite length_take, length_drop. lia. Qed.

Lemma lookup_slice i n l j : j < n → slice i n l !! j = l !! (i + j).
Proof. intros. unfold slice. rewrite lookup_take, lookup_drop. by case_decide. Qed.

Lemma slice_app_l i n l1 l2 : i + n ≤ length l1 → slice i n (l1 ++ l2) = slice i n l1.
Proof.
  intros. unfold slice. rewrite drop_app_le by lia. rewrite take_app_le; [done|].
  rewrite length_drop. lia.
Qed.

Lemma slice_app_r i n l1 l2 :
  length l1 ≤ i → slice i n (l1 ++ l2) = slice (i - length l1) n l2.
Proof. intros. unfold slice. by rewrite drop_app_ge. Qed.

Lemma slice_app_both i n l1 l2 :
  i ≤ length l1 → length l1 - i ≤ n →
  slice i n (l1 ++ l2) = drop i l1 ++ take (n - (length l1 - i)) l2.
Proof.
  intros. unfold slice. rewrite drop_app_le by lia. rewrite take_app.
  rewrite length_drop. rewrite take_ge; [done|]. rewrite length_drop. lia.
Qed.

Lemma slice_slice i n j m l : j + m ≤ n → slice j m (slice i n l) = slice (i + j) m l.
Proof.
  intros. apply list_eq. intros k. destruct (decide (k < m)).
  - rewrite !lookup_slice by lia. rewrite <- Nat.add_assoc. done.
  - rewrite !lookup_ge_None_2; [done|rewrite length_slice; lia..].
Qed.

Lemma slice_drop i n j l : slice i n (drop j l) = slice (j + i) n l.
Proof. unfold slice. by rewrite drop_drop. Qed.

Lemma slice_add i n m l : slice i (n + m) l = slice i n l ++ slice (i + n) m l.
Proof.
  unfold slice. rewrite <- drop_drop. generalize (drop i l); intros l'.
  apply list_eq. intros k. destruct (decide (k < length (take n l'))) as [Hk|Hk].
  - rewrite lookup_app_l by done. rewrite length_take in Hk.
    rewrite !lookup_take. repeat case_decide; done || lia.
  - rewrite lookup_app_r by lia. rewrite length_take in *.
    destruct (decide (n ≤ length l')).
    + rewrite !lookup_take, lookup_drop, Nat.min_l in * by lia.
      repeat case_decide; try lia; [|done]. f_equal. lia.
    + rewrite !lookup_ge_None_2; [done|..]; rewrite ?length_take, ?length_drop; lia.
Qed.

Lemma slice_full l n : length l ≤ n → slice 0 n l = l.
Proof. intros. unfold slice. rewrite drop_0. by apply take_ge. Qed.
End lists.

(** A loop that only ever adds elements: what it added is what its steps added. *)
Lemma foldl_grow {S X E : Type} (mem : S → E → Prop) (add : X → E → Prop) (f : S → X → S) :
  (∀ s x e, mem (f s x) e ↔ mem s e ∨ add x e) →
  ∀ l s e, mem (foldl f s l) e ↔ mem s e ∨ ∃ x, x ∈ l ∧ add x e.
Proof.
  intros Hf l. induction l as [|x l IH]; intros s e; simpl.
  - split; [by left|]. intros [?|(x & Hx & _)]; [done|]. by apply elem_of_nil in Hx.
  - rewrite IH, Hf. setoid_rewrite elem_of_cons. naive_solver.
Qed.

(** ** Counting loops

    [loop_pos body p s] runs [body] at most [p] times, stopping at the first [inr].
    The bound is binary, so that a bound of the size of a machine word is no cost
    when the loop stops early. *)
Fixpoint loop_pos {S R : Type} (body : S → S + R) (p : positive) (s : S) : S + R :=
  match p with
  | xH => body s
  | xO p => match loop_pos body p s with inl s' => loop_pos body p s' | inr r => inr r end
  | xI p =>
      match body s with
      | inl s1 => match loop_pos body p s1 with inl s2 => loop_pos body p s2 | inr r => inr r end
      | inr r => inr r
      end
  end.

Fixpoint loop_nat {S R : Type} (body : S → S + R) (n : nat) (s : S) : S + R :=
  match n with
  | O => inl s
  | Datatypes.S n => match body s with inl s' => loop_nat body n s' | inr r => inr r end
  end.

Lemma loop_nat_add {S R} (body : S → S + R) n m s :
  loop_nat body (n + m) s =
  match loop_nat body n s with inl s' => loop_nat body m s' | inr r => inr r end.
Proof. revert s. induction n as [|n IH]; intros s; simpl; [done|]. by destruct (body s). Qed.

Lemma loop_pos_nat {S R} (body : S → S + R) p s :
  loop_pos body p s = loop_nat body (Pos.to_nat p) s.
Proof.
  revert s. induction p as [p IH|p IH|]; intros s; cbn [loop_pos].
  - replace (Pos.to_nat p~1) with (Datatypes.S (Pos.to_nat p + Pos.to_nat p)) by lia.
    cbn [loop_nat]. destruct (body s) as [s1|r]; [|done].
    rewrite loop_nat_add, <- IH. by destruct (loop_pos body p s1).
  - replace (Pos.to_nat p~0) with (Pos.to_nat p + Pos.to_nat p) by lia.
    rewrite loop_nat_add, <- IH. by destruct (loop_pos body p s).
  - simpl. by destruct (body s).
Qed.

(** ** First mismatch of two bit strings *)
Lemma mismatch_None xs ys :
  length xs = length ys → mismatch xs ys = None ↔ xs = ys.
Proof.
  revert ys. induction xs as [|x xs IH]; intros [|y ys]; simpl; try done.
  intros [= Hl]. destruct (Bool.eqb_spec x y) as [->|Hne].
  - rewrite fmap_None, IH by done. naive_solver.
  - naive_solver.
Qed.

Lemma mismatch_Some xs ys i :
  mismatch xs ys = Some i ↔
  take i xs = take i ys ∧ ∃ b, xs !! i = Some b ∧ ys !! i = Some (negb b).
Proof.
  revert ys i. induction xs as [|x xs IH]; intros [|y ys] i; simpl.
  1-3: naive_solver.
  destruct (Bool.eqb_spec x y) as [->|Hne].
  - rewrite fmap_Some. destruct i as [|i]; simpl.
    + split; [naive_solver|]. intros (_ & b & [= ->] & [= ?]). by destruct b.
    + setoid_rewrite IH. split.
      * intros (? & (? & ? & ?) & [= ->]). split; [by f_equal|eauto].
      * intros ([= ?] & ?). eauto.
  - destruct i as [|i]; simpl.
    + split; [|done]. intros _. split; [done|]. exists x. split; [done|].
      by destruct x, y.
    + split; [done|]. naive_solver.
Qed.

Lemma mismatch_lt xs ys i : mismatch xs ys = Some i → i < length xs ∧ i < length ys.
Proof.
  intros (_ & b & H1 & H2)%mismatch_Some. split; by eapply lookup_lt_Some.
Qed.

Lemma mismatch_app xs ys xs' ys' :
  length xs = length ys →
  mismatch (xs ++ xs') (ys ++ ys') =
  match mismatch xs ys with
  | Some i => Some i
  | None => Nat.add (length xs) <$> mismatch xs' ys'
  end.
Proof.
  revert ys. induction xs as [|x xs IH]; intros [|y ys]; simpl; try done.
  - intros _. by destruct (mismatch xs' ys').
  - intros [= Hl]. destruct (Bool.eqb x y); [|done].
    rewrite IH by done. by destruct (mismatch xs ys), (mismatch xs' ys').
Qed.

Lemma mismatch_refl xs : mismatch xs xs = None.
Proof. by apply mismatch_None. Qed.

Lemma mismatch_comm xs ys : mismatch xs ys = mismatch ys xs.
Proof.
  revert ys. induction xs as [|x xs IH]; intros [|y ys]; simpl; try done.
  rewrite IH. by destruct x, y.
Qed.

Lemma mismatch_drop n xs ys q :
  mismatch xs ys = Some q → n ≤ q → mismatch (drop n xs) (drop n ys) = Some (q - n).
Proof.
  intros Hq Hn. pose proof (mismatch_lt _ _ _ Hq) as [Hx Hy].
  pose proof Hq as [Ht _]%mismatch_Some.
  assert (take n xs = take n ys) as Hn'.
  { apply (f_equal (take n)) in Ht. by rewrite !take_take, Nat.min_l in Ht by lia. }
  rewrite <- (take_drop n xs), <- (take_drop n ys), mismatch_app, Hn', mismatch_refl in Hq
    by by rewrite Hn'.
  destruct (mismatch (drop n xs) (drop n ys)); simplify_eq/=. f_equal.
  rewrite length_take in *. lia.
Qed.
