(* ===== verification/Bits.v ===== *)
(** * Bit strings inside byte slices ([lib/core/bits.go])

    The byte-level helpers of the Merkle tree: matching a key against the
    segment stored in an interior node, the common prefix of two keys, and the
    clamped copies that enter a node's hash.  Each is specified against the
    list of bits of a byte slice, most significant bit first ([bits]). *)
From S2P Require Import Prelude.
Local Open Scope Z_scope.

(** ** The code *)

Definition UppermostBitSet (b : Z) : Z :=
  if nz (Z.land b 0xf0) then
    if nz (Z.land b 0xc0) then
      if nz (Z.land b 0x80) then 7 else 6
    else
      if nz (Z.land b 0x20) then 5 else 4
  else
    if nz (Z.land b 0xc) then
      if nz (Z.land b 0x8) then 3 else 2
    else
      if nz (Z.land b 0x2) then 1
      else if b =? 0x1 then 0 else -1.

(** The loop of [AssertKeyMatch]: [sub] is [sub[j:]], [i] the key's byte. *)
Fixpoint akm_loop (key sub : bytes) (i startByte endByte start end_ : Z) : result () :=
  match sub with
  | [] => Ok ()
  | s :: sub' =>
      if i <=? endByte then
        if len key <=? i then Err (InternalError "fell off end of key string")
        else
          k ← index key i;
          let topMask := if i =? startByte then Z.shiftr 0xff (Z.land start 0x7) else 0xff in
          let bottomMask :=
            if i =? endByte then wrap8 (Z.shiftl 0xff (7 - Z.land end_ 0x7)) else 0xff in
          let tmp := Z.land (Z.land (Z.lxor k s) topMask) bottomMask in
          if nz tmp then
            let fbs := UppermostBitSet tmp in
            if fbs <? 0 then Err (InternalError "didn't find a set bit")
            else Err (BitPrefixMatchError (Z.shiftl i 3 + (7 - fbs)))
          else akm_loop key sub' (i + 1) startByte endByte start end_
      else Ok ()
  end.

Definition AssertKeyMatch (key sub : bytes) (start count : Z) : result () :=
  if count =? 0 then Ok ()
  else
    let startByte := Z.shiftr start 3 in
    let end_ := wrap_int (start + count - 1) in
    let endByte := Z.shiftr end_ 3 in
    akm_loop key sub startByte startByte endByte start end_.

(** The loop of [ComputePrefixMatch], over [x[i:]] and [y[i:]]. *)
Fixpoint cpm_loop (x y : bytes) (newBitsMatched : Z) : Z * bool :=
  match x, y with
  | c :: x', d :: y' =>
      if c =? d then cpm_loop x' y' (newBitsMatched + 8)
      else
        let pos := UppermostBitSet (Z.lxor c d) in
        (newBitsMatched + (7 - pos), nz (Z.land c (Z.shiftl 1 pos)))
  | _, _ => (newBitsMatched, false)
  end.

Definition ComputePrefixMatch (x y : bytes) (bitsMatched : Z) : result (bytes * Z * bool) :=
  if negb (len x =? len y) then Err (InternalError "inputs must have equal length")
  else if bool_decide (x = y) then
    Err (InternalError "did not expect x=y in ComputePrefixMatch")
  else
    let startByte := Z.shiftr bitsMatched 3 in
    if len x <=? startByte then Err (InternalError "bitsMatched was too big")
    else
      x ← slice_go x startByte (len x);
      y ← slice_go y startByte (len y);
      let '(newBitsMatched, firstXMismatchBit) := cpm_loop x y 0 in
      let rightFence := Z.shiftr (newBitsMatched + 7) 3 in
      ret ← slice_go x 0 rightFence;
      Ok (ret, newBitsMatched - Z.land bitsMatched 0x7, firstXMismatchBit).

Definition BitAt (key : bytes) (bitPos : Z) : result bool :=
  let byteIndex := Z.shiftr bitPos 3 in
  if len key <=? byteIndex then Err (InternalError "bit location is out of range")
  else
    b ← index key byteIndex;
    Ok (nz (Z.land b (Z.shiftl 1 (7 - Z.land bitPos 0x7)))).

(** [buf := make([]byte, n); copy(buf, in)] *)
Definition make_copy (n : nat) (src : bytes) : bytes := take n (src ++ replicate n 0).
(** [buf[0] &= leftMask; buf[len(buf)-1] &= rightMask] *)
Definition clamp_ends (leftMask rightMask : Z) (buf : bytes) : bytes :=
  let buf := alter (λ b, Z.land b leftMask) 0%nat buf in
  alter (λ b, Z.land b rightMask) (pred (length buf)) buf.

Definition ShiftCopyAndClamp (src : bytes) (start count : Z) : result (bytes * Z) :=
  if count =? 0 then Ok ([], 0)
  else
    let startBit := Z.land start 0x7 in
    let endBit := startBit + count - 1 in
    let endByte := Z.shiftr endBit 3 in
    if endByte + 1 <=? 0 then Err GoPanic
    else
      let buf := make_copy (Z.to_nat (endByte + 1)) src in
      let leftMask := Z.shiftr 0xff startBit in
      let rightMask := wrap8 (Z.shiftl 0xff (0x7 - Z.land endBit 0x7)) in
      let nBytesUsed := if Z.land endBit 0x7 =? 0x7 then endByte + 1 else endByte in
      Ok (clamp_ends leftMask rightMask buf, nBytesUsed).

(** [None] is the nil slice the caller tests for. *)
Definition CopyAndClamp (src : bytes) (start count : Z) : result (option bytes) :=
  if count =? 0 then Ok (Some [])
  else
    let startByte := Z.shiftr start 3 in
    let startBit := start in
    let endBit := startBit + count - 1 in
    let endByte := Z.shiftr endBit 3 in
    let n := endByte - startByte + 1 in
    if n <? 0 then Err GoPanic
    else if len src <=? endByte then Ok None
    else if (startByte <? 0) || (n =? 0) then Err GoPanic
    else
      part ← slice_go src startByte (endByte + 1);
      let buf := make_copy (Z.to_nat n) part in
      let leftMask := Z.shiftr 0xff (Z.land startBit 0x7) in
      let rightMask := wrap8 (Z.shiftl 0xff (0x7 - Z.land endBit 0x7)) in
      Ok (Some (clamp_ends leftMask rightMask buf)).

(** ** Bits of a byte slice *)
Definition bits_of_byte (b : Z) : list bool :=
  (λ i : nat, Z.testbit b (7 - Z.of_nat i)) <$> seq 0 8.
Definition bits (bs : bytes) : list bool := bs ≫= bits_of_byte.

(** ** Bits: basic facts *)

Lemma length_bits_of_byte b : length (bits_of_byte b) = 8%nat.
Proof. done. Qed.

Lemma bits_cons b bs : bits (b :: bs) = bits_of_byte b ++ bits bs.
Proof. done. Qed.

Lemma bits_app xs ys : bits (xs ++ ys) = bits xs ++ bits ys.
Proof. apply bind_app. Qed.

Lemma length_bits bs : length (bits bs) = (8 * length bs)%nat.
Proof.
  induction bs as [|b bs IH]; [done|].
  rewrite bits_cons, length_app, IH, length_bits_of_byte. simpl. lia.
Qed.

Lemma drop_bits n bs : drop (8 * n) (bits bs) = bits (drop n bs).
Proof.
  revert n. induction bs as [|b bs IH]; intros [|n]; try done.
  rewrite bits_cons, drop_app_ge by (rewrite length_bits_of_byte; lia).
    rewrite length_bits_of_byte. replace (8 * S n - 8)%nat with (8 * n)%nat by lia. apply IH.
Qed.

Lemma take_bits n bs : take (8 * n) (bits bs) = bits (take n bs).
Proof.
  revert n. induction bs as [|b bs IH]; intros [|n]; try done.
  rewrite bits_cons, take_app, take_ge by (rewrite length_bits_of_byte; lia).
    rewrite length_bits_of_byte. replace (8 * S n - 8)%nat with (8 * n)%nat by lia.
    by rewrite IH.
Qed.

Lemma lookup_bits bs i :
  bits bs !! i = (λ b, Z.testbit b (7 - Z.of_nat (i mod 8))) <$> bs !! (i / 8)%nat.
Proof.
  revert i. induction bs as [|b bs IH]; intros i; [done|].
  rewrite bits_cons. destruct (decide (i < 8)%nat) as [Hi|Hi].
  - rewrite lookup_app_l by done. rewrite Nat.div_small, Nat.mod_small by done.
    unfold bits_of_byte. rewrite list_lookup_fmap, lookup_seq_lt by done. done.
  - rewrite lookup_app_r by (rewrite length_bits_of_byte; lia).
    rewrite length_bits_of_byte, IH.
    replace (i / 8)%nat with (S ((i - 8) / 8)) by lia.
    by replace (i mod 8)%nat with ((i - 8) mod 8)%nat by lia.
Qed.

Lemma testbit_byte_high b i : byte_ok b → 8 ≤ i → Z.testbit b i = false.
Proof.
  intros [Hlo Hhi] Hi. destruct (decide (b = 0)) as [->|Hb]; [apply Z.bits_0|].
  apply Z.bits_above_log2; [done|].
  assert (Z.log2 b < 8) by (apply Z.log2_lt_pow2; simpl; lia). lia.
Qed.

Lemma bits_of_byte_inj b c : byte_ok b → byte_ok c → bits_of_byte b = bits_of_byte c → b = c.
Proof.
  intros Hb Hc H. apply Z.bits_inj'. intros n Hn.
  destruct (decide (8 ≤ n)) as [Hge|Hlt]; [by rewrite !testbit_byte_high|].
  assert (bits_of_byte b !! Z.to_nat (7 - n) = bits_of_byte c !! Z.to_nat (7 - n)) as Hl
    by by rewrite H.
  unfold bits_of_byte in Hl. rewrite !list_lookup_fmap, lookup_seq_lt in Hl by lia.
  simplify_eq/=. replace (7 - Z.of_nat (Z.to_nat (7 - n))) with n in Hl by lia. done.
Qed.

Lemma bits_inj xs ys :
  bytes_ok xs → bytes_ok ys → bits xs = bits ys → xs = ys.
Proof.
  intros Hx Hy. revert ys Hy. induction Hx as [|x xs Hx _ IH]; intros ys Hy H.
  - destruct ys; [done|]. by apply (f_equal length) in H.
  - destruct Hy as [|y ys Hy0 Hy]; [by apply (f_equal length) in H|].
    rewrite !bits_cons in H. apply app_inj_1 in H as [H1 H2]; [|done].
    f_equal; [by apply bits_of_byte_inj|by apply IH].
Qed.

Lemma bytes_ok_drop n bs : bytes_ok bs → bytes_ok (drop n bs).
Proof. apply Forall_drop. Qed.
Lemma bytes_ok_take n bs : bytes_ok bs → bytes_ok (take n bs).
Proof. apply Forall_take. Qed.
#[export] Hint Resolve bytes_ok_drop bytes_ok_take : foks.

(** A boolean test that holds of 0..255 holds of every byte. *)
Lemma forall_byte (P : Z → bool) :
  forallb P (Z.of_nat <$> seq 0 256) = true → ∀ b, byte_ok b → P b = true.
Proof.
  rewrite forallb_forall. intros H b [Hlo Hhi]. apply H.
  apply list_elem_of_In, list_elem_of_fmap. exists (Z.to_nat b).
  split; [lia|]. apply elem_of_seq. lia.
Qed.

Lemma lxor_byte_ok b c : byte_ok b → byte_ok c → byte_ok (Z.lxor b c).
Proof.
  intros Hb Hc. assert (0 ≤ Z.lxor b c) by (apply Z.lxor_nonneg; unfold byte_ok in *; lia).
  split; [done|]. destruct (decide (Z.lxor b c = 0)) as [->|Hne]; [lia|].
  apply Z.log2_lt_cancel. change (Z.log2 256) with 8.
  apply Z.nle_gt. intros Hle.
  assert (Z.testbit (Z.lxor b c) (Z.log2 (Z.lxor b c)) = true) as Ht
    by (apply Z.bit_log2; lia).
  rewrite Z.lxor_spec, !testbit_byte_high in Ht by (done || lia). done.
Qed.

Lemma land_byte_ok b c : byte_ok b → 0 ≤ c → byte_ok (Z.land b c).
Proof.
  intros [Hlo Hhi] Hc. split; [apply Z.land_nonneg; lia|].
  assert (Z.land b c ≤ b); [|lia].
  apply Z.ldiff_le; [lia|]. apply Z.bits_inj'. intros n Hn.
  rewrite Z.ldiff_spec, Z.land_spec, Z.bits_0. by destruct (Z.testbit b n), (Z.testbit c n).
Qed.

Lemma bits_of_byte_lxor b c :
  bits_of_byte (Z.lxor b c) = zip_with xorb (bits_of_byte b) (bits_of_byte c).
Proof.
  unfold bits_of_byte. apply list_eq. intros i. rewrite lookup_zip_with, !list_lookup_fmap.
  destruct (seq 0 8 !! i); simpl; [by rewrite Z.lxor_spec|done].
Qed.

(** ** [UppermostBitSet] *)

(** On a nonzero byte it is the position of the most significant set bit. *)
Lemma UppermostBitSet_log2 b : byte_ok b → b ≠ 0 → UppermostBitSet b = Z.log2 b.
Proof.
  intros Hb Hnz.
  pose proof (forall_byte (λ b, (b =? 0) || (UppermostBitSet b =? Z.log2 b))
    ltac:(vm_compute; reflexivity) b Hb) as H. simpl in H. lia.
Qed.

(** ** [AssertKeyMatch] *)

Definition first_true (l : list bool) : option nat := mismatch l (replicate (length l) false).

Lemma mismatch_xor xs ys :
  length xs = length ys → mismatch xs ys = first_true (zip_with xorb xs ys).
Proof.
  revert ys. unfold first_true. induction xs as [|x xs IH]; intros [|y ys]; try done.
  intros [= Hl]. simpl. rewrite IH by done. by destruct x, y.
Qed.

Lemma slice_zip_with {A B C} (f : A → B → C) i n xs ys :
  slice i n (zip_with f xs ys) = zip_with f (slice i n xs) (slice i n ys).
Proof.
  apply list_eq. intros j. destruct (decide (j < n)%nat) as [Hj|Hj].
  - rewrite lookup_slice, !lookup_zip_with, !lookup_slice by done. done.
  - rewrite !lookup_ge_None_2; [done|..]; rewrite ?length_zip_with, !length_slice; lia.
Qed.

(** The masked difference the loop computes, for bits [a..e] of one byte. *)
Definition masked (a e : nat) (x : Z) : Z :=
  Z.land (Z.land x (Z.shiftr 0xff (Z.of_nat a))) (wrap8 (Z.shiftl 0xff (7 - Z.of_nat e))).

Lemma masked_first_true a e x :
  (a ≤ e < 8)%nat → byte_ok x →
  match first_true (slice a (S e - a) (bits_of_byte x)) with
  | None => masked a e x = 0
  | Some i => masked a e x ≠ 0 ∧ UppermostBitSet (masked a e x) = 7 - Z.of_nat (a + i)
  end.
Proof.
  intros [Hae He] Hx.
  pose (P a e x := match first_true (slice a (S e - a) (bits_of_byte x)) with
    | None => masked a e x =? 0
    | Some i => negb (masked a e x =? 0)
                && (UppermostBitSet (masked a e x) =? 7 - Z.of_nat (a + i))
    end).
  assert (forallb (λ a, forallb (λ e, (e <? a)%nat || forallb (P a e) (Z.of_nat <$> seq 0 256))
            (seq 0 8)) (seq 0 8) = true) as Hall by (vm_compute; reflexivity).
  rewrite forallb_forall in Hall. specialize (Hall a ltac:(apply in_seq; lia)).
  rewrite forallb_forall in Hall. specialize (Hall e ltac:(apply in_seq; lia)).
  apply orb_prop in Hall as [?|Hall]; [lia|].
  pose proof (forall_byte _ Hall x Hx) as HP. unfold P in HP.
  destruct (first_true _); lia.
Qed.

Lemma masked_mismatch a e k s :
  (a ≤ e < 8)%nat → byte_ok k → byte_ok s →
  match mismatch (slice a (S e - a) (bits_of_byte k)) (slice a (S e - a) (bits_of_byte s)) with
  | None => masked a e (Z.lxor k s) = 0
  | Some i => masked a e (Z.lxor k s) ≠ 0 ∧
              UppermostBitSet (masked a e (Z.lxor k s)) = 7 - Z.of_nat (a + i)
  end.
Proof.
  intros Hae Hk Hs. rewrite mismatch_xor by (rewrite !length_slice; done).
  rewrite <- slice_zip_with, <- bits_of_byte_lxor.
  apply masked_first_true; [done|by apply lxor_byte_ok].
Qed.

Lemma land7 z : Z.land z 7 = z mod 8.
Proof. change 7 with (Z.ones 3). by rewrite Z.land_ones. Qed.
Lemma shiftr3 z : Z.shiftr z 3 = z / 8.
Proof. by rewrite Z.shiftr_div_pow2. Qed.
Lemma shiftl3 z : Z.shiftl z 3 = z * 8.
Proof. by rewrite Z.shiftl_mul_pow2. Qed.
#[export] Hint Rewrite land7 shiftr3 shiftl3 : bitarith.

Lemma index_Some {A} (l : list A) i x :
  0 ≤ i → l !! Z.to_nat i = Some x → index l i = Ok x.
Proof.
  intros Hi Hx. unfold index, len. pose proof (lookup_lt_Some _ _ _ Hx).
  replace ((0 <=? i) && (i <? Z.of_nat (length l))) with true by lia. by rewrite Hx.
Qed.

(** One iteration of the loop, in terms of the bits it compares. *)
Lemma akm_loop_step key s sub i startByte endByte start end_ k (a e : nat) :
  i ≤ endByte → 0 ≤ i → key !! Z.to_nat i = Some k → byte_ok k → byte_ok s →
  a = (if i =? startByte then Z.to_nat (start mod 8) else 0%nat) →
  e = (if i =? endByte then Z.to_nat (end_ mod 8) else 7%nat) →
  (a ≤ e)%nat →
  akm_loop key (s :: sub) i startByte endByte start end_ =
  match mismatch (slice a (S e - a) (bits_of_byte k)) (slice a (S e - a) (bits_of_byte s)) with
  | None => akm_loop key sub (i + 1) startByte endByte start end_
  | Some m => Err (BitPrefixMatchError (8 * i + Z.of_nat (a + m)))
  end.
Proof.
  intros Hi Hi0 Hk Hkok Hsok Ha He Hae. simpl.
  replace (i <=? endByte) with true by lia.
  pose proof (lookup_lt_Some _ _ _ Hk).
  replace (len key <=? i) with false by (unfold len; lia).
  rewrite (index_Some _ _ _ Hi0 Hk). simpl. autorewrite with bitarith.
  set (tmp := Z.land _ _).
  assert (tmp = masked a e (Z.lxor k s)) as ->.
  { unfold tmp, masked. f_equal; [f_equal|].
    - destruct (i =? startByte); rewrite Ha; [|done]. by rewrite Z2Nat.id by lia.
    - destruct (i =? endByte); rewrite He; [|done]. by rewrite Z2Nat.id by lia. }
  assert (a ≤ e < 8)%nat as Hae8 by (destruct (i =? endByte); lia).
  pose proof (masked_mismatch a e k s Hae8 Hkok Hsok) as Hm.
  destruct (mismatch _ _) as [m|] eqn:Hmm.
  - destruct Hm as [Hnz ->]. unfold nz.
    apply mismatch_lt in Hmm as [Hmm _]. rewrite length_slice in Hmm.
    replace (masked a e (Z.lxor k s) =? 0) with false by lia. simpl.
    replace (7 - Z.of_nat (a + m) <? 0) with false by lia.
    do 2 f_equal. lia.
  - rewrite Hm. done.
Qed.

Lemma bits_drop_cons bs i b :
  bs !! i = Some b → drop (8 * i) (bits bs) = bits_of_byte b ++ drop (8 * S i) (bits bs).
Proof.
  intros Hb. rewrite !drop_bits. rewrite (drop_S _ _ _ Hb). by rewrite bits_cons.
Qed.

Lemma akm_loop_spec key sub (i : nat) start end_ (lo c : nat) :
  bytes_ok key → bytes_ok sub → 0 ≤ start ≤ end_ → end_ < 8 * len key →
  start / 8 ≤ Z.of_nat i →
  Z.of_nat lo = Z.max start (8 * Z.of_nat i) → Z.of_nat c = Z.max 0 (end_ + 1 - Z.of_nat lo) →
  end_ + 1 - 8 * Z.of_nat i ≤ 8 * len sub →
  akm_loop key sub (Z.of_nat i) (start / 8) (end_ / 8) start end_ =
  match mismatch (slice lo c (bits key)) (slice (lo - 8 * i) c (bits sub)) with
  | None => Ok ()
  | Some m => Err (BitPrefixMatchError (Z.of_nat (lo + m)))
  end.
Proof.
  intros Hkey Hsub. revert i lo c.
  induction Hsub as [|s sub Hs Hsub IH]; intros i lo c Hse Hend Hi Hlo Hc Hlen.
  { replace c with 0%nat by (unfold len in *; simpl in *; lia). done. }
  destruct (decide (Z.of_nat i ≤ end_ / 8)) as [Hle|Hgt]; cycle 1.
  { simpl. replace (Z.of_nat i <=? end_ / 8) with false by lia.
    replace c with 0%nat by lia. done. }
  assert (is_Some (key !! i)) as [k Hk] by (apply lookup_lt_is_Some; unfold len in *; lia).
  assert (byte_ok k) as Hkok by (by eapply Forall_lookup_1 in Hk).
  set (a := if Z.of_nat i =? start / 8 then Z.to_nat (start mod 8) else 0%nat).
  set (e := if Z.of_nat i =? end_ / 8 then Z.to_nat (end_ mod 8) else 7%nat).
  assert (lo = 8 * i + a)%nat as Hlo' by (unfold a; destruct (Z.eqb_spec (Z.of_nat i) (start / 8)); lia).
  assert (a ≤ e)%nat as Hae
    by (unfold e; destruct (Z.eqb_spec (Z.of_nat i) (end_ / 8)); unfold a in *;
        destruct (Z.eqb_spec (Z.of_nat i) (start / 8)); lia).
  rewrite (akm_loop_step _ _ _ _ _ _ _ _ k a e) by (done || lia || by rewrite Nat2Z.id).
  assert (slice lo c (bits key) = slice a c (bits_of_byte k ++ drop (8 * S i) (bits key))) as ->.
  { rewrite <- bits_drop_cons by done. by rewrite slice_drop, Hlo'. }
  replace (lo - 8 * i)%nat with a by lia. rewrite bits_cons.
  unfold e in *. destruct (Z.eqb_spec (Z.of_nat i) (end_ / 8)) as [Heq|Hne].
  - replace c with (S (Z.to_nat (end_ mod 8)) - a)%nat by lia.
    rewrite !slice_app_l by (rewrite length_bits_of_byte; lia).
    destruct (mismatch _ _) as [m|].
    + do 2 f_equal. lia.
    + replace (Z.of_nat i + 1) with (Z.of_nat (S i)) by lia.
      rewrite (IH _ (8 * S i)%nat 0%nat); [done|lia..| ].
      unfold len in *. simpl in Hlen. lia.
  - assert (8 - a ≤ c)%nat by lia.
    rewrite !slice_app_both by (rewrite length_bits_of_byte; lia).
    rewrite mismatch_app by (by rewrite !length_drop).
    assert (∀ b, slice a (8 - a) (bits_of_byte b) = drop a (bits_of_byte b)) as Hd.
    { intros b. unfold slice. apply take_ge. rewrite length_drop, length_bits_of_byte. lia. }
    rewrite !Hd. destruct (mismatch (drop a _) _) as [m|]; [do 2 f_equal; lia|].
    replace (Z.of_nat i + 1) with (Z.of_nat (S i)) by lia.
    rewrite (IH _ (8 * S i)%nat (c - (8 - a))%nat); [|lia..|].
    2:{ unfold len in *. simpl in Hlen. lia. }
    rewrite length_drop, length_bits_of_byte. unfold slice.
    replace (8 * S i - 8 * S i)%nat with 0%nat by lia. rewrite drop_0.
    destruct (mismatch (take _ _) _); [|done]. simpl. do 2 f_equal. lia.
Qed.

(** [AssertKeyMatch] compares the [count] bits of the key from [start] with the
    bits of the segment, which starts inside its first byte at the same bit
    offset; it reports the absolute position of the first difference. *)
Lemma AssertKeyMatch_spec key sub (start count : nat) :
  bytes_ok key → bytes_ok sub →
  (start + count ≤ 8 * length key)%nat → (start mod 8 + count ≤ 8 * length sub)%nat →
  Z.of_nat (8 * length key) < 2 ^ 62 →
  AssertKeyMatch key sub (Z.of_nat start) (Z.of_nat count) =
  match mismatch (slice start count (bits key)) (slice (start mod 8) count (bits sub)) with
  | None => Ok ()
  | Some m => Err (BitPrefixMatchError (Z.of_nat (start + m)))
  end.
Proof.
  intros Hkey Hsub Hk Hs H62. unfold AssertKeyMatch.
  destruct count as [|count]; [done|].
  replace (Z.of_nat (S count) =? 0) with false by lia.
  assert (wrap_int (Z.of_nat start + Z.of_nat (S count) - 1) = Z.of_nat (start + count)) as ->.
  { unfold wrap_int. rewrite Z.mod_small by lia. lia. }
  autorewrite with bitarith.
  replace (Z.of_nat start / 8) with (Z.of_nat (start / 8)) at 1 by lia.
  rewrite (akm_loop_spec _ _ _ _ _ start (S count)) by (unfold len; done || lia).
  by replace (start - 8 * (start / 8))%nat with (start mod 8)%nat by lia.
Qed.

(** ** [BitAt] *)

Lemma nz_land_pow2 b n : 0 ≤ n → nz (Z.land b (Z.shiftl 1 n)) = Z.testbit b n.
Proof.
  intros Hn. unfold nz. rewrite Z.shiftl_1_l.
  destruct (Z.testbit b n) eqn:Ht.
  - destruct (Z.eqb_spec (Z.land b (2 ^ n)) 0) as [H|H]; [|done].
    apply (f_equal (λ z, Z.testbit z n)) in H.
    by rewrite Z.land_spec, Ht, Z.pow2_bits_true, Z.bits_0 in H by done.
  - replace (Z.land b (2 ^ n)) with 0; [done|]. symmetry. apply Z.bits_inj'. intros m Hm.
    rewrite Z.land_spec, Z.bits_0. destruct (decide (m = n)) as [->|Hne]; [by rewrite Ht|].
    rewrite Z.pow2_bits_false by done. by rewrite andb_false_r.
Qed.

Lemma BitAt_spec key (i : nat) :
  BitAt key (Z.of_nat i) =
  of_option (InternalError "bit location is out of range") (bits key !! i).
Proof.
  unfold BitAt. autorewrite with bitarith. rewrite lookup_bits.
  assert (Z.of_nat i mod 8 = Z.of_nat (i mod 8)) as -> by lia.
  assert (i mod 8 < 8)%nat by lia. set (r := (i mod 8)%nat) in *.
  destruct (key !! (i / 8)%nat) as [b|] eqn:Hb; simpl.
  - pose proof (lookup_lt_Some _ _ _ Hb).
    replace (len key <=? Z.of_nat i / 8) with false by (unfold len; lia).
    rewrite (index_Some _ _ b); [|lia|by replace (Z.to_nat (Z.of_nat i / 8)) with (i / 8)%nat by lia].
    simpl. by rewrite nz_land_pow2 by lia.
  - apply lookup_ge_None in Hb.
    by replace (len key <=? Z.of_nat i / 8) with true by (unfold len; lia).
Qed.

(** ** [ComputePrefixMatch] *)

Lemma masked_full x : byte_ok x → masked 0 7 x = x.
Proof.
  intros Hx. pose proof (forall_byte (λ x, masked 0 7 x =? x) ltac:(vm_compute; reflexivity) x Hx).
  simpl in *. lia.
Qed.

Lemma mismatch_byte c d :
  byte_ok c → byte_ok d → c ≠ d →
  mismatch (bits_of_byte c) (bits_of_byte d) = Some (Z.to_nat (7 - UppermostBitSet (Z.lxor c d))) ∧
  0 ≤ UppermostBitSet (Z.lxor c d) ≤ 7.
Proof.
  intros Hc Hd Hne. pose proof (masked_mismatch 0 7 c d ltac:(lia) Hc Hd) as H.
  rewrite masked_full in H by by apply lxor_byte_ok.
  rewrite !slice_full in H by (rewrite length_bits_of_byte; lia).
  destruct (mismatch _ _) as [i|] eqn:Hm.
  - destruct H as [_ ->]. apply mismatch_lt in Hm as [Hi _]. rewrite length_bits_of_byte in Hi.
    split; [f_equal; lia|lia].
  - by apply Z.lxor_eq in H.
Qed.

Lemma cpm_loop_spec x y acc :
  length x = length y → bytes_ok x → bytes_ok y →
  cpm_loop x y acc =
  match mismatch (bits x) (bits y) with
  | Some q => (acc + Z.of_nat q, default false (bits x !! q))
  | None => (acc + 8 * len x, false)
  end.
Proof.
  intros Hl Hx. revert y acc Hl.
  induction Hx as [|c x Hc Hx IH]; intros [|d y] acc Hl Hy; try done.
  { unfold len. simpl. f_equal. lia. }
  injection Hl as Hl. apply Forall_cons in Hy as [Hd Hy]. simpl cpm_loop.
  rewrite !bits_cons, mismatch_app by done.
  destruct (Z.eqb_spec c d) as [->|Hne].
  - rewrite mismatch_refl, IH by done. rewrite length_bits_of_byte.
    destruct (mismatch (bits x) (bits y)) as [q|]; simpl.
    + f_equal; lia.
    + unfold len. simpl. f_equal. lia.
  - destruct (mismatch_byte c d Hc Hd Hne) as [-> Hr]. f_equal; [lia|].
    rewrite lookup_app_l by (rewrite length_bits_of_byte; lia).
    unfold bits_of_byte. rewrite list_lookup_fmap, lookup_seq_lt by lia. simpl.
    rewrite nz_land_pow2 by lia. f_equal. lia.
Qed.

Lemma slice_go_ok {A} (l : list A) (i j : nat) :
  (i ≤ j ≤ length l)%nat → slice_go l (Z.of_nat i) (Z.of_nat j) = Ok (slice i (j - i) l).
Proof.
  intros. unfold slice_go, len.
  replace ((0 <=? Z.of_nat i) && (Z.of_nat i <=? Z.of_nat j)
           && (Z.of_nat j <=? Z.of_nat (length l))) with true by lia.
  unfold slice. do 2 f_equal; [lia|f_equal; lia].
Qed.

(** For two keys that agree on their first [m] bits, [ComputePrefixMatch]
    returns how many further bits they share, the bytes of the first key that
    hold those bits, and the first key's bit at the first difference. *)
Lemma ComputePrefixMatch_spec x y (m q : nat) :
  length x = length y → bytes_ok x → bytes_ok y →
  mismatch (bits x) (bits y) = Some q → (m ≤ q)%nat →
  ComputePrefixMatch x y (Z.of_nat m) =
    Ok (take ((q - 8 * (m / 8) + 7) / 8) (drop (m / 8) x), Z.of_nat (q - m),
        default false (bits x !! q)).
Proof.
  intros Hl Hx Hy Hq Hm. unfold ComputePrefixMatch.
  pose proof (mismatch_lt _ _ _ Hq) as [Hqx Hqy]. rewrite length_bits in Hqx, Hqy.
  replace (negb (len x =? len y)) with false by (unfold len; lia).
  assert (x ≠ y) as Hne by (intros ->; by rewrite mismatch_refl in Hq).
  rewrite bool_decide_eq_false_2 by done. autorewrite with bitarith.
  replace (len x <=? Z.of_nat m / 8) with false by (unfold len; lia).
  replace (Z.of_nat m / 8) with (Z.of_nat (m / 8)) by lia. unfold len.
  rewrite !slice_go_ok by lia. simpl. unfold slice.
  rewrite !take_ge by (rewrite length_drop; lia).
  rewrite cpm_loop_spec; [|rewrite !length_drop; lia|by eauto with foks..].
  assert (mismatch (bits (drop (m / 8) x)) (bits (drop (m / 8) y)) = Some (q - 8 * (m / 8))%nat) as ->.
  { rewrite <- !drop_bits. apply mismatch_drop; [done|lia]. }
  simpl. rewrite <- drop_bits, lookup_drop.
  replace (8 * (m / 8) + (q - 8 * (m / 8)))%nat with q by lia.
  autorewrite with bitarith.
  replace ((0 + Z.of_nat (q - 8 * (m / 8)) + 7) / 8)
    with (Z.of_nat ((q - 8 * (m / 8) + 7) / 8)) by lia.
  pose proof (slice_go_ok (drop (m / 8) x) 0 ((q - 8 * (m / 8) + 7) / 8)) as Hs.
  change (Z.of_nat 0) with 0 in Hs. rewrite Hs by (rewrite length_drop; lia).
  simpl. unfold slice. rewrite drop_0, Nat.sub_0_r.
  do 3 f_equal. lia.
Qed.

(** ** Packing bits into bytes: the canonical form of a node's prefix *)

Definition byte_of_bits (l : list bool) : Z := foldl (λ acc b, 2 * acc + Z.b2z b) 0 l.
(** Big-endian packing, the last byte padded with zero bits. *)
Definition pack (l : list bool) : bytes :=
  (λ i, byte_of_bits (take 8 (drop (8 * i) l ++ replicate 8 false))) <$> seq 0 ((length l + 7) / 8).
(** The prefix a node at bit offset [d] with segment [p] is hashed with. *)
Definition canon (d : nat) (p : list bool) : bytes :=
  match p with [] => [] | _ => pack (replicate (d mod 8) false ++ p) end.

Lemma byte_of_bits_spec l :
  length l = 8%nat → byte_ok (byte_of_bits l) ∧ bits_of_byte (byte_of_bits l) = l.
Proof.
  intros Hl. do 8 (destruct l as [|[] l]; [discriminate Hl| |]).
  all: destruct l; [|discriminate Hl].
  all: split; [vm_compute; split; congruence|vm_compute; reflexivity].
Qed.

Lemma length_pack l : length (pack l) = ((length l + 7) / 8)%nat.
Proof. unfold pack. by rewrite length_fmap, length_seq. Qed.

Lemma length_pack_chunk l i :
  (i < (length l + 7) / 8)%nat → length (take 8 (drop (8 * i) l ++ replicate 8 false)) = 8%nat.
Proof. intros. rewrite length_take, length_app, length_replicate. lia. Qed.

Lemma pack_ok l : bytes_ok (pack l).
Proof.
  unfold pack. apply Forall_fmap, Forall_forall. intros i Hi%elem_of_seq.
  apply byte_of_bits_spec, length_pack_chunk. lia.
Qed.

Lemma bits_pack l :
  bits (pack l) = l ++ replicate (8 * ((length l + 7) / 8) - length l) false.
Proof.
  apply list_eq. intros i. destruct (decide (i < 8 * ((length l + 7) / 8))%nat) as [Hi|Hi].
  2:{ rewrite !lookup_ge_None_2; [done|..].
      - rewrite length_app, length_replicate. lia.
      - rewrite length_bits, length_pack. lia. }
  rewrite lookup_bits. unfold pack. rewrite list_lookup_fmap, lookup_seq_lt by lia. simpl.
  destruct (byte_of_bits_spec _ (length_pack_chunk l (i / 8) ltac:(lia))) as [Hok Hb].
  set (b := byte_of_bits _) in *.
  assert (bits_of_byte b !! (i mod 8)%nat = Some (Z.testbit b (7 - Z.of_nat (i mod 8)))) as <-.
  { unfold bits_of_byte. rewrite list_lookup_fmap, lookup_seq_lt by lia. done. }
  rewrite Hb, lookup_take, decide_True by lia.
  destruct (decide (i < length l)%nat) as [Hil|Hil].
  - rewrite !lookup_app_l by (rewrite ?length_drop; lia). rewrite lookup_drop. f_equal. lia.
  - rewrite !lookup_app_r by (rewrite ?length_drop; lia).
    rewrite length_drop, !lookup_replicate_2 by lia. done.
Qed.

(** ** The masks at both ends of a clamped copy *)

Lemma testbit_left_mask s r :
  (s < 8)%nat → (r < 8)%nat →
  Z.testbit (Z.shiftr 0xff (Z.of_nat s)) (7 - Z.of_nat r) = bool_decide (s ≤ r)%nat.
Proof.
  intros Hs Hr.
  assert (forallb (λ s, forallb (λ r, bool_decide
    (Z.testbit (Z.shiftr 0xff (Z.of_nat s)) (7 - Z.of_nat r) = bool_decide (s ≤ r)%nat))
    (seq 0 8)) (seq 0 8) = true) as H by (vm_compute; reflexivity).
  rewrite forallb_forall in H. specialize (H s ltac:(apply in_seq; lia)).
  rewrite forallb_forall in H. specialize (H r ltac:(apply in_seq; lia)).
  by apply bool_decide_eq_true_1 in H.
Qed.

Lemma testbit_right_mask e r :
  (e < 8)%nat → (r < 8)%nat →
  Z.testbit (wrap8 (Z.shiftl 0xff (7 - Z.of_nat e))) (7 - Z.of_nat r) = bool_decide (r ≤ e)%nat.
Proof.
  intros Hs Hr.
  assert (forallb (λ e, forallb (λ r, bool_decide
    (Z.testbit (wrap8 (Z.shiftl 0xff (7 - Z.of_nat e))) (7 - Z.of_nat r) = bool_decide (r ≤ e)%nat))
    (seq 0 8)) (seq 0 8) = true) as H by (vm_compute; reflexivity).
  rewrite forallb_forall in H. specialize (H e ltac:(apply in_seq; lia)).
  rewrite forallb_forall in H. specialize (H r ltac:(apply in_seq; lia)).
  by apply bool_decide_eq_true_1 in H.
Qed.

Lemma clamp_ends_ok l r buf :
  0 ≤ l → 0 ≤ r → bytes_ok buf → bytes_ok (clamp_ends l r buf).
Proof.
  intros. unfold clamp_ends. apply Forall_alter; [apply Forall_alter; [done|]|];
    intros; by apply land_byte_ok.
Qed.

Lemma length_clamp_ends l r buf : length (clamp_ends l r buf) = length buf.
Proof. unfold clamp_ends. by rewrite !length_alter. Qed.

Lemma lookup_clamp_ends l r buf j :
  clamp_ends l r buf !! j =
  (λ b, let b := if decide (j = 0%nat) then Z.land b l else b in
        if decide (j = pred (length buf)) then Z.land b r else b) <$> buf !! j.
Proof.
  unfold clamp_ends. rewrite length_alter.
  destruct (decide (j = pred (length buf))) as [->|Hne].
  - rewrite list_lookup_alter_eq. destruct (decide (pred (length buf) = 0)%nat) as [->|].
    + rewrite list_lookup_alter_eq. by destruct (buf !! 0%nat).
    + rewrite list_lookup_alter_ne by done. by destruct (buf !! pred (length buf)).
  - rewrite list_lookup_alter_ne by done. destruct (decide (j = 0%nat)) as [->|].
    + rewrite list_lookup_alter_eq. by destruct (buf !! 0%nat).
    + rewrite list_lookup_alter_ne by done. by destruct (buf !! j).
Qed.

(** Clamping keeps bits [s .. s+c-1] and clears the others. *)
Lemma bits_clamp_ends buf (s c : nat) :
  (s < 8)%nat → (0 < c)%nat → length buf = ((s + c - 1) / 8 + 1)%nat →
  bits (clamp_ends (Z.shiftr 0xff (Z.of_nat s))
          (wrap8 (Z.shiftl 0xff (7 - Z.of_nat ((s + c - 1) mod 8)))) buf) =
  replicate s false ++ slice s c (bits buf) ++ replicate (8 * length buf - (s + c)) false.
Proof.
  intros Hs Hc Hn. apply list_eq. intros i.
  destruct (decide (i < 8 * length buf)%nat) as [Hi|Hi]; cycle 1.
  { rewrite !lookup_ge_None_2; [done|..].
    - rewrite !length_app, !length_replicate, length_slice, length_bits. lia.
    - rewrite length_bits, length_clamp_ends. lia. }
  assert (is_Some (buf !! (i / 8)%nat)) as [b Hb] by (apply lookup_lt_is_Some; lia).
  rewrite lookup_bits, lookup_clamp_ends, Hb. simpl.
  assert (∀ b', Z.testbit (if decide (i / 8 = 0)%nat then Z.land b' (Z.shiftr 0xff (Z.of_nat s)) else b')
                  (7 - Z.of_nat (i mod 8)) =
                Z.testbit b' (7 - Z.of_nat (i mod 8)) && bool_decide (s ≤ i)%nat) as HL.
  { intros b'. destruct (decide (i / 8 = 0)%nat).
    - rewrite Z.land_spec, testbit_left_mask by lia. f_equal. apply bool_decide_ext. lia.
    - rewrite bool_decide_eq_true_2 by lia. by rewrite andb_true_r. }
  assert (∀ b', Z.testbit (if decide (i / 8 = pred (length buf))%nat
                  then Z.land b' (wrap8 (Z.shiftl 0xff (7 - Z.of_nat ((s + c - 1) mod 8)))) else b')
                  (7 - Z.of_nat (i mod 8)) =
                Z.testbit b' (7 - Z.of_nat (i mod 8)) && bool_decide (i < s + c)%nat) as HR.
  { intros b'. destruct (decide (i / 8 = pred (length buf))%nat).
    - rewrite Z.land_spec, testbit_right_mask by lia. f_equal. apply bool_decide_ext. lia.
    - rewrite bool_decide_eq_true_2 by lia. by rewrite andb_true_r. }
  rewrite HR, HL. destruct (decide (i < s)%nat) as [His|His].
  { rewrite lookup_app_l by (rewrite length_replicate; lia). rewrite lookup_replicate_2 by lia.
    rewrite (bool_decide_eq_false_2 (s ≤ i)%nat) by lia. by rewrite andb_false_r. }
  rewrite lookup_app_r, length_replicate by (rewrite length_replicate; lia).
  rewrite (bool_decide_eq_true_2 (s ≤ i)%nat), andb_true_r by lia.
  destruct (decide (i < s + c)%nat) as [Hic|Hic].
  - rewrite lookup_app_l by (rewrite length_slice, length_bits; lia).
    rewrite lookup_slice by lia. replace (s + (i - s))%nat with i by lia.
    rewrite lookup_bits, Hb. simpl. rewrite bool_decide_eq_true_2 by lia. by rewrite andb_true_r.
  - rewrite lookup_app_r by (rewrite length_slice, length_bits; lia).
    rewrite length_slice, length_bits, lookup_replicate_2 by lia.
    rewrite bool_decide_eq_false_2 by lia. by rewrite andb_false_r.
Qed.

Lemma make_copy_ok n src : bytes_ok src → bytes_ok (make_copy n src).
Proof.
  intros. apply Forall_take, Forall_app. split; [done|].
  apply Forall_replicate. unfold byte_ok. lia.
Qed.

Lemma mask_nonneg s : 0 ≤ Z.shiftr 0xff s.
Proof. apply Z.shiftr_nonneg. lia. Qed.
Lemma wrap8_nonneg z : 0 ≤ wrap8 z.
Proof. unfold wrap8. lia. Qed.

(** A clamped buffer is the packing of the bits it keeps. *)
Lemma clamp_ends_pack buf (d c : nat) :
  (0 < c)%nat → length buf = ((d mod 8 + c - 1) / 8 + 1)%nat → bytes_ok buf →
  clamp_ends (Z.shiftr 0xff (Z.of_nat (d mod 8)))
    (wrap8 (Z.shiftl 0xff (7 - Z.of_nat ((d mod 8 + c - 1) mod 8)))) buf =
  canon d (slice (d mod 8) c (bits buf)).
Proof.
  intros Hc Hn Hok. set (s := (d mod 8)%nat) in *. assert (s < 8)%nat by lia.
  assert (length (slice s c (bits buf)) = c) as Hlen
    by (rewrite length_slice, length_bits; lia).
  unfold canon. destruct (slice s c (bits buf)) as [|x l] eqn:Hsl; [simpl in *; lia|].
  rewrite <- Hsl in *. clear Hsl x l. fold s.
  apply bits_inj; [by apply clamp_ends_ok; auto using mask_nonneg, wrap8_nonneg|apply pack_ok|].
  rewrite bits_clamp_ends, bits_pack by lia.
  rewrite <- app_assoc. do 3 f_equal. rewrite length_app, length_replicate, Hlen. lia.
Qed.

Lemma take_make_copy n src : (n ≤ length src)%nat → make_copy n src = take n src.
Proof. intros. unfold make_copy. by rewrite take_app_le. Qed.

Lemma ShiftCopyAndClamp_spec src (start count : nat) :
  bytes_ok src → (start mod 8 + count ≤ 8 * length src)%nat →
  ∃ n, ShiftCopyAndClamp src (Z.of_nat start) (Z.of_nat count) =
       Ok (canon start (slice (start mod 8) count (bits src)), n).
Proof.
  intros Hok Hlen. unfold ShiftCopyAndClamp. destruct count as [|c]; [by exists 0|].
  replace (Z.of_nat (S c) =? 0) with false by lia. autorewrite with bitarith.
  replace (Z.of_nat start mod 8) with (Z.of_nat (start mod 8)) by lia.
  set (s := (start mod 8)%nat) in *. assert (s < 8)%nat by lia.
  replace (Z.of_nat s + Z.of_nat (S c) - 1) with (Z.of_nat (s + S c - 1)) by lia.
  replace ((Z.of_nat (s + S c - 1)) / 8 + 1 <=? 0) with false by lia.
  replace (Z.of_nat (s + S c - 1) mod 8) with (Z.of_nat ((s + S c - 1) mod 8)) by lia.
  eexists. do 2 f_equal.
  replace (Z.to_nat (Z.of_nat (s + S c - 1) / 8 + 1)) with ((s + S c - 1) / 8 + 1)%nat by lia.
  rewrite take_make_copy by lia. unfold s in *.
  rewrite clamp_ends_pack; [|lia|rewrite length_take; lia|by apply bytes_ok_take].
  f_equal. rewrite <- take_bits. apply list_eq. intros k.
  destruct (decide (k < S c)%nat).
  - rewrite !lookup_slice, lookup_take, decide_True by lia. done.
  - rewrite !lookup_ge_None_2; [done|..]; rewrite length_slice; lia.
Qed.

Lemma CopyAndClamp_spec src (start count : nat) :
  bytes_ok src → (start + count ≤ 8 * length src)%nat →
  CopyAndClamp src (Z.of_nat start) (Z.of_nat count) =
  Ok (Some (canon start (slice start count (bits src)))).
Proof.
  intros Hok Hlen. unfold CopyAndClamp. destruct count as [|c]; [done|].
  replace (Z.of_nat (S c) =? 0) with false by lia. autorewrite with bitarith.
  replace (Z.of_nat start + Z.of_nat (S c) - 1) with (Z.of_nat (start + c)) by lia.
  set (n := ((start mod 8 + S c - 1) / 8 + 1)%nat).
  replace (Z.of_nat (start + c) / 8 - Z.of_nat start / 8 + 1) with (Z.of_nat n) by lia.
  replace (Z.of_nat n <? 0) with false by lia.
  replace (len src <=? Z.of_nat (start + c) / 8) with false by (unfold len; lia).
  replace ((Z.of_nat start / 8 <? 0) || (Z.of_nat n =? 0)) with false by lia.
  replace (Z.of_nat start / 8) with (Z.of_nat (start / 8)) by lia.
  replace (Z.of_nat (start + c) / 8 + 1) with (Z.of_nat (start / 8 + n)) by lia.
  rewrite slice_go_ok by lia. simpl.
  replace (start / 8 + n - start / 8)%nat with n by lia. rewrite Nat2Z.id.
  unfold slice at 1. rewrite take_make_copy by (rewrite length_take, length_drop; lia).
  rewrite take_take, Nat.min_id.
  replace (Z.of_nat start mod 8) with (Z.of_nat (start mod 8)) by lia.
  replace (Z.of_nat (start + c) mod 8) with (Z.of_nat ((start mod 8 + S c - 1) mod 8)) by lia.
  rewrite clamp_ends_pack;
    [|lia|rewrite length_take, length_drop; unfold n; lia|by auto using bytes_ok_take, bytes_ok_drop].
  do 3 f_equal. rewrite <- take_bits, <- drop_bits.
  apply list_eq. intros k. destruct (decide (k < S c)%nat).
  - rewrite !lookup_slice, lookup_take, decide_True, lookup_drop by lia. f_equal. lia.
  - rewrite !lookup_ge_None_2; [done|..]; rewrite length_slice; lia.
Qed.

(** The canonical prefix determines the segment it was made from, once its
    length is known. *)
Lemma canon_inj d p1 p2 : length p1 = length p2 → canon d p1 = canon d p2 → p1 = p2.
Proof.
  intros Hl H. destruct p1 as [|x1 p1], p2 as [|x2 p2]; try done.
  unfold canon in H. apply (f_equal bits) in H. rewrite !bits_pack, <- !app_assoc in H.
  apply app_inj_1 in H as [_ H]; [|done]. by apply app_inj_1 in H as [? _].
Qed.

Lemma canon_ok d p : bytes_ok (canon d p).
Proof. destruct p; [constructor|apply pack_ok]. Qed.

Lemma bits_canon d p :
  slice (d mod 8) (length p) (bits (canon d p)) = p.
Proof.
  destruct p as [|x p]; [by unfold slice; rewrite take_0|]. unfold canon. rewrite bits_pack.
  rewrite slice_app_l by (rewrite length_app, length_replicate; lia).
  rewrite slice_app_r by (rewrite length_replicate; lia).
  rewrite length_replicate, Nat.sub_diag. by apply slice_full.
Qed.

Lemma length_canon d p : p ≠ [] → (d mod 8 + length p ≤ 8 * length (canon d p))%nat.
Proof.
  destruct p; [done|]. intros _. unfold canon. rewrite length_pack, length_app, length_replicate. lia.
Qed.
