(* ===== verification/Snowp.v ===== *)
(** * Canonical encodings ([lib/core/snowp.go])

    What is hashed, signed or verified is a MessagePack encoding, and
    [AssertCanonicalMsgpack] refuses every encoding that is not the canonical one.
    The canonicalizer is modelled with its buffer and its path; an error is
    reported with the path at which it arose.  The recursion of [run] is on the depth: a path longer
    than [maxDepth] is refused, so [maxDepth + 2] levels are enough.

    The reference is a decoder of the whole MessagePack format, canonical or
    not, and the encoder that always takes the shortest form.  The canonicalizer
    accepts only the shortest forms of the values [snow_ok] describes, so that
    no value has two accepted encodings; it accepts all of them but for lists of 16 to 31 elements. *)
From S2P Require Import Prelude.
#[local] Open Scope Z_scope.

(** ** The canonicalizer *)
Definition mpPositiveFixMax : Z := 0x7f.
Definition mpFixMapMin : Z := 0x80.
Definition mpFixMapMax : Z := 0x8f.
Definition mpFixArrayMin : Z := 0x90.
Definition mpFixArrayMax : Z := 0x9f.
Definition mpFixStrMin : Z := 0xa0.
Definition mpFixStrMax : Z := 0xbf.
Definition mpNegativeFixMin : Z := 0xe0.
Definition mpNegativeFixMax : Z := 0xff.
Definition mpFixArrayCountMask : Z := 0xf.
Definition mpFixMapCounMask : Z := 0xf.
Definition mpFixstrCountMask : Z := 0x1f.

Definition MaxUint8 : Z := 2 ^ 8 - 1.
Definition MaxUint16 : Z := 2 ^ 16 - 1.
Definition MaxUint32 : Z := 2 ^ 32 - 1.
Definition MinInt8 : Z := - 2 ^ 7.
Definition MinInt16 : Z := - 2 ^ 15.
Definition MinInt32 : Z := - 2 ^ 31.

Definition newStructStepWithIndex (i : Z) : StructStep := mkStructStep i [].
Definition newStructStepWithKey (k : bytes) : StructStep := mkStructStep (-1) k.

Definition maxDepth : Z := 64.

Record canonicalizer := mkCanonicalizer { buf : bytes; path : list StructStep }.

Definition genErrStr (c : canonicalizer) (s : string) : error :=
  CanonicalEncodingError (GoError s) (path c).
Definition genErr (c : canonicalizer) (e : error) : error := CanonicalEncodingError e (path c).
(** [if err != nil { return c.genErr(err) }]. *)
Definition or_genErr {A} (c : canonicalizer) (r : result A) : result A :=
  match r with Ok a => Ok a | Err e => Err (genErr c e) end.

(** Big-endian reading of bytes, and the two's complement reading of a [w]-bit word. *)
Definition be_dec (bs : bytes) : Z := fold_left (λ a b, a * 256 + b) bs 0.
Definition signed (w z : Z) : Z := (z + 2 ^ (w - 1)) mod 2 ^ w - 2 ^ (w - 1).

Definition read_be (n : nat) (msg : string) (c : canonicalizer) : result (Z * canonicalizer) :=
  _ ← guard_err (len (buf c) <? Z.of_nat n) (genErrStr c msg);
  Ok (be_dec (take n (buf c)), mkCanonicalizer (drop n (buf c)) (path c)).

Definition readUint8 := read_be 1 "buffer is empty".
Definition readUint16 := read_be 2 "buffer is too short".
Definition readUint32 := read_be 4 "buffer is too short".
Definition readUint64 := read_be 8 "buffer is too short".
Definition read_signed (n : nat) (msg : string) (c : canonicalizer) : result (Z * canonicalizer) :=
  '(u, c) ← read_be n msg c; Ok (signed (8 * Z.of_nat n) u, c).
Definition readInt8 := read_signed 1 "buffer is empty".
Definition readInt16 := read_signed 2 "buffer is too short".
Definition readInt32 := read_signed 4 "buffer is too short".
Definition readInt64 := read_signed 8 "buffer is too short".

Definition readString (n : Z) (c : canonicalizer) : result canonicalizer :=
  _ ← guard_err (len (buf c) <? n) (genErrStr c "buffer is too short");
  Ok (mkCanonicalizer (drop (Z.to_nat n) (buf c)) (path c)).

Definition readShortString (c : canonicalizer) : result (bytes * canonicalizer) :=
  '(u, c) ← readUint8 c;
  _ ← guard_err ((u <? mpFixStrMin) || (u >? mpFixStrMax))
        (genErrStr c "invalid short string encoding for map key");
  let n := Z.land u mpFixstrCountMask in
  _ ← guard_err (len (buf c) <? n) (genErrStr c "buffer is too short");
  Ok (take (Z.to_nat n) (buf c), mkCanonicalizer (drop (Z.to_nat n) (buf c)) (path c)).

Section run.
Variable rec : canonicalizer → result canonicalizer.

Definition runMap (n : Z) (c : canonicalizer) : result canonicalizer :=
  if n =? 0 then Ok c
  else
    _ ← guard_err (negb (n =? 1)) (genErrStr c "map with more than one element not allowed");
    let l := length (path c) in
    '(s, c) ← readShortString c;
    c ← rec (mkCanonicalizer (buf c) (path c ++ [newStructStepWithKey s]));
    Ok (mkCanonicalizer (buf c) (take l (path c))).

(** One round of the loop over the elements, with the loop's counter. *)
Definition array_step (l : nat) (s : Z * canonicalizer) : Z * canonicalizer + error :=
  let '(i, c) := s in
  match rec (mkCanonicalizer (buf c) (path c ++ [newStructStepWithIndex i])) with
  | Err e => inr e
  | Ok c => inl (i + 1, mkCanonicalizer (buf c) (take l (path c)))
  end.

Definition runArray (n : Z) (c : canonicalizer) : result canonicalizer :=
  _ ← guard_err (n =? 0) (genErrStr c "empty array should be encoded as null");
  match loop_pos (array_step (length (path c))) (Z.to_pos n) (0, c) with
  | inl (_, c) => Ok c
  | inr e => Err e
  end.

(** The second [switch], on the single type bytes. *)
Definition run_tagged (byt : Z) (c : canonicalizer) : result canonicalizer :=
  match byt with
  | 0xc0 | 0xc2 | 0xc3 => Ok c
  | 0xc4 => '(u, c) ← or_genErr c (readUint8 c); readString u c
  | 0xc5 =>
      '(u, c) ← or_genErr c (readUint16 c);
      _ ← guard_err (u <=? 0xff) (genErrStr c "short bin16 encoding");
      readString u c
  | 0xc6 =>
      '(u, c) ← or_genErr c (readUint32 c);
      _ ← guard_err (u <=? 0xffff) (genErrStr c "short bin32 encoding");
      readString u c
  | 0xc7 | 0xc8 | 0xc9 => Err (genErrStr c "ext not allowed in canonical snowpack")
  | 0xca | 0xcb => Err (genErrStr c "float not allowed in canonical snowpack")
  | 0xcc =>
      '(u, c) ← or_genErr c (readUint8 c);
      _ ← guard_err (u <=? 0x7f) (genErrStr c "uint8 underflow");
      Ok c
  | 0xcd =>
      '(u, c) ← or_genErr c (readUint16 c);
      _ ← guard_err (u <=? MaxUint8) (genErrStr c "uint16 underflow");
      Ok c
  | 0xce =>
      '(u, c) ← or_genErr c (readUint32 c);
      _ ← guard_err (u <=? MaxUint16) (genErrStr c "uint32 underflow");
      Ok c
  | 0xcf =>
      '(u, c) ← or_genErr c (readUint64 c);
      _ ← guard_err (u <=? MaxUint32) (genErrStr c "uint64 underflow");
      Ok c
  | 0xd0 =>
      '(i, c) ← or_genErr c (readInt8 c);
      _ ← guard_err (i >=? 0) (genErrStr c "positive int8 encoding");
      _ ← guard_err (i >=? signed 8 mpNegativeFixMin) (genErrStr c "short int8 encoding");
      Ok c
  | 0xd1 =>
      '(i, c) ← or_genErr c (readInt16 c);
      _ ← guard_err (i >=? 0) (genErrStr c "positive int16 encoding");
      _ ← guard_err (i >=? MinInt8) (genErrStr c "short int16 encoding");
      Ok c
  | 0xd2 =>
      '(i, c) ← or_genErr c (readInt32 c);
      _ ← guard_err (i >=? 0) (genErrStr c "positive int32 encoding");
      _ ← guard_err (i >=? MinInt16) (genErrStr c "short int32 encoding");
      Ok c
  | 0xd3 =>
      '(i, c) ← or_genErr c (readInt64 c);
      _ ← guard_err (i >=? 0) (genErrStr c "positive int64 encoding");
      _ ← guard_err (i >=? MinInt32) (genErrStr c "short int64 encoding");
      Ok c
  | 0xd4 | 0xd5 | 0xd6 | 0xd7 | 0xd8 => Err (genErrStr c "fixext not allowed in canonical snowpack")
  | 0xd9 =>
      '(u, c) ← or_genErr c (readUint8 c);
      _ ← guard_err (u <=? 0x1f) (genErrStr c "short str8 encoding");
      readString u c
  | 0xda =>
      '(u, c) ← or_genErr c (readUint16 c);
      _ ← guard_err (u <=? MaxUint8) (genErrStr c "short str16 encoding");
      readString u c
  | 0xdb =>
      '(u, c) ← or_genErr c (readUint32 c);
      _ ← guard_err (u <=? MaxUint16) (genErrStr c "short str32 encoding");
      readString u c
  | 0xdc =>
      '(u, c) ← or_genErr c (readUint16 c);
      _ ← guard_err (u <=? 0x1f) (genErrStr c "array16 where fixed array encoding is possible");
      runArray u c
  | 0xdd =>
      '(u, c) ← or_genErr c (readUint32 c);
      _ ← guard_err (u <=? MaxUint16) (genErrStr c "array32 where shorter array is possible");
      runArray u c
  | 0xde | 0xdf => Err (genErrStr c "arbitrary maps not allowed")
  | _ => Ok c
  end.

(** The first [switch], on the ranges of bytes that carry a value or a length. *)
Definition run_switch (byt : Z) (c : canonicalizer) : result canonicalizer :=
  if byt <=? mpPositiveFixMax then Ok c
  else if (byt >=? mpFixMapMin) && (byt <=? mpFixMapMax) then
    runMap (Z.land byt mpFixMapCounMask) c
  else if (byt >=? mpFixArrayMin) && (byt <=? mpFixArrayMax) then
    runArray (Z.land byt mpFixArrayCountMask) c
  else if (byt >=? mpFixStrMin) && (byt <=? mpFixStrMax) then
    readString (Z.land byt mpFixstrCountMask) c
  else if (byt >=? mpNegativeFixMin) && (byt <=? mpNegativeFixMax) then Ok c
  else run_tagged byt c.

Definition run_body (c : canonicalizer) : result canonicalizer :=
  _ ← guard_err (len (path c) >? maxDepth) (genErrStr c "max depth exceeded");
  '(byt, c) ← or_genErr c (readUint8 c);
  run_switch byt c.
End run.

Fixpoint run (depth : nat) (c : canonicalizer) : result canonicalizer :=
  match depth with
  | O => Err OutOfFuel
  | S depth => run_body (run depth) c
  end.

Definition AssertCanonicalMsgpack (msg : bytes) : result () :=
  c ← run (Z.to_nat maxDepth + 2) (mkCanonicalizer msg []);
  guard_err (negb (len (buf c) =? 0))
    (CanonicalEncodingError (GoError "trailing junk at end of buffer") []).

(** ** MessagePack values and their encodings *)
Inductive mp :=
  | MNil
  | MBool (b : bool)
  | MInt (z : Z)
  | MStr (s : bytes)
  | MBin (s : bytes)
  | MArr (l : list mp)
  | MMap (l : list (mp * mp)).

Fixpoint be_enc (n : nat) (z : Z) : bytes :=
  match n with O => [] | S n => be_enc n (z / 256) ++ [z mod 256] end.

(** The shortest encoding of each value. *)
Definition enc_int (z : Z) : bytes :=
  if z <? - 2 ^ 31 then 0xd3 :: be_enc 8 (z mod 2 ^ 64)
  else if z <? - 2 ^ 15 then 0xd2 :: be_enc 4 (z mod 2 ^ 32)
  else if z <? - 2 ^ 7 then 0xd1 :: be_enc 2 (z mod 2 ^ 16)
  else if z <? - 2 ^ 5 then 0xd0 :: be_enc 1 (z mod 2 ^ 8)
  else if z <? 0 then [z mod 2 ^ 8]
  else if z <? 2 ^ 7 then [z]
  else if z <? 2 ^ 8 then 0xcc :: be_enc 1 z
  else if z <? 2 ^ 16 then 0xcd :: be_enc 2 z
  else if z <? 2 ^ 32 then 0xce :: be_enc 4 z
  else 0xcf :: be_enc 8 z.

Definition str_hdr (n : Z) : bytes :=
  if n <? 2 ^ 5 then [0xa0 + n]
  else if n <? 2 ^ 8 then 0xd9 :: be_enc 1 n
  else if n <? 2 ^ 16 then 0xda :: be_enc 2 n
  else 0xdb :: be_enc 4 n.
Definition bin_hdr (n : Z) : bytes :=
  if n <? 2 ^ 8 then 0xc4 :: be_enc 1 n
  else if n <? 2 ^ 16 then 0xc5 :: be_enc 2 n
  else 0xc6 :: be_enc 4 n.
Definition arr_hdr (n : Z) : bytes :=
  if n <? 2 ^ 4 then [0x90 + n]
  else if n <? 2 ^ 16 then 0xdc :: be_enc 2 n
  else 0xdd :: be_enc 4 n.
Definition map_hdr (n : Z) : bytes :=
  if n <? 2 ^ 4 then [0x80 + n]
  else if n <? 2 ^ 16 then 0xde :: be_enc 2 n
  else 0xdf :: be_enc 4 n.

Fixpoint shortest (v : mp) : bytes :=
  match v with
  | MNil => [0xc0]
  | MBool false => [0xc2]
  | MBool true => [0xc3]
  | MInt z => enc_int z
  | MStr s => str_hdr (len s) ++ s
  | MBin s => bin_hdr (len s) ++ s
  | MArr l => arr_hdr (len l) ++ concat (map shortest l)
  | MMap l => map_hdr (len l) ++ concat (map (λ kv, shortest (fst kv) ++ shortest (snd kv)) l)
  end.

(** The values of the protocol, nested at most [d] deep: lists are not empty (the empty list is
    written as nil), maps have at most one entry, under a short string, and sizes fit their headers. *)
Fixpoint snow_ok (d : nat) (v : mp) {struct v} : bool :=
  match v with
  | MNil | MBool _ => true
  | MInt z => (- 2 ^ 63 <=? z) && (z <? 2 ^ 64)
  | MStr s | MBin s => bool_decide (bytes_ok s) && (len s <? 2 ^ 32)
  | MArr l => match d with O => false | S d => (1 <=? len l) && (len l <? 2 ^ 32) && forallb (snow_ok d) l end
  | MMap [] => true
  | MMap [(MStr k, v)] =>
      match d with O => false | S d => bool_decide (bytes_ok k) && (len k <=? 31) && snow_ok d v end
  | MMap _ => false
  end.
(** No list in the value has 16 to 31 elements, the lengths at which the canonicalizer refuses the
    shortest header ([list_of_16_to_31_refused]). *)
Fixpoint no_mid_list (v : mp) : bool :=
  match v with
  | MArr l => negb ((16 <=? len l) && (len l <=? 31)) && forallb no_mid_list l
  | MMap l => forallb (λ kv, no_mid_list (fst kv) && no_mid_list (snd kv)) l
  | _ => true
  end.

(** A decoder of the whole format (floats and extension types apart): every
    header of the specification, canonical or not. *)
Definition take_n (n : Z) (bs : bytes) : option (bytes * bytes) :=
  if len bs <? n then None else Some (take (Z.to_nat n) bs, drop (Z.to_nat n) bs).
Definition take_be (n : nat) (bs : bytes) : option (Z * bytes) :=
  '(x, bs) ← take_n (Z.of_nat n) bs; Some (be_dec x, bs).

Section decode.
Variable dec : bytes → option (mp * bytes).

Fixpoint dec_list (n : nat) (bs : bytes) : option (list mp * bytes) :=
  match n with
  | O => Some ([], bs)
  | S n => '(v, bs) ← dec bs; '(vs, bs) ← dec_list n bs; Some (v :: vs, bs)
  end.
Fixpoint dec_pairs (n : nat) (bs : bytes) : option (list (mp * mp) * bytes) :=
  match n with
  | O => Some ([], bs)
  | S n =>
      '(k, bs) ← dec bs; '(v, bs) ← dec bs; '(vs, bs) ← dec_pairs n bs; Some ((k, v) :: vs, bs)
  end.

Definition dec_str (n : Z) (bs : bytes) := '(s, bs) ← take_n n bs; Some (MStr s, bs).
Definition dec_bin (n : Z) (bs : bytes) := '(s, bs) ← take_n n bs; Some (MBin s, bs).
Definition dec_arr (n : Z) (bs : bytes) := '(l, bs) ← dec_list (Z.to_nat n) bs; Some (MArr l, bs).
Definition dec_map (n : Z) (bs : bytes) := '(l, bs) ← dec_pairs (Z.to_nat n) bs; Some (MMap l, bs).
Definition dec_uint (n : nat) (bs : bytes) := '(u, bs) ← take_be n bs; Some (MInt u, bs).
Definition dec_sint (n : nat) (bs : bytes) :=
  '(u, bs) ← take_be n bs; Some (MInt (signed (8 * Z.of_nat n) u), bs).

Definition decode_body (bs : bytes) : option (mp * bytes) :=
  match bs with
  | [] => None
  | b :: bs =>
      if b <? 0x80 then Some (MInt b, bs)
      else if b <? 0x90 then dec_map (b - 0x80) bs
      else if b <? 0xa0 then dec_arr (b - 0x90) bs
      else if b <? 0xc0 then dec_str (b - 0xa0) bs
      else if 0xe0 <=? b then Some (MInt (b - 0x100), bs)
      else match b with
      | 0xc0 => Some (MNil, bs)
      | 0xc2 => Some (MBool false, bs)
      | 0xc3 => Some (MBool true, bs)
      | 0xc4 => '(n, bs) ← take_be 1 bs; dec_bin n bs
      | 0xc5 => '(n, bs) ← take_be 2 bs; dec_bin n bs
      | 0xc6 => '(n, bs) ← take_be 4 bs; dec_bin n bs
      | 0xcc => dec_uint 1 bs
      | 0xcd => dec_uint 2 bs
      | 0xce => dec_uint 4 bs
      | 0xcf => dec_uint 8 bs
      | 0xd0 => dec_sint 1 bs
      | 0xd1 => dec_sint 2 bs
      | 0xd2 => dec_sint 4 bs
      | 0xd3 => dec_sint 8 bs
      | 0xd9 => '(n, bs) ← take_be 1 bs; dec_str n bs
      | 0xda => '(n, bs) ← take_be 2 bs; dec_str n bs
      | 0xdb => '(n, bs) ← take_be 4 bs; dec_str n bs
      | 0xdc => '(n, bs) ← take_be 2 bs; dec_arr n bs
      | 0xdd => '(n, bs) ← take_be 4 bs; dec_arr n bs
      | 0xde => '(n, bs) ← take_be 2 bs; dec_map n bs
      | 0xdf => '(n, bs) ← take_be 4 bs; dec_map n bs
      | _ => None
      end
  end.
End decode.

Fixpoint decode (fuel : nat) (bs : bytes) : option (mp * bytes) :=
  match fuel with O => None | S fuel => decode_body (decode fuel) bs end.

(** ** Bytes *)
Lemma be_dec_snoc bs b : be_dec (bs ++ [b]) = be_dec bs * 256 + b.
Proof. unfold be_dec. by rewrite fold_left_app. Qed.

Lemma length_be_enc n z : length (be_enc n z) = n.
Proof.
  revert z. induction n as [|n IH]; intros z; [done|]. cbn [be_enc].
  rewrite length_app, IH. apply Nat.add_1_r.
Qed.

Lemma be_dec_enc n z : 0 <= z < 256 ^ Z.of_nat n → be_dec (be_enc n z) = z.
Proof.
  revert z. induction n as [|n IH]; intros z Hz; cbn [be_enc].
  - change (256 ^ Z.of_nat 0) with 1 in Hz. unfold be_dec. simpl. lia.
  - rewrite be_dec_snoc, IH; [lia|].
    rewrite Nat2Z.inj_succ, Z.pow_succ_r in Hz by lia. split; [lia|].
    apply Z.div_lt_upper_bound; lia.
Qed.

Lemma be_dec_range bs : bytes_ok bs → 0 <= be_dec bs < 256 ^ len bs.
Proof.
  intros H. induction bs as [|b bs IH] using rev_ind; [by split|].
  apply Forall_app in H as [H1 [H2 _]%Forall_cons]. unfold byte_ok in H2.
  rewrite be_dec_snoc. specialize (IH H1). unfold len in *. rewrite length_app. simpl.
  rewrite Nat2Z.inj_add. change (Z.of_nat 1) with 1. rewrite Z.pow_add_r, Z.pow_1_r by lia. lia.
Qed.

Lemma be_enc_dec bs : bytes_ok bs → be_enc (length bs) (be_dec bs) = bs.
Proof.
  intros H. induction bs as [|b bs IH] using rev_ind; [done|].
  apply Forall_app in H as [H1 [H2 _]%Forall_cons]. unfold byte_ok in H2.
  rewrite length_app, Nat.add_1_r. cbn [be_enc]. rewrite be_dec_snoc.
  replace ((be_dec bs * 256 + b) / 256) with (be_dec bs) by lia.
  replace ((be_dec bs * 256 + b) mod 256) with b by lia. by rewrite IH.
Qed.

Lemma bytes_ok_be_enc n z : bytes_ok (be_enc n z).
Proof.
  revert z. induction n as [|n IH]; intros z; cbn [be_enc]; [constructor|].
  apply Forall_app. split; [apply IH|]. constructor; [|constructor]. unfold byte_ok. lia.
Qed.

Lemma signed_mod w z : 0 < w → - 2 ^ (w - 1) <= z < 2 ^ (w - 1) → signed w (z mod 2 ^ w) = z.
Proof.
  intros Hw Hz. unfold signed.
  assert (2 ^ w = 2 * 2 ^ (w - 1)) as E by (rewrite <- Z.pow_succ_r by lia; f_equal; lia).
  assert (0 < 2 ^ (w - 1)) by (apply Z.pow_pos_nonneg; lia).
  rewrite Zplus_mod_idemp_l, Z.mod_small; lia.
Qed.

Lemma mod_signed w z : 0 < w → 0 <= z < 2 ^ w → signed w z mod 2 ^ w = z.
Proof.
  intros Hw Hz. unfold signed. rewrite Zminus_mod_idemp_l.
  replace (z + 2 ^ (w - 1) - 2 ^ (w - 1)) with z by lia. by apply Z.mod_small.
Qed.

Lemma signed_range w z : 0 < w → - 2 ^ (w - 1) <= signed w z < 2 ^ (w - 1).
Proof.
  intros Hw. unfold signed.
  assert (2 ^ w = 2 * 2 ^ (w - 1)) as E by (rewrite <- Z.pow_succ_r by lia; f_equal; lia).
  assert (0 < 2 ^ (w - 1)) by (apply Z.pow_pos_nonneg; lia).
  pose proof (Z.mod_pos_bound (z + 2 ^ (w - 1)) (2 ^ w)). lia.
Qed.

(** ** Reading *)
Lemma take_app_len {A} (xs ys : list A) n : length xs = n → take n (xs ++ ys) = xs.
Proof. intros <-. apply take_app_length. Qed.
Lemma drop_app_len {A} (xs ys : list A) n : length xs = n → drop n (xs ++ ys) = ys.
Proof. intros <-. apply drop_app_length. Qed.

Lemma read_be_app n msg z rest p :
  0 <= z < 256 ^ Z.of_nat n →
  read_be n msg (mkCanonicalizer (be_enc n z ++ rest) p) = Ok (z, mkCanonicalizer rest p).
Proof.
  intros Hz. unfold read_be. cbn [buf path]. unfold len.
  rewrite length_app, length_be_enc. rewrite (proj2 (Z.ltb_ge _ _)) by lia. simpl.
  by rewrite take_app_len, drop_app_len, be_dec_enc by (done || apply length_be_enc).
Qed.

Lemma read_be_inv n msg c u c' :
  read_be n msg c = Ok (u, c') → bytes_ok (buf c) →
  buf c = be_enc n u ++ buf c' ∧ 0 <= u < 256 ^ Z.of_nat n ∧ bytes_ok (buf c') ∧ path c' = path c.
Proof.
  unfold read_be. intros H Hb. inv_ok. unfold len in *.
  assert (n ≤ length (buf c))%nat as Hn by lia.
  rewrite <- (take_drop n (buf c)) in Hb. apply Forall_app in Hb as [H1 H2].
  assert (length (take n (buf c)) = n) as Hl by (rewrite length_take; lia).
  split; [|split; [|done]].
  - rewrite <- (take_drop n (buf c)) at 1. f_equal. rewrite <- Hl at 2. by rewrite be_enc_dec.
  - rewrite <- Hl at 3. by apply be_dec_range.
Qed.

Lemma pow256 n : 256 ^ Z.of_nat n = 2 ^ (8 * Z.of_nat n).
Proof. change 256 with (2 ^ 8). rewrite <- Z.pow_mul_r; lia. Qed.

Lemma read_signed_app n msg i rest p :
  (0 < n)%nat → - 2 ^ (8 * Z.of_nat n - 1) <= i < 2 ^ (8 * Z.of_nat n - 1) →
  read_signed n msg (mkCanonicalizer (be_enc n (i mod 2 ^ (8 * Z.of_nat n)) ++ rest) p)
  = Ok (i, mkCanonicalizer rest p).
Proof.
  intros Hn Hi. unfold read_signed. rewrite read_be_app.
  - simpl. by rewrite signed_mod by lia.
  - rewrite pow256. apply Z.mod_pos_bound. apply Z.pow_pos_nonneg; lia.
Qed.

Lemma read_signed_inv n msg c i c' :
  (0 < n)%nat → read_signed n msg c = Ok (i, c') → bytes_ok (buf c) →
  buf c = be_enc n (i mod 2 ^ (8 * Z.of_nat n)) ++ buf c' ∧
  - 2 ^ (8 * Z.of_nat n - 1) <= i < 2 ^ (8 * Z.of_nat n - 1) ∧
  bytes_ok (buf c') ∧ path c' = path c.
Proof.
  unfold read_signed. intros Hn H Hb. apply bind_Ok in H as ([u c1] & H & [= <- <-]).
  apply read_be_inv in H as (H1 & H2 & H3 & H4); [|done]. rewrite pow256 in H2.
  rewrite mod_signed by lia. split; [done|]. split; [apply signed_range; lia|done].
Qed.

Lemma readString_app s rest p :
  readString (len s) (mkCanonicalizer (s ++ rest) p) = Ok (mkCanonicalizer rest p).
Proof.
  unfold readString. cbn [buf path]. unfold len. rewrite length_app.
  rewrite (proj2 (Z.ltb_ge _ _)) by lia. simpl. by rewrite drop_app_len by lia.
Qed.

Lemma readString_inv n c c' :
  0 <= n → readString n c = Ok c' → bytes_ok (buf c) →
  ∃ s, buf c = s ++ buf c' ∧ len s = n ∧ bytes_ok s ∧ bytes_ok (buf c') ∧ path c' = path c.
Proof.
  unfold readString. intros Hn H Hb. inv_ok. unfold len in *.
  exists (take (Z.to_nat n) (buf c)).
  pose proof Hb as Hb'. rewrite <- (take_drop (Z.to_nat n) (buf c)) in Hb'.
  apply Forall_app in Hb' as [? ?]. rewrite length_take, take_drop. repeat split; try done. lia.
Qed.

Lemma or_genErr_Ok {A} c (r : result A) a : or_genErr c r = Ok a ↔ r = Ok a.
Proof. by destruct r. Qed.

Lemma fix_map_mask n : 0 <= n < 16 → Z.land (0x80 + n) mpFixMapCounMask = n.
Proof.
  intros. unfold mpFixMapCounMask. change 0xf with (Z.ones 4).
  rewrite Z.land_ones by lia. change (2 ^ 4) with 16. lia.
Qed.
Lemma fix_arr_mask n : 0 <= n < 16 → Z.land (0x90 + n) mpFixArrayCountMask = n.
Proof.
  intros. unfold mpFixArrayCountMask. change 0xf with (Z.ones 4).
  rewrite Z.land_ones by lia. change (2 ^ 4) with 16. lia.
Qed.
Lemma fix_str_mask n : 0 <= n < 32 → Z.land (0xa0 + n) mpFixstrCountMask = n.
Proof.
  intros. unfold mpFixstrCountMask. change 0x1f with (Z.ones 5).
  rewrite Z.land_ones by lia. change (2 ^ 5) with 32. lia.
Qed.

Lemma readShortString_app s rest p :
  len s <= 31 →
  readShortString (mkCanonicalizer (str_hdr (len s) ++ s ++ rest) p) = Ok (s, mkCanonicalizer rest p).
Proof.
  intros Hs. assert (0 <= len s) by (unfold len; lia).
  unfold str_hdr. rewrite (proj2 (Z.ltb_lt _ _)) by lia.
  unfold readShortString, readUint8.
  change [0xa0 + len s] with (be_enc 0 0 ++ [0xa0 + len s]).
  replace (be_enc 0 0 ++ [0xa0 + len s]) with (be_enc 1 (0xa0 + len s))
    by (cbn [be_enc app]; f_equal; lia).
  rewrite read_be_app by (change (256 ^ Z.of_nat 1) with 256; lia).
  cbn [mbind result_bind]. unfold mpFixStrMin, mpFixStrMax.
  replace ((0xa0 + len s <? 0xa0) || (0xa0 + len s >? 0xbf)) with false by lia.
  rewrite fix_str_mask by lia. cbn [guard_err buf path]. unfold len. rewrite length_app.
  rewrite (proj2 (Z.ltb_ge _ _)) by lia. cbn [guard_err].
  by rewrite take_app_len, drop_app_len by lia.
Qed.

Lemma readShortString_inv c s c' :
  readShortString c = Ok (s, c') → bytes_ok (buf c) →
  buf c = str_hdr (len s) ++ s ++ buf c' ∧ len s <= 31 ∧ bytes_ok s ∧
  bytes_ok (buf c') ∧ path c' = path c.
Proof.
  unfold readShortString. intros H Hb. apply bind_Ok in H as ([u c1] & H & H').
  apply read_be_inv in H as (E & Hu & Hb1 & Hp); [|done]. inv_ok.
  unfold mpFixStrMin, mpFixStrMax in *.
  assert (Z.land u mpFixstrCountMask = u - 0xa0) as Em.
  { replace u with (0xa0 + (u - 0xa0)) at 1 by lia. apply fix_str_mask. lia. }
  rewrite Em in *. set (n := Z.to_nat (u - 160)) in *. unfold len in *.
  assert (length (take n (buf c1)) = n) as Hl by (rewrite length_take; lia).
  pose proof Hb1 as Hb'. rewrite <- (take_drop n (buf c1)) in Hb'.
  apply Forall_app in Hb' as [? ?]. rewrite Hl, take_drop, E.
  split; [|repeat split; try done; lia].
  unfold str_hdr. rewrite (proj2 (Z.ltb_lt _ _)) by lia. f_equal.
  cbn [be_enc app]. f_equal. change (256 ^ Z.of_nat 1) with 256 in Hu. lia.
Qed.

(** ** Values *)
(** Both at once, along the recursion of the canonicalizer. *)
Fixpoint snow_acc (d : nat) (v : mp) {struct v} : bool :=
  match v with
  | MNil | MBool _ => true
  | MInt z => (- 2 ^ 63 <=? z) && (z <? 2 ^ 64)
  | MStr s | MBin s => bool_decide (bytes_ok s) && (len s <? 2 ^ 32)
  | MArr l =>
      match d with
      | O => false
      | S d =>
          ((1 <=? len l) && (len l <=? 15) || (32 <=? len l) && (len l <? 2 ^ 32))
          && forallb (snow_acc d) l
      end
  | MMap [] => true
  | MMap [(MStr k, v)] =>
      match d with
      | O => false
      | S d => bool_decide (bytes_ok k) && (len k <=? 31) && snow_acc d v
      end
  | MMap _ => false
  end.

(** Picks the branch of a shortest form whose bounds hold. *)
Ltac pick_form :=
  repeat match goal with
  | |- context [if ?b then _ else _] =>
      first [replace b with false by lia | replace b with true by lia]
  end.

Ltac bound_pows :=
  unfold MaxUint8, MaxUint16, MaxUint32, MinInt8, MinInt16, MinInt32, mpNegativeFixMin in *;
  change (256 ^ Z.of_nat 1) with (2 ^ 8) in *; change (256 ^ Z.of_nat 2) with (2 ^ 16) in *;
  change (256 ^ Z.of_nat 4) with (2 ^ 32) in *; change (256 ^ Z.of_nat 8) with (2 ^ 64) in *;
  change (signed 8 0xe0) with (-32) in *;
  change (8 * Z.of_nat 1) with 8 in *; change (8 * Z.of_nat 2) with 16 in *;
  change (8 * Z.of_nat 4) with 32 in *; change (8 * Z.of_nat 8) with 64 in *.

Section mp_induction.
Variable P : mp → Prop.
Hypothesis P_nil : P MNil.
Hypothesis P_bool : ∀ b, P (MBool b).
Hypothesis P_int : ∀ z, P (MInt z).
Hypothesis P_str : ∀ s, P (MStr s).
Hypothesis P_bin : ∀ s, P (MBin s).
Hypothesis P_arr : ∀ l, Forall P l → P (MArr l).
Hypothesis P_map : ∀ l, Forall (λ kv, P kv.1 ∧ P kv.2) l → P (MMap l).

Fixpoint mp_nested_ind (v : mp) : P v :=
  match v with
  | MNil => P_nil
  | MBool b => P_bool b
  | MInt z => P_int z
  | MStr s => P_str s
  | MBin s => P_bin s
  | MArr l => P_arr l ((fix go l := match l return Forall P l with
      | [] => Forall_nil_2 _
      | v :: l => Forall_cons_2 _ _ _ (mp_nested_ind v) (go l) end) l)
  | MMap l => P_map l ((fix go l := match l return Forall (λ kv, P kv.1 ∧ P kv.2) l with
      | [] => Forall_nil_2 _
      | kv :: l =>
          Forall_cons_2 _ _ _ (conj (mp_nested_ind (fst kv)) (mp_nested_ind (snd kv))) (go l) end) l)
  end.
End mp_induction.

Lemma snow_acc_spec v : ∀ d, snow_acc d v = snow_ok d v && no_mid_list v.
Proof.
  induction v as [|b|z|s|s|l IH|l IH] using mp_nested_ind; intros d; try (symmetry; apply andb_true_r).
  - cbn [snow_acc snow_ok no_mid_list]. destruct d as [|d]; [done|].
    assert (forallb (snow_acc d) l = forallb (snow_ok d) l && forallb no_mid_list l) as ->.
    { induction IH as [|v l Hv _ IHl]; [done|]. cbn [forallb]. rewrite Hv, IHl.
      destruct (snow_ok d v), (no_mid_list v), (forallb (snow_ok d) l), (forallb no_mid_list l); done. }
    assert ((1 <=? len l) && (len l <=? 15) || (32 <=? len l) && (len l <? 2 ^ 32) =
            (1 <=? len l) && (len l <? 2 ^ 32) && negb ((16 <=? len l) && (len l <=? 31))) as -> by lia.
    destruct ((1 <=? len l) && (len l <? 2 ^ 32)), (negb _), (forallb (snow_ok d) l), (forallb no_mid_list l); done.
  - destruct l as [|[k v] [|kv l]]; [done| |by destruct k]. destruct k; try done. destruct d as [|d]; [done|].
    apply Forall_cons in IH as [[_ IH] _]. cbn [snow_acc snow_ok no_mid_list forallb fst snd]. rewrite IH, andb_true_r. cbn [snd].
    destruct (bool_decide _), (len s <=? 31), (snow_ok d v); done.
Qed.

(** ** Decoding a shortest form *)
Lemma take_n_app s rest : take_n (len s) (s ++ rest) = Some (s, rest).
Proof.
  unfold take_n, len. rewrite length_app, (proj2 (Z.ltb_ge _ _)) by lia.
  by rewrite take_app_len, drop_app_len by lia.
Qed.
Lemma take_be_app n z rest :
  0 <= z < 256 ^ Z.of_nat n → take_be n (be_enc n z ++ rest) = Some (z, rest).
Proof.
  intros Hz. unfold take_be. replace (Z.of_nat n) with (len (be_enc n z)) at 1
    by (unfold len; by rewrite length_be_enc).
  rewrite take_n_app. simpl. by rewrite be_dec_enc.
Qed.

Ltac eval_decode :=
  rewrite <- ?app_assoc; cbn [app decode_body]; pick_form; unfold dec_uint, dec_sint;
  rewrite ?take_be_app by (bound_pows; lia); cbn [mbind option_bind]; bound_pows;
  rewrite ?signed_mod by lia.

Lemma decode_int dec z rest : - 2 ^ 63 <= z < 2 ^ 64 →
  decode_body dec (enc_int z ++ rest) = Some (MInt z, rest).
Proof.
  intros Hz. unfold enc_int.
  repeat match goal with |- context [if ?b then _ else _] => destruct b eqn:? end;
    eval_decode; try done.
  do 3 f_equal. lia.
Qed.

Lemma decode_str dec s rest : len s < 2 ^ 32 →
  decode_body dec (str_hdr (len s) ++ s ++ rest) = Some (MStr s, rest).
Proof.
  intros Hs. assert (0 <= len s) by (unfold len; lia). unfold str_hdr.
  repeat match goal with |- context [if ?b then _ else _] => destruct b eqn:? end; eval_decode.
  1: replace (0xa0 + len s - 0xa0) with (len s) by lia.
  all: unfold dec_str; by rewrite take_n_app.
Qed.

Lemma decode_bin dec s rest : len s < 2 ^ 32 →
  decode_body dec (bin_hdr (len s) ++ s ++ rest) = Some (MBin s, rest).
Proof.
  intros Hs. assert (0 <= len s) by (unfold len; lia). unfold bin_hdr.
  repeat match goal with |- context [if ?b then _ else _] => destruct b eqn:? end; eval_decode;
  unfold dec_bin; by rewrite take_n_app.
Qed.

Lemma decode_arr_hdr dec n rest : 0 <= n < 2 ^ 32 →
  decode_body dec (arr_hdr n ++ rest) = dec_arr dec n rest.
Proof.
  intros Hs. unfold arr_hdr.
  repeat match goal with |- context [if ?b then _ else _] => destruct b eqn:? end; eval_decode; try done.
  f_equal. lia.
Qed.

Definition decodes_back (dec : bytes → option (mp * bytes)) (v : mp) : Prop :=
  ∀ d rest v' r, snow_acc d v = true → dec (shortest v ++ rest) = Some (v', r) → v' = v ∧ r = rest.

Lemma dec_list_back dec d l rest l' r :
  Forall (decodes_back dec) l → forallb (snow_acc d) l = true →
  dec_list dec (length l) (concat (map shortest l) ++ rest) = Some (l', r) → l' = l ∧ r = rest.
Proof.
  intros Hl. revert l' r. induction Hl as [|v l Hv Hl IH]; intros l' r Hok H; cbn in H.
  { by simplify_eq. }
  cbn in Hok. apply andb_true_iff in Hok as [Hov Hol]. rewrite <- app_assoc in H.
  apply bind_Some in H as ([v1 r1] & E1 & H). apply bind_Some in H as ([l1 r2] & E2 & [= <- <-]).
  apply (Hv d) in E1 as [-> ->]; [|done]. apply IH in E2 as [-> ->]; done.
Qed.

Lemma decode_shortest v : ∀ n, decodes_back (decode n) v.
Proof.
  induction v as [|b|z|s|s|l IH|l IH] using mp_nested_ind; intros [|n] d rest v' r Hok H;
    try done; cbn [decode shortest] in H.
  - by simplify_eq/=.
  - destruct b; by simplify_eq/=.
  - cbn [snow_acc] in Hok. rewrite decode_int in H by lia. by simplify_eq.
  - cbn [snow_acc] in Hok. rewrite <- app_assoc, decode_str in H by lia. by simplify_eq.
  - cbn [snow_acc] in Hok. rewrite <- app_assoc, decode_bin in H by lia. by simplify_eq.
  - cbn [snow_acc] in Hok. destruct d as [|d]; [done|].
    apply andb_true_iff in Hok as [Hlen Hok]. rewrite <- app_assoc, decode_arr_hdr in H by lia.
    unfold dec_arr, len in H. rewrite Nat2Z.id in H.
    apply bind_Some in H as ([l1 r1] & E & [= <- <-]).
    apply (dec_list_back _ d) in E as [-> ->]; [done| |done].
    eapply Forall_impl; [apply IH|]. intros v Hv. apply Hv.
  - destruct l as [|[k v] [|kv l]]; [| |by destruct k].
    { change (Some (MMap [], rest) = Some (v', r)) in H. by simplify_eq. }
    destruct k; try done. destruct d as [|d]; [done|]. apply Forall_cons in IH as [[_ IH] _].
    cbn [snow_acc] in Hok. apply andb_true_iff in Hok as [[_ Hk%Z.leb_le]%andb_true_iff Hok].
    cbn [shortest map concat fst snd] in H. rewrite app_nil_r, <- !app_assoc in H.
    change (map_hdr (len [(MStr s, v)])) with [0x81] in H.
    cbn [app decode_body Z.ltb Z.compare Pos.compare Pos.compare_cont] in H.
    change (0x81 - 0x80) with 1 in H. unfold dec_map in H.
    change (Z.to_nat 1) with 1%nat in H. cbn [dec_pairs] in H.
    destruct n as [|n]; [done|]. cbn [decode] in H.
    rewrite decode_str in H by lia. cbn [mbind option_bind] in H.
    apply bind_Some in H as ([l1 r1] & E & [= <- <-]).
    apply bind_Some in E as ([v1 r2] & E & [= <- <-]).
    apply (IH (S n) d) in E as [-> ->]; done.
Qed.

(** ** What is accepted is a shortest form *)
Definition run_sound (rec : canonicalizer → result canonicalizer) : Prop :=
  ∀ c c' fuel w rest, rec c = Ok c' → bytes_ok (buf c) → decode fuel (buf c) = Some (w, rest) →
  (length (path c) ≤ 64)%nat ∧
  ∃ v, snow_acc (64 - length (path c)) v = true ∧ buf c = shortest v ++ buf c' ∧
       path c' = path c ∧ bytes_ok (buf c').

Lemma depth_succ {A} (p : list A) x : (length (p ++ [x]) ≤ 64)%nat →
  (64 - length p = S (64 - length (p ++ [x])))%nat.
Proof. rewrite length_app. simpl. lia. Qed.

Lemma runMap_sound rec n c c' fuel ps rest :
  run_sound rec → runMap rec n c = Ok c' → bytes_ok (buf c) → 0 <= n →
  dec_pairs (decode fuel) (Z.to_nat n) (buf c) = Some (ps, rest) →
  ∃ l, snow_acc (64 - length (path c)) (MMap l) = true ∧ len l = n ∧ n < 16 ∧
       buf c = concat (map (λ kv, shortest kv.1 ++ shortest kv.2) l) ++ buf c' ∧
       path c' = path c ∧ bytes_ok (buf c').
Proof.
  intros Hrec H Hb Hn D. unfold runMap in H.
  destruct (n =? 0) eqn:En.
  { injection H as <-. exists []. apply Z.eqb_eq in En. subst n. repeat split; done. }
  apply bind_Ok in H as (? & Hg & H). apply guard_err_Ok, negb_false_iff, Z.eqb_eq in Hg. subst n.
  apply bind_Ok in H as ([s c1] & H0 & H2). apply readShortString_inv in H0 as (E1 & Hs & Hbs & Hb1 & Hp1); [|done].
  apply bind_Ok in H2 as (c2 & H2 & [= <-]).
  change (Z.to_nat 1) with 1%nat in D. cbn [dec_pairs] in D. destruct fuel as [|fuel]; [done|]. cbn [decode] in D.
  rewrite E1, decode_str in D by lia. apply bind_Some in D as ([k r] & [= <- <-] & D). apply bind_Some in D as ([w r] & D & _).
  destruct (Hrec _ _ (S fuel) _ _ H2 Hb1 D) as (Hd & v & Hv & E2 & Hp2 & Hb2). cbn [buf path] in *.
  exists [(MStr s, v)]. rewrite Hp1 in *. split.
  { rewrite (depth_succ _ _ Hd). cbn [snow_acc].
    rewrite bool_decide_eq_true_2 by done. rewrite (proj2 (Z.leb_le _ _)) by lia. done. }
  split; [done|]. split; [lia|]. split; [|split; [|done]].
  - rewrite E1, E2. cbn [map concat shortest fst snd]. by rewrite app_nil_r, <- !app_assoc.
  - rewrite Hp2. apply take_app_length.
Qed.

Lemma array_loop_sound rec p m i c i' c' fuel ws rest :
  run_sound rec → path c = p → bytes_ok (buf c) → dec_list (decode fuel) m (buf c) = Some (ws, rest) →
  loop_nat (array_step rec (length p)) m (i, c) = inl (i', c') →
  ∃ l, forallb (snow_acc (64 - S (length p))) l = true ∧ length l = m ∧
       (m ≠ 0 → length p < 64)%nat ∧ buf c = concat (map shortest l) ++ buf c' ∧ path c' = p ∧ bytes_ok (buf c').
Proof.
  intros Hrec. revert i c ws rest. induction m as [|m IH]; intros i c ws rest Hp Hb D H; cbn [loop_nat] in H.
  { simplify_eq. exists []. repeat split; done. }
  unfold array_step at 1 in H. destruct (rec _) as [c1|] eqn:E1; [|done].
  cbn [dec_list] in D. apply bind_Some in D as ([w r1] & D1 & D). apply bind_Some in D as ([ws' r2] & D & _).
  destruct (Hrec _ _ _ _ _ E1 Hb D1) as (Hd & v & Hv & E2 & Hp2 & Hb2). cbn [buf path] in *.
  rewrite E2 in D1. destruct (decode_shortest v _ _ _ _ _ Hv D1) as [_ ->].
  rewrite Hp in *. rewrite Hp2, take_app_length in H.
  eapply IH in H as (l & Hl & Hlen & _ & E3 & Hp3 & Hb3); [|done..]. cbn [buf path] in *.
  rewrite length_app in Hd, Hv. simpl in Hd, Hv. rewrite Nat.add_1_r in Hv.
  exists (v :: l). cbn [forallb length map concat]. rewrite Hv, Hl, E2, E3, <- app_assoc.
  repeat split; try done; lia.
Qed.

Lemma runArray_sound rec n c c' fuel ws rest :
  run_sound rec → runArray rec n c = Ok c' → bytes_ok (buf c) → dec_list (decode fuel) (Z.to_nat n) (buf c) = Some (ws, rest) → 0 <= n → 1 <= n <= 15 ∨ 32 <= n < 2 ^ 32 →
  ∃ l, snow_acc (64 - length (path c)) (MArr l) = true ∧ len l = n ∧
       buf c = concat (map shortest l) ++ buf c' ∧ path c' = path c ∧ bytes_ok (buf c').
Proof.
  intros Hrec H Hb D Hn Hr. unfold runArray in H. apply bind_Ok in H as (? & _ & H).
  rewrite loop_pos_nat in H. destruct (loop_nat _ _ _) as [[i1 c1]|] eqn:E; [|done].
  injection H as <-. replace (Z.to_nat n) with (Pos.to_nat (Z.to_pos n)) in D by lia.
  eapply array_loop_sound in E as (l & Hl & Hlen & Hd & E & Hp & Hb1); [|done..].
  exists l. replace (64 - length (path c))%nat with (S (64 - S (length (path c)))) by lia.
  cbn [snow_acc]. unfold len. rewrite Hl, Hlen. repeat split; try done; lia.
Qed.

Lemma leaf_sound d v bs rest (p : list StructStep) :
  bs = shortest v ++ rest → snow_acc d v = true → bytes_ok rest →
  ∃ w, snow_acc d w = true ∧ bs = shortest w ++ rest ∧ p = p ∧ bytes_ok rest.
Proof. eauto. Qed.

(** Inverts the reading of a header's length or integer and its guards. *)
Ltac inv_guards H :=
  repeat match type of H with
  | (guard_err _ _ ≫= _) = Ok _ =>
      let Hg := fresh "Hg" in apply bind_Ok in H as (? & Hg & H); apply guard_err_Ok in Hg
  end.
Ltac inv_read H lem :=
  let u := fresh "u" in let c := fresh "c" in let Hr := fresh "Hr" in
  let E := fresh "E" in
  apply bind_Ok in H as ([u c] & Hr & H);
  apply or_genErr_Ok, lem in Hr as (E & ? & ? & <-); [|done || lia..];
  rewrite E; inv_guards H.
Ltac sound_uint H :=
  inv_read H read_be_inv; bound_pows; injection H as <-;
  match goal with
  | E : buf _ = be_enc _ ?u ++ _ |- _ => apply (leaf_sound _ (MInt u)); [|cbn [snow_acc]; lia|done]
  end;
  cbn [shortest]; unfold enc_int; pick_form; reflexivity.
Ltac sound_sint H :=
  inv_read H read_signed_inv; bound_pows; injection H as <-;
  match goal with
  | E : buf _ = be_enc _ (?u mod _) ++ _ |- _ => apply (leaf_sound _ (MInt u)); [|cbn [snow_acc]; lia|done]
  end;
  cbn [shortest]; unfold enc_int; pick_form; reflexivity.
Ltac sound_bytes H M hdr :=
  inv_read H read_be_inv; bound_pows;
  apply readString_inv in H as (s & E' & Hn & ? & ? & ?); [|lia|done];
  exists (M s); cbn [shortest snow_acc]; rewrite Hn, E'; rewrite bool_decide_eq_true_2 by done;
  unfold hdr; pick_form; split; [lia|]; split; [|done]; by rewrite <- app_assoc.
Ltac sound_arr H D :=
  let E0 := fresh in
  inv_read H read_be_inv; match goal with E : buf _ = be_enc _ _ ++ _ |- _ => rewrite E in D end; bound_pows;
  cbn [decode_body] in D; lazy iota in D; rewrite take_be_app in D by (bound_pows; lia);
  unfold dec_arr in D; cbn [mbind option_bind] in D; apply bind_Some in D as ([ws r] & D & _);
  eapply runArray_sound in H as (l & Hl & Hn & E' & ? & ?); [|done || lia..];
  exists (MArr l); rewrite E'; split; [done|]; cbn [shortest]; rewrite Hn; unfold arr_hdr; pick_form;
  split; [|done]; by rewrite <- app_assoc.

Lemma run_tagged_sound rec b c c' fuel w rest :
  run_sound rec → run_tagged rec b c = Ok c' → bytes_ok (buf c) → 0xc0 <= b <= 0xdf →
  decode_body (decode fuel) (b :: buf c) = Some (w, rest) →
  ∃ v, snow_acc (64 - length (path c)) v = true ∧ b :: buf c = shortest v ++ buf c' ∧
       path c' = path c ∧ bytes_ok (buf c').
Proof.
  intros Hrec H Hb1 Hbr D. unfold run_tagged, mpNegativeFixMin in H.
  assert (In b (map (λ k, 0xc0 + Z.of_nat k) (seq 0 32))) as Hc.
  { apply in_map_iff. exists (Z.to_nat (b - 0xc0)). split; [lia|]. apply in_seq. lia. }
  clear Hbr. vm_compute in Hc.
  repeat destruct Hc as [<-|Hc]; [..|done]; lazy iota in H; try discriminate H.
  - injection H as <-. by apply (leaf_sound _ MNil).
  - done.
  - injection H as <-. by apply (leaf_sound _ (MBool false)).
  - injection H as <-. by apply (leaf_sound _ (MBool true)).
  - sound_bytes H MBin bin_hdr.
  - sound_bytes H MBin bin_hdr.
  - sound_bytes H MBin bin_hdr.
  - sound_uint H.
  - sound_uint H.
  - sound_uint H.
  - sound_uint H.
  - sound_sint H.
  - sound_sint H.
  - sound_sint H.
  - sound_sint H.
  - sound_bytes H MStr str_hdr.
  - sound_bytes H MStr str_hdr.
  - sound_bytes H MStr str_hdr.
  - sound_arr H D.
  - sound_arr H D.
Qed.

Lemma run_switch_sound rec b c c' fuel w rest :
  run_sound rec → run_switch rec b c = Ok c' → bytes_ok (buf c) → 0 <= b < 256 →
  decode_body (decode fuel) (b :: buf c) = Some (w, rest) →
  ∃ v, snow_acc (64 - length (path c)) v = true ∧ b :: buf c = shortest v ++ buf c' ∧
       path c' = path c ∧ bytes_ok (buf c').
Proof.
  intros Hrec H Hb1 Hbr D. unfold run_switch in H.
  unfold mpPositiveFixMax, mpFixMapMin, mpFixMapMax, mpFixArrayMin, mpFixArrayMax, mpFixStrMin,
    mpFixStrMax, mpNegativeFixMin, mpNegativeFixMax in H.
  destruct (b <=? 127) eqn:C1.
  { simplify_eq. apply (leaf_sound _ (MInt b)); [|simpl; lia|done].
    simpl. unfold enc_int. by pick_form. }
  destruct ((b >=? 128) && (b <=? 143)) eqn:C2.
  { replace b with (0x80 + (b - 0x80)) in H at 1 by lia. rewrite fix_map_mask in H by lia.
    cbn [decode_body] in D. unfold dec_map in D. replace (b <? 128) with false in D by lia. replace (b <? 144) with true in D by lia.
    apply bind_Some in D as ([ps r] & D & _).
    eapply runMap_sound in H as (l & Hl & Hn & _ & E & ? & ?); [|done..|lia|done].
    exists (MMap l). rewrite E. split; [done|]. cbn [shortest]. unfold map_hdr. pick_form.
    split; [|done]. rewrite Hn. simpl. f_equal. lia. }
  destruct ((b >=? 144) && (b <=? 159)) eqn:C3.
  { replace b with (0x90 + (b - 0x90)) in H at 1 by lia. rewrite fix_arr_mask in H by lia.
    destruct (decide (b = 0x90)) as [->|]; [done|].
    cbn [decode_body] in D. unfold dec_arr in D. replace (b <? 128) with false in D by lia. replace (b <? 144) with false in D by lia.
    replace (b <? 160) with true in D by lia. apply bind_Some in D as ([ps r] & D & _).
    eapply runArray_sound in H as (l & Hl & Hn & E & ? & ?); [|done..|lia|lia].
    exists (MArr l). rewrite E. split; [done|]. cbn [shortest]. unfold arr_hdr. pick_form.
    split; [|done]. rewrite Hn. simpl. f_equal. lia. }
  destruct ((b >=? 160) && (b <=? 191)) eqn:C4.
  { replace b with (0xa0 + (b - 0xa0)) in H at 1 by lia. rewrite fix_str_mask in H by lia.
    apply readString_inv in H as (s & E & Hn & ? & ? & ?); [|lia|done].
    exists (MStr s). rewrite E. cbn [shortest snow_acc]. unfold str_hdr. pick_form.
    rewrite bool_decide_eq_true_2 by done. split; [lia|]. split; [|done]. simpl. f_equal. lia. }
  destruct ((b >=? 224) && (b <=? 255)) eqn:C5.
  { simplify_eq. apply (leaf_sound _ (MInt (b - 256))); [|simpl; lia|done].
    simpl. unfold enc_int. pick_form. simpl. f_equal. lia. }
  eapply run_tagged_sound; eauto. lia.
Qed.

Lemma run_body_sound rec : run_sound rec → run_sound (run_body rec).
Proof.
  intros Hrec c c' fuel w rest H Hb D. unfold run_body in H. apply bind_Ok in H as (? & Hd & H).
  apply guard_err_Ok in Hd. unfold maxDepth in Hd. unfold len in Hd. split; [lia|].
  apply bind_Ok in H as ([b c1] & Hr & H).
  apply or_genErr_Ok, read_be_inv in Hr as (E & Hbr & Hb1 & Hp1); [|done].
  change (256 ^ Z.of_nat 1) with 256 in Hbr.
  change (be_enc 1 b) with [b mod 256] in E. rewrite Z.mod_small in E by lia.
  rewrite E in D. destruct fuel as [|fuel]; [done|]. cbn [decode app] in D. rewrite E, <- Hp1. cbn [app]. by eapply run_switch_sound.
Qed.

Lemma run_is_sound n : run_sound (run n).
Proof. induction n; [done|]. by apply run_body_sound. Qed.

(** ** Every shortest form of such a value is accepted *)
Lemma run_body_cons rec b rest p :
  0 <= b < 256 → (length p ≤ 64)%nat →
  run_body rec (mkCanonicalizer (b :: rest) p) = run_switch rec b (mkCanonicalizer rest p).
Proof.
  intros Hb Hp. unfold run_body. cbn [path]. unfold maxDepth, len.
  replace (Z.of_nat (length p) >? 64) with false by lia. cbn [guard_err mbind result_bind].
  unfold readUint8. change (b :: rest) with ([b] ++ rest).
  replace [b] with (be_enc 1 b) by (cbn; f_equal; lia).
  rewrite read_be_app by (change (256 ^ Z.of_nat 1) with 256; lia). done.
Qed.

Lemma run_switch_tagged rec b c : 0xc0 <= b <= 0xdf → run_switch rec b c = run_tagged rec b c.
Proof.
  intros. unfold run_switch, mpPositiveFixMax, mpFixMapMin, mpFixMapMax, mpFixArrayMin,
    mpFixArrayMax, mpFixStrMin, mpFixStrMax, mpNegativeFixMin, mpNegativeFixMax.
  by pick_form.
Qed.

(** Evaluates the canonicalizer on a header of known form. *)
Ltac eval_run :=
  rewrite <- ?app_assoc; cbn [app];
  rewrite run_body_cons by lia;
  first
    [ rewrite run_switch_tagged by lia; cbn [run_tagged];
      unfold readUint8, readUint16, readUint32, readUint64, readInt8, readInt16, readInt32, readInt64;
      first [rewrite read_be_app by (bound_pows; lia) | rewrite read_signed_app by (bound_pows; lia)];
      bound_pows; cbn [or_genErr mbind result_bind];
      pick_form; unfold guard_err; pick_form; cbn [mbind result_bind]
    | unfold run_switch, mpPositiveFixMax, mpFixMapMin, mpFixMapMax, mpFixArrayMin,
        mpFixArrayMax, mpFixStrMin, mpFixStrMax, mpNegativeFixMin, mpNegativeFixMax; pick_form ].

Lemma run_int rec z rest p :
  (length p ≤ 64)%nat → - 2 ^ 63 <= z < 2 ^ 64 →
  run_body rec (mkCanonicalizer (enc_int z ++ rest) p) = Ok (mkCanonicalizer rest p).
Proof.
  intros Hp Hz. unfold enc_int.
  repeat match goal with |- context [if ?b then _ else _] => destruct b eqn:? end;
    by eval_run.
Qed.

Lemma run_str rec s rest p :
  (length p ≤ 64)%nat → len s < 2 ^ 32 →
  run_body rec (mkCanonicalizer (str_hdr (len s) ++ s ++ rest) p) = Ok (mkCanonicalizer rest p).
Proof.
  intros Hp Hs. assert (0 <= len s) by (unfold len; lia). unfold str_hdr.
  repeat match goal with |- context [if ?b then _ else _] => destruct b eqn:? end; eval_run;
    rewrite ?fix_str_mask by lia; apply readString_app.
Qed.

Lemma run_bin rec s rest p :
  (length p ≤ 64)%nat → len s < 2 ^ 32 →
  run_body rec (mkCanonicalizer (bin_hdr (len s) ++ s ++ rest) p) = Ok (mkCanonicalizer rest p).
Proof.
  intros Hp Hs. assert (0 <= len s) by (unfold len; lia). unfold bin_hdr.
  repeat match goal with |- context [if ?b then _ else _] => destruct b eqn:? end; eval_run;
    apply readString_app.
Qed.

Lemma run_arr_hdr rec n rest p :
  (length p ≤ 64)%nat → 1 <= n <= 15 ∨ 32 <= n < 2 ^ 32 →
  run_body rec (mkCanonicalizer (arr_hdr n ++ rest) p) = runArray rec n (mkCanonicalizer rest p).
Proof.
  intros Hp Hs. unfold arr_hdr.
  repeat match goal with |- context [if ?b then _ else _] => destruct b eqn:? end; eval_run;
    by rewrite ?fix_arr_mask by lia.
Qed.

Definition run_complete (rec : canonicalizer → result canonicalizer) (d : nat) (v : mp) : Prop :=
  ∀ rest p, (length p + d ≤ 64)%nat → snow_acc d v = true →
  rec (mkCanonicalizer (shortest v ++ rest) p) = Ok (mkCanonicalizer rest p).

Lemma runArray_complete rec d l rest p :
  l ≠ [] → Forall (run_complete rec d) l → forallb (snow_acc d) l = true →
  (length p + S d ≤ 64)%nat →
  runArray rec (len l) (mkCanonicalizer (concat (map shortest l) ++ rest) p)
  = Ok (mkCanonicalizer rest p).
Proof.
  intros Hne Hl Hok Hp. unfold runArray, len.
  replace (Z.of_nat (length l) =? 0) with false by (destruct l; [done|simpl; lia]).
  cbn [guard_err mbind result_bind path].
  rewrite loop_pos_nat. replace (Pos.to_nat (Z.to_pos (Z.of_nat (length l)))) with (length l)
    by (destruct l; [done|simpl; lia]).
  assert (∀ i, loop_nat (array_step rec (length p)) (length l)
      (i, mkCanonicalizer (concat (map shortest l) ++ rest) p)
    = inl (i + len l, mkCanonicalizer rest p)) as ->; [|done].
  clear Hne. induction Hl as [|v l Hv Hl IH]; intros i.
  { unfold len. cbn. by rewrite Z.add_0_r. }
  cbn [forallb] in Hok. apply andb_true_iff in Hok as [Hov Hol].
  cbn [length loop_nat map concat]. unfold array_step at 1. cbn [buf path].
  rewrite <- app_assoc, Hv by (done || rewrite length_app; simpl; lia). cbn [buf path].
  rewrite take_app_length, IH by done. unfold len. cbn [length].
  rewrite Nat2Z.inj_succ. do 2 f_equal. lia.
Qed.

Lemma runMap_complete rec d k v rest p :
  run_complete rec d v → snow_acc (S d) (MMap [(MStr k, v)]) = true →
  (length p + S d ≤ 64)%nat →
  runMap rec 1 (mkCanonicalizer (str_hdr (len k) ++ k ++ shortest v ++ rest) p)
  = Ok (mkCanonicalizer rest p).
Proof.
  intros Hv Hok Hp. cbn [snow_acc] in Hok.
  apply andb_true_iff in Hok as [[_ Hk%Z.leb_le]%andb_true_iff Hok].
  unfold runMap. cbn [Z.eqb Pos.eqb guard_err mbind result_bind negb path].
  rewrite readShortString_app by done. cbn [mbind result_bind buf path].
  rewrite Hv by (done || rewrite length_app; simpl; lia).
  cbn [mbind result_bind buf path]. by rewrite take_app_length.
Qed.

Lemma run_is_complete v : ∀ n d, (d < n)%nat → run_complete (run n) d v.
Proof.
  induction v as [|b|z|s|s|l IH|l IH] using mp_nested_ind; intros n d Hn rest p Hp Hok;
    destruct n as [|n]; try lia; cbn [run shortest].
  - cbn [app]. by rewrite run_body_cons by lia.
  - destruct b; cbn [app]; by rewrite run_body_cons by lia.
  - cbn [snow_acc] in Hok. apply run_int; lia.
  - cbn [snow_acc] in Hok. rewrite <- app_assoc. apply run_str; lia.
  - cbn [snow_acc] in Hok. rewrite <- app_assoc. apply run_bin; lia.
  - cbn [snow_acc] in Hok. destruct d as [|d]; [done|].
    apply andb_true_iff in Hok as [Hlen Hok]. rewrite <- app_assoc, run_arr_hdr by lia.
    apply (runArray_complete _ d); [|eapply Forall_impl; [apply IH|]|done|lia].
    + intros ->. unfold len in Hlen. simpl in Hlen. lia.
    + intros v Hv. apply Hv. lia.
  - destruct l as [|[k v] [|kv l]]; [| |by destruct k].
    { apply (run_body_cons (run n) 0x80); lia. }
    destruct k; try done. destruct d as [|d]; [done|].
    apply Forall_cons in IH as [[_ IH] _].
    cbn [shortest map concat fst snd]. rewrite app_nil_r, <- !app_assoc.
    change (map_hdr (len [(MStr s, v)])) with [0x81]. cbn [app]. rewrite run_body_cons by lia.
    change (run_switch (run n) 0x81) with (runMap (run n) 1).
    apply (runMap_complete _ d); [|done|lia]. apply IH. lia.
Qed.

(** ** Errors *)
Definition canonical_error (e : error) : Prop := ∃ e' p, e = CanonicalEncodingError e' p.

(** A step that refuses only with a [CanonicalEncodingError], and succeeds with [Q]. *)
Definition refuses_or {A} (Q : A → Prop) (r : result A) : Prop :=
  match r with Ok a => Q a | Err e => canonical_error e end.

Lemma refuses_bind {A B} (P : A → Prop) (Q : B → Prop) (r : result A) (f : A → result B) :
  refuses_or P r → (∀ a, P a → refuses_or Q (f a)) → refuses_or Q (r ≫= f).
Proof. destruct r; simpl; auto. Qed.
Lemma refuses_guard b c s : refuses_or (λ _, True) (guard_err b (genErrStr c s)).
Proof. destruct b; [repeat eexists|done]. Qed.
Lemma refuses_read n msg c : refuses_or (λ r, path r.2 = path c) (read_be n msg c).
Proof. eapply refuses_bind; [apply refuses_guard|done]. Qed.
Lemma refuses_read_signed n msg c : refuses_or (λ r, path r.2 = path c) (read_signed n msg c).
Proof. eapply refuses_bind; [apply refuses_read|]. by intros [u c']. Qed.
Lemma refuses_or_genErr {A} (Q : A → Prop) c r : refuses_or Q r → refuses_or Q (or_genErr c r).
Proof. destruct r; [done|]. intros _. repeat eexists. Qed.
Lemma refuses_string n c : refuses_or (λ c', path c' = path c) (readString n c).
Proof. eapply refuses_bind; [apply refuses_guard|done]. Qed.
Lemma refuses_short c : refuses_or (λ r, path r.2 = path c) (readShortString c).
Proof.
  eapply refuses_bind; [apply refuses_read|]. intros [u c1] Hp.
  eapply refuses_bind; [apply refuses_guard|]. intros _ _.
  by eapply refuses_bind; [apply refuses_guard|].
Qed.
Lemma refuses_weaken {A} (P Q : A → Prop) r : refuses_or P r → (∀ a, P a → Q a) → refuses_or Q r.
Proof. destruct r; simpl; auto. Qed.
Lemma refuses_err {A} (Q : A → Prop) c s : refuses_or Q (Err (genErrStr c s)).
Proof. repeat eexists. Qed.

Create HintDb refuses.
#[export] Hint Resolve refuses_guard refuses_read refuses_read_signed refuses_or_genErr
  refuses_string refuses_err : refuses.

Definition rec_refuses (rec : canonicalizer → result canonicalizer) (n : nat) : Prop :=
  ∀ c, length (path c) = n → refuses_or (λ c', path c' = path c) (rec c).

Section refuses.
Context (rec : canonicalizer → result canonicalizer) (n : nat).
Hypothesis Hrec : rec_refuses rec (S n).

Lemma runMap_refuses k c :
  length (path c) = n → refuses_or (λ c', path c' = path c) (runMap rec k c).
Proof using Hrec.
  intros Hc. unfold runMap. destruct (k =? 0); [done|].
  eapply refuses_bind; [apply refuses_guard|]. intros _ _.
  eapply refuses_bind; [apply refuses_short|]. intros [s c1] Hp. cbn in Hp.
  eapply refuses_bind.
  { apply Hrec. cbn. rewrite Hp, length_app. simpl. lia. }
  intros c2 Hp2. cbn in *. rewrite Hp2, Hp. apply take_app_length.
Qed.

Lemma array_loop_refuses m i c :
  length (path c) = n →
  match loop_nat (array_step rec n) m (i, c) with
  | inl (_, c') => path c' = path c | inr e => canonical_error e end.
Proof using Hrec.
  revert i c. induction m as [|m IH]; intros i c Hc; cbn [loop_nat]; [done|].
  unfold array_step at 1.
  pose proof (Hrec (mkCanonicalizer (buf c) (path c ++ [newStructStepWithIndex i]))) as H.
  destruct (rec _) as [c1|e]; cbn in H; (rewrite length_app in H; simpl in H); [|apply H; lia].
  rewrite H, take_app_len by lia.
  specialize (IH (i + 1) (mkCanonicalizer (buf c1) (path c))). by apply IH.
Qed.

Lemma runArray_refuses k c :
  length (path c) = n → refuses_or (λ c', path c' = path c) (runArray rec k c).
Proof using Hrec.
  intros Hc. eapply refuses_bind; [apply refuses_guard|]. intros _ _.
  rewrite loop_pos_nat, Hc. pose proof (array_loop_refuses (Pos.to_nat (Z.to_pos k)) 0 c Hc) as H.
  by destruct (loop_nat _ _ _) as [[]|].
Qed.

Lemma run_tagged_refuses b c :
  length (path c) = n → refuses_or (λ c', path c' = path c) (run_tagged rec b c).
Proof using Hrec.
  intros Hc. unfold run_tagged. repeat case_match; try done; try apply refuses_err;
    (eapply refuses_bind; [eauto with refuses|]; intros [u c1] Hp; cbn in Hp; rewrite <- Hp in *;
     repeat match goal with |- refuses_or _ (guard_err _ _ ≫= _) =>
       eapply refuses_bind; [apply refuses_guard|]; intros ? ? end;
     first [done | apply refuses_string | by apply runArray_refuses]).
Qed.

Lemma run_body_refuses c :
  length (path c) = n → refuses_or (λ c', path c' = path c) (run_body rec c).
Proof using Hrec.
  intros Hc. eapply refuses_bind; [apply refuses_guard|]. intros _ _.
  eapply refuses_bind; [apply refuses_or_genErr, refuses_read|]. intros [b c1] Hp.
  cbn in Hp. rewrite <- Hp in *. unfold run_switch. repeat case_match; try done.
  - by apply runMap_refuses.
  - by apply runArray_refuses.
  - apply refuses_string.
  - by apply run_tagged_refuses.
Qed.
End refuses.

Lemma run_refuses n : ∀ m, (65 < n + m)%nat → (m ≤ 65)%nat → rec_refuses (run n) m.
Proof.
  induction n as [|n IH]; intros m Hn Hm c Hc; [lia|]. cbn [run].
  destruct (decide (m = 65)%nat) as [->|].
  - unfold run_body. unfold maxDepth, len. rewrite Hc. repeat eexists.
  - apply (run_body_refuses _ m); [|done]. apply IH; lia.
Qed.

(** ** What the canonicalizer promises *)
Lemma accepted_shortest m n v :
  bytes_ok m → decode n m = Some (v, []) → AssertCanonicalMsgpack m = Ok () → snow_acc 64 v = true ∧ m = shortest v.
Proof.
  intros Hm D (c & H & Hb)%bind_Ok. apply guard_err_Ok, negb_false_iff, Z.eqb_eq in Hb.
  destruct (run_is_sound _ _ _ _ _ _ H Hm D) as (_ & v' & Hv & E & _). cbn in E, Hv.
  unfold len in Hb. rewrite (nil_length_inv (buf c)), app_nil_r in E by lia. subst m.
  rewrite <- (app_nil_r (shortest v')) in D. by apply (decode_shortest v' _ 64%nat) in D as [-> _].
Qed.
Lemma shortest_accepted v : snow_acc 64 v = true → AssertCanonicalMsgpack (shortest v) = Ok ().
Proof.
  intros Hv. unfold AssertCanonicalMsgpack. rewrite <- (app_nil_r (shortest v)).
  rewrite (run_is_complete v _ 64) by (done || (unfold maxDepth; simpl; lia)). done.
Qed.


(** No two different byte strings that are accepted decode to the same value, so the hash
    or signature of a value is over the one encoding the checker lets through. *)
Theorem canonical_encoding_unique m1 m2 n1 n2 v :
  bytes_ok m1 → bytes_ok m2 →
  AssertCanonicalMsgpack m1 = Ok () → AssertCanonicalMsgpack m2 = Ok () →
  decode n1 m1 = Some (v, []) → decode n2 m2 = Some (v, []) → m1 = m2.
Proof.
  intros Hb1 Hb2 H1 H2 D1 D2. destruct (accepted_shortest _ _ _ Hb1 D1 H1) as [_ ->].
  by destruct (accepted_shortest _ _ _ Hb2 D2 H2) as [_ ->].
Qed.

(** A list of 16 to 31 elements has no encoding the checker accepts: the format has no
    fixed header for it, and the two-byte header is refused up to 31 elements. *)
Theorem list_of_16_to_31_refused l m n :
  bytes_ok m → 16 <= len l <= 31 → decode n m = Some (MArr l, []) → AssertCanonicalMsgpack m ≠ Ok ().
Proof.
  intros Hb Hl D Ha. destruct (accepted_shortest _ _ _ Hb D Ha) as [Hv _]. cbn [snow_acc] in Hv. lia.
Qed.

(** The byte the format reserves is accepted, though it encodes nothing. *)
Lemma reserved_byte_accepted :
  AssertCanonicalMsgpack [0xc1] = Ok () ∧ ∀ n, decode n [0xc1] = None.
Proof. split; [reflexivity|]. by intros [|n]. Qed.

(** ** Examples *)
Definition ex_value : mp := MArr [MInt 300; MMap [(MStr [0x61], MInt (-200))]; MNil; MBin [1; 2]].


Lemma canonical_encoding_unique_witness : shortest ex_value = [0x94; 0xcd; 1; 44; 0x81; 0xa1; 0x61; 0xd1; 255; 56; 0xc0; 0xc4; 2; 1; 2].
Proof.
  apply (canonical_encoding_unique (shortest ex_value)
    [0x94; 0xcd; 1; 44; 0x81; 0xa1; 0x61; 0xd1; 255; 56; 0xc0; 0xc4; 2; 1; 2] 5 5 ex_value);
    [apply (bool_decide_unpack _); vm_compute; exact I..|reflexivity|reflexivity|reflexivity|reflexivity].
Defined.

Lemma list_of_16_to_31_refused_witness :
  AssertCanonicalMsgpack (shortest (MArr (replicate 16 MNil))) ≠ Ok ().
Proof.
  apply (list_of_16_to_31_refused (replicate 16 MNil) (shortest (MArr (replicate 16 MNil))) 3);
    [apply (bool_decide_unpack _); vm_compute; exact I|vm_compute; split; discriminate|reflexivity].
Defined.

(** The encodings of [lib/core/snowp_test.go] and their verdicts. *)
Example snowp_tests :
  map AssertCanonicalMsgpack
    [ [0x01; 0x02]; [0x01]; [0xcc; 0x01]; [0xcf; 0; 0; 0; 1; 255; 255; 255; 255];
      [0xdc; 0; 2; 3; 4]; [0xdd; 0; 0; 0; 1; 3];
      [0x92; 1; 0x92; 2; 0x92; 3; 0x82; 0xa1; 0x61; 4; 0xa1; 0x62; 5];
      [0x81; 0xa1; 0x61; 0x93; 1; 2; 0x83; 0xa1; 0x61; 3; 0xa1; 0x62; 4; 0xa1; 0x63; 5];
      [0xd1; 0xff; 0x80]; [0xd1; 0xff; 0x7f]; [0xd0; 0xe0]; [0xd0; 0xdf] ]
  = [ Err (CanonicalEncodingError (GoError "trailing junk at end of buffer") []); Ok ();
      Err (CanonicalEncodingError (GoError "uint8 underflow") []); Ok ();
      Err (CanonicalEncodingError (GoError "array16 where fixed array encoding is possible") []);
      Err (CanonicalEncodingError (GoError "array32 where shorter array is possible") []);
      Err (CanonicalEncodingError (GoError "map with more than one element not allowed")
        [mkStructStep 1 []; mkStructStep 1 []; mkStructStep 1 []]);
      Err (CanonicalEncodingError (GoError "map with more than one element not allowed")
        [mkStructStep (-1) [0x61]; mkStructStep 2 []]);
      Err (CanonicalEncodingError (GoError "short int16 encoding") []); Ok ();
      Err (CanonicalEncodingError (GoError "short int8 encoding") []); Ok () ].
Proof. vm_compute. reflexivity. Qed.
