(* ===== verification/SkipPointers.v ===== *)
(** * Skip pointers between Merkle roots ([lib/merkle/bits.go])

    Every root carries the hashes of a few earlier roots.  This file models
    which epochs those are ([MerkleBackpointerSequence]) and the path a client
    walks from a new root to one it knows ([MerkleCollectRoots]), with the
    termination and the length of that walk. *)
From S2P Require Import Prelude Bits.
Local Open Scope Z_scope.

(** ** The code *)

Definition MerkleEpnoFirst : Z := 1.
Definition MerkleEpno_IsValid (e : Z) : bool := MerkleEpnoFirst <=? e.

(** The [for (e - cursor).IsValid()] loop, on [uint64]; [None] when the fuel
    runs out. *)
Fixpoint mbs_loop (fuel : nat) (e cursor : Z) : option (list Z) :=
  match fuel with
  | O => None
  | S fuel =>
      let ptr := wrap64 (e - cursor) in
      if MerkleEpno_IsValid ptr then
        if nz (Z.land e cursor) then Some [ptr]
        else rest ← mbs_loop fuel e (wrap64 (Z.shiftl cursor 1)); Some (ptr :: rest)
      else Some []
  end.

(** 65 iterations are enough for every [uint64]: [mbs_loop_total] below. *)
Definition MerkleBackpointerSequence (e : Z) : list Z :=
  if (e =? 1) || (e =? 0) then []
  else if e =? 2 then [1]
  else if e =? 3 then [2; 1]
  else if e =? 4 then [3; 2; 1]
  else default [] (mbs_loop 65 e 1).

(** One round of the inner loop of [MerkleCollectRoots]. *)
Definition mcr_visit (end_ : Z) (roots : gset Z) (acc : Z * gset Z) (curr : Z) : Z * gset Z :=
  let '(start, siblings) := acc in
  (if end_ <=? curr then curr else start,
   if bool_decide (curr ∈ roots) then siblings else {[curr]} ∪ siblings).

Fixpoint mcr_loop (fuel : nat) (start end_ : Z) (path : list Z) (roots siblings : gset Z) :
    option (list Z * gset Z) :=
  if end_ <? start then
    match fuel with
    | O => None
    | S fuel =>
        let path := path ++ [start] in
        let roots := {[start]} ∪ roots in
        let '(start, siblings) :=
          foldl (mcr_visit end_ roots) (start, siblings) (MerkleBackpointerSequence start) in
        mcr_loop fuel start end_ path roots siblings
    end
  else Some (path, siblings).

Definition MerkleCollectRoots (fuel : nat) (start end_ : Z) : option (list Z * list Z) :=
  '(path, siblings) ← mcr_loop fuel start end_ [] ∅ ∅;
  Some (path, merge_sort Z.ge (elements siblings)).

(** ** The back pointer sequence *)

(** [low_zeros e i]: the [i] low bits of [e] are zero. *)
Abbreviation low_zeros e i := (2 ^ Z.of_nat i | e).

Lemma nz_land_pow b n : 0 ≤ n → nz (Z.land b (2 ^ n)) = Z.testbit b n.
Proof. intros. rewrite <- nz_land_pow2 by done. by rewrite Z.shiftl_1_l. Qed.

Lemma low_zeros_S e i :
  low_zeros e i → nz (Z.land e (2 ^ Z.of_nat i)) = false → low_zeros e (S i).
Proof.
  intros [q ->] Hb. rewrite nz_land_pow in Hb by lia.
  rewrite Z.mul_pow2_bits, Z.sub_diag, Z.bit0_odd in Hb by lia.
  rewrite <- Z.negb_even, negb_false_iff in Hb. apply Z.even_spec in Hb as [r ->].
  exists r. rewrite Nat2Z.inj_succ, Z.pow_succ_r by lia. ring.
Qed.

Lemma low_zeros_bit e i :
  low_zeros e i → nz (Z.land e (2 ^ Z.of_nat i)) = true → ¬ low_zeros e (S i).
Proof.
  intros _ Hb [q ->]. rewrite nz_land_pow in Hb by lia.
  rewrite Z.mul_pow2_bits in Hb by lia.
  rewrite Z.testbit_neg_r in Hb by lia. done.
Qed.

Lemma pow2_le_64 i : (i ≤ 63)%nat → 0 < 2 ^ Z.of_nat i ≤ 2 ^ 63.
Proof.
  intros. split; [by apply Z.pow_pos_nonneg; lia|]. apply Z.pow_le_mono_r; lia.
Qed.

Lemma low_zeros_le e i : 0 < e < 2 ^ 64 → low_zeros e i → 2 ^ Z.of_nat i ≤ e ∧ (i ≤ 63)%nat.
Proof.
  intros He Hd. assert (2 ^ Z.of_nat i ≤ e) by (apply Z.divide_pos_le; [lia|done]).
  split; [done|]. destruct (decide (i ≤ 63)%nat); [done|].
  assert (2 ^ 64 ≤ 2 ^ Z.of_nat i) by (apply Z.pow_le_mono_r; lia). lia.
Qed.

(** What the loop returns from cursor [2^i]: the pointers [e - 2^j], [j] from
    [i] up to the lowest set bit of [e], zero left out. *)
Inductive mbs_run (e : Z) : nat → list Z → Prop :=
  | mbs_zero i : e = 2 ^ Z.of_nat i → mbs_run e i []
  | mbs_stop i : 2 ^ Z.of_nat i < e → low_zeros e i → ¬ low_zeros e (S i) →
      mbs_run e i [e - 2 ^ Z.of_nat i]
  | mbs_next i l : 2 ^ Z.of_nat i < e → low_zeros e (S i) → mbs_run e (S i) l →
      mbs_run e i (e - 2 ^ Z.of_nat i :: l).

Lemma mbs_loop_run fuel e i :
  0 < e < 2 ^ 64 → low_zeros e i → (64 ≤ fuel + i)%nat →
  ∃ l, mbs_loop fuel e (2 ^ Z.of_nat i) = Some l ∧ mbs_run e i l.
Proof.
  intros He. revert i. induction fuel as [|fuel IH]; intros i Hi Hf.
  { pose proof (low_zeros_le _ _ He Hi). lia. }
  simpl. pose proof (low_zeros_le _ _ He Hi) as [Hle Hi63].
  pose proof (pow2_le_64 i Hi63).
  assert (wrap64 (e - 2 ^ Z.of_nat i) = e - 2 ^ Z.of_nat i) as ->
    by (apply Z.mod_small; lia).
  unfold MerkleEpno_IsValid, MerkleEpnoFirst.
  destruct (Z.leb_spec 1 (e - 2 ^ Z.of_nat i)); cycle 1.
  { eexists. split; [done|]. constructor. lia. }
  destruct (nz _) eqn:Hnz.
  { eexists. split; [done|]. constructor; [lia|done|]. by eapply low_zeros_bit. }
  pose proof (low_zeros_S _ _ Hi Hnz) as HS. pose proof (low_zeros_le _ _ He HS) as [_ HS63].
  assert (wrap64 (Z.shiftl (2 ^ Z.of_nat i) 1) = 2 ^ Z.of_nat (S i)) as ->.
  { rewrite Z.shiftl_mul_pow2 by lia. rewrite Nat2Z.inj_succ, Z.pow_succ_r by lia.
    change (2 ^ 1) with 2. rewrite Z.mul_comm. apply Z.mod_small.
    pose proof (pow2_le_64 (S i) HS63). rewrite Nat2Z.inj_succ, Z.pow_succ_r in * by lia. lia. }
  destruct (IH (S i) HS ltac:(lia)) as (l & -> & Hl). simpl.
  eexists. split; [done|]. constructor; [lia|done..].
Qed.

Lemma mbs_loop_total e : 0 < e < 2 ^ 64 → ∃ l, mbs_loop 65 e 1 = Some l ∧ mbs_run e 0 l.
Proof. intros He. apply (mbs_loop_run 65 e 0); [done|apply Z.divide_1_l|lia]. Qed.

Lemma MerkleBackpointerSequence_run e :
  5 ≤ e < 2 ^ 64 → mbs_run e 0 (MerkleBackpointerSequence e).
Proof.
  intros He. unfold MerkleBackpointerSequence.
  replace ((e =? 1) || (e =? 0)) with false by lia.
  replace (e =? 2) with false by lia. replace (e =? 3) with false by lia.
  replace (e =? 4) with false by lia.
  by destruct (mbs_loop_total e ltac:(lia)) as (l & -> & ?).
Qed.

Lemma low_zeros_pred e i : low_zeros e (S i) → low_zeros e i.
Proof.
  intros [q ->]. exists (2 * q). rewrite Nat2Z.inj_succ, Z.pow_succ_r by lia. ring.
Qed.

Lemma low_zeros_mono e i j : (i ≤ j)%nat → low_zeros e j → low_zeros e i.
Proof. intros Hij. induction Hij; eauto using low_zeros_pred. Qed.

Lemma mbs_run_range e i l x : 0 < e → mbs_run e i l → x ∈ l → 1 ≤ x ≤ e - 2 ^ Z.of_nat i.
Proof.
  intros He. induction 1 as [i|i|i l Hlt Hz Hrun IH]; intros Hx.
  - by apply not_elem_of_nil in Hx.
  - apply list_elem_of_singleton in Hx as ->. lia.
  - apply elem_of_cons in Hx as [->|Hx]; [lia|]. specialize (IH Hx).
    rewrite Nat2Z.inj_succ, Z.pow_succ_r in IH by lia.
    assert (0 < 2 ^ Z.of_nat i) by (apply Z.pow_pos_nonneg; lia). lia.
Qed.

Lemma mbs_run_sorted e i l : 0 < e → mbs_run e i l → StronglySorted Z.gt l.
Proof.
  intros He. induction 1 as [i|i|i l Hlt Hz Hrun IH]; repeat constructor; [done|].
  apply Forall_forall. intros x Hx. eapply mbs_run_range in Hx; [|done..].
  rewrite Nat2Z.inj_succ, Z.pow_succ_r in Hx by lia.
  assert (0 < 2 ^ Z.of_nat i) by (apply Z.pow_pos_nonneg; lia). lia.
Qed.

Lemma backptr_range e x :
  0 ≤ e < 2 ^ 64 → x ∈ MerkleBackpointerSequence e → 1 ≤ x < e.
Proof.
  intros He Hx. destruct (decide (5 ≤ e)) as [H5|H5].
  - pose proof (mbs_run_range e _ _ x ltac:(lia) (MerkleBackpointerSequence_run e ltac:(lia)) Hx).
    simpl in *. lia.
  - assert (e = 0 ∨ e = 1 ∨ e = 2 ∨ e = 3 ∨ e = 4) as [->|[->|[->|[->| ->]]]] by lia;
      match type of Hx with
      | _ ∈ ?l => let l' := eval vm_compute in l in change l with l' in Hx
      end; rewrite ?elem_of_cons, ?elem_of_nil in Hx; lia.
Qed.

Lemma backptr_sorted e : 0 ≤ e < 2 ^ 64 → StronglySorted Z.gt (MerkleBackpointerSequence e).
Proof.
  intros He. destruct (decide (5 ≤ e)) as [H5|H5].
  - apply (mbs_run_sorted e 0); [lia|]. apply MerkleBackpointerSequence_run. lia.
  - assert (e = 0 ∨ e = 1 ∨ e = 2 ∨ e = 3 ∨ e = 4) as [->|[->|[->|[->| ->]]]] by lia;
      vm_compute; repeat constructor.
Qed.

Lemma backptr_pred e : 2 ≤ e < 2 ^ 64 → ∃ l, MerkleBackpointerSequence e = (e - 1) :: l.
Proof.
  intros He. destruct (decide (5 ≤ e)) as [H5|H5].
  - pose proof (MerkleBackpointerSequence_run e ltac:(lia)) as Hrun.
    inversion Hrun; simpl in *; eauto; lia.
  - assert (e = 2 ∨ e = 3 ∨ e = 4) as [->|[->| ->]] by lia; vm_compute; eauto.
Qed.

(** ** The next hop towards [end_] *)

Definition hop (end_ start : Z) (l : list Z) : Z :=
  foldl (λ s c, if end_ <=? c then c else s) start l.

Lemma hop_below end_ s l : (∀ x, x ∈ l → x < end_) → hop end_ s l = s.
Proof.
  revert s. induction l as [|c l IH]; intros s Hl; [done|]. unfold hop in *. simpl.
  assert (c < end_) by (apply Hl; left). replace (end_ <=? c) with false by lia.
  apply IH. intros x Hx. apply Hl. by right.
Qed.

Lemma hop_run e i l t s :
  0 < e → mbs_run e i l → 1 ≤ t → 2 ^ Z.of_nat i ≤ e - t →
  ∃ j, low_zeros e j ∧ hop t s l = e - 2 ^ Z.of_nat j ∧ 2 ^ Z.of_nat j ≤ e - t ∧
       (¬ low_zeros e (S j) ∨ e - t < 2 ^ Z.of_nat (S j)).
Proof.
  intros He Hrun Ht. revert s.
  induction Hrun as [i Hi|i Hlt Hz Hnz|i l Hlt Hz Hrun IH]; intros s Hd.
  - lia.
  - exists i. split_and!; [done| |done|by left].
    unfold hop. simpl. by replace (t <=? e - 2 ^ Z.of_nat i) with true by lia.
  - destruct (decide (2 ^ Z.of_nat (S i) ≤ e - t)) as [Hle|Hgt].
    { unfold hop in *. simpl. apply IH. done. }
    exists i. split_and!; [by apply low_zeros_pred| |done|right; lia].
    unfold hop. simpl. replace (t <=? e - 2 ^ Z.of_nat i) with true by lia.
    apply hop_below. intros x Hx. eapply mbs_run_range in Hx; [|done..]. lia.
Qed.

Lemma hop_small e t : 2 ≤ e ≤ 4 → 1 ≤ t < e → hop t e (MerkleBackpointerSequence e) = t.
Proof.
  intros He Ht.
  assert (e = 2 ∨ e = 3 ∨ e = 4) as [->|[->| ->]] by lia;
  assert (t = 1 ∨ t = 2 ∨ t = 3) as [->|[->| ->]] by lia; (reflexivity || lia).
Qed.

Lemma hop_in end_ s l :
  (∃ x, x ∈ l ∧ end_ ≤ x) → hop end_ s l ∈ l ∧ end_ ≤ hop end_ s l.
Proof.
  revert s. induction l as [|c l IH]; intros s (x & Hx & Hle); [by apply not_elem_of_nil in Hx|].
  unfold hop in *. simpl.
  destruct (decide (Exists (λ x, end_ ≤ x) l)) as [Hex|Hnex]; rewrite Exists_exists in *.
  - destruct (IH (if end_ <=? c then c else s) Hex). split; [by right|done].
  - assert (∀ y, y ∈ l → y < end_) as Hbelow.
    { intros y Hy. destruct (decide (y < end_)); [done|]. destruct Hnex. exists y. split; [done|lia]. }
    fold (hop end_ (if end_ <=? c then c else s) l). rewrite hop_below by done.
    apply elem_of_cons in Hx as [->|Hx]; [|specialize (Hbelow _ Hx); lia].
    replace (end_ <=? c) with true by lia. split; [by left|done].
Qed.

(** ** The walk *)

(** [skip_path t s p]: [p] lists the roots visited from [s] down to, and not
    including, [t]; each hop follows a back pointer of the root it leaves. *)
Inductive skip_path (t : Z) : Z → list Z → Prop :=
  | skip_done : skip_path t t []
  | skip_step s s' p :
      t < s → s' ∈ MerkleBackpointerSequence s → t ≤ s' → skip_path t s' p →
      skip_path t s (s :: p).

(** [hops n s t]: [n] bounds the number of hops.  While the walk still clears
    the lowest set bit of [s], the number of trailing zeros grows; once it no
    longer can, the distance at least halves. *)
Inductive hops (n : nat) (s t : Z) : Prop :=
  | hops_done : s = t → hops n s t
  | hops_small : s ≤ 4 → (1 ≤ n)%nat → hops n s t
  | hops_up k : low_zeros s k → (128 ≤ n + k)%nat → hops n s t
  | hops_down k : low_zeros s k → s - t < 2 ^ Z.of_nat k → s - t < 2 ^ Z.of_nat n → hops n s t.

Lemma mcr_visit_foldl t roots s siblings l :
  (∀ x, x ∈ l → x ∉ roots) →
  foldl (mcr_visit t roots) (s, siblings) l = (hop t s l, siblings ∪ list_to_set l).
Proof.
  revert s siblings. induction l as [|c l IH]; intros s siblings Hl; simpl.
  { f_equal. set_solver. }
  rewrite bool_decide_eq_false_2 by (apply Hl; left).
  rewrite IH by (intros x Hx; apply Hl; by right).
  unfold hop. simpl. f_equal. set_solver.
Qed.

Lemma low_zeros_clear s j : low_zeros s j → ¬ low_zeros s (S j) → low_zeros (s - 2 ^ Z.of_nat j) (S j).
Proof.
  intros [q ->] Hn. destruct (Z.Even_or_Odd q) as [[r ->]|[r ->]].
  - destruct Hn. exists r. rewrite Nat2Z.inj_succ, Z.pow_succ_r by lia. ring.
  - exists r. rewrite Nat2Z.inj_succ, Z.pow_succ_r by lia. ring.
Qed.

Lemma low_zeros_sub s j : low_zeros s j → low_zeros (s - 2 ^ Z.of_nat j) j.
Proof. intros H. apply Z.divide_sub_r; [done|apply Z.divide_refl]. Qed.

Lemma low_zeros_lt s j k : low_zeros s k → ¬ low_zeros s (S j) → (k ≤ j)%nat.
Proof.
  intros Hk Hj. destruct (decide (k ≤ j)%nat); [done|]. destruct Hj.
  apply (low_zeros_mono _ _ k); [lia|done].
Qed.

Lemma pow2_lt_inv i j : 2 ^ Z.of_nat i < 2 ^ Z.of_nat j → (i < j)%nat.
Proof. intros H. apply Z.pow_lt_mono_r_iff in H; lia. Qed.

Lemma hops_next n s t :
  1 ≤ t < s → s < 2 ^ 64 → hops n s t →
  ∃ m, n = S m ∧ hops m (hop t s (MerkleBackpointerSequence s)) t.
Proof.
  intros Ht Hs Hh. destruct (decide (5 ≤ s)) as [H5|H5]; cycle 1.
  { rewrite hop_small by lia. destruct n as [|n]; [|by eauto using hops_done].
    destruct Hh as [?|? Hn|k Hk Hn|k Hk Hd Hn]; [lia|lia| |simpl in Hn; lia].
    pose proof (low_zeros_le s k ltac:(lia) Hk). lia. }
  destruct (hop_run s 0 (MerkleBackpointerSequence s) t s) as (j & Hj & -> & Hjd & Hmax);
    [lia|apply MerkleBackpointerSequence_run; lia|lia|simpl; lia|].
  pose proof (low_zeros_le s j ltac:(lia) Hj) as [_ Hj63].
  destruct Hh as [?|? _|k Hk Hn|k Hk Hd Hn]; [lia|lia|..].
  - destruct n as [|n]; [pose proof (low_zeros_le s k ltac:(lia) Hk); lia|].
    exists n. split; [done|]. destruct (decide (s - t < 2 ^ Z.of_nat (S j))) as [Hlt|Hge].
    + assert (k ≤ 63)%nat by (eapply low_zeros_le; [|done]; lia).
      apply hops_down with j; [by apply low_zeros_sub|..];
        rewrite Nat2Z.inj_succ, Z.pow_succ_r in Hlt by lia; [lia|].
      apply Z.lt_le_trans with (2 ^ Z.of_nat j); [lia|]. apply Z.pow_le_mono_r; lia.
    + destruct Hmax as [Hmax|]; [|lia].
      pose proof (low_zeros_lt _ _ _ Hk Hmax).
      apply hops_up with (S j); [by apply low_zeros_clear|lia].
  - destruct n as [|n]; [simpl in Hn; lia|]. exists n. split; [done|].
    assert (j < k)%nat by (apply pow2_lt_inv; lia).
    assert (j < S n)%nat by (apply pow2_lt_inv; lia).
    assert (s - t < 2 ^ Z.of_nat (S j)) as Hlt.
    { destruct Hmax as [Hmax|]; [|done]. pose proof (low_zeros_lt _ _ _ Hk Hmax). lia. }
    rewrite Nat2Z.inj_succ, Z.pow_succ_r in Hlt by lia.
    apply hops_down with j; [by apply low_zeros_sub|lia|].
    apply Z.lt_le_trans with (2 ^ Z.of_nat j); [lia|]. apply Z.pow_le_mono_r; lia.
Qed.

Lemma hop_range t s :
  1 ≤ t < s → s < 2 ^ 64 →
  let s' := hop t s (MerkleBackpointerSequence s) in
  s' ∈ MerkleBackpointerSequence s ∧ t ≤ s' < s.
Proof.
  intros Ht Hs s'. destruct (backptr_pred s ltac:(lia)) as [l Hl].
  destruct (hop_in t s (MerkleBackpointerSequence s)) as [Hin Hle].
  { exists (s - 1). rewrite Hl. split; [left|lia]. }
  pose proof (backptr_range s _ ltac:(lia) Hin). unfold s'. split; [done|lia].
Qed.

Lemma mcr_walk n s t path roots siblings :
  1 ≤ t ≤ s → s < 2 ^ 64 → hops n s t → (∀ r, r ∈ roots → s < r) →
  ∃ p, mcr_loop n s t path roots siblings =
         Some (path ++ p, siblings ∪ list_to_set (p ≫= MerkleBackpointerSequence)) ∧
       skip_path t s p ∧ (length p ≤ n)%nat.
Proof.
  revert s path roots siblings. induction n as [|n IH]; intros s path roots siblings Hts Hs Hh Hr.
  all: destruct (decide (s = t)) as [->|Hne];
    [exists []; rewrite app_nil_r; simpl; rewrite Z.ltb_irrefl, union_empty_r_L;
     split_and!; [done|constructor|lia]|].
  all: destruct (hops_next _ s t ltac:(lia) Hs Hh) as (m & Hm & Hh'); [simplify_eq].
  simplify_eq. simpl. replace (t <? s) with true by lia.
  pose proof (hop_range t s ltac:(lia) Hs) as [Hin Hrange].
  rewrite mcr_visit_foldl.
  2:{ intros x Hx%backptr_range; [|lia]. rewrite elem_of_union, elem_of_singleton.
      intros [->|Hxr%Hr]; lia. }
  destruct (IH (hop t s (MerkleBackpointerSequence s)) (path ++ [s]) ({[s]} ∪ roots)
    (siblings ∪ list_to_set (MerkleBackpointerSequence s))) as (p & -> & Hp & Hlen); [lia|lia|done|..].
  { intros r [->%elem_of_singleton|Hxr%Hr]%elem_of_union; lia. }
  exists (s :: p). rewrite <- app_assoc. split_and!; [|by econstructor; [lia|..]; try done; lia|simpl; lia].
  do 2 f_equal. simpl. rewrite list_to_set_app_L. set_solver.
Qed.

#[local] Instance Z_ge_trans : Transitive Z.ge.
Proof. intros x y z. lia. Qed.
#[local] Instance Z_ge_total : Total Z.ge.
Proof. intros x y. lia. Qed.

Lemma sorted_ge_gt l : NoDup l → StronglySorted Z.ge l → StronglySorted Z.gt l.
Proof.
  intros Hnd Hs. induction Hs as [|x l Hs IH Hx]; [constructor|].
  apply NoDup_cons in Hnd as [Hnx Hnd]. constructor; [by apply IH|].
  rewrite Forall_forall in *. intros y Hy. specialize (Hx y Hy).
  assert (x ≠ y) by congruence. lia.
Qed.

Lemma mcr_loop_epoch_zero fuel s path roots siblings :
  1 ≤ s < 2 ^ 64 → mcr_loop fuel s 0 path roots siblings = None.
Proof.
  revert s path roots siblings.
  induction fuel as [|fuel IH]; intros s path roots siblings Hs; simpl;
    replace (0 <? s) with true by lia; [done|].
  assert (∀ l acc, (∀ x, x ∈ l → 1 ≤ x < 2 ^ 64) → 1 ≤ acc.1 < 2 ^ 64 →
    1 ≤ (foldl (mcr_visit 0 ({[s]} ∪ roots)) acc l).1 < 2 ^ 64) as Hfold.
  { induction l as [|c l IHl]; intros [a sib] Hl Ha; simpl; [done|]. apply IHl.
    - intros x Hx. apply Hl. by right.
    - simpl in *. assert (1 ≤ c < 2 ^ 64) by (apply Hl; left). by replace (0 <=? c) with true by lia. }
  specialize (Hfold (MerkleBackpointerSequence s) (s, siblings)).
  destruct (foldl _ _ _) as [s' sib']. apply IH. apply Hfold; [|done].
  intros x Hx%backptr_range; lia.
Qed.

(** ** Properties *)

(** From the second epoch on, the back pointers of epoch [e] are valid
    earlier epochs in strictly decreasing order, and the first of them is the
    preceding epoch, so that every root commits to the whole history. *)
Theorem backpointer_sequence_correct e :
  2 ≤ e < 2 ^ 64 →
  (∃ l, MerkleBackpointerSequence e = (e - 1) :: l) ∧
  StronglySorted Z.gt (MerkleBackpointerSequence e) ∧
  (∀ x, x ∈ MerkleBackpointerSequence e → 1 ≤ x < e).
Proof.
  intros He. split_and!; [by apply backptr_pred|apply backptr_sorted; lia|].
  intros x. apply backptr_range. lia.
Qed.

Lemma backpointer_sequence_correct_witness :
  MerkleBackpointerSequence 12 = [11; 10; 8] ∧ ∃ l, MerkleBackpointerSequence 12 = 11 :: l.
Proof.
  split; [reflexivity|].
  exact (proj1 (backpointer_sequence_correct 12 ltac:(lia))).
Defined.

Lemma collect_roots_run start end_ :
  1 ≤ end_ < start → start < 2 ^ 64 →
  ∃ path siblings, MerkleCollectRoots 128 start end_ = Some (path, siblings) ∧
    skip_path end_ start path ∧ (length path ≤ 128)%nat.
Proof.
  intros Hend Hstart.
  destruct (mcr_walk 128 start end_ [] ∅ ∅) as (p & Hp & Hpath & Hlen); [lia|done|..].
  { apply hops_up with 0%nat; [apply Z.divide_1_l|lia]. }
  { set_solver. }
  unfold MerkleCollectRoots. rewrite Hp. simpl. by eexists p, _.
Qed.

(** C39: between two [uint64] epochs with [1 <= end < start] the walk of
    [MerkleCollectRoots] ends after at most 128 hops.  The roots it visits form
    a path along back pointers from [start] to [end], and the second result
    lists, newest first, exactly the epochs whose hashes those roots commit to. *)
Theorem collect_roots_correct start end_ :
  1 ≤ end_ < start → start < 2 ^ 64 →
  ∃ path siblings,
    MerkleCollectRoots 128 start end_ = Some (path, siblings) ∧
    skip_path end_ start path ∧ (length path ≤ 128)%nat ∧
    StronglySorted Z.gt siblings ∧
    (∀ x, x ∈ siblings ↔ ∃ e, e ∈ path ∧ x ∈ MerkleBackpointerSequence e).
Proof.
  intros Hend Hstart.
  destruct (mcr_walk 128 start end_ [] ∅ ∅) as (p & Hp & Hpath & Hlen); [lia|done|..].
  { apply hops_up with 0%nat; [apply Z.divide_1_l|lia]. }
  { set_solver. }
  unfold MerkleCollectRoots. rewrite Hp. simpl.
  eexists p, _. split_and!; [done..| |].
  - apply sorted_ge_gt; [|apply (StronglySorted_merge_sort Z.ge)].
    rewrite merge_sort_Permutation. apply NoDup_elements.
  - intros x. rewrite merge_sort_Permutation, elem_of_elements, union_empty_l_L.
    rewrite elem_of_list_to_set, list_elem_of_bind. naive_solver.
Qed.

Lemma collect_roots_correct_witness :
  MerkleCollectRoots 128 100 37 = Some ([100; 96; 64; 48; 40; 38], [99; 98; 96; 95; 94; 92; 88; 80; 64; 63; 62; 60; 56; 48; 47; 46; 44; 40; 39; 38; 37; 36; 32]) ∧
  ∃ path siblings, MerkleCollectRoots 128 100 37 = Some (path, siblings) ∧ skip_path 37 100 path.
Proof.
  split; [vm_compute; reflexivity|].
  destruct (collect_roots_correct 100 37) as (path & sib & H1 & H2 & _); [lia|lia|].
  exists path, sib. split; [exact H1|exact H2].
Defined.

(** With epoch 0 as its target the walk never ends: no number of
    iterations lets [MerkleCollectRoots] return. *)
Theorem collect_roots_epoch_zero_diverges fuel start :
  1 ≤ start < 2 ^ 64 → MerkleCollectRoots fuel start 0 = None.
Proof. intros Hs. unfold MerkleCollectRoots. by rewrite mcr_loop_epoch_zero. Qed.

Lemma collect_roots_epoch_zero_diverges_witness : MerkleCollectRoots 1000 7 0 = None.
Proof. exact (collect_roots_epoch_zero_diverges 1000 7 ltac:(lia)). Defined.
