(* ===== verification/MerkleTypes.v ===== *)
(** * Merkle tree data

    The protocol records of [proto/lib/merkle.go] that the Merkle code builds,
    hashes and verifies, and the hashing entry points of [lib/merkle/lib.go].

    The MessagePack codec and SHA-512/256 are third-party code: they are the
    fields of the class [Codec], and every definition below that hashes or
    encodes takes an instance of it. *)
From S2P Require Import Prelude Bits SkipPointers.

(** ** Protocol records

    Fixed-size byte arrays ([MerkleNodeHash], [MerkleTreeRFOutput], [StdHash],
    [MerkleRootHash], ..., all 32 bytes) are byte lists; the length is part of
    the well-formedness predicates that need it. *)
Inductive MerkleNodeType := MerkleNodeType_Leaf | MerkleNodeType_Node.

#[global] Instance MerkleNodeType_eq_dec : EqDecision MerkleNodeType.
Proof. solve_decision. Defined.

Definition byte_of_type (t : MerkleNodeType) : Z :=
  match t with MerkleNodeType_Leaf => 0 | MerkleNodeType_Node => 1 end.

Definition zero_hash : bytes := replicate 32 0%Z.

Record MerkleInteriorNode := {
  PrefixBitStart : Z;
  PrefixBitCount : Z;
  nPrefix : bytes;
  nLeft : bytes;
  nRight : bytes
}.

Record MerkleLeaf := { Key : bytes; Value : bytes }.

Inductive MerkleNode :=
  | MerkleNodeWithLeaf (l : MerkleLeaf)
  | MerkleNodeWithNode (n : MerkleInteriorNode).

Record HostchainTail := { Seqno : Z; htHash : bytes }.

Record MerkleBackPointer := { bpEpno : Z; bpHash : bytes }.

Record MerkleRootV1 := {
  r1Epno : Z;
  r1Time : Z;
  r1BackPointers : bytes;
  r1RootNode : bytes;
  r1Hostchain : HostchainTail
}.

(** A version tag and the one case the code knows; [None] is a nil case pointer. *)
Record MerkleRoot := { rV : Z; rF1 : option MerkleRootV1 }.

Record TreeRoot := { trEpno : Z; trHash : bytes }.

#[global] Instance MerkleInteriorNode_eq_dec : EqDecision MerkleInteriorNode.
Proof. solve_decision. Defined.
#[global] Instance MerkleLeaf_eq_dec : EqDecision MerkleLeaf.
Proof. solve_decision. Defined.
#[global] Instance MerkleNode_eq_dec : EqDecision MerkleNode.
Proof. solve_decision. Defined.
#[global] Instance HostchainTail_eq_dec : EqDecision HostchainTail.
Proof. solve_decision. Defined.
#[global] Instance MerkleBackPointer_eq_dec : EqDecision MerkleBackPointer.
Proof. solve_decision. Defined.
#[global] Instance MerkleRootV1_eq_dec : EqDecision MerkleRootV1.
Proof. solve_decision. Defined.
#[global] Instance MerkleRoot_eq_dec : EqDecision MerkleRoot.
Proof. solve_decision. Defined.

Definition MerkleRootVersion_V1 : Z := 1.

Definition GetV (r : MerkleRoot) : result Z :=
  _ ← guard_err ((rV r =? MerkleRootVersion_V1)%Z && bool_decide (rF1 r = None))
        (DataError "unexpected nil case for F_1__");
  Ok (rV r).

Definition V1 (r : MerkleRoot) : result MerkleRootV1 :=
  v1 ← of_option GoPanic (rF1 r);
  _ ← guard_err (negb (rV r =? MerkleRootVersion_V1)%Z) GoPanic;
  Ok v1.

Definition NewMerkleRootWithV1 (v : MerkleRootV1) : MerkleRoot :=
  {| rV := MerkleRootVersion_V1; rF1 := Some v |}.

(** ** Interior nodes *)
Definition SetChild_in (n : MerkleInteriorNode) (pos : bool) (h : bytes) : MerkleInteriorNode :=
  if pos
  then {| PrefixBitStart := PrefixBitStart n; PrefixBitCount := PrefixBitCount n;
          nPrefix := nPrefix n; nLeft := nLeft n; nRight := h |}
  else {| PrefixBitStart := PrefixBitStart n; PrefixBitCount := PrefixBitCount n;
          nPrefix := nPrefix n; nLeft := h; nRight := nRight n |}.

Definition IsEmpty (h : bytes) : bool := forallb (λ b, b =? 0)%Z h.

Definition SetEmpty (n : MerkleInteriorNode) (h : bytes) : MerkleInteriorNode :=
  SetChild_in n (IsEmpty (nRight n)) h.

(** ** Compressed paths *)
Record MerklePathToLeaf := { ptlLeaf : bytes; FoundKey : option bytes }.
Record MerklePathIncomplete := { NodeAtPrefixMiss : MerkleInteriorNode }.
Record MerklePathTerminal := {
  tLeaf : bool;
  tF0 : option MerklePathIncomplete;
  tF1 : option MerklePathToLeaf
}.

Definition GetLeaf (t : MerklePathTerminal) : result bool :=
  match tLeaf t with
  | false => _ ← guard_err (bool_decide (NodeAtPrefixMiss <$> tF0 t = None))
                  (DataError "unexpected nil case for F_0__"); Ok (tLeaf t)
  | true => _ ← guard_err (bool_decide (ptlLeaf <$> tF1 t = None))
                  (DataError "unexpected nil case for F_1__"); Ok (tLeaf t)
  end.

Definition TerminalFalse (t : MerklePathTerminal) : result MerklePathIncomplete :=
  v ← of_option GoPanic (tF0 t); _ ← guard_err (tLeaf t) GoPanic; Ok v.
Definition TerminalTrue (t : MerklePathTerminal) : result MerklePathToLeaf :=
  v ← of_option GoPanic (tF1 t); _ ← guard_err (negb (tLeaf t)) GoPanic; Ok v.

Definition NewMerklePathTerminalWithFalse (v : MerklePathIncomplete) : MerklePathTerminal :=
  {| tLeaf := false; tF0 := Some v; tF1 := None |}.
Definition NewMerklePathTerminalWithTrue (v : MerklePathToLeaf) : MerklePathTerminal :=
  {| tLeaf := true; tF0 := None; tF1 := Some v |}.
(** Go's zero value of the struct. *)
Definition zero_terminal : MerklePathTerminal := {| tLeaf := false; tF0 := None; tF1 := None |}.

Definition KeyWasFound (t : MerklePathTerminal) : result bool :=
  complete ← GetLeaf t;
  match complete with
  | true => p ← TerminalTrue t; Ok (bool_decide (FoundKey p = None))
  | false => Ok false
  end.

Record MerklePathCompressed := {
  pcRoot : MerkleRoot;
  pcPath : bytes;
  pcTerminal : MerklePathTerminal
}.
Record MerklePathCompressedPair := { ppPath : bytes; ppTerminal : MerklePathTerminal }.
Record MerklePathsCompressed := {
  psRoot : MerkleRoot;
  psPaths : list MerklePathCompressedPair
}.

(** ** Hashing and encoding *)
Class Codec := {
  uid_bytes : Z → bytes; (* the RPC package's encoding of a type's unique id *)
  sha512_256 : bytes → bytes;
  enc_MerkleNode : MerkleNode → result bytes;
  enc_MerkleRoot : MerkleRoot → result bytes;
  enc_MerkleBackPointers : list MerkleBackPointer → result bytes;
  dec_MerkleRoot : bytes → result MerkleRoot;
  dec_Signature : bytes → result bytes
}.

Definition MerkleNodeTypeUniqueID : Z := 0xe941750dc5b96783.
Definition MerkleBackPointersTypeUniqueID : Z := 0x8c7c4b855fba9000.
Definition MerkleRootTypeUniqueID : Z := 0xa88fc49b6df3a111.

Section hashing.
Context `{Codec}.

Definition PrefixedHashInto (uid : Z) (enc : result bytes) : result bytes :=
  raw ← enc;
  let tmp := sha512_256 (uid_bytes uid ++ raw) in
  _ ← guard_err (negb (len tmp =? 32)%Z) (InternalError "hash len mismatch");
  Ok tmp.

Definition HashNode (n : MerkleNode) : result bytes :=
  PrefixedHashInto MerkleNodeTypeUniqueID (enc_MerkleNode n).
Definition HashRoot (r : MerkleRoot) : result bytes :=
  PrefixedHashInto MerkleRootTypeUniqueID (enc_MerkleRoot r).
Definition HashBackPointers (b : list MerkleBackPointer) : result bytes :=
  PrefixedHashInto MerkleBackPointersTypeUniqueID (enc_MerkleBackPointers b).

Definition ToTreeRoot (m : MerkleRoot) : result TreeRoot :=
  hsh ← HashRoot m;
  v ← GetV m;
  _ ← guard_err (negb (v =? MerkleRootVersion_V1)%Z)
        (VersionNotSupportedError "merkle root version from future");
  r1 ← V1 m;
  Ok {| trEpno := r1Epno r1; trHash := hsh |}.

(** The hash of a node, with a default where hashing fails. *)
Definition node_hash (n : MerkleNode) : bytes :=
  match HashNode n with Ok h => h | Err _ => [] end.

(** No two different nodes of a set share a hash. *)
Definition coll_free (P : MerkleNode → Prop) : Prop :=
  ∀ n1 n2, P n1 → P n2 → HashNode n1 = HashNode n2 → n1 = n2.

(** Encoding to memory does not fail and the digest has 32 bytes. *)
Class HashTotal := hash_node_total : ∀ n, is_ok (HashNode n) = true.

Class RootHashTotal := {
  hash_root_total : ∀ r, is_ok (HashRoot r) = true;
  hash_bps_total : ∀ b, is_ok (HashBackPointers b) = true
}.

Lemma is_ok_Ok {A} (r : result A) : is_ok r = true → ∃ a, r = Ok a.
Proof. destruct r; [eauto|done]. Qed.

(** A root that can be hashed can be encoded. *)
Lemma HashRoot_enc r h : HashRoot r = Ok h → length h = 32 ∧ ∃ raw, enc_MerkleRoot r = Ok raw.
Proof. unfold HashRoot, PrefixedHashInto. intros Hh. inv_ok. unfold len in *. split; [lia|eauto]. Qed.

Lemma HashNode_ok `{!HashTotal} n : HashNode n = Ok (node_hash n).
Proof.
  pose proof (hash_node_total n) as Hn. unfold node_hash. by destruct (HashNode n).
Qed.

Lemma PrefixedHashInto_length uid enc h : PrefixedHashInto uid enc = Ok h → length h = 32.
Proof.
  unfold PrefixedHashInto. intros Hh. inv_ok. unfold len in *. lia.
Qed.

Lemma length_node_hash `{!HashTotal} n : length (node_hash n) = 32.
Proof. eapply PrefixedHashInto_length, HashNode_ok. Qed.

Lemma node_hash_inj `{!HashTotal} P n1 n2 :
  coll_free P → P n1 → P n2 → node_hash n1 = node_hash n2 → n1 = n2.
Proof. intros Hc H1 H2 Heq. apply Hc; [done..|]. by rewrite !HashNode_ok, Heq. Qed.
End hashing.
