(* ===== verification/MerkleTrie.v ===== *)
(** * Compressed binary tries: what the Merkle tree is a representation of

    The server's database and the client's compressed paths both describe a
    path-compressed binary trie over the 256 bits of the keys.  This file defines
    that trie as a data type, its contents, the hash the system assigns to each
    subtree, lookup and insertion, and proves that insertion implements a finite
    map and that the trie (hence its root hash) is a function of its contents.
    The engine ([MerkleEngine]) and the verifier ([MerkleVerify]) are shown
    correct with respect to it. *)
From S2P Require Import Prelude Bits MerkleTypes.

Inductive trie :=
  | TLeaf (k v : bytes)
  | TNode (p : list bool) (l r : trie).

Fixpoint contents (t : trie) : list (bytes * bytes) :=
  match t with
  | TLeaf k v => [(k, v)]
  | TNode _ l r => contents l ++ contents r
  end.

Definition keys (t : trie) : list bytes := (contents t).*1.

Definition child (b : bool) (l r : trie) : trie := if b then r else l.

(** Induction with one hypothesis for both children. *)
Lemma trie_child_ind (P : trie → Prop) :
  (∀ k v, P (TLeaf k v)) → (∀ p l r, (∀ b, P (child b l r)) → P (TNode p l r)) → ∀ t, P t.
Proof. intros HL HN t. induction t; [done|]. apply HN. by intros []. Qed.

(** [trie_wf pre t]: every key below [t] extends the bits [pre] on the way to it. *)
Fixpoint trie_wf (pre : list bool) (t : trie) : Prop :=
  match t with
  | TLeaf k v => length k = 32 ∧ bytes_ok k ∧ length v = 32 ∧ pre `prefix_of` bits k
  | TNode p l r => trie_wf (pre ++ p ++ [false]) l ∧ trie_wf (pre ++ p ++ [true]) r
  end.

Fixpoint height (t : trie) : nat :=
  match t with TLeaf _ _ => 0 | TNode _ l r => S (height l `max` height r) end.

(** The two subtrees of a fork, the side of [new] given by the bit [b]. *)
Definition fork (p : list bool) (b : bool) (new old : trie) : trie :=
  if b then TNode p old new else TNode p new old.

Definition bit_of (k : bytes) (i : nat) : bool := default false (bits k !! i).

Fixpoint tget (k : bytes) (d : nat) (t : trie) : option bytes :=
  match t with
  | TLeaf k' v => if decide (k = k') then Some v else None
  | TNode p l r =>
      match mismatch p (drop d (bits k)) with
      | Some _ => None
      | None => let d' := d + length p in
                if bit_of k d' then tget k (S d') r else tget k (S d') l
      end
  end.

Fixpoint tinsert (k v : bytes) (d : nat) (t : trie) : trie :=
  match t with
  | TLeaf k' v' =>
      match mismatch (drop d (bits k)) (drop d (bits k')) with
      | Some q => fork (take q (drop d (bits k))) (bit_of k (d + q)) (TLeaf k v) t
      | None => t
      end
  | TNode p l r =>
      match mismatch p (drop d (bits k)) with
      | Some q => fork (take q p) (bit_of k (d + q)) (TLeaf k v) (TNode (drop (S q) p) l r)
      | None => let d' := d + length p in
                if bit_of k d' then TNode p l (tinsert k v (S d') r)
                else TNode p (tinsert k v (S d') l) r
      end
  end.

(** ** Hashes of subtrees *)
Section thash.
Context `{Codec}.

Fixpoint thash (d : nat) (t : trie) : bytes :=
  match t with
  | TLeaf k v => node_hash (MerkleNodeWithLeaf {| Key := k; Value := v |})
  | TNode p l r =>
      node_hash (MerkleNodeWithNode
        {| PrefixBitStart := Z.of_nat d; PrefixBitCount := len p; nPrefix := canon d p;
           nLeft := thash (S (d + length p)) l; nRight := thash (S (d + length p)) r |})
  end.

Definition tproto (d : nat) (t : trie) : MerkleNode :=
  match t with
  | TLeaf k v => MerkleNodeWithLeaf {| Key := k; Value := v |}
  | TNode p l r => MerkleNodeWithNode
      {| PrefixBitStart := Z.of_nat d; PrefixBitCount := len p; nPrefix := canon d p;
         nLeft := thash (S (d + length p)) l; nRight := thash (S (d + length p)) r |}
  end.

(** The nodes hashed on the way to the hash of a trie. *)
Fixpoint tnodes (d : nat) (t : trie) : list MerkleNode :=
  tproto d t ::
  match t with
  | TLeaf _ _ => []
  | TNode p l r => tnodes (S (d + length p)) l ++ tnodes (S (d + length p)) r
  end.

Lemma thash_tproto d t : thash d t = node_hash (tproto d t).
Proof. by destruct t. Qed.

Lemma tproto_in_tnodes d t : tproto d t ∈ tnodes d t.
Proof. destruct t; simpl; set_solver. Qed.
End thash.

(** ** Bits of keys *)
Lemma length_bits32 k : length k = 32 → length (bits k) = 256.
Proof. intros. rewrite length_bits. lia. Qed.

Lemma bits_lookup_bit_of k i : i < length (bits k) → bits k !! i = Some (bit_of k i).
Proof. intros [b Hb]%lookup_lt_is_Some_2. unfold bit_of. by rewrite Hb. Qed.

Lemma prefix_snoc {A} (l1 l2 : list A) x :
  l1 `prefix_of` l2 → l2 !! length l1 = Some x → l1 ++ [x] `prefix_of` l2.
Proof.
  intros [l ->] Hx. rewrite lookup_app_r, Nat.sub_diag in Hx by lia.
  destruct l as [|y l]; simplify_eq/=. exists l. by rewrite <- app_assoc.
Qed.

Lemma prefix_lookup_len {A} (pre : list A) x l :
  pre ++ [x] `prefix_of` l → l !! length pre = Some x.
Proof. intros [l' ->]. rewrite <- app_assoc, lookup_app_r, Nat.sub_diag by lia. done. Qed.

Lemma prefix_drop {A} (pre l : list A) : pre `prefix_of` l → l = pre ++ drop (length pre) l.
Proof. intros [l' ->]. by rewrite drop_app_length. Qed.

Lemma bits_key_inj k1 k2 :
  length k1 = 32 → length k2 = 32 → bytes_ok k1 → bytes_ok k2 → bits k1 = bits k2 → k1 = k2.
Proof. intros. by apply bits_inj. Qed.

(** ** Well-formed tries *)
Lemma trie_wf_prefix pre t k v :
  trie_wf pre t → (k, v) ∈ contents t → pre `prefix_of` bits k.
Proof.
  revert pre. induction t as [k' v'|p l IHl r IHr]; simpl; intros pre Hwf Hin.
  - apply list_elem_of_singleton in Hin. naive_solver.
  - destruct Hwf as [Hl Hr]. apply elem_of_app in Hin as [Hin|Hin].
    + eapply prefix_app_l, IHl; eauto.
    + eapply prefix_app_l, IHr; eauto.
Qed.

Lemma trie_wf_key pre t k v :
  trie_wf pre t → (k, v) ∈ contents t → length k = 32 ∧ bytes_ok k ∧ length v = 32.
Proof.
  revert pre. induction t as [k' v'|p l IHl r IHr]; simpl; intros pre Hwf Hin.
  - apply list_elem_of_singleton in Hin. naive_solver.
  - apply elem_of_app in Hin as [Hin|Hin]; naive_solver.
Qed.

Lemma contents_nonempty t : ∃ k v, (k, v) ∈ contents t.
Proof. induction t as [k v|p l (k & v & Hl) r IHr]; simpl; exists k, v; set_solver. Qed.

Lemma elem_of_contents_child b l r kv :
  kv ∈ contents (child b l r) → kv ∈ contents l ++ contents r.
Proof. destruct b; simpl; set_solver. Qed.

Lemma trie_wf_child pre p l r b :
  trie_wf pre (TNode p l r) → trie_wf (pre ++ p ++ [b]) (child b l r).
Proof. destruct b; naive_solver. Qed.

Lemma elem_of_contents_side l r kv :
  kv ∈ contents l ++ contents r → ∃ b, kv ∈ contents (child b l r).
Proof. intros [?|?]%elem_of_app; [by exists false|by exists true]. Qed.

Lemma prefix_bit pre p b k :
  pre ++ p ++ [b] `prefix_of` bits k →
  pre ++ p `prefix_of` bits k ∧ bit_of k (length pre + length p) = b.
Proof.
  rewrite app_assoc. intros Hp. split; [by eapply prefix_app_l|].
  apply prefix_lookup_len in Hp. rewrite length_app in Hp. unfold bit_of. by rewrite Hp.
Qed.

(** A key below a node goes to the child its next bit names. *)
Lemma trie_wf_side pre p l r k v :
  trie_wf pre (TNode p l r) → (k, v) ∈ contents l ++ contents r →
  pre ++ p `prefix_of` bits k ∧
  (k, v) ∈ contents (child (bit_of k (length pre + length p)) l r).
Proof.
  intros Hwf [b Hb]%elem_of_contents_side.
  pose proof (trie_wf_prefix _ _ _ _ (trie_wf_child _ _ _ _ b Hwf) Hb) as [? Hbit]%prefix_bit.
  by rewrite Hbit.
Qed.

Lemma prefix_mismatch pre p k :
  pre `prefix_of` bits k →
  mismatch p (drop (length pre) (bits k)) = None →
  length pre + length p ≤ length (bits k) →
  pre ++ p `prefix_of` bits k.
Proof.
  intros Hp Hm Hl. rewrite (prefix_drop _ _ Hp). apply prefix_app.
  set (l := drop (length pre) (bits k)) in *.
  assert (length p ≤ length l) by (unfold l; rewrite length_drop; lia).
  assert (mismatch (p ++ []) (take (length p) l ++ drop (length p) l) = None) as Hm0
    by by rewrite take_drop, app_nil_r.
  rewrite mismatch_app in Hm0 by (rewrite length_take; lia).
  destruct (mismatch p (take (length p) l)) eqn:Hm'; [done|].
  apply mismatch_None in Hm'; [|rewrite length_take; lia].
  rewrite Hm' at 1. exists (drop (length p) l). by rewrite take_drop.
Qed.

Lemma prefix_mismatch_inv pre p k :
  pre ++ p `prefix_of` bits k → mismatch p (drop (length pre) (bits k)) = None.
Proof.
  intros [l Hl]. rewrite Hl, <- app_assoc, drop_app_length.
  rewrite <- (app_nil_r p) at 1. rewrite mismatch_app, mismatch_refl by done. by destruct l.
Qed.

Lemma trie_wf_depth pre t : trie_wf pre t → length pre ≤ 256.
Proof.
  intros Hwf. destruct (contents_nonempty t) as (k & v & Hin).
  pose proof (trie_wf_key _ _ _ _ Hwf Hin) as (Hk & _).
  pose proof (prefix_length _ _ (trie_wf_prefix _ _ _ _ Hwf Hin)).
  rewrite length_bits32 in * by done. done.
Qed.

Lemma trie_wf_node_depth pre p l r : trie_wf pre (TNode p l r) → length pre + length p < 256.
Proof.
  intros [Hwf _]. apply trie_wf_depth in Hwf. rewrite !length_app in Hwf. simpl in Hwf. lia.
Qed.

Lemma trie_wf_height pre t : trie_wf pre t → height t + length pre ≤ 256.
Proof.
  revert pre. induction t as [k v|p l IHl r IHr]; intros pre Hwf.
  - simpl. by apply trie_wf_depth in Hwf.
  - simpl in *. destruct Hwf as [Hl Hr]. apply IHl in Hl. apply IHr in Hr.
    rewrite !length_app in *. simpl in *. lia.
Qed.

(** ** Lookup *)
Lemma tget_spec pre t k v :
  trie_wf pre t → length k = 32 → bytes_ok k → pre `prefix_of` bits k →
  tget k (length pre) t = Some v ↔ (k, v) ∈ contents t.
Proof.
  intros Hwf Hk Hok. revert pre Hwf. induction t as [k' v'|p l IHl r IHr]; intros pre Hwf Hpre.
  - simpl. rewrite list_elem_of_singleton. case_decide; naive_solver.
  - pose proof (trie_wf_node_depth _ _ _ _ Hwf) as Hd. simpl.
    destruct (mismatch p (drop (length pre) (bits k))) as [q|] eqn:Hm.
    + split; [done|]. intros Hin. apply (trie_wf_side pre p l r) in Hin as [Hp _]; [|done].
      by rewrite prefix_mismatch_inv in Hm.
    + pose proof (prefix_mismatch _ _ _ Hpre Hm) as Hp.
      rewrite length_bits32 in Hp by done. specialize (Hp ltac:(lia)).
      set (d' := length pre + length p). set (b := bit_of k d').
      assert (pre ++ p ++ [b] `prefix_of` bits k) as Hpb.
      { rewrite app_assoc. apply prefix_snoc; [done|]. rewrite length_app.
        apply bits_lookup_bit_of. rewrite length_bits32 by done. lia. }
      trans ((k, v) ∈ contents (child b l r)).
      * pose proof (trie_wf_child _ _ _ _ b Hwf) as Hc.
        replace (S d') with (length (pre ++ p ++ [b]))
          by (rewrite !length_app; simpl; unfold d'; lia).
        destruct b; [by apply IHr|by apply IHl].
      * split; [apply elem_of_contents_child|]. intros Hin.
        by apply (trie_wf_side pre p l r) in Hin as [_ ?].
Qed.

(** ** Insertion *)
Lemma fork_wf pre p b new old :
  trie_wf pre (fork p b new old) ↔
  trie_wf (pre ++ p ++ [b]) new ∧ trie_wf (pre ++ p ++ [negb b]) old.
Proof. destruct b; simpl; naive_solver. Qed.

Lemma fork_contents p b new old : contents (fork p b new old) ≡ₚ contents new ++ contents old.
Proof. destruct b; simpl; [by rewrite (comm (++))|done]. Qed.

Lemma prefix_take_bit (pre l : list bool) q b :
  pre `prefix_of` l → drop (length pre) l !! q = Some b →
  pre ++ take q (drop (length pre) l) ++ [b] `prefix_of` l.
Proof.
  intros Hp Hq. rewrite (prefix_drop _ _ Hp) at 2. apply prefix_app.
  rewrite <- (take_S_r _ _ _ Hq). eexists. symmetry. apply take_drop.
Qed.

Lemma bit_of_drop k d q b : drop d (bits k) !! q = Some b → bit_of k (d + q) = b.
Proof. rewrite lookup_drop. unfold bit_of. by intros ->. Qed.

(** Splitting a node's prefix at its first difference with a key. *)
Lemma split_node_wf pre p l r q b :
  p !! q = Some b →
  trie_wf (pre ++ take q p ++ [b]) (TNode (drop (S q) p) l r) ↔ trie_wf pre (TNode p l r).
Proof.
  intros Hq. simpl.
  assert (∀ x, (pre ++ take q p ++ [b]) ++ drop (S q) p ++ [x] = pre ++ p ++ [x]) as Heq.
  { intros x. rewrite <- (take_drop_middle _ _ _ Hq) at 3. by rewrite <- !app_assoc. }
  by rewrite !Heq.
Qed.

Lemma key_mismatch d k k' :
  length k = 32 → length k' = 32 → bytes_ok k → bytes_ok k' →
  take d (bits k) = take d (bits k') → k ≠ k' →
  ∃ q, mismatch (drop d (bits k)) (drop d (bits k')) = Some q.
Proof.
  intros Hk Hk' Hok Hok' Ht Hne.
  destruct (mismatch (drop d (bits k)) (drop d (bits k'))) as [q|] eqn:Hm; [by eauto|].
  destruct Hne. apply bits_key_inj; [done..|].
  apply mismatch_None in Hm; [|by rewrite !length_drop, !length_bits32].
  by rewrite <- (take_drop d (bits k)), <- (take_drop d (bits k')), Ht, Hm.
Qed.

Lemma prefix_take_eq (pre l : list bool) : pre `prefix_of` l → take (length pre) l = pre.
Proof. intros [l' ->]. by rewrite take_app_length. Qed.

Lemma step_prefix pre p k :
  length k = 32 → length pre + length p < 256 → pre `prefix_of` bits k →
  mismatch p (drop (length pre) (bits k)) = None →
  pre ++ p ++ [bit_of k (length pre + length p)] `prefix_of` bits k.
Proof.
  intros Hk Hd Hp Hm. rewrite app_assoc. apply prefix_snoc.
  - apply prefix_mismatch; [done..|]. rewrite length_bits32 by done. lia.
  - rewrite length_app. apply bits_lookup_bit_of. rewrite length_bits32 by done. lia.
Qed.

Lemma length_step (pre p : list bool) b : length (pre ++ p ++ [b]) = S (length pre + length p).
Proof. rewrite !length_app. simpl. lia. Qed.

Section insert.
Context (k v : bytes) (Hk : length k = 32) (Hok : bytes_ok k) (Hv : length v = 32).

Lemma tinsert_leaf_wf pre k' v' :
  trie_wf pre (TLeaf k' v') → pre `prefix_of` bits k → k ≠ k' →
  ∃ q, mismatch (drop (length pre) (bits k)) (drop (length pre) (bits k')) = Some q ∧
       trie_wf pre (fork (take q (drop (length pre) (bits k))) (bit_of k (length pre + q))
                      (TLeaf k v) (TLeaf k' v')).
Proof.
  intros (Hk' & Hok' & Hv' & Hp') Hp Hne.
  destruct (key_mismatch (length pre) k k') as [q Hq]; try done.
  { by rewrite !prefix_take_eq. }
  exists q. split; [done|]. apply fork_wf.
  apply mismatch_Some in Hq as (Ht & b & Hb & Hb').
  rewrite (bit_of_drop _ _ _ _ Hb). simpl. split.
  - split_and!; try done. by apply prefix_take_bit.
  - split_and!; try done. rewrite Ht. by apply prefix_take_bit.
Qed.

Lemma tinsert_split_wf pre p l r q :
  trie_wf pre (TNode p l r) → pre `prefix_of` bits k →
  mismatch p (drop (length pre) (bits k)) = Some q →
  trie_wf pre (fork (take q p) (bit_of k (length pre + q)) (TLeaf k v)
                 (TNode (drop (S q) p) l r)).
Proof.
  intros Hwf Hp (Ht & b & Hb & Hb')%mismatch_Some. apply fork_wf.
  rewrite (bit_of_drop _ _ _ _ Hb'), negb_involutive. split.
  - simpl. split_and!; try done. rewrite Ht. by apply prefix_take_bit.
  - by apply split_node_wf.
Qed.

Lemma tinsert_spec pre t :
  trie_wf pre t → pre `prefix_of` bits k → k ∉ keys t →
  trie_wf pre (tinsert k v (length pre) t) ∧
  contents (tinsert k v (length pre) t) ≡ₚ (k, v) :: contents t.
Proof.
  unfold keys. revert pre. induction t as [k' v'|p l IHl r IHr]; intros pre Hwf Hp Hnin.
  - destruct (tinsert_leaf_wf pre k' v') as (q & Hq & Hf); try done.
    { simpl in Hnin. set_solver. }
    unfold tinsert. rewrite Hq. split; [done|]. by rewrite fork_contents.
  - pose proof (trie_wf_node_depth _ _ _ _ Hwf) as Hd. cbn [tinsert].
    destruct (mismatch p (drop (length pre) (bits k))) as [q|] eqn:Hm.
    + split; [by apply tinsert_split_wf|]. by rewrite fork_contents.
    + pose proof (step_prefix _ _ _ Hk Hd Hp Hm) as Hpb.
      set (b := bit_of k (length pre + length p)) in *.
      pose proof (trie_wf_child _ _ _ _ b Hwf) as Hc.
      rewrite <- (length_step pre p b).
      simpl in Hnin. rewrite fmap_app, not_elem_of_app in Hnin.
      destruct b; simpl in *.
      * destruct (IHr _ Hc Hpb) as [IH1 IH2]; [naive_solver|]. split; [naive_solver|].
        rewrite IH2. by rewrite <- Permutation_middle.
      * destruct (IHl _ Hc Hpb) as [IH1 IH2]; [naive_solver|]. split; [naive_solver|].
        by rewrite IH2.
Qed.
End insert.

(** ** Canonicity *)
Lemma contents_keys_fun pre t k v1 v2 :
  trie_wf pre t → (k, v1) ∈ contents t → (k, v2) ∈ contents t → v1 = v2.
Proof.
  intros Hwf H1 H2. pose proof (trie_wf_key _ _ _ _ Hwf H1) as (? & ? & _).
  pose proof (trie_wf_prefix _ _ _ _ Hwf H1).
  rewrite <- tget_spec in H1, H2 by done. congruence.
Qed.

(** Both sides of a node are inhabited, and the keys on the two sides differ
    right after the prefix. *)
Lemma node_sides pre p l r b :
  trie_wf pre (TNode p l r) →
  ∃ k v, (k, v) ∈ contents l ++ contents r ∧ pre ++ p ++ [b] `prefix_of` bits k.
Proof.
  intros Hwf. destruct (contents_nonempty (child b l r)) as (k & v & Hin).
  exists k, v. split; [by apply (elem_of_contents_child b)|].
  eapply trie_wf_prefix; [by apply trie_wf_child|done].
Qed.

Lemma bit_of_prefix pre k i : pre `prefix_of` bits k → i < length pre → pre !! i = Some (bit_of k i).
Proof.
  intros Hp Hi. rewrite (prefix_lookup_lt _ _ _ Hi Hp). apply bits_lookup_bit_of.
  apply prefix_length in Hp. lia.
Qed.

Lemma node_prefix_le pre p1 l1 r1 p2 l2 r2 :
  trie_wf pre (TNode p1 l1 r1) → trie_wf pre (TNode p2 l2 r2) →
  (∀ kv, kv ∈ contents l1 ++ contents r1 → kv ∈ contents l2 ++ contents r2) →
  length p2 ≤ length p1.
Proof.
  intros H1 H2 Hincl. apply Nat.nlt_ge. intros Hlt.
  assert (∀ b, (pre ++ p2) !! (length pre + length p1) = Some b) as Hb.
  { intros b. destruct (node_sides pre p1 l1 r1 b H1) as (k & v & Hin & [_ <-]%prefix_bit).
    apply Hincl, (trie_wf_side pre p2) in Hin as [Hp _]; [|done].
    apply bit_of_prefix; [done|]. rewrite length_app. lia. }
  pose proof (Hb true). pose proof (Hb false). congruence.
Qed.

Lemma node_prefix_unique pre p1 l1 r1 p2 l2 r2 :
  trie_wf pre (TNode p1 l1 r1) → trie_wf pre (TNode p2 l2 r2) →
  (∀ kv, kv ∈ contents l1 ++ contents r1 ↔ kv ∈ contents l2 ++ contents r2) → p1 = p2.
Proof.
  intros H1 H2 Heq.
  assert (length p2 ≤ length p1) by (eapply node_prefix_le; [exact H1|exact H2|apply Heq]).
  assert (length p1 ≤ length p2) by (eapply node_prefix_le; [exact H2|exact H1|apply Heq]).
  destruct (node_sides pre p1 l1 r1 true H1) as (k & v & Hin & [[x Hx] _]%prefix_bit).
  apply Heq, (trie_wf_side pre p2) in Hin as [[y Hy] _]; [|done].
  rewrite Hx, <- !app_assoc in Hy. apply (inj (pre ++.)) in Hy.
  apply app_inj_1 in Hy as [? _]; [done|lia].
Qed.

Lemma node_contents_child pre p l r b kv :
  trie_wf pre (TNode p l r) →
  kv ∈ contents (child b l r) ↔
  kv ∈ contents l ++ contents r ∧ bit_of kv.1 (length pre + length p) = b.
Proof.
  intros Hwf. destruct kv as [k v]. split.
  - intros Hin. split; [by apply (elem_of_contents_child b)|].
    pose proof (trie_wf_prefix _ _ _ _ (trie_wf_child _ _ _ _ b Hwf) Hin) as [_ ?]%prefix_bit.
    done.
  - intros [Hin <-]. by apply (trie_wf_side pre p) in Hin as [_ ?].
Qed.

Lemma leaf_not_node pre k v p l r :
  trie_wf pre (TNode p l r) →
  (∀ kv, kv ∈ [(k, v)] ↔ kv ∈ contents l ++ contents r) → False.
Proof.
  intros Hwf Heq.
  assert (∀ b, bit_of k (length pre + length p) = b) as Hb.
  { intros b. destruct (node_sides pre p l r b Hwf) as (k' & v' & Hin & [_ Hb]%prefix_bit).
    apply Heq, list_elem_of_singleton in Hin. by simplify_eq. }
  pose proof (Hb true). pose proof (Hb false). congruence.
Qed.

(** The trie is a function of its contents. *)
Lemma trie_canonical pre t1 t2 :
  trie_wf pre t1 → trie_wf pre t2 →
  (∀ kv, kv ∈ contents t1 ↔ kv ∈ contents t2) → t1 = t2.
Proof.
  revert pre t2. induction t1 as [k1 v1|p1 l1 IHl r1 IHr]; intros pre [k2 v2|p2 l2 r2] H1 H2 Heq.
  - specialize (Heq (k1, v1)). simpl in Heq. rewrite !list_elem_of_singleton in Heq.
    naive_solver.
  - by destruct (leaf_not_node _ _ _ _ _ _ H2 Heq).
  - destruct (leaf_not_node pre k2 v2 p1 l1 r1); [done|]. intros kv. by rewrite (Heq kv).
  - assert (p1 = p2) as <- by by eapply node_prefix_unique.
    assert (∀ b kv, kv ∈ contents (child b l1 r1) ↔ kv ∈ contents (child b l2 r2)) as Hc.
    { intros b kv. rewrite !(node_contents_child pre p1) by done. by rewrite (Heq kv). }
    f_equal.
    + eapply IHl; [apply H1|apply H2|apply (Hc false)].
    + eapply IHr; [apply H1|apply H2|apply (Hc true)].
Qed.

(** Inserting a list of pairs from left to right, as a batch of updates does. *)
Definition tinsert_all (kvs : list (bytes * bytes)) (t : trie) : trie :=
  foldl (λ t '(k, v), tinsert k v 0 t) t kvs.

Definition kv_ok (kv : bytes * bytes) : Prop :=
  length kv.1 = 32 ∧ bytes_ok kv.1 ∧ length kv.2 = 32.

Lemma tinsert_all_spec kvs t :
  trie_wf [] t → Forall kv_ok kvs → NoDup (kvs.*1 ++ keys t) →
  trie_wf [] (tinsert_all kvs t) ∧ contents (tinsert_all kvs t) ≡ₚ kvs ++ contents t.
Proof.
  revert t. induction kvs as [|[k v] kvs IH]; intros t Hwf Hok Hnd; [done|].
  apply Forall_cons in Hok as [(Hk & Hkok & Hv) Hok].
  simpl in Hnd. apply NoDup_cons in Hnd as [Hnin Hnd]. rewrite not_elem_of_app in Hnin.
  destruct (tinsert_spec k v Hk Hkok Hv [] t) as [Hwf' Hc]; [done|apply prefix_nil|naive_solver|].
  destruct (IH (tinsert k v 0 t)) as [IH1 IH2]; [done..| |].
  - unfold keys. rewrite Hc. simpl. rewrite <- Permutation_middle. apply NoDup_cons.
    rewrite not_elem_of_app. naive_solver.
  - split; [done|]. simpl. rewrite IH2, Hc. by rewrite <- Permutation_middle.
Qed.

(** Any two orders of the same new pairs, applied to the same tree, give the same
    trie, hence the same root hash. *)
Lemma tinsert_all_order `{Codec} (kvs kvs' : list (bytes * bytes)) (t : trie) :
  trie_wf [] t → Forall kv_ok kvs → NoDup (kvs.*1 ++ keys t) → kvs ≡ₚ kvs' →
  tinsert_all kvs t = tinsert_all kvs' t ∧
  thash 0 (tinsert_all kvs t) = thash 0 (tinsert_all kvs' t).
Proof.
  intros Hwf Hok Hnd Hp.
  destruct (tinsert_all_spec kvs t) as [Hw1 Hc1]; [done..|].
  destruct (tinsert_all_spec kvs' t) as [Hw2 Hc2]; [done|by rewrite <- Hp..|].
  assert (tinsert_all kvs t = tinsert_all kvs' t) as ->; [|done].
  apply (trie_canonical []); [done..|]. intros kv. by rewrite Hc1, Hc2, Hp.
Qed.

(** ** Positions in a trie *)
Inductive subtrie : list bool → trie → list bool → trie → Prop :=
  | subtrie_here pre t : subtrie pre t pre t
  | subtrie_below pre t pre' p l r b :
      subtrie pre t (pre' ++ p ++ [b]) (child b l r) → subtrie pre t pre' (TNode p l r).

Lemma subtrie_wf pre t pre0 t0 : subtrie pre t pre0 t0 → trie_wf pre0 t0 → trie_wf pre t.
Proof. induction 1; intros; eauto using trie_wf_child. Qed.

Lemma subtrie_contents pre t pre0 t0 kv :
  subtrie pre t pre0 t0 → kv ∈ contents t → kv ∈ contents t0.
Proof. induction 1; simpl; intros; eauto using elem_of_contents_child. Qed.

Lemma subtrie_length pre t pre0 t0 : subtrie pre t pre0 t0 → length pre0 ≤ length pre.
Proof. induction 1; [done|]. rewrite !length_app in *. simpl in *. lia. Qed.

(** The position of a proper subtree has a sibling with a key below it. *)
Lemma subtrie_sibling pre t pre0 t0 pr b :
  subtrie pre t pre0 t0 → trie_wf pre0 t0 → pre = pr ++ [b] → length pre0 < length pre →
  ∃ k v, (k, v) ∈ contents t0 ∧ pr ++ [negb b] `prefix_of` bits k.
Proof.
  induction 1 as [|pre t pre' p l r b' Hs IH]; intros Hwf -> Hl; [lia|].
  destruct (decide (length (pre' ++ p ++ [b']) < length (pr ++ [b]))) as [Hlt|Hge].
  - destruct IH as (k & v & Hin & Hp); [by apply trie_wf_child|done..|].
    exists k, v. split; [by apply (elem_of_contents_child b')|done].
  - inversion Hs as [? ? E1 E2|? ? ? ? ? ? ? Hs' E1 E2 E3 E4]; subst.
    + destruct (node_sides pre' p l r (negb b) Hwf) as (k & v & Hin & Hp).
      rewrite app_assoc in *. simplify_list_eq. by exists k, v.
    + apply subtrie_length in Hs'. rewrite !length_app in *. simpl in *. lia.
Qed.

(** ** The subtrees an insertion creates, deepest first *)
Fixpoint tnew (k v : bytes) (d : nat) (t : trie) : list (nat * trie) :=
  match t with
  | TLeaf _ _ => [(d, tinsert k v d t)]
  | TNode p l r =>
      match mismatch p (drop d (bits k)) with
      | Some q => [(S (d + q), TNode (drop (S q) p) l r); (d, tinsert k v d t)]
      | None => let d' := d + length p in
                tnew k v (S d') (child (bit_of k d') l r) ++ [(d, tinsert k v d t)]
      end
  end.

Lemma tnew_last k v d t : last (tnew k v d t) = Some (d, tinsert k v d t).
Proof.
  destruct t as [k' v'|p l r]; [done|]. cbn [tnew].
  destruct (mismatch p (drop d (bits k))); [done|]. by rewrite last_snoc.
Qed.

Lemma not_in_child k b l r p : k ∉ keys (TNode p l r) → k ∉ keys (child b l r).
Proof.
  unfold keys. intros Hn Hi. apply Hn. apply list_elem_of_fmap in Hi as (kv & -> & Hi).
  apply list_elem_of_fmap. exists kv. split; [done|]. by apply (elem_of_contents_child b).
Qed.

Section tnew.
Context (k v : bytes) (Hk : length k = 32) (Hok : bytes_ok k) (Hv : length v = 32).

Lemma tinsert_child d p l r :
  mismatch p (drop d (bits k)) = None →
  tinsert k v d (TNode p l r) =
  (let b := bit_of k (d + length p) in
   let c := tinsert k v (S (d + length p)) (child b l r) in
   if b then TNode p l c else TNode p c r).
Proof. intros Hm. cbn [tinsert]. rewrite Hm. by destruct (bit_of k (d + length p)). Qed.

Lemma subtrie_fork_old pre p b new old :
  subtrie (pre ++ p ++ [negb b]) old pre (fork p b new old).
Proof.
  destruct b;
    [apply (subtrie_below _ _ _ _ _ _ false)|apply (subtrie_below _ _ _ _ _ _ true)];
    apply subtrie_here.
Qed.

Lemma subtrie_set_child pre t pre0 p l r b c :
  subtrie pre t (pre0 ++ p ++ [b]) c →
  subtrie pre t pre0 (if b then TNode p l c else TNode p c r).
Proof.
  intros. destruct b;
    [by apply (subtrie_below _ _ _ _ _ _ true)|by apply (subtrie_below _ _ _ _ _ _ false)].
Qed.

(** Each new subtree sits somewhere in the new trie. *)
Lemma tnew_subtrie pre t :
  trie_wf pre t → pre `prefix_of` bits k →
  Forall (λ '(d', t'), ∃ pre', length pre' = d' ∧
            subtrie pre' t' pre (tinsert k v (length pre) t)) (tnew k v (length pre) t).
Proof.
  revert pre. induction t as [k' v'|p l r IH] using trie_child_ind; intros pre Hwf Hp.
  - apply Forall_singleton. exists pre. split; [done|apply subtrie_here].
  - pose proof (trie_wf_node_depth _ _ _ _ Hwf) as Hd. cbn [tnew].
    destruct (mismatch p (drop (length pre) (bits k))) as [q|] eqn:Hm.
    + repeat apply Forall_cons_2; try apply Forall_nil_2; cbn [tinsert]; rewrite Hm.
      * exists (pre ++ take q p ++ [negb (bit_of k (length pre + q))]).
        split; [|apply subtrie_fork_old].
        apply mismatch_lt in Hm as [? _]. rewrite length_step, length_take. lia.
      * exists pre. split; [done|apply subtrie_here].
    + pose proof (step_prefix _ _ _ Hk Hd Hp Hm) as Hpb.
      rewrite (tinsert_child _ _ _ _ Hm). set (b := bit_of k (length pre + length p)) in *.
      pose proof (trie_wf_child _ _ _ _ b Hwf) as Hc. rewrite <- (length_step pre p b).
      apply Forall_app_2; [|apply Forall_singleton; exists pre; split; [done|apply subtrie_here]].
      eapply Forall_impl; [by apply IH|]. intros [d' t'] (pre' & ? & Hs). exists pre'.
      split; [done|]. by apply subtrie_set_child.
Qed.

Lemma tnew_depths d t : StronglySorted gt (tnew k v d t).*1 ∧ Forall (le d) (tnew k v d t).*1.
Proof.
  revert d. induction t as [k' v'|p l r IH] using trie_child_ind; intros d.
  - simpl. split; repeat constructor.
  - cbn [tnew]. destruct (mismatch p (drop d (bits k))) as [q|] eqn:Hm.
    + simpl. split;
        repeat (apply SSorted_nil || apply SSorted_cons || apply Forall_nil_2 || apply Forall_cons_2);
        lia.
    + rewrite fmap_app. simpl. destruct (IH (bit_of k (d + length p)) (S (d + length p))) as [IH1 IH2].
      split.
      * apply StronglySorted_app. split_and!; [|done|repeat constructor].
        intros x y Hx ->%list_elem_of_singleton. rewrite Forall_forall in IH2.
        apply IH2 in Hx. lia.
      * apply Forall_app. split; [|repeat constructor].
        eapply Forall_impl; [done|]. intros; simpl in *; lia.
Qed.

(** A new subtree either holds the new key, or is the lower part of a split
    prefix, whose sibling position had no key before. *)
Lemma tnew_fresh pre t :
  trie_wf pre t → pre `prefix_of` bits k → k ∉ keys t →
  Forall (λ '(d', t'), (k, v) ∈ contents t' ∨
     ∃ pr b, length (pr ++ [b]) = d' ∧ trie_wf (pr ++ [b]) t' ∧ pre `prefix_of` pr ∧
       ∀ k' v', (k', v') ∈ contents t → ¬ pr ++ [negb b] `prefix_of` bits k')
    (tnew k v (length pre) t).
Proof.
  intros Hwf Hp Hnin.
  assert ((k, v) ∈ contents (tinsert k v (length pre) t)) as Hin.
  { destruct (tinsert_spec k v Hk Hok Hv pre t) as [_ ->]; [done..|]. set_solver. }
  revert pre Hwf Hp Hnin Hin.
  induction t as [k' v'|p l r IH] using trie_child_ind; intros pre Hwf Hp Hnin Hin.
  - apply Forall_singleton. by left.
  - pose proof (trie_wf_node_depth _ _ _ _ Hwf) as Hd. cbn [tnew].
    destruct (mismatch p (drop (length pre) (bits k))) as [q|] eqn:Hm.
    + repeat apply Forall_cons_2; try apply Forall_nil_2; [|by left]. right.
      pose proof (mismatch_lt _ _ _ Hm) as [Hq _].
      apply mismatch_Some in Hm as (Ht & b & Hb & Hb').
      exists (pre ++ take q p), b. rewrite <- app_assoc. split_and!.
      * rewrite length_step, length_take. lia.
      * by apply split_node_wf.
      * by apply prefix_app_r.
      * intros k' v' Hin' Hp'. apply (trie_wf_side pre p) in Hin' as [Hpp _]; [|done].
        rewrite <- app_assoc in Hp'. apply prefix_bit in Hp' as [_ Hbit].
        assert ((pre ++ p) !! (length pre + q) = Some b) as Hb2.
        { rewrite lookup_app_r by lia. by replace (length pre + q - length pre) with q by lia. }
        rewrite length_take, Nat.min_l in Hbit by lia.
        rewrite (bit_of_prefix _ k') in Hb2 by (done || rewrite length_app; lia).
        rewrite Hbit in Hb2. by destruct b.
    + pose proof (step_prefix _ _ _ Hk Hd Hp Hm) as Hpb.
      set (b := bit_of k (length pre + length p)) in *.
      pose proof (trie_wf_child _ _ _ _ b Hwf) as Hc. rewrite <- (length_step pre p b).
      assert (k ∉ keys (child b l r)) as Hnin' by by eapply not_in_child.
      apply Forall_app_2; [|apply Forall_singleton; by left].
      eapply Forall_impl.
      { apply IH; [done..|].
        destruct (tinsert_spec k v Hk Hok Hv _ _ Hc Hpb Hnin') as [_ ->]. set_solver. }
      intros [d' t'] [?|(pr & b' & Hl & Hw & Hpre' & Hno)]; [by left|]. right.
      exists pr, b'. split_and!; [done..|by eapply prefix_app_l|].
      intros k' v' Hin' Hp'. apply (Hno k' v'); [|done].
      apply (node_contents_child pre p); [done|]. split; [done|]. simpl.
      eapply (proj2 (prefix_bit pre p b k' _)). Unshelve.
      etrans; [exact Hpre'|]. by eapply prefix_app_l.
Qed.
End tnew.
