(* ===== verification/MerkleStorage.v ===== *)
(** * Storage interfaces of the Merkle engine

    The types and the three storage interfaces of [lib/merkle/server.go]
    ([StorageReader], [StorageTransactor], [StorageWriter]) as type classes, and
    what the engine relies on: an abstract [view] of a store and, per operation,
    its effect on the view.  The engine's theorems are proved against these laws;
    [MerkleSql] shows that the SQL storage satisfies them. *)
From S2P Require Import Prelude Bits SkipPointers MerkleTypes.

(** ** Stored data *)
Record PrefixedHash := { phTyp : MerkleNodeType; phHash : bytes }.

Definition PrefixedHash_Bytes (p : PrefixedHash) : bytes := byte_of_type (phTyp p) :: phHash p.

Definition ImportPrefixedHashFromDB (b : bytes) : result (option PrefixedHash) :=
  match b with
  | [] => Ok None
  | t :: h =>
      if negb (len b =? 32 + 1)%Z
      then Err (InternalError "read wronge length of node hash out of DB")
      else if (t =? 0)%Z then Ok (Some {| phTyp := MerkleNodeType_Leaf; phHash := h |})
      else if (t =? 1)%Z then Ok (Some {| phTyp := MerkleNodeType_Node; phHash := h |})
      else Err (InternalError "unexpected hash prefix")
  end.

Record Segment := { Bytes : bytes; BitStart : Z; BitCount : Z }.

(** Child pointers may be nil: [None]. *)
Record Node := { Prefix : Segment; Left : option PrefixedHash; Right : option PrefixedHash }.

Record Root := {
  Epno : Z;
  Body : bytes;
  RootNode : PrefixedHash;
  Sig : option bytes
}.

Record Bookkeeping := { BatchNo : Z; Pos : Z }.

Definition Advance (b : Bookkeeping) : Bookkeeping :=
  {| BatchNo := wrap64 (BatchNo b + 1); Pos := -1 |}.
Definition NewBookkeeping : Bookkeeping := {| BatchNo := 1; Pos := -1 |}.

Record MerkleExistsRes := { merEpno : Z; merSigned : bool }.

#[global] Instance PrefixedHash_eq_dec : EqDecision PrefixedHash.
Proof. solve_decision. Defined.
#[global] Instance Segment_eq_dec : EqDecision Segment.
Proof. solve_decision. Defined.
#[global] Instance Node_eq_dec : EqDecision Node.
Proof. solve_decision. Defined.
#[global] Instance Bookkeeping_eq_dec : EqDecision Bookkeeping.
Proof. solve_decision. Defined.

(** ** The interfaces

    A reader's methods do not change the store.  A transactor's methods return
    the store after the statement; the writer's [RunRetryTx] commits the final
    store of a successful transaction and leaves its own unchanged on an error.
    A nil [*Root] without an error is [Ok None]. *)
Class StorageReader (R : Type) := {
  SelectRootForTraversal : R → bool → option Z → result (option Root);
  SelectNode : R → PrefixedHash → result Node;
  SelectLeaf : R → PrefixedHash → result MerkleLeaf;
  CheckLeafExists : R → bytes → result MerkleExistsRes;
  SelectRootHashes : R → list Z → result (list bytes);
  SelectCurrentRootHash : R → result TreeRoot;
  SelectRoots : R → list Z → result (list MerkleRoot);
  SelectBookkeeping : R → result (option Bookkeeping);
  SelectCurrentHostchainTail : R → result (option HostchainTail);
  ConfirmRoot : R → TreeRoot → result ()
}.

Class StorageTransactor (T : Type) := {
  tx_reader :: StorageReader T;
  InsertRoot : T → Z → Z → bytes → bytes → PrefixedHash → option HostchainTail → result T;
  InsertNode : T → bytes → Segment → option PrefixedHash → option PrefixedHash → result T;
  InsertLeaf : T → bytes → bytes → bytes → Z → result T;
  UpdateBookkeeping : T → Bookkeeping → result T;
  UpdateBookkeepingForBatcher : T → Z → result T
}.

Class StorageWriter (W T R : Type) := {
  RunRetryTx : ∀ {A}, W → (T → result (A * T)) → result A * W;
  RunRead : ∀ {A}, W → (R → result A) → result A
}.

(** ** What the engine relies on *)
Record view := {
  v_nodes : gmap bytes Node;
  v_leaves : gmap bytes MerkleLeaf;
  v_root : option Root;
  v_hashes : gmap Z bytes;
  v_tail : option HostchainTail;
  v_bk : option Bookkeeping
}.

Definition add_node (h : bytes) (n : Node) (w : view) : view :=
  {| v_nodes := <[h := n]> (v_nodes w); v_leaves := v_leaves w; v_root := v_root w;
     v_hashes := v_hashes w; v_tail := v_tail w; v_bk := v_bk w |}.
Definition add_leaf (h : bytes) (lf : MerkleLeaf) (w : view) : view :=
  {| v_nodes := v_nodes w; v_leaves := <[h := lf]> (v_leaves w); v_root := v_root w;
     v_hashes := v_hashes w; v_tail := v_tail w; v_bk := v_bk w |}.
Definition set_bk (bk : Bookkeeping) (w : view) : view :=
  {| v_nodes := v_nodes w; v_leaves := v_leaves w; v_root := v_root w;
     v_hashes := v_hashes w; v_tail := v_tail w; v_bk := Some bk |}.
Definition add_root (e : Z) (hash body : bytes) (ph : PrefixedHash) (hct : option HostchainTail)
    (w : view) : view :=
  {| v_nodes := v_nodes w; v_leaves := v_leaves w;
     v_root := Some {| Epno := e; Body := body; RootNode := ph; Sig := None |};
     v_hashes := <[e := hash]> (v_hashes w);
     v_tail := match hct with Some _ => hct | None => v_tail w end;
     v_bk := if (e =? MerkleEpnoFirst)%Z then Some NewBookkeeping else v_bk w |}.

(** The columns [epno], [seqno], [batchno] and [pos] are 32-bit, the bit
    positions of a node 16-bit integers. *)
Definition int4_ok (z : Z) : Prop := (- 2 ^ 31 ≤ z < 2 ^ 31)%Z.
Definition int2_ok (z : Z) : Prop := (- 2 ^ 15 ≤ z < 2 ^ 15)%Z.

(** The epoch that follows the store's latest root. *)
Definition next_epno (w : view) : Z :=
  match v_root w with None => MerkleEpnoFirst | Some r => wrap64 (Epno r + 1) end.

(** A root may be a leaf only as long as no interior node has been the root. *)
Definition root_type_ok (w : view) (ph : PrefixedHash) : Prop :=
  match v_root w with
  | None => phTyp ph = MerkleNodeType_Leaf
  | Some r => phTyp ph = MerkleNodeType_Leaf → phTyp (RootNode r) = MerkleNodeType_Leaf
  end.

Definition tail_newer (w : view) (hct : option HostchainTail) : Prop :=
  ∀ h, hct = Some h → (0 ≤ Seqno h < 2 ^ 31)%Z ∧ length (htHash h) = 32 ∧
    ∀ h', v_tail w = Some h' → (Seqno h' < Seqno h)%Z.

Class StorageReaderLaws (R : Type) `{StorageReader R} := {
  rd_ok : R → Prop;
  rd_view : R → view;
  select_node_law r ph n :
    rd_ok r → v_nodes (rd_view r) !! phHash ph = Some n → SelectNode r ph = Ok n;
  select_leaf_law r ph :
    rd_ok r → SelectLeaf r ph =
      of_option MerkleLeafNotFoundError (v_leaves (rd_view r) !! phHash ph);
  select_root_law r :
    rd_ok r → SelectRootForTraversal r false None =
      (Some <$> of_option MerkleNoRootError (v_root (rd_view r)));
  select_hashes_law r es hs :
    rd_ok r → Forall2 (λ e h, v_hashes (rd_view r) !! e = Some h) es hs →
    SelectRootHashes r es = Ok hs;
  select_tail_law r : rd_ok r → SelectCurrentHostchainTail r = Ok (v_tail (rd_view r));
  select_bk_law r : rd_ok r → SelectBookkeeping r = Ok (v_bk (rd_view r))
}.

Class StorageTransactorLaws (T : Type) `{StorageTransactor T} := {
  tx_reader_laws :: StorageReaderLaws T;
  insert_node_law t h seg l r :
    rd_ok t → v_nodes (rd_view t) !! h = None → length h = 32 →
    length (phHash l) = 32 → length (phHash r) = 32 →
    int2_ok (BitStart seg) → int2_ok (BitCount seg) →
    ∃ t', InsertNode t h seg (Some l) (Some r) = Ok t' ∧ rd_ok t' ∧
      rd_view t' = add_node h {| Prefix := seg; Left := Some l; Right := Some r |} (rd_view t);
  insert_leaf_law t h k v e :
    rd_ok t → v_leaves (rd_view t) !! h = None →
    (∀ h' lf, v_leaves (rd_view t) !! h' = Some lf → Key lf ≠ k) →
    length h = 32 → length k = 32 → length v = 32 → int4_ok e → (0 ≤ e)%Z →
    ∃ t', InsertLeaf t h k v e = Ok t' ∧ rd_ok t' ∧
      rd_view t' = add_leaf h {| Key := k; Value := v |} (rd_view t);
  insert_root_law t time hash body ph hct :
    rd_ok t → (next_epno (rd_view t) < 2 ^ 31)%Z → length hash = 32 → length (phHash ph) = 32 →
    root_type_ok (rd_view t) ph → tail_newer (rd_view t) hct →
    ∃ t', InsertRoot t (next_epno (rd_view t)) time hash body ph hct = Ok t' ∧ rd_ok t' ∧
      rd_view t' = add_root (next_epno (rd_view t)) hash body ph hct (rd_view t);
  update_bk_law t bk :
    rd_ok t → v_bk (rd_view t) ≠ None → int4_ok (BatchNo bk) → (0 ≤ BatchNo bk)%Z → int4_ok (Pos bk) →
    ∃ t', UpdateBookkeeping t bk = Ok t' ∧ rd_ok t' ∧ rd_view t' = set_bk bk (rd_view t);
  update_bk_none_law t bk :
    rd_ok t → v_bk (rd_view t) = None → int4_ok (BatchNo bk) → (0 ≤ BatchNo bk)%Z → int4_ok (Pos bk) →
    UpdateBookkeeping t bk = Err (InsertError "failed to insert bookkeeping")
}.
