(* ===== verification/MerkleSql.v ===== *)
(** * The SQL storage of the Merkle tree

    [server/shared/merkle_sql_storage.go] over the tables of
    [server/sql/foks_merkle_tree.sql].  A table whose primary key is one column is
    a finite map; [merkle_roots] and [merkle_hostchain_tails], keyed by
    (short_host_id, seqno or epno), are lists of rows with the key checked on
    insertion.  [Reader] and [Tx] implement the interfaces of [MerkleStorage], and
    the second half of the file proves their laws. *)
From S2P Require Import Prelude Bits SkipPointers MerkleTypes MerkleStorage.

(** ** Tables *)
Record RootRow := {
  rr_host : Z; rr_epno : Z; rr_ctime : Z; rr_hash : bytes; rr_body : bytes;
  rr_root_node : bytes; rr_sig : option bytes
}.
(** [nr_l] and [nr_r] are nullable; NULL reads as the empty slice. *)
Record NodeRow := {
  nr_bit_start : Z; nr_bit_count : Z; nr_key_segment : bytes; nr_l : bytes; nr_r : bytes
}.
Record LeafRow := { lr_k : bytes; lr_v : bytes; lr_epno : Z }.
Record BkRow := { build_next_batchno : Z; batch_next_batchno : Z; bk_pos : Z }.
Record TailRow := { tl_host : Z; tl_seqno : Z; tl_hash : bytes }.

Record Db := {
  merkle_roots : list RootRow;
  merkle_nodes : gmap bytes NodeRow;
  merkle_leaves : gmap bytes LeafRow;
  merkle_last_sig : gmap Z Z;
  merkle_bookkeeping : gmap Z BkRow;
  merkle_hostchain_tails : list TailRow;
  merkle_tree_metadata : gmap Z bool
}.

Definition empty_db : Db :=
  {| merkle_roots := []; merkle_nodes := ∅; merkle_leaves := ∅; merkle_last_sig := ∅;
     merkle_bookkeeping := ∅; merkle_hostchain_tails := []; merkle_tree_metadata := ∅ |}.

Definition set_roots f db : Db :=
  {| merkle_roots := f (merkle_roots db); merkle_nodes := merkle_nodes db;
     merkle_leaves := merkle_leaves db; merkle_last_sig := merkle_last_sig db;
     merkle_bookkeeping := merkle_bookkeeping db;
     merkle_hostchain_tails := merkle_hostchain_tails db;
     merkle_tree_metadata := merkle_tree_metadata db |}.
Definition set_nodes f db : Db :=
  {| merkle_roots := merkle_roots db; merkle_nodes := f (merkle_nodes db);
     merkle_leaves := merkle_leaves db; merkle_last_sig := merkle_last_sig db;
     merkle_bookkeeping := merkle_bookkeeping db;
     merkle_hostchain_tails := merkle_hostchain_tails db;
     merkle_tree_metadata := merkle_tree_metadata db |}.
Definition set_leaves f db : Db :=
  {| merkle_roots := merkle_roots db; merkle_nodes := merkle_nodes db;
     merkle_leaves := f (merkle_leaves db); merkle_last_sig := merkle_last_sig db;
     merkle_bookkeeping := merkle_bookkeeping db;
     merkle_hostchain_tails := merkle_hostchain_tails db;
     merkle_tree_metadata := merkle_tree_metadata db |}.
Definition set_bookkeeping f db : Db :=
  {| merkle_roots := merkle_roots db; merkle_nodes := merkle_nodes db;
     merkle_leaves := merkle_leaves db; merkle_last_sig := merkle_last_sig db;
     merkle_bookkeeping := f (merkle_bookkeeping db);
     merkle_hostchain_tails := merkle_hostchain_tails db;
     merkle_tree_metadata := merkle_tree_metadata db |}.
Definition set_tails f db : Db :=
  {| merkle_roots := merkle_roots db; merkle_nodes := merkle_nodes db;
     merkle_leaves := merkle_leaves db; merkle_last_sig := merkle_last_sig db;
     merkle_bookkeeping := merkle_bookkeeping db;
     merkle_hostchain_tails := f (merkle_hostchain_tails db);
     merkle_tree_metadata := merkle_tree_metadata db |}.
Definition set_metadata f db : Db :=
  {| merkle_roots := merkle_roots db; merkle_nodes := merkle_nodes db;
     merkle_leaves := merkle_leaves db; merkle_last_sig := merkle_last_sig db;
     merkle_bookkeeping := merkle_bookkeeping db;
     merkle_hostchain_tails := merkle_hostchain_tails db;
     merkle_tree_metadata := f (merkle_tree_metadata db) |}.

(** A Go [int] bound to an INT (4-byte) or SMALLINT (2-byte) column. *)
Definition int4 (z : Z) : result Z :=
  if ((- 2 ^ 31 <=? z) && (z <? 2 ^ 31))%Z then Ok z else Err (SqlError "integer out of range").
Definition int2 (z : Z) : result Z :=
  if ((- 2 ^ 15 <=? z) && (z <? 2 ^ 15))%Z then Ok z else Err (SqlError "smallint out of range").

Definition find_root (h e : Z) (rows : list RootRow) : option RootRow :=
  snd <$> list_find (λ r, rr_host r = h ∧ rr_epno r = e) rows.

(** [ORDER BY key DESC LIMIT 1] among a host's rows. *)
Fixpoint latest {R} (host key : R → Z) (h : Z) (rows : list R) : option R :=
  match rows with
  | [] => None
  | r :: rows' =>
      if (host r =? h)%Z
      then match latest host key h rows' with
           | Some r' => if (key r' <? key r)%Z then Some r else Some r'
           | None => Some r
           end
      else latest host key h rows'
  end.
Definition latest_root : Z → list RootRow → option RootRow := latest rr_host rr_epno.
Definition latest_tail : Z → list TailRow → option TailRow := latest tl_host tl_seqno.

(** ** The transaction handle and its writes *)
Record Tx := { tx : Db; tx_host : Z }.
Record Reader := { rdb : Db; rdb_host : Z }.

Definition set_tx (t : Tx) (db : Db) : Tx := {| tx := db; tx_host := tx_host t |}.

Definition sql_insert_root_row (h epno time : Z) (hash body node : bytes) (db : Db) : result Db :=
  e ← int4 epno;
  _ ← guard_err (bool_decide (is_Some (find_root h e (merkle_roots db))))
        (SqlError "duplicate key: merkle_roots_pkey");
  Ok (set_roots (cons {| rr_host := h; rr_epno := e; rr_ctime := time; rr_hash := hash;
                         rr_body := body; rr_root_node := node; rr_sig := None |}) db).

Definition sql_insert_tail (h : Z) (hct : HostchainTail) (db : Db) : result Db :=
  s ← int4 (wrap_int (Seqno hct));
  _ ← guard_err (existsb (λ r, (tl_host r =? h) && (tl_seqno r =? s))%Z (merkle_hostchain_tails db))
        (SqlError "duplicate key: merkle_hostchain_tails_pkey");
  Ok (set_tails (cons {| tl_host := h; tl_seqno := s; tl_hash := htHash hct |}) db).

Definition sql_insert_metadata (h : Z) (db : Db) : result Db :=
  _ ← guard_err (bool_decide (is_Some (merkle_tree_metadata db !! h)))
        (SqlError "duplicate key: merkle_tree_metadata_pkey");
  Ok (set_metadata <[h := false]> db).

Definition sql_insert_bookkeeping (h : Z) (db : Db) : result Db :=
  _ ← guard_err (bool_decide (is_Some (merkle_bookkeeping db !! h)))
        (SqlError "duplicate key: merkle_bookkeeping_pkey");
  Ok (set_bookkeeping
        <[h := {| build_next_batchno := 1; batch_next_batchno := 1; bk_pos := -1 |}]> db).

Definition Tx_InsertRoot (t : Tx) (epno time : Z) (rootHash body : bytes)
    (rootNode : PrefixedHash) (hct : option HostchainTail) : result Tx :=
  let h := tx_host t in
  db1 ← sql_insert_root_row h epno time rootHash body (phHash rootNode) (tx t);
  db2 ← match hct with Some hc => sql_insert_tail h hc db1 | None => Ok db1 end;
  db3 ← (if (epno =? MerkleEpnoFirst)%Z then sql_insert_metadata h db2
         else match phTyp rootNode with
              | MerkleNodeType_Node => Ok (set_metadata (alter (λ _, true) h) db2)
              | MerkleNodeType_Leaf => Ok db2
              end);
  db4 ← (if (epno =? MerkleEpnoFirst)%Z then sql_insert_bookkeeping h db3 else Ok db3);
  Ok (set_tx t db4).

(** [left.Bytes()] dereferences a nil pointer where there is no child. *)
Definition Tx_InsertNode (t : Tx) (hash : bytes) (segment : Segment)
    (left right : option PrefixedHash) : result Tx :=
  l ← of_option GoPanic left;
  r ← of_option GoPanic right;
  s ← int2 (BitStart segment);
  c ← int2 (BitCount segment);
  _ ← guard_err (bool_decide (is_Some (merkle_nodes (tx t) !! hash)))
        (SqlError "duplicate key: merkle_nodes_pkey");
  Ok (set_tx t (set_nodes
        <[hash := {| nr_bit_start := s; nr_bit_count := c; nr_key_segment := Bytes segment;
                     nr_l := PrefixedHash_Bytes l; nr_r := PrefixedHash_Bytes r |}]> (tx t))).

Definition leaf_key_exists (k : bytes) (db : Db) : bool :=
  existsb (λ kv, bool_decide (lr_k kv.2 = k)) (map_to_list (merkle_leaves db)).

Definition Tx_InsertLeaf (t : Tx) (hash key val : bytes) (epno : Z) : result Tx :=
  e ← int4 (wrap_int epno);
  _ ← guard_err (bool_decide (is_Some (merkle_leaves (tx t) !! hash))) MerkleLeafExistsError;
  _ ← guard_err (leaf_key_exists key (tx t)) (SqlError "duplicate key: merkle_leaves_key_idx");
  Ok (set_tx t (set_leaves <[hash := {| lr_k := key; lr_v := val; lr_epno := e |}]> (tx t))).

Definition Tx_UpdateBookkeepingForBatcher (t : Tx) (bn : Z) : result Tx :=
  b ← int4 (wrap_int bn);
  match merkle_bookkeeping (tx t) !! tx_host t with
  | Some row => Ok (set_tx t (set_bookkeeping
      <[tx_host t := {| build_next_batchno := build_next_batchno row;
                        batch_next_batchno := b; bk_pos := bk_pos row |}]> (tx t)))
  | None => Err (InsertError "failed to insert bookkeeping for batcher")
  end.

Definition Tx_UpdateBookkeeping (t : Tx) (bk : Bookkeeping) : result Tx :=
  b ← int4 (wrap_int (BatchNo bk));
  p ← int4 (Pos bk);
  match merkle_bookkeeping (tx t) !! tx_host t with
  | Some row => Ok (set_tx t (set_bookkeeping
      <[tx_host t := {| build_next_batchno := b;
                        batch_next_batchno := batch_next_batchno row; bk_pos := p |}]> (tx t)))
  | None => Err (InsertError "failed to insert bookkeeping")
  end.

(** ** Reads, shared by the reader and the transaction *)
Section reads.
Context `{Codec}.

Definition selectBookkeping (h : Z) (db : Db) : result (option Bookkeeping) :=
  Ok ((λ row, {| BatchNo := wrap64 (build_next_batchno row); Pos := bk_pos row |}) <$>
      merkle_bookkeeping db !! h).

(** [epno = ANY($2)]: the rows of a host whose epoch is listed. *)
Definition roots_any (h : Z) (v : list Z) (db : Db) : list RootRow :=
  filter (λ r, rr_host r = h ∧ rr_epno r ∈ v) (merkle_roots db).

Definition selectRootHashes (h : Z) (db : Db) (seq : list Z) : result (list bytes) :=
  v ← mapM_r (λ s, int4 (wrap_int s)) seq;
  rootMap ← mapM_r (λ row,
    _ ← guard_err (negb (len (rr_hash row) =? 32)%Z) (InternalError "wrong hash size for epno");
    Ok (wrap64 (rr_epno row), rr_hash row)) (roots_any h v db);
  mapM_r (λ ep, of_option (InternalError "no hash found for epno")
    ((list_to_map rootMap : gmap Z bytes) !! ep)) seq.

Definition selectRoots (h : Z) (db : Db) (seq : list Z) : result (list MerkleRoot) :=
  v ← mapM_r (λ s, int4 (wrap_int s)) seq;
  rootMap ← mapM_r (λ row,
    r ← dec_MerkleRoot (rr_body row);
    Ok (wrap64 (rr_epno row), r)) (roots_any h v db);
  mapM_r (λ ep, of_option (InternalError "no body found for epno")
    ((list_to_map rootMap : gmap Z MerkleRoot) !! ep)) seq.

Definition selectCurrentHostchainTail (h : Z) (db : Db) : result (option HostchainTail) :=
  match latest_tail h (merkle_hostchain_tails db) with
  | None => Ok None
  | Some r =>
      _ ← guard_err (negb (len (tl_hash r) =? 32)%Z) (DataError "bad link hash");
      Ok (Some {| Seqno := wrap64 (tl_seqno r); htHash := tl_hash r |})
  end.

Definition selectCurrentRootHash (h : Z) (db : Db) : result TreeRoot :=
  match latest_root h (merkle_roots db) with
  | None => Err MerkleNoRootError
  | Some r =>
      _ ← guard_err (negb (len (rr_hash r) =? 32)%Z) (DataError "invalid MerkleRootHash length");
      Ok {| trEpno := wrap64 (rr_epno r); trHash := rr_hash r |}
  end.

(** The row each of the three queries selects, before the join with the metadata. *)
Definition traversal_row (h : Z) (db : Db) (signed : bool) (findEpno : option Z)
    : result (option RootRow) :=
  match findEpno, signed with
  | Some e, _ => e4 ← int4 (wrap_int e); Ok (find_root h e4 (merkle_roots db))
  | None, true => Ok (e ← merkle_last_sig db !! h; find_root h e (merkle_roots db))
  | None, false => Ok (latest_root h (merkle_roots db))
  end.

Definition selectRootForTraversal (h : Z) (db : Db) (signed : bool) (findEpno : option Z)
    : result (option Root) :=
  row ← traversal_row h db signed findEpno;
  match row, merkle_tree_metadata db !! h with
  | Some r, Some rootIsNode =>
      let typ := if (rootIsNode : bool) then MerkleNodeType_Node else MerkleNodeType_Leaf in
      _ ← guard_err (negb (len (rr_root_node r) =? 32)%Z)
            (InternalError "need root nodeHash to be 32 bytes");
      sig ← (if signed then Some <$> dec_Signature (default [] (rr_sig r)) else Ok None);
      Ok (Some {| Epno := wrap64 (rr_epno r); Body := rr_body r;
                  RootNode := {| phTyp := typ; phHash := rr_root_node r |}; Sig := sig |})
  | _, _ => Err MerkleNoRootError
  end.

Definition selectNode (db : Db) (h : PrefixedHash) : result Node :=
  row ← of_option (SqlError "no rows in result set") (merkle_nodes db !! phHash h);
  lph ← ImportPrefixedHashFromDB (nr_l row);
  rph ← ImportPrefixedHashFromDB (nr_r row);
  Ok {| Prefix := {| Bytes := nr_key_segment row; BitStart := nr_bit_start row;
                     BitCount := nr_bit_count row |};
        Left := lph; Right := rph |}.

Definition selectLeaf (db : Db) (h : PrefixedHash) : result MerkleLeaf :=
  row ← of_option MerkleLeafNotFoundError (merkle_leaves db !! phHash h);
  _ ← guard_err (negb (len (lr_k row) =? 32)%Z) (InternalError "wrong size for merkle leaf key");
  _ ← guard_err (negb (len (lr_v row) =? 32)%Z) (InternalError "wrong size for merkle leaf value");
  Ok {| Key := lr_k row; Value := lr_v row |}.

Definition find_leaf_by_key (k : bytes) (db : Db) : option LeafRow :=
  snd <$> (snd <$> list_find (λ kv, lr_k kv.2 = k) (map_to_list (merkle_leaves db))).

Definition checkLeafExists (h : Z) (db : Db) (k : bytes) : result MerkleExistsRes :=
  row ← of_option MerkleLeafNotFoundError (find_leaf_by_key k db);
  Ok {| merEpno := wrap64 (lr_epno row);
        merSigned := match merkle_last_sig db !! h with
                     | Some signedEpno => (lr_epno row <=? signedEpno)%Z
                     | None => false
                     end |}.

Definition confirmRoot (h : Z) (db : Db) (root : TreeRoot) : result () :=
  e ← int4 (wrap_int (trEpno root));
  match find_root h e (merkle_roots db) with
  | Some r => guard_err (negb (bool_decide (rr_hash r = trHash root))) MerkleNoRootError
  | None => Err MerkleNoRootError
  end.

#[global] Instance Reader_StorageReader : StorageReader Reader := {|
  SelectRootForTraversal r signed epno := selectRootForTraversal (rdb_host r) (rdb r) signed epno;
  SelectNode r := selectNode (rdb r);
  SelectLeaf r := selectLeaf (rdb r);
  CheckLeafExists r := checkLeafExists (rdb_host r) (rdb r);
  SelectRootHashes r := selectRootHashes (rdb_host r) (rdb r);
  SelectCurrentRootHash r := selectCurrentRootHash (rdb_host r) (rdb r);
  SelectRoots r := selectRoots (rdb_host r) (rdb r);
  SelectBookkeeping r := selectBookkeping (rdb_host r) (rdb r);
  SelectCurrentHostchainTail r := selectCurrentHostchainTail (rdb_host r) (rdb r);
  ConfirmRoot r := confirmRoot (rdb_host r) (rdb r)
|}.

(** A transaction always traverses from the latest root: it drops the epoch. *)
#[global] Instance Tx_StorageReader : StorageReader Tx := {|
  SelectRootForTraversal t signed epno := selectRootForTraversal (tx_host t) (tx t) signed None;
  SelectNode t := selectNode (tx t);
  SelectLeaf t := selectLeaf (tx t);
  CheckLeafExists t := checkLeafExists (tx_host t) (tx t);
  SelectRootHashes t := selectRootHashes (tx_host t) (tx t);
  SelectCurrentRootHash t := selectCurrentRootHash (tx_host t) (tx t);
  SelectRoots t := selectRoots (tx_host t) (tx t);
  SelectBookkeeping t := selectBookkeping (tx_host t) (tx t);
  SelectCurrentHostchainTail t := selectCurrentHostchainTail (tx_host t) (tx t);
  ConfirmRoot t := confirmRoot (tx_host t) (tx t)
|}.

#[global] Instance Tx_StorageTransactor : StorageTransactor Tx := {|
  tx_reader := Tx_StorageReader;
  InsertRoot := Tx_InsertRoot;
  InsertNode := Tx_InsertNode;
  InsertLeaf := Tx_InsertLeaf;
  UpdateBookkeeping := Tx_UpdateBookkeeping;
  UpdateBookkeepingForBatcher := Tx_UpdateBookkeepingForBatcher
|}.

(** The database of one host.  [RunRetryTx] runs the function in a transaction,
    commits when it succeeds and rolls back when it fails; commit conflicts and
    their retries do not occur in a sequential run. *)
Record SQLStorage := { st_db : Db; st_host : Z }.

#[global] Instance SQLStorage_Writer : StorageWriter SQLStorage Tx Reader := {|
  RunRetryTx A s f :=
    match f {| tx := st_db s; tx_host := st_host s |} with
    | Ok (a, t) => (Ok a, {| st_db := tx t; st_host := st_host s |})
    | Err e => (Err e, s)
    end;
  RunRead A s f := f {| rdb := st_db s; rdb_host := st_host s |}
|}.
End reads.

(** ** The view of a database *)
Definition row_node (row : NodeRow) : option Node :=
  match ImportPrefixedHashFromDB (nr_l row), ImportPrefixedHashFromDB (nr_r row) with
  | Ok l, Ok r => Some {| Prefix := {| Bytes := nr_key_segment row; BitStart := nr_bit_start row;
                                       BitCount := nr_bit_count row |}; Left := l; Right := r |}
  | _, _ => None
  end.

Definition row_leaf (row : LeafRow) : option MerkleLeaf :=
  if ((len (lr_k row) =? 32) && (len (lr_v row) =? 32))%Z
  then Some {| Key := lr_k row; Value := lr_v row |} else None.

Definition host_hashes (h : Z) (rows : list RootRow) : gmap Z bytes :=
  list_to_map ((λ r, (rr_epno r, rr_hash r)) <$> filter (λ r, rr_host r = h) rows).

Definition sql_view (h : Z) (db : Db) : view := {|
  v_nodes := omap row_node (merkle_nodes db);
  v_leaves := omap row_leaf (merkle_leaves db);
  v_root := r ← latest_root h (merkle_roots db);
            isNode ← merkle_tree_metadata db !! h;
            Some {| Epno := rr_epno r; Body := rr_body r;
                    RootNode := {| phTyp := if (isNode : bool) then MerkleNodeType_Node
                                            else MerkleNodeType_Leaf;
                                   phHash := rr_root_node r |};
                    Sig := None |};
  v_hashes := host_hashes h (merkle_roots db);
  v_tail := (λ r, {| Seqno := tl_seqno r; htHash := tl_hash r |}) <$>
            latest_tail h (merkle_hostchain_tails db);
  v_bk := (λ row, {| BatchNo := build_next_batchno row; Pos := bk_pos row |}) <$>
          merkle_bookkeeping db !! h
|}.

(** Integrity of a host's rows: hashes have 32 bytes, stored numbers come from
    unsigned values, and the metadata and bookkeeping rows exist exactly when
    there is a root. *)
Record db_ok (h : Z) (db : Db) : Prop := {
  ok_nodes : map_Forall (λ _ row, is_Some (row_node row)) (merkle_nodes db);
  ok_leaves : map_Forall (λ _ row, is_Some (row_leaf row)) (merkle_leaves db);
  ok_roots : Forall (λ r, rr_host r = h → (1 ≤ rr_epno r < 2 ^ 31)%Z ∧
               length (rr_hash r) = 32 ∧ length (rr_root_node r) = 32) (merkle_roots db);
  ok_tails : Forall (λ r, tl_host r = h → (0 ≤ tl_seqno r < 2 ^ 31)%Z ∧ length (tl_hash r) = 32)
               (merkle_hostchain_tails db);
  ok_meta : latest_root h (merkle_roots db) = None ↔ merkle_tree_metadata db !! h = None;
  ok_bk : latest_root h (merkle_roots db) = None ↔ merkle_bookkeeping db !! h = None;
  ok_bk_row row : merkle_bookkeeping db !! h = Some row → (0 ≤ build_next_batchno row < 2 ^ 31)%Z
}.

(** ** Facts about the tables *)
Lemma wrap64_small z : (0 ≤ z < 2 ^ 31)%Z → wrap64 z = z.
Proof. intros. unfold wrap64. apply Z.mod_small. lia. Qed.
Lemma wrap_int_small z : (- 2 ^ 31 ≤ z < 2 ^ 31)%Z → wrap_int z = z.
Proof. intros. unfold wrap_int. rewrite Z.mod_small by lia. lia. Qed.
Lemma int4_small z : (- 2 ^ 31 ≤ z < 2 ^ 31)%Z → int4 z = Ok z.
Proof.
  intros. unfold int4.
  by replace ((- 2 ^ 31 <=? z) && (z <? 2 ^ 31))%Z with true by lia.
Qed.
Lemma int2_small z : int2_ok z → int2 z = Ok z.
Proof.
  unfold int2_ok, int2. intros.
  by replace ((- 2 ^ 15 <=? z) && (z <? 2 ^ 15))%Z with true by lia.
Qed.

Lemma ImportPrefixedHash_Bytes p :
  length (phHash p) = 32 → ImportPrefixedHashFromDB (PrefixedHash_Bytes p) = Ok (Some p).
Proof.
  intros Hl. destruct p as [ty h]; simpl in *. unfold len. simpl. rewrite Hl. by destruct ty.
Qed.

Lemma latest_spec {R} (host key : R → Z) h rows :
  match latest host key h rows with
  | None => Forall (λ r, host r ≠ h) rows
  | Some r => r ∈ rows ∧ host r = h ∧ Forall (λ r', host r' = h → (key r' ≤ key r)%Z) rows
  end.
Proof.
  induction rows as [|r rows IH]; simpl; [constructor|].
  destruct (Z.eqb_spec (host r) h) as [Hh|Hh].
  - destruct (latest host key h rows) as [r'|].
    + destruct IH as (Hin & Hh' & Hall).
      destruct (Z.ltb_spec (key r') (key r)).
      * split_and!; [set_solver|done|]. constructor; [lia|].
        eapply Forall_impl; [done|]. simpl. intros x Hx ?. specialize (Hx ltac:(done)). lia.
      * split_and!; [set_solver|done|]. constructor; [lia|done].
    + split_and!; [set_solver|done|]. constructor; [lia|].
      eapply Forall_impl; [done|]. naive_solver.
  - destruct (latest host key h rows) as [r'|]; [|by constructor].
    split_and!; [set_solver|naive_solver|]. constructor; [done|naive_solver].
Qed.

(** A row with a key above all others becomes the latest one. *)
Lemma latest_cons {R} (host key : R → Z) h r rows :
  host r = h → (∀ r', latest host key h rows = Some r' → (key r' < key r)%Z) →
  latest host key h (r :: rows) = Some r.
Proof.
  intros Hh Hlt. simpl. replace (host r =? h)%Z with true by lia.
  destruct (latest host key h rows) as [r'|]; [|done].
  specialize (Hlt _ eq_refl). by replace (key r' <? key r)%Z with true by lia.
Qed.

Lemma find_root_above h e rows :
  (∀ r, latest_root h rows = Some r → (rr_epno r < e)%Z) → find_root h e rows = None.
Proof.
  intros Hlt. unfold find_root. apply fmap_None, list_find_None.
  pose proof (latest_spec rr_host rr_epno h rows) as Hs. unfold latest_root in Hlt.
  destruct (latest rr_host rr_epno h rows) as [r|].
  - destruct Hs as (_ & _ & Hall). specialize (Hlt _ eq_refl).
    eapply Forall_impl; [done|]. simpl. intros x Hx [? ?]. specialize (Hx ltac:(done)). lia.
  - eapply Forall_impl; [done|]. naive_solver.
Qed.

Lemma mapM_r_pure {A B} (f : A → result B) (g : A → B) l :
  Forall (λ x, f x = Ok (g x)) l → mapM_r f l = Ok (g <$> l).
Proof. induction 1 as [|x l Hf _ IH]; [done|]. simpl. by rewrite Hf; simpl; rewrite IH. Qed.

Lemma host_hashes_lookup h rows e x :
  host_hashes h rows !! e = Some x → ∃ r, r ∈ rows ∧ rr_host r = h ∧ rr_epno r = e.
Proof.
  unfold host_hashes. intros Hl%elem_of_list_to_map_2.
  apply list_elem_of_fmap in Hl as (r & [= -> ->] & Hin).
  apply list_elem_of_filter in Hin as [? ?]. eauto.
Qed.

(** Restricting the rows to the listed epochs keeps the hash of each of them. *)
Lemma roots_any_lookup h (v : list Z) rows e :
  e ∈ v →
  (list_to_map ((λ r, (rr_epno r, rr_hash r)) <$>
     filter (λ r, rr_host r = h ∧ rr_epno r ∈ v) rows) : gmap Z bytes) !! e =
  host_hashes h rows !! e.
Proof.
  intros He. unfold host_hashes. induction rows as [|r rows IH]; [done|].
  rewrite !filter_cons. destruct (decide (rr_host r = h)) as [Hh|Hh].
  - destruct (decide (rr_host r = h ∧ rr_epno r ∈ v)) as [[_ Hv]|Hv]; simpl.
    + rewrite !lookup_insert. by case_decide.
    + rewrite lookup_insert_ne; [done|]. intros <-. naive_solver.
  - rewrite decide_False by naive_solver. done.
Qed.

Section laws.
Context `{Codec}.

Lemma sql_select_hashes h db es hs :
  db_ok h db → Forall2 (λ e x, v_hashes (sql_view h db) !! e = Some x) es hs →
  selectRootHashes h db es = Ok hs.
Proof.
  intros Hdb Hes. unfold selectRootHashes. simpl in Hes.
  pose proof (ok_roots _ _ Hdb) as Hroots. rewrite Forall_forall in Hroots.
  assert (Forall (λ e, int4 (wrap_int e) = Ok e) es) as Hint.
  { clear -Hes Hroots. induction Hes as [|e x es hs Hx _ IH]; constructor; [|done].
    apply host_hashes_lookup in Hx as (r & Hin & Hh & <-). apply Hroots in Hin as [? _]; [|done].
    rewrite wrap_int_small by lia. apply int4_small. lia. }
  rewrite (mapM_r_pure _ id) by done. rewrite list_fmap_id. simpl.
  rewrite (mapM_r_pure _ (λ r, (rr_epno r, rr_hash r))).
  - simpl. apply mapM_r_Forall2.
    apply Forall2_same_length_lookup. split; [by eapply Forall2_length|].
    intros i e x Hi Hx. unfold roots_any. rewrite roots_any_lookup.
    + by rewrite (Forall2_lookup_lr _ _ _ _ _ _ Hes Hi Hx).
    + by eapply list_elem_of_lookup_2.
  - apply Forall_forall. intros r Hr. apply list_elem_of_filter in Hr as [[Hh _] Hin].
    apply Hroots in Hin as (He & Hl & _); [|done].
    unfold len. rewrite Hl. simpl. rewrite wrap64_small by lia. done.
Qed.

Lemma sql_select_node db ph n :
  omap row_node (merkle_nodes db) !! phHash ph = Some n → selectNode db ph = Ok n.
Proof.
  rewrite lookup_omap. intros (row & Hrow & Hn)%bind_Some.
  unfold selectNode. rewrite Hrow. simpl. unfold row_node in Hn.
  destruct (ImportPrefixedHashFromDB (nr_l row)), (ImportPrefixedHashFromDB (nr_r row));
    by simplify_eq/=.
Qed.

Lemma sql_select_leaf h db ph :
  db_ok h db →
  selectLeaf db ph = of_option MerkleLeafNotFoundError (v_leaves (sql_view h db) !! phHash ph).
Proof.
  intros Hdb. simpl. rewrite lookup_omap. unfold selectLeaf.
  destruct (merkle_leaves db !! phHash ph) as [row|] eqn:Hrow; [|done]. simpl.
  pose proof (ok_leaves _ _ Hdb _ _ Hrow) as [lf Hlf]. unfold row_leaf in *.
  destruct (len (lr_k row) =? 32)%Z, (len (lr_v row) =? 32)%Z; by simplify_eq/=.
Qed.

Lemma sql_select_root h db :
  db_ok h db → selectRootForTraversal h db false None =
    (Some <$> of_option MerkleNoRootError (v_root (sql_view h db))).
Proof.
  intros Hdb. unfold selectRootForTraversal. simpl.
  pose proof (latest_spec rr_host rr_epno h (merkle_roots db)) as Hs.
  unfold latest_root. destruct (latest rr_host rr_epno h (merkle_roots db)) as [r|]; [|done].
  destruct Hs as (Hin & Hh & _).
  pose proof (ok_roots _ _ Hdb) as Hroots. rewrite Forall_forall in Hroots.
  destruct (Hroots _ Hin Hh) as (He & _ & Hl).
  simpl. destruct (merkle_tree_metadata db !! h); [|done]. simpl.
  unfold len. rewrite Hl, wrap64_small by lia. done.
Qed.

Lemma sql_select_tail h db :
  db_ok h db → selectCurrentHostchainTail h db = Ok (v_tail (sql_view h db)).
Proof.
  intros Hdb. unfold selectCurrentHostchainTail. simpl.
  pose proof (latest_spec tl_host tl_seqno h (merkle_hostchain_tails db)) as Hs.
  unfold latest_tail.
  destruct (latest tl_host tl_seqno h (merkle_hostchain_tails db)) as [r|]; [|done].
  destruct Hs as (Hin & Hh & _).
  pose proof (ok_tails _ _ Hdb) as Ht. rewrite Forall_forall in Ht.
  destruct (Ht _ Hin Hh) as (He & Hl). simpl.
  unfold len. rewrite Hl, wrap64_small by lia. done.
Qed.

Lemma sql_select_bk h db :
  db_ok h db → selectBookkeping h db = Ok (v_bk (sql_view h db)).
Proof.
  intros Hdb. unfold selectBookkeping. simpl.
  destruct (merkle_bookkeeping db !! h) as [row|] eqn:Hrow; [|done]. simpl.
  pose proof (ok_bk_row _ _ Hdb _ Hrow). by rewrite wrap64_small.
Qed.

#[global] Program Instance Reader_laws : StorageReaderLaws Reader := {|
  rd_ok r := db_ok (rdb_host r) (rdb r);
  rd_view r := sql_view (rdb_host r) (rdb r)
|}.
Next Obligation. intros. by eapply sql_select_node. Qed.
Next Obligation. intros. by eapply sql_select_leaf. Qed.
Next Obligation. intros. by eapply sql_select_root. Qed.
Next Obligation. intros. by eapply sql_select_hashes. Qed.
Next Obligation. intros. by eapply sql_select_tail. Qed.
Next Obligation. intros. by eapply sql_select_bk. Qed.

#[global] Program Instance Tx_reader_laws : StorageReaderLaws Tx := {|
  rd_ok t := db_ok (tx_host t) (tx t);
  rd_view t := sql_view (tx_host t) (tx t)
|}.
Next Obligation. intros. by eapply sql_select_node. Qed.
Next Obligation. intros. by eapply sql_select_leaf. Qed.
Next Obligation. intros. by eapply sql_select_root. Qed.
Next Obligation. intros. by eapply sql_select_hashes. Qed.
Next Obligation. intros. by eapply sql_select_tail. Qed.
Next Obligation. intros. by eapply sql_select_bk. Qed.

Lemma sql_insert_node t hsh seg l r :
  rd_ok t → v_nodes (rd_view t) !! hsh = None → length hsh = 32 →
  length (phHash l) = 32 → length (phHash r) = 32 →
  int2_ok (BitStart seg) → int2_ok (BitCount seg) →
  ∃ t', Tx_InsertNode t hsh seg (Some l) (Some r) = Ok t' ∧ rd_ok t' ∧
    rd_view t' = add_node hsh {| Prefix := seg; Left := Some l; Right := Some r |} (rd_view t).
Proof.
  intros Hdb Hnone Hh Hl Hr Hs Hc. destruct t as [db h]. destruct seg as [bs st ct].
  simpl in *. rewrite lookup_omap in Hnone.
  assert (merkle_nodes db !! hsh = None) as Hn.
  { destruct (merkle_nodes db !! hsh) as [row|] eqn:Hrow; [|done].
    destruct (ok_nodes _ _ Hdb _ _ Hrow). simpl in Hnone. congruence. }
  unfold Tx_InsertNode. simpl. rewrite !int2_small by done. simpl.
  rewrite Hn, bool_decide_eq_false_2 by (by intros []). simpl.
  set (row := {| nr_bit_start := st |}).
  assert (row_node row = Some {| Prefix := {| Bytes := bs; BitStart := st; BitCount := ct |};
                                 Left := Some l; Right := Some r |}) as Hrow.
  { unfold row_node, row. cbn [nr_l nr_r]. by rewrite !ImportPrefixedHash_Bytes. }
  eexists. split; [done|]. split.
  - destruct Hdb. constructor; simpl; try done. apply map_Forall_insert_2; [by rewrite Hrow|done].
  - unfold sql_view, add_node. simpl. f_equal. by rewrite (omap_insert_Some _ _ _ _ _ Hrow).
Qed.

Lemma leaf_key_exists_false k db :
  (∀ h lf, merkle_leaves db !! h = Some lf → lr_k lf ≠ k) → leaf_key_exists k db = false.
Proof.
  intros Hk. unfold leaf_key_exists. apply not_true_iff_false. rewrite existsb_exists.
  intros ([h lf] & Hin & Heq). apply bool_decide_eq_true in Heq. simpl in Heq.
  apply list_elem_of_In, elem_of_map_to_list in Hin. naive_solver.
Qed.

Lemma sql_insert_leaf t hsh k v e :
  rd_ok t → v_leaves (rd_view t) !! hsh = None →
  (∀ h' lf, v_leaves (rd_view t) !! h' = Some lf → Key lf ≠ k) →
  length hsh = 32 → length k = 32 → length v = 32 → int4_ok e → (0 ≤ e)%Z →
  ∃ t', Tx_InsertLeaf t hsh k v e = Ok t' ∧ rd_ok t' ∧
    rd_view t' = add_leaf hsh {| Key := k; Value := v |} (rd_view t).
Proof.
  unfold int4_ok. intros Hdb Hnone Hkey Hh Hk Hv He He0. destruct t as [db h]. simpl in *.
  rewrite lookup_omap in Hnone.
  assert (merkle_leaves db !! hsh = None) as Hn.
  { destruct (merkle_leaves db !! hsh) as [row|] eqn:Hrow; [|done].
    destruct (ok_leaves _ _ Hdb _ _ Hrow). simpl in Hnone. congruence. }
  unfold Tx_InsertLeaf. rewrite wrap_int_small, int4_small by lia. simpl.
  rewrite Hn, bool_decide_eq_false_2 by (by intros []). simpl.
  rewrite leaf_key_exists_false.
  2:{ intros h' row Hrow. pose proof (ok_leaves _ _ Hdb _ _ Hrow) as [lf Hlf].
      specialize (Hkey h' lf). rewrite lookup_omap, Hrow in Hkey. simpl in Hkey.
      specialize (Hkey Hlf). unfold row_leaf in Hlf. by case_match; simplify_eq/=. }
  simpl. set (row := {| lr_k := k |}).
  assert (row_leaf row = Some {| Key := k; Value := v |}) as Hrow.
  { unfold row_leaf, row, len. cbn [lr_k lr_v]. by rewrite Hk, Hv. }
  eexists. split; [done|]. split.
  - destruct Hdb. constructor; simpl; try done. apply map_Forall_insert_2; [by rewrite Hrow|done].
  - unfold sql_view, add_leaf. simpl. f_equal. by rewrite (omap_insert_Some _ _ _ _ _ Hrow).
Qed.

Lemma sql_update_bk t bk :
  rd_ok t → v_bk (rd_view t) ≠ None →
  int4_ok (BatchNo bk) → (0 ≤ BatchNo bk)%Z → int4_ok (Pos bk) →
  ∃ t', Tx_UpdateBookkeeping t bk = Ok t' ∧ rd_ok t' ∧ rd_view t' = set_bk bk (rd_view t).
Proof.
  unfold int4_ok. intros Hdb Hbk Hb Hb0 Hp. destruct t as [db h], bk as [bn pos]. simpl in *.
  unfold Tx_UpdateBookkeeping. simpl. rewrite wrap_int_small, !int4_small by lia. simpl.
  destruct (merkle_bookkeeping db !! h) as [row|] eqn:Hrow; [|done].
  eexists. split; [done|]. split.
  - destruct Hdb. constructor; simpl; try done; rewrite lookup_insert_eq.
    + rewrite ok_bk0, Hrow. naive_solver.
    + intros ? [= <-]. simpl. lia.
  - unfold sql_view, set_bk. simpl. f_equal. by rewrite lookup_insert_eq.
Qed.

Lemma sql_update_bk_none t bk :
  rd_ok t → v_bk (rd_view t) = None →
  int4_ok (BatchNo bk) → (0 ≤ BatchNo bk)%Z → int4_ok (Pos bk) →
  Tx_UpdateBookkeeping t bk = Err (InsertError "failed to insert bookkeeping").
Proof.
  unfold int4_ok. intros Hdb Hbk Hb Hb0 Hp. destruct t as [db h]. simpl in *.
  unfold Tx_UpdateBookkeeping. rewrite wrap_int_small, !int4_small by lia. simpl.
  by destruct (merkle_bookkeeping db !! h).
Qed.

(** The view has a root exactly when the host has root rows. *)
Lemma sql_view_root h db :
  db_ok h db →
  match latest_root h (merkle_roots db) with
  | None => v_root (sql_view h db) = None ∧ merkle_tree_metadata db !! h = None
  | Some r => ∃ b : bool, merkle_tree_metadata db !! h = Some b ∧ (1 ≤ rr_epno r < 2 ^ 31)%Z ∧
      v_root (sql_view h db) = Some
        {| Epno := rr_epno r; Body := rr_body r;
           RootNode := {| phTyp := if b then MerkleNodeType_Node else MerkleNodeType_Leaf;
                          phHash := rr_root_node r |}; Sig := None |}
  end.
Proof.
  intros Hdb. pose proof (ok_meta _ _ Hdb) as Hmeta. simpl.
  pose proof (latest_spec rr_host rr_epno h (merkle_roots db)) as Hs. unfold latest_root in *.
  destruct (latest rr_host rr_epno h (merkle_roots db)) as [r|]; [|naive_solver].
  destruct Hs as (Hin & Hh & _).
  pose proof (ok_roots _ _ Hdb) as Hr. rewrite Forall_forall in Hr. specialize (Hr _ Hin Hh).
  destruct (merkle_tree_metadata db !! h) as [b|]; [|naive_solver].
  exists b. naive_solver.
Qed.

Lemma sql_next_epno h db :
  db_ok h db → (next_epno (sql_view h db) < 2 ^ 31)%Z →
  (1 ≤ next_epno (sql_view h db))%Z ∧
  match latest_root h (merkle_roots db) with
  | None => next_epno (sql_view h db) = MerkleEpnoFirst
  | Some r => (rr_epno r < next_epno (sql_view h db))%Z
  end.
Proof.
  intros Hdb Hlt. pose proof (sql_view_root h db Hdb) as Hr. unfold next_epno in *.
  destruct (latest_root h (merkle_roots db)) as [r|].
  - destruct Hr as (b & _ & Hb & Hv). rewrite Hv in *. simpl in *.
    assert (wrap64 (rr_epno r + 1) = rr_epno r + 1)%Z as ->; [|lia].
    unfold wrap64. apply Z.mod_small. lia.
  - destruct Hr as [-> _]. unfold MerkleEpnoFirst. lia.
Qed.

Lemma sql_insert_tail_ok h hc db :
  tail_newer (sql_view h db) (Some hc) →
  sql_insert_tail h hc db =
    Ok (set_tails (cons {| tl_host := h; tl_seqno := Seqno hc; tl_hash := htHash hc |}) db).
Proof.
  intros Ht. destruct (Ht hc eq_refl) as (Hb & Hl & Hlt). unfold sql_insert_tail.
  rewrite wrap_int_small, int4_small by lia. simpl.
  replace (existsb _ _) with false; [done|]. symmetry. apply not_true_iff_false.
  rewrite existsb_exists. intros (r & Hin & Heq). apply list_elem_of_In in Hin. simpl in Hlt.
  pose proof (latest_spec tl_host tl_seqno h (merkle_hostchain_tails db)) as Hs.
  unfold latest_tail in Hlt.
  destruct (latest tl_host tl_seqno h (merkle_hostchain_tails db)) as [r'|].
  - destruct Hs as (_ & _ & Hall). rewrite Forall_forall in Hall. specialize (Hall r Hin ltac:(lia)).
    specialize (Hlt _ eq_refl). simpl in Hlt. lia.
  - rewrite Forall_forall in Hs. specialize (Hs r Hin). lia.
Qed.

(** The database after a root insertion. *)
Definition root_inserted (h e time : Z) (hash body : bytes) (ph : PrefixedHash)
    (hct : option HostchainTail) (db : Db) : Db :=
  {| merkle_roots := {| rr_host := h; rr_epno := e; rr_ctime := time; rr_hash := hash;
                        rr_body := body; rr_root_node := phHash ph; rr_sig := None |}
                     :: merkle_roots db;
     merkle_nodes := merkle_nodes db;
     merkle_leaves := merkle_leaves db;
     merkle_last_sig := merkle_last_sig db;
     merkle_bookkeeping :=
       if (e =? MerkleEpnoFirst)%Z
       then <[h := {| build_next_batchno := 1; batch_next_batchno := 1; bk_pos := -1 |}]>
              (merkle_bookkeeping db)
       else merkle_bookkeeping db;
     merkle_hostchain_tails :=
       match hct with
       | Some hc => {| tl_host := h; tl_seqno := Seqno hc; tl_hash := htHash hc |}
                    :: merkle_hostchain_tails db
       | None => merkle_hostchain_tails db
       end;
     merkle_tree_metadata :=
       if (e =? MerkleEpnoFirst)%Z then <[h := false]> (merkle_tree_metadata db)
       else match phTyp ph with
            | MerkleNodeType_Node => alter (λ _, true) h (merkle_tree_metadata db)
            | MerkleNodeType_Leaf => merkle_tree_metadata db
            end |}.

Lemma sql_insert_root_run t time hash body ph hct :
  rd_ok t → (next_epno (rd_view t) < 2 ^ 31)%Z → tail_newer (rd_view t) hct →
  Tx_InsertRoot t (next_epno (rd_view t)) time hash body ph hct =
    Ok (set_tx t (root_inserted (tx_host t) (next_epno (rd_view t)) time hash body ph hct (tx t))).
Proof.
  intros Hdb Hlt Ht. destruct t as [db h]. cbn [rd_ok rd_view Tx_reader_laws tx tx_host] in *.
  destruct (sql_next_epno h db Hdb Hlt) as [He1 He]. pose proof (sql_view_root h db Hdb) as Hr.
  pose proof (ok_bk _ _ Hdb) as Hbk.
  set (e := next_epno (sql_view h db)) in *. unfold Tx_InsertRoot, sql_insert_root_row. simpl.
  rewrite int4_small by lia. simpl.
  rewrite (find_root_above h e) by (intros r Hr'; by rewrite Hr' in He).
  rewrite bool_decide_eq_false_2 by (by intros []). simpl.
  set (db1 := set_roots _ db).
  assert ((match hct with Some hc => sql_insert_tail h hc db1 | None => Ok db1 end) =
    Ok (match hct with
        | Some hc => set_tails (cons {| tl_host := h; tl_seqno := Seqno hc; tl_hash := htHash hc |}) db1
        | None => db1 end)) as ->.
  { destruct hct as [hc|]; [|done]. by apply sql_insert_tail_ok. }
  unfold root_inserted. simpl. destruct (Z.eqb_spec e MerkleEpnoFirst) as [Hf|Hf].
  - destruct (latest_root h (merkle_roots db)) as [r|].
    { destruct Hr as (_ & _ & Hr & _). unfold MerkleEpnoFirst in Hf. lia. }
    destruct Hr as [_ Hmeta]. apply proj1 in Hbk. specialize (Hbk eq_refl).
    unfold sql_insert_metadata, sql_insert_bookkeeping.
    destruct hct; simpl; rewrite Hmeta; simpl; by rewrite Hbk.
  - by destruct hct, (phTyp ph).
Qed.

Lemma sql_insert_root t time hash body ph hct :
  rd_ok t → (next_epno (rd_view t) < 2 ^ 31)%Z → length hash = 32 → length (phHash ph) = 32 →
  root_type_ok (rd_view t) ph → tail_newer (rd_view t) hct →
  ∃ t', Tx_InsertRoot t (next_epno (rd_view t)) time hash body ph hct = Ok t' ∧ rd_ok t' ∧
    rd_view t' = add_root (next_epno (rd_view t)) hash body ph hct (rd_view t).
Proof.
  intros Hdb Hlt Hh Hph Hty Ht. rewrite sql_insert_root_run by done.
  destruct t as [db h]. cbn [rd_ok rd_view Tx_reader_laws tx tx_host] in *.
  destruct (sql_next_epno h db Hdb Hlt) as [He1 He]. pose proof (sql_view_root h db Hdb) as Hr.
  set (e := next_epno (sql_view h db)) in *. eexists. split; [done|]. simpl.
  assert (Hlat : ∀ r, rr_host r = h → rr_epno r = e →
    latest_root h (r :: merkle_roots db) = Some r).
  { intros r Hrh Hre. apply latest_cons; [done|]. intros r' Hr'.
    unfold latest_root in He. rewrite Hr' in He. lia. }
  assert (Hmeta : ∃ b : bool, merkle_tree_metadata (root_inserted h e time hash body ph hct db) !! h = Some b ∧
    phTyp ph = if b then MerkleNodeType_Node else MerkleNodeType_Leaf).
  { simpl. unfold root_type_ok in Hty.
    destruct (latest_root h (merkle_roots db)) as [r|].
    - destruct Hr as (b & Hb & Hre & Hv). rewrite Hv in Hty. simpl in Hty.
      replace (e =? MerkleEpnoFirst)%Z with false by (unfold MerkleEpnoFirst; lia).
      destruct (phTyp ph).
      + exists b. split; [done|]. destruct b; [|done]. by specialize (Hty eq_refl).
      + exists true. by rewrite lookup_alter_eq, Hb.
    - destruct Hr as [Hv _]. rewrite Hv in Hty. rewrite He, Hty. simpl. exists false.
      by rewrite lookup_insert_eq. }
  destruct Hmeta as (b & Hb & Hbt).
  split.
  - destruct Hdb. constructor; cbn [merkle_roots merkle_nodes merkle_leaves merkle_hostchain_tails
      merkle_bookkeeping root_inserted]; try done.
    + constructor; [|done]. simpl. lia.
    + destruct hct as [hc|]; [|done]. constructor; [|done]. simpl.
      destruct (Ht hc eq_refl) as (? & ? & _). done.
    + rewrite Hlat by done. by rewrite Hb.
    + rewrite Hlat by done. split; [done|]. destruct (Z.eqb_spec e MerkleEpnoFirst).
      * by rewrite lookup_insert_eq.
      * rewrite <- ok_bk0. intros HN. rewrite HN in He. done.
    + intros row. destruct (Z.eqb_spec e MerkleEpnoFirst); [|apply ok_bk_row0].
      rewrite lookup_insert_eq. intros [= <-]. simpl. lia.
  - unfold sql_view, add_root. f_equal.
    + cbn [merkle_roots root_inserted]. rewrite Hlat by done. simpl in Hb |- *.
      rewrite Hb. simpl. by destruct ph; simplify_eq/=.
    + simpl. unfold host_hashes. rewrite filter_cons, decide_True by done. done.
    + simpl. destruct hct as [hc|]; [|done]. unfold latest_tail.
      rewrite latest_cons; [by destruct hc|done|]. intros r' Hr'. simpl.
      destruct (Ht hc eq_refl) as (_ & _ & Hlt'). simpl in Hlt'. unfold latest_tail in Hlt'.
      rewrite Hr' in Hlt'. by specialize (Hlt' _ eq_refl).
    + simpl. destruct (Z.eqb_spec e MerkleEpnoFirst); [|done]. by rewrite lookup_insert_eq.
Qed.

#[global] Program Instance Tx_laws : StorageTransactorLaws Tx := {|
  tx_reader_laws := Tx_reader_laws
|}.
Next Obligation. intros. by apply sql_insert_node. Qed.
Next Obligation. intros. by eapply sql_insert_leaf. Qed.
Next Obligation. intros. by apply sql_insert_root. Qed.
Next Obligation. intros. by apply sql_update_bk. Qed.
Next Obligation. intros. by apply sql_update_bk_none. Qed.
End laws.
