(* ===== verification/MerkleEngine.v ===== *)
(** * The Merkle engine

    [lib/merkle/server.go]: looking a key up along the stored nodes, splitting a
    node's segment, inserting a key and writing the new path and root, and
    compressing a looked-up path for the client.  The engine runs over any storage
    that implements the interfaces of [MerkleStorage].

    The engine holds its lock during an operation and a transaction is atomic, so
    an operation is a function of the store.  The memo fields of [NodeBuilder] and
    [LeafBuilder] (which cache a hash that is reset when a child changes) are not
    modelled: [Hash] recomputes.  [now] is the value of [proto.Now()]. *)
From S2P Require Import Prelude Bits SkipPointers MerkleTypes MerkleStorage.

(** ** Segments and nodes *)
Definition Split (s : Segment) (nbits : Z) : result (Segment * bool * Segment) :=
  if ((BitCount s <=? nbits) || (nbits <? 0))%Z
  then Err (InternalError "attempt to slice a segment would overflow bounds")
  else
    let bitSplit := (BitStart s + nbits)%Z in
    let offset := (BitStart s - Z.land (BitStart s) 0x7)%Z in
    let leftBitEnd := (bitSplit - offset)%Z in
    let splitBit := leftBitEnd in
    let rightBitStart := (splitBit + 1)%Z in
    let splitByte := Z.shiftr splitBit 3 in
    let leftByteEnd := Z.shiftr leftBitEnd 3 in
    let rightByteStart := Z.shiftr rightBitStart 3 in
    lbytes ← slice_go (Bytes s) 0 (leftByteEnd + 1);
    b ← index (Bytes s) splitByte;
    let splitBitValue := nz (Z.land b (Z.shiftl 1 (0x7 - Z.land splitBit 0x7))) in
    rbytes ← slice_go (Bytes s) rightByteStart (len (Bytes s));
    Ok ({| BitCount := nbits; BitStart := BitStart s; Bytes := lbytes |}, splitBitValue,
        {| BitCount := BitCount s - nbits - 1; BitStart := rightBitStart + offset;
           Bytes := rbytes |}).

Definition Select (n : Node) (b : bool) : option PrefixedHash := if b then Right n else Left n.

Definition SetChild (n : Node) (b : bool) (ph : PrefixedHash) : Node :=
  if b then {| Prefix := Prefix n; Left := Left n; Right := Some ph |}
  else {| Prefix := Prefix n; Left := Some ph; Right := Right n |}.

Definition BuildNode (n : Node) : result MerkleInteriorNode :=
  l ← of_option GoPanic (Left n);
  r ← of_option GoPanic (Right n);
  let s := Prefix n in
  '(p, _) ← ShiftCopyAndClamp (Bytes s) (BitStart s) (BitCount s);
  Ok {| PrefixBitStart := wrap64 (BitStart s); PrefixBitCount := wrap64 (BitCount s);
        nPrefix := p; nLeft := phHash l; nRight := phHash r |}.

Record LookupPathNode := {
  lpNode : Node;
  Next : bool;
  KeyBitStart : Z;
  KeyBitsMatched : Z
}.
Record LookupLeaf := { llLeaf : MerkleLeaf; llHash : PrefixedHash; Matches : bool }.
Record LookupPathSingle := { lsPath : list LookupPathNode; lsLeaf : option LookupLeaf }.
Record LookupPathRes := {
  lrEpno : Z;
  lrRootBody : bytes;
  lrPath : list LookupPathNode;
  lrLeaf : option LookupLeaf
}.
(** A nil entry of [Paths] is [None]. *)
Record LookupPathsRes := {
  lpsEpno : Z;
  lpsRootBody : bytes;
  lpsPaths : list (option LookupPathSingle)
}.

Definition OppositeHash (n : LookupPathNode) : result bytes :=
  phHash <$> of_option GoPanic (Select (lpNode n) (negb (Next n))).

(** [firstMiss.Split()]: the segment above the split, the bit at the split, and
    the node with the segment below it. *)
Definition LookupPathNode_Split (l : LookupPathNode) : result (Segment * bool * Node) :=
  '(top, splitBit, bottom) ← Split (Prefix (lpNode l)) (KeyBitsMatched l);
  Ok (top, splitBit, {| Prefix := bottom; Left := Left (lpNode l); Right := Right (lpNode l) |}).

Record MerkleLookupArg := { laKey : bytes; laSigned : bool; laRoot : option Z }.
Record MerkleMLookupArg := { mlaKeys : list bytes; mlaSigned : bool; mlaRoot : option Z }.

Record InsertKeyValueArg := {
  ikKey : bytes;
  ikVal : bytes;
  ikBk : option Bookkeeping;
  ikTime : Z;
  ikHct : option HostchainTail
}.

Section engine.
Context `{Codec}.

Definition NodeBuilder_Hash (n : Node) : result bytes :=
  node ← BuildNode n; HashNode (MerkleNodeWithNode node).

Definition LeafBuilder_Hash (l : MerkleLeaf) : result bytes := HashNode (MerkleNodeWithLeaf l).

(** ** Lookup *)
Section lookup.
Context {R : Type} `{!StorageReader R}.

(** The end of [lookupPathWithLockFromRoot]: the leaf the walk ended at, if any. *)
Definition lookup_leaf (db : R) (key : bytes) (leaf : option PrefixedHash)
    (path : list LookupPathNode) : result (option LookupPathSingle) :=
  match leaf with
  | None => Ok (Some {| lsPath := path; lsLeaf := None |})
  | Some lh =>
      pleaf ← SelectLeaf db lh;
      Ok (Some {| lsPath := path;
                  lsLeaf := Some {| llLeaf := pleaf; llHash := lh;
                                    Matches := bool_decide (key = Key pleaf) |} |})
  end.

(** The loop of [lookupPathWithLockFromRoot].  A result [Ok None] is the code's
    [return nil, err] with the nil [err] of the enclosing scope, reached when
    [AssertKeyMatch] fails with anything but a prefix mismatch. *)
Fixpoint lookup_loop (fuel : nat) (db : R) (key : bytes) (currNode leaf : option PrefixedHash)
    (bitCursor : Z) (path : list LookupPathNode) : result (option LookupPathSingle) :=
  match fuel with
  | O => Err OutOfFuel
  | S fuel' =>
      match currNode with
      | None => lookup_leaf db key leaf path
      | Some cur =>
          node ← SelectNode db cur;
          let p := Prefix node in
          if negb (BitStart p =? bitCursor)%Z
          then Err (MerkleTreeError "mismatch on path traversal bit location")
          else
            match AssertKeyMatch key (Bytes p) (BitStart p) (BitCount p) with
            | Ok _ =>
                bitAt ← BitAt key (bitCursor + BitCount p);
                let path' := path ++ [{| lpNode := node; Next := bitAt; KeyBitStart := bitCursor;
                                         KeyBitsMatched := BitCount p + 1 |}] in
                let bitCursor' := (bitCursor + (BitCount p + 1))%Z in
                nxt ← of_option GoPanic (Select node bitAt);
                match phTyp nxt with
                | MerkleNodeType_Leaf => lookup_loop fuel' db key None (Some nxt) bitCursor' path'
                | MerkleNodeType_Node => lookup_loop fuel' db key (Some nxt) leaf bitCursor' path'
                end
            | Err (BitPrefixMatchError bpme) =>
                Ok (Some {| lsPath := path ++ [{| lpNode := node; Next := false;
                                                  KeyBitStart := bitCursor;
                                                  KeyBitsMatched := bpme - BitStart p |}];
                            lsLeaf := None |})
            | Err GoPanic => Err GoPanic
            | Err _ => Ok None
            end
      end
  end.

(** Every node on a path consumes at least one bit of the key. *)
Definition lookup_fuel (key : bytes) : nat := S (S (8 * length key)).

Definition lookupPathWithLockFromRoot (db : R) (key : bytes) (currNode leaf : option PrefixedHash)
    : result (option LookupPathSingle) :=
  lookup_loop (lookup_fuel key) db key currNode leaf 0 [].

Definition lookupPathsWithLock (db : R) (arg : MerkleMLookupArg) : result LookupPathsRes :=
  root ← SelectRootForTraversal db (mlaSigned arg) (mlaRoot arg);
  let '(epno, body, currNode, leaf) :=
    match root with
    | None => (0%Z, [], None, None)
    | Some rt =>
        match phTyp (RootNode rt) with
        | MerkleNodeType_Leaf => (Epno rt, Body rt, None, Some (RootNode rt))
        | MerkleNodeType_Node => (Epno rt, Body rt, Some (RootNode rt), None)
        end
    end in
  paths ← mapM_r (λ key, lookupPathWithLockFromRoot db key currNode leaf) (mlaKeys arg);
  Ok {| lpsEpno := epno; lpsRootBody := body; lpsPaths := paths |}.

Definition lookupPathWithLock (db : R) (arg : MerkleLookupArg) : result (option LookupPathRes) :=
  mres ← lookupPathsWithLock db {| mlaSigned := laSigned arg; mlaRoot := laRoot arg;
                                   mlaKeys := [laKey arg] |};
  Ok match lpsPaths mres with
     | [] => None
     | Some path :: _ => Some {| lrEpno := lpsEpno mres; lrRootBody := lpsRootBody mres;
                                 lrPath := lsPath path; lrLeaf := lsLeaf path |}
     | None :: _ => Some {| lrEpno := lpsEpno mres; lrRootBody := lpsRootBody mres;
                            lrPath := []; lrLeaf := None |}
     end.
End lookup.

(** ** Compression of paths *)
Definition compress_edge (edge : LookupPathNode) : result bytes :=
  hsh ← OppositeHash edge;
  Ok (wrap8 (BitCount (Prefix (lpNode edge))) :: hsh).

(** [path[len(path)-1]] panics on an empty path. *)
Definition compressPath (path : list LookupPathNode) (leaf : option LookupLeaf)
    : result (bytes * MerklePathTerminal) :=
  l ← of_option GoPanic (last path);
  '(term, path) ←
    (if (KeyBitsMatched l <? BitCount (Prefix (lpNode l)))%Z
     then node ← BuildNode (lpNode l);
          Ok (NewMerklePathTerminalWithFalse {| NodeAtPrefixMiss := node |},
              take (length path - 1) path)
     else Ok (zero_terminal, path));
  edges ← mapM_r compress_edge path;
  let term :=
    match leaf with
    | None => term
    | Some lf => NewMerklePathTerminalWithTrue
        {| ptlLeaf := Value (llLeaf lf);
           FoundKey := if Matches lf then None else Some (Key (llLeaf lf)) |}
    end in
  Ok (concat edges, term).

Definition LookupPathRes_Compress (l : LookupPathRes) : result MerklePathCompressed :=
  root ← dec_MerkleRoot (lrRootBody l);
  _ ← guard_err (bool_decide (length (lrPath l) = 0)) (MerkleVerifyError "empty path");
  '(path, term) ← compressPath (lrPath l) (lrLeaf l);
  Ok {| pcRoot := root; pcPath := path; pcTerminal := term |}.

Definition LookupPathsRes_Compress (l : LookupPathsRes) : result MerklePathsCompressed :=
  root ← dec_MerkleRoot (lpsRootBody l);
  paths ← mapM_r (λ p,
    path ← of_option GoPanic p;
    _ ← guard_err (bool_decide (length (lsPath path) = 0)) (MerkleVerifyError "empty path");
    '(bs, term) ← compressPath (lsPath path) (lsLeaf path);
    Ok {| ppPath := bs; ppTerminal := term |}) (lpsPaths l);
  Ok {| psRoot := root; psPaths := paths |}.

(** ** Insertion *)

(** The loop runs from the last path node to the first: the nodes below [n] are
    processed before it. *)
Fixpoint propagateUpdates (path : list LookupPathNode) (outputPath : list Node)
    : result (list Node) :=
  match path with
  | [] => Ok outputPath
  | n :: path' =>
      out ← propagateUpdates path' outputPath;
      prev ← of_option (InternalError "expected output node in storeUpdatePath") (last out);
      hash ← NodeBuilder_Hash prev;
      Ok (out ++ [SetChild (lpNode n) (Next n)
                    {| phTyp := MerkleNodeType_Node; phHash := hash |}])
  end.

Section insert.
Context {T : Type} `{!StorageTransactor T}.

Definition storeNode (tx : T) (n : Node) : result T :=
  hash ← NodeBuilder_Hash n;
  InsertNode tx hash (Prefix n) (Left n) (Right n).

Definition storeLeaf (tx : T) (lb : MerkleLeaf) (epno : Z) : result T :=
  hash ← LeafBuilder_Hash lb;
  InsertLeaf tx hash (Key lb) (Value lb) epno.

Definition buildBackPointerHash (tx : T) (epno : Z) : result bytes :=
  let seq := MerkleBackpointerSequence epno in
  tmp ← (if bool_decide (length seq = 0) then Ok []
         else bps ← SelectRootHashes tx seq;
              _ ← guard_err (length bps <? length seq) GoPanic;
              Ok (zip_with (λ ep h, {| bpEpno := ep; bpHash := h |}) seq bps));
  HashBackPointers tmp.

(** The hostchain tail the root records, and the one to insert (nil for a
    duplicate). *)
Definition pick_tails (currHct newHct : option HostchainTail)
    : result (HostchainTail * option HostchainTail) :=
  let older := match newHct, currHct with
               | Some n, Some c => (Seqno n <? Seqno c)%Z | _, _ => false end in
  let dupe := match newHct, currHct with
              | Some n, Some c => (Seqno c =? Seqno n)%Z | _, _ => false end in
  _ ← guard_err older (MerkleTreeError "hostchain tail is older than current");
  let storeHct := match newHct with Some n => Some n | None => currHct end in
  let storeHct := default {| Seqno := 0; htHash := zero_hash |} storeHct in
  Ok (storeHct, if dupe then None else newHct).

Definition storeRoot (now : Z) (tx : T) (epno : Z) (rootNode : PrefixedHash) (time : Z)
    (newHct : option HostchainTail) : result T :=
  bphash ← buildBackPointerHash tx epno;
  let time := if (time =? 0)%Z then now else time in
  currHct ← SelectCurrentHostchainTail tx;
  '(storeHct, insHct) ← pick_tails currHct newHct;
  let root := NewMerkleRootWithV1
    {| r1Epno := epno; r1Time := time; r1RootNode := phHash rootNode;
       r1BackPointers := bphash; r1Hostchain := storeHct |} in
  hash ← HashRoot root;
  raw ← enc_MerkleRoot root;
  InsertRoot tx epno time hash raw rootNode insHct.

Fixpoint storeNodes (tx : T) (out : list Node) : result T :=
  match out with
  | [] => Ok tx
  | n :: out' => tx' ← storeNode tx n; storeNodes tx' out'
  end.

Definition storeUpdatedPath (now : Z) (tx : T) (lookupRes : option LookupPathRes)
    (lb : MerkleLeaf) (outputPath : list Node) (arg : InsertKeyValueArg) : result T :=
  let epno := match lookupRes with
              | None => MerkleEpnoFirst
              | Some l => wrap64 (lrEpno l + 1)
              end in
  tx ← storeLeaf tx lb epno;
  tx ← storeNodes tx outputPath;
  root ← match last outputPath with
         | None => h ← LeafBuilder_Hash lb; Ok {| phTyp := MerkleNodeType_Leaf; phHash := h |}
         | Some n => h ← NodeBuilder_Hash n; Ok {| phTyp := MerkleNodeType_Node; phHash := h |}
         end;
  tx ← storeRoot now tx epno root (ikTime arg) (ikHct arg);
  match ikBk arg with
  | Some bk => UpdateBookkeeping tx bk
  | None => Ok tx
  end.

(** Case 1 of the insertion: the walk ended at another key's leaf. *)
Definition fork_leaf (key newLeafHash : bytes) (path : list LookupPathNode) (lf : LookupLeaf)
    : result Node :=
  let bitsMatched := match last path with
                     | Some l => (KeyBitStart l + KeyBitsMatched l)%Z
                     | None => 0%Z
                     end in
  '(prefix, numbits, splitBit) ← ComputePrefixMatch key (Key (llLeaf lf)) bitsMatched;
  let existing := phHash (llHash lf) in
  let '(lft, rgt) := if negb splitBit then (newLeafHash, existing)
                     else (existing, newLeafHash) in
  Ok {| Prefix := {| Bytes := prefix; BitStart := bitsMatched; BitCount := numbits |};
        Left := Some {| phTyp := MerkleNodeType_Leaf; phHash := lft |};
        Right := Some {| phTyp := MerkleNodeType_Leaf; phHash := rgt |} |}.

(** Case 2: the walk stopped inside a node's segment. *)
Definition split_miss (newLeafHash : bytes) (firstMiss : LookupPathNode) : result (Node * Node) :=
  '(top, splitBit, pathBottom) ← LookupPathNode_Split firstMiss;
  nodeHash ← NodeBuilder_Hash pathBottom;
  let node := {| phTyp := MerkleNodeType_Node; phHash := nodeHash |} in
  let leaf := {| phTyp := MerkleNodeType_Leaf; phHash := newLeafHash |} in
  let '(lft, rgt) := if (splitBit : bool) then (leaf, node) else (node, leaf) in
  Ok (pathBottom, {| Prefix := top; Left := Some lft; Right := Some rgt |}).

Definition insertKeyValueTryTx (now : Z) (tx : T) (arg : InsertKeyValueArg) : result T :=
  let lb := {| Key := ikKey arg; Value := ikVal arg |} in
  match lookupPathWithLock tx {| laKey := ikKey arg; laSigned := false; laRoot := None |} with
  | Err MerkleNoRootError => storeUpdatedPath now tx None lb [] arg
  | Err e => Err e
  | Ok None => Err GoPanic
  | Ok (Some lookupRes) =>
      match lrLeaf lookupRes with
      | Some lf =>
          if Matches lf then
            match ikBk arg with Some bk => UpdateBookkeeping tx bk | None => Ok tx end
          else
            newLeafHash ← LeafBuilder_Hash lb;
            nb ← fork_leaf (ikKey arg) newLeafHash (lrPath lookupRes) lf;
            outputPath ← propagateUpdates (lrPath lookupRes) [nb];
            storeUpdatedPath now tx (Some lookupRes) lb outputPath arg
      | None =>
          newLeafHash ← LeafBuilder_Hash lb;
          match last (lrPath lookupRes) with
          | Some firstMiss =>
              '(bottom, nb) ← split_miss newLeafHash firstMiss;
              outputPath ← propagateUpdates (take (length (lrPath lookupRes) - 1) (lrPath lookupRes))
                             [bottom; nb];
              storeUpdatedPath now tx (Some lookupRes) lb outputPath arg
          | None => storeUpdatedPath now tx (Some lookupRes) lb [] arg
          end
      end
  end.

Definition StoreRootTx (now : Z) (tx : T) (time : Z) (hct : HostchainTail) (bk : Bookkeeping)
    : result T :=
  root ← SelectRootForTraversal tx false None;
  rt ← of_option MerkleNoRootError root;
  tx ← storeRoot now tx (wrap64 (Epno rt + 1)) (RootNode rt) time (Some hct);
  UpdateBookkeeping tx bk.

Definition selectOrCreateBookkepingTryTx (tx : T) : result (Bookkeeping * T) :=
  bk ← SelectBookkeeping tx;
  match bk with
  | Some b => Ok (b, tx)
  | None => tx ← UpdateBookkeeping tx NewBookkeeping; Ok (NewBookkeeping, tx)
  end.

(** [InitTree] of [lib/merkle/init.go].  The zero key and value it checks for are
    constants. *)
Definition InitTreeTx (now : Z) (tx : T) : result T :=
  let nilLeaf := {| Key := zero_hash; Value := zero_hash |} in
  hash ← HashNode (MerkleNodeWithLeaf nilLeaf);
  bkpHash ← HashBackPointers [];
  let r1 := {| r1Epno := MerkleEpnoFirst; r1Time := now; r1RootNode := hash;
               r1BackPointers := bkpHash;
               r1Hostchain := {| Seqno := 0; htHash := zero_hash |} |} in
  let root := NewMerkleRootWithV1 r1 in
  rootHash ← HashRoot root;
  raw ← enc_MerkleRoot root;
  let ph := {| phTyp := MerkleNodeType_Leaf; phHash := hash |} in
  match SelectRootForTraversal tx false None with
  | Err MerkleNoRootError =>
      tx ← match SelectLeaf tx ph with
           | Err MerkleLeafNotFoundError =>
               InsertLeaf tx hash (Key nilLeaf) (Value nilLeaf) (r1Epno r1)
           | _ => Ok tx
           end;
      InsertRoot tx (r1Epno r1) (r1Time r1) rootHash raw ph None
  | _ => Err (MerkleInitError "tree already initialized")
  end.
End insert.

(** ** Entry points over a storage writer *)
Section entry.
Context {W T R : Type} `{!StorageReader R, !StorageTransactor T, !StorageWriter W T R}.

Definition tx_unit (f : T → result T) (t : T) : result (() * T) := t' ← f t; Ok ((), t').

Definition InsertKeyValue (now : Z) (s : W) (arg : InsertKeyValueArg) : result () * W :=
  RunRetryTx s (tx_unit (λ t, insertKeyValueTryTx now t arg)).
Definition StoreRoot (now : Z) (s : W) (time : Z) (hct : HostchainTail) (bk : Bookkeeping)
    : result () * W := RunRetryTx s (tx_unit (λ t, StoreRootTx now t time hct bk)).
Definition InitTree (now : Z) (s : W) : result () * W := RunRetryTx s (tx_unit (InitTreeTx now)).
Definition Engine_UpdateBookkeeping (s : W) (bk : Bookkeeping) : result () * W :=
  RunRetryTx s (tx_unit (λ t, UpdateBookkeeping t bk)).
Definition Engine_UpdateBookkeepingForBatcher (s : W) (bn : Z) : result () * W :=
  RunRetryTx s (tx_unit (λ t, UpdateBookkeepingForBatcher t bn)).
Definition SelectOrCreateBookkeeping (s : W) : result Bookkeeping * W :=
  RunRetryTx s selectOrCreateBookkepingTryTx.

Definition Engine_SelectBookkeeping (s : W) : result (option Bookkeeping) :=
  RunRead s SelectBookkeeping.
Definition LookupPath (s : W) (arg : MerkleLookupArg) : result (option LookupPathRes) :=
  RunRead s (λ r, lookupPathWithLock r arg).
Definition LookupPaths (s : W) (arg : MerkleMLookupArg) : result LookupPathsRes :=
  RunRead s (λ r, lookupPathsWithLock r arg).

(** The checks both signed-root readers make. *)
Definition signed_root (r : R) : result (Root * bytes) :=
  root ← SelectRootForTraversal r true None;
  rt ← of_option (MerkleTreeError "no root found") root;
  sig ← of_option (MerkleTreeError "no signature found") (Sig rt);
  Ok (rt, sig).
Definition GetCurrentSignedRoot (s : W) : result (bytes * bytes) :=
  RunRead s (λ r, '(rt, sig) ← signed_root r; Ok (sig, Body rt)).
Definition GetCurrentSignedRootEpno (s : W) : result Z :=
  RunRead s (λ r, '(rt, _) ← signed_root r; Ok (Epno rt)).
Definition GetCurrentRoot (s : W) : result MerkleRoot :=
  RunRead s (λ r, root ← SelectRootForTraversal r false None;
                  rt ← of_option (MerkleTreeError "no root found") root;
                  dec_MerkleRoot (Body rt)).
Definition GetCurrentRootHash (s : W) : result TreeRoot := RunRead s SelectCurrentRootHash.
Definition GetHistoricalRoots (s : W) (full hashes : list Z)
    : result (list MerkleRoot * list bytes) :=
  RunRead s (λ r, retHashes ← SelectRootHashes r hashes;
                  retRoots ← SelectRoots r full;
                  Ok (retRoots, retHashes)).
Definition Engine_ConfirmRoot (s : W) (root : TreeRoot) : result () :=
  RunRead s (λ r, ConfirmRoot r root).
Definition CheckKeyExists (s : W) (k : bytes) : result MerkleExistsRes :=
  RunRead s (λ r, CheckLeafExists r k).
End entry.
End engine.
