(* ===== verification/MerkleLookup.v ===== *)
(** * Correctness of the engine's lookup

    [stored w d t]: the view [w] of a store holds the trie [t], rooted at bit [d].
    The engine's walk over such a store terminates, follows the bits of the key,
    and ends at the key's leaf, at another key's leaf, or inside the segment of a
    node that no key with these bits is below. *)
From S2P Require Import Prelude Bits SkipPointers MerkleTypes MerkleTrie MerkleStorage MerkleEngine.

(** ** The stored form of a trie *)
Definition type_of (t : trie) : MerkleNodeType :=
  match t with TLeaf _ _ => MerkleNodeType_Leaf | TNode _ _ _ => MerkleNodeType_Node end.

(** A segment holds the bits [p] from bit [d] of the key: its bytes start at the
    byte boundary below [d], and bits outside the segment are arbitrary. *)
Definition seg_rep (d : nat) (p : list bool) (s : Segment) : Prop :=
  BitStart s = Z.of_nat d ∧ BitCount s = len p ∧ bytes_ok (Bytes s) ∧
  d mod 8 + length p ≤ 8 * length (Bytes s) ∧
  slice (d mod 8) (length p) (bits (Bytes s)) = p.

Section stored.
Context `{Codec}.

Definition ph_of (d : nat) (t : trie) : PrefixedHash :=
  {| phTyp := type_of t; phHash := thash d t |}.

Definition node_rep (d : nat) (p : list bool) (l r : trie) (n : Node) : Prop :=
  seg_rep d p (Prefix n) ∧
  Left n = Some (ph_of (S (d + length p)) l) ∧ Right n = Some (ph_of (S (d + length p)) r).

Fixpoint stored (w : view) (d : nat) (t : trie) : Prop :=
  match t with
  | TLeaf k v => v_leaves w !! thash d t = Some {| Key := k; Value := v |}
  | TNode p l r =>
      (∃ n, v_nodes w !! thash d t = Some n ∧ node_rep d p l r n) ∧
      stored w (S (d + length p)) l ∧ stored w (S (d + length p)) r
  end.

(** What a lookup of [k] from bit [d] returns. *)
Inductive lookup_rel (k : bytes) : nat → trie → list LookupPathNode → option LookupLeaf → Prop :=
  | lr_leaf d k' v :
      lookup_rel k d (TLeaf k' v) []
        (Some {| llLeaf := {| Key := k'; Value := v |}; llHash := ph_of d (TLeaf k' v);
                 Matches := bool_decide (k = k') |})
  | lr_miss d p l r n q :
      node_rep d p l r n → mismatch p (drop d (bits k)) = Some q →
      lookup_rel k d (TNode p l r)
        [{| lpNode := n; Next := false; KeyBitStart := Z.of_nat d; KeyBitsMatched := Z.of_nat q |}]
        None
  | lr_step d p l r n b path leaf :
      node_rep d p l r n → mismatch p (drop d (bits k)) = None →
      b = bit_of k (d + length p) →
      lookup_rel k (S (d + length p)) (child b l r) path leaf →
      lookup_rel k d (TNode p l r)
        ({| lpNode := n; Next := b; KeyBitStart := Z.of_nat d; KeyBitsMatched := len p + 1 |} :: path)
        leaf.

Lemma ph_of_child d b l r n p :
  node_rep d p l r n → Select n b = Some (ph_of (S (d + length p)) (child b l r)).
Proof. intros (_ & Hl & Hr). by destruct b. Qed.

Lemma stored_child w d p l r b :
  stored w d (TNode p l r) → stored w (S (d + length p)) (child b l r).
Proof. destruct b; naive_solver. Qed.

Lemma mismatch_slice d p (kb : list bool) :
  d + length p ≤ length kb → mismatch (slice d (length p) kb) p = mismatch p (drop d kb).
Proof.
  intros Hl. rewrite (mismatch_comm p). unfold slice. set (l := drop d kb).
  trans (mismatch (take (length p) l ++ drop (length p) l) (p ++ []));
    [|by rewrite take_drop, app_nil_r].
  rewrite mismatch_app by (unfold l; rewrite length_take, length_drop; lia).
  destruct (mismatch (take (length p) l) p); [done|]. by destruct (drop (length p) l).
Qed.

Lemma AssertKeyMatch_seg k d p s :
  length k = 32 → bytes_ok k → seg_rep d p s → d + length p ≤ 256 →
  AssertKeyMatch k (Bytes s) (BitStart s) (BitCount s) =
  match mismatch p (drop d (bits k)) with
  | None => Ok ()
  | Some q => Err (BitPrefixMatchError (Z.of_nat (d + q)))
  end.
Proof.
  intros Hk Hok (-> & -> & Hb & Hl & Hp) Hd. unfold len.
  rewrite AssertKeyMatch_spec by (done || lia). rewrite Hp, mismatch_slice; [done|].
  rewrite length_bits32 by done. lia.
Qed.

(** ** The walk *)
Section walk.
Context {R : Type} `{StorageReaderLaws R}.

(** The pointers the walk starts from for a subtree. *)
Definition start_node (d : nat) (t : trie) : option PrefixedHash :=
  match t with TLeaf _ _ => None | TNode _ _ _ => Some (ph_of d t) end.
Definition start_leaf (d : nat) (t : trie) : option PrefixedHash :=
  match t with TLeaf _ _ => Some (ph_of d t) | TNode _ _ _ => None end.

Lemma lookup_loop_next fuel db k d t bc path :
  match phTyp (ph_of d t) with
  | MerkleNodeType_Leaf => lookup_loop fuel db k None (Some (ph_of d t)) bc path
  | MerkleNodeType_Node => lookup_loop fuel db k (Some (ph_of d t)) None bc path
  end = lookup_loop fuel db k (start_node d t) (start_leaf d t) bc path.
Proof. by destruct t. Qed.

Lemma lookup_loop_spec db k pre t fuel acc :
  rd_ok db → stored (rd_view db) (length pre) t → trie_wf pre t → pre `prefix_of` bits k →
  length k = 32 → bytes_ok k → height t < fuel →
  ∃ path leaf,
    lookup_loop fuel db k (start_node (length pre) t) (start_leaf (length pre) t)
      (Z.of_nat (length pre)) acc = Ok (Some {| lsPath := acc ++ path; lsLeaf := leaf |}) ∧
    lookup_rel k (length pre) t path leaf.
Proof.
  intros Hdb Hst Hwf Hp Hk Hok. revert pre fuel acc Hst Hwf Hp.
  induction t as [k' v'|p l r IH] using trie_child_ind; intros pre fuel acc Hst Hwf Hp Hf;
    destruct fuel as [|fuel]; [simpl in Hf; lia| |simpl in Hf; lia|].
  - simpl in Hst. exists []. eexists. rewrite app_nil_r. split; [|constructor]. simpl.
    rewrite select_leaf_law by done. simpl. by rewrite Hst.
  - pose proof (trie_wf_node_depth _ _ _ _ Hwf) as Hd.
    pose proof Hst as [(n & Hn & Hrep) _]. pose proof Hrep as (Hseg & _).
    cbn [lookup_loop start_node start_leaf].
    rewrite (select_node_law db _ n) by done. cbn [mbind result_bind]. cbv zeta.
    pose proof Hseg as (Hbs & Hbc & _). replace (negb (BitStart (Prefix n) =? Z.of_nat (length pre))%Z) with false by lia.
    rewrite (AssertKeyMatch_seg k (length pre) p) by (done || lia).
    destruct (mismatch p (drop (length pre) (bits k))) as [q|] eqn:Hm.
    + eexists _, _. split; [|by eapply lr_miss]. rewrite Hbs.
      replace (Z.of_nat (length pre + q) - Z.of_nat (length pre))%Z with (Z.of_nat q) by lia. done.
    + set (b := bit_of k (length pre + length p)).
      assert (BitAt k (Z.of_nat (length pre) + BitCount (Prefix n)) = Ok b) as ->.
      { rewrite Hbc. unfold len. rewrite <- Nat2Z.inj_add, BitAt_spec, bits_lookup_bit_of; [done|].
        rewrite length_bits32; lia. }
      rewrite Hbc. cbn [mbind result_bind].
      rewrite (ph_of_child _ b _ _ _ _ Hrep). cbn [of_option mbind result_bind].
      rewrite lookup_loop_next.
      pose proof (step_prefix _ _ _ Hk Hd Hp Hm) as Hpb. fold b in Hpb.
      edestruct (IH b (pre ++ p ++ [b]) fuel) as (path & leaf & Hrun & Hrel).
      * rewrite length_step. by apply stored_child.
      * by apply trie_wf_child.
      * done.
      * destruct b; simpl in *; lia.
      * rewrite length_step in Hrun, Hrel. eexists _, leaf. split; [|by eapply lr_step].
        replace (Z.of_nat (length pre) + (len p + 1))%Z
          with (Z.of_nat (S (length pre + length p))) by (unfold len; lia).
        rewrite Hrun, <- app_assoc. done.
Qed.

(** The trie a root points to, looked up from its first bit. *)
Lemma lookupPathWithLockFromRoot_spec db k t :
  rd_ok db → stored (rd_view db) 0 t → trie_wf [] t → length k = 32 → bytes_ok k →
  ∃ path leaf,
    lookupPathWithLockFromRoot db k (start_node 0 t) (start_leaf 0 t) =
      Ok (Some {| lsPath := path; lsLeaf := leaf |}) ∧
    lookup_rel k 0 t path leaf.
Proof.
  intros Hdb Hst Hwf Hk Hok. unfold lookupPathWithLockFromRoot, lookup_fuel.
  apply (lookup_loop_spec db k [] t _ []); try done; [apply prefix_nil|].
  apply trie_wf_height in Hwf. simpl in Hwf. lia.
Qed.
End walk.
End stored.

(** ** Results of a lookup *)
Section results.
Context `{Codec}.

(** The value a lookup result reports for its key. *)
Definition found_value (leaf : option LookupLeaf) : option bytes :=
  lf ← leaf; if Matches lf then Some (Value (llLeaf lf)) else None.

Lemma lookup_rel_tget k d t path leaf :
  lookup_rel k d t path leaf → found_value leaf = tget k d t.
Proof.
  induction 1 as [d k' v|d p l r n q Hn Hm|d p l r n b path leaf Hn Hm Hb _ IH]; simpl.
  - by case_bool_decide; case_decide.
  - by rewrite Hm.
  - rewrite Hm, IH, Hb. by destruct (bit_of k (d + length p)).
Qed.

Context {R : Type} `{StorageReaderLaws R}.

Lemma lookupPathWithLock_spec db t rt k :
  rd_ok db → v_root (rd_view db) = Some rt → RootNode rt = ph_of 0 t →
  stored (rd_view db) 0 t → trie_wf [] t → length k = 32 → bytes_ok k →
  ∃ path leaf,
    lookupPathWithLock db {| laKey := k; laSigned := false; laRoot := None |} =
      Ok (Some {| lrEpno := Epno rt; lrRootBody := Body rt; lrPath := path; lrLeaf := leaf |}) ∧
    lookup_rel k 0 t path leaf.
Proof.
  intros Hdb Hrt Hroot Hst Hwf Hk Hok.
  destruct (lookupPathWithLockFromRoot_spec db k t) as (path & leaf & Hrun & Hrel); [done..|].
  exists path, leaf. split; [|done].
  unfold lookupPathWithLock, lookupPathsWithLock. cbn [mlaSigned mlaRoot mlaKeys laSigned laRoot laKey].
  rewrite select_root_law, Hrt by done. cbn [of_option fmap result_fmap mbind result_bind].
  rewrite Hroot.
  assert (∀ (x : Z * bytes * option PrefixedHash * option PrefixedHash),
    x = (Epno rt, Body rt, start_node 0 t, start_leaf 0 t) →
    (let '(epno, body, currNode, leaf) := x in
     paths ← mapM_r (λ key, lookupPathWithLockFromRoot db key currNode leaf) [k];
     Ok {| lpsEpno := epno; lpsRootBody := body; lpsPaths := paths |}) =
    Ok {| lpsEpno := Epno rt; lpsRootBody := Body rt;
          lpsPaths := [Some {| lsPath := path; lsLeaf := leaf |}] |}) as Hx.
  { intros x ->. simpl. by rewrite Hrun. }
  rewrite Hx; [done|]. by destruct t.
Qed.

(** C34: looking a key up in the latest tree returns, whatever storage implements
    the interface, and reports a value for the key exactly when the key is in the
    tree with that value; the answer carries the epoch and body of the root. *)
Theorem lookup_correct db t rt k :
  rd_ok db → v_root (rd_view db) = Some rt → RootNode rt = ph_of 0 t →
  stored (rd_view db) 0 t → trie_wf [] t → length k = 32 → bytes_ok k →
  ∃ res, lookupPathWithLock db {| laKey := k; laSigned := false; laRoot := None |} = Ok (Some res) ∧
    lrEpno res = Epno rt ∧ lrRootBody res = Body rt ∧
    ∀ v, found_value (lrLeaf res) = Some v ↔ (k, v) ∈ contents t.
Proof.
  intros Hdb Hrt Hroot Hst Hwf Hk Hok.
  destruct (lookupPathWithLock_spec db t rt k) as (path & leaf & Hrun & Hrel); [done..|].
  eexists. split; [done|]. simpl. split_and!; [done..|]. intros v.
  rewrite (lookup_rel_tget _ _ _ _ _ Hrel). apply (tget_spec []); try done. apply prefix_nil.
Qed.

(** ** Termination on any store *)
Lemma BitAt_ok k i b : BitAt k i = Ok b → (i < 8 * len k)%Z.
Proof.
  unfold BitAt. autorewrite with bitarith. destruct (len k <=? i / 8)%Z eqn:?; [done|]. lia.
Qed.

Lemma BitAt_fuel k i : BitAt k i ≠ Err OutOfFuel.
Proof. unfold BitAt, index, of_option. cbv zeta. repeat (done || case_match; simplify_eq/=). Qed.
End results.

Section termination.
Context `{Codec} {R : Type} `{StorageReader R}.

Lemma lookup_loop_total fuel db k cur leaf bc path :
  (∀ ph, SelectNode db ph ≠ Err OutOfFuel) → (∀ ph, SelectLeaf db ph ≠ Err OutOfFuel) →
  (∀ ph n, SelectNode db ph = Ok n → 0 ≤ BitCount (Prefix n))%Z →
  (0 ≤ bc)%Z → (8 * len k + 2 ≤ Z.of_nat fuel + bc)%Z → (bc ≤ 8 * len k)%Z →
  lookup_loop fuel db k cur leaf bc path ≠ Err OutOfFuel.
Proof.
  intros HN HL HB. revert cur leaf bc path.
  induction fuel as [|fuel IH]; intros cur leaf bc path Hbc Hf Hle; [lia|]. cbn [lookup_loop].
  destruct cur as [cur|].
  - specialize (HN cur). destruct (SelectNode db cur) as [n|e] eqn:Hn; [|naive_solver].
    apply HB in Hn. cbn [mbind result_bind]. cbv zeta. case_match; [done|].
    destruct (AssertKeyMatch _ _ _ _) as [[]|e]; [|by destruct e].
    pose proof (BitAt_fuel k (bc + BitCount (Prefix n))).
    destruct (BitAt k (bc + BitCount (Prefix n))) as [b|e] eqn:Hb; [|naive_solver].
    apply BitAt_ok in Hb. cbn [mbind result_bind].
    destruct (Select n b) as [nx|]; [|done]. cbn [of_option mbind result_bind].
    case_match; apply IH; lia.
  - unfold lookup_leaf. destruct leaf as [lh|]; [|done]. specialize (HL lh).
    destruct (SelectLeaf db lh); naive_solver.
Qed.

(** the walk over the tree terminates on every store, consistent or not, as
    long as no stored segment has a negative bit count: each node consumes at least
    one bit of the key, and there is an error when the bits run out. *)
Theorem lookup_terminates db k cur leaf :
  (∀ ph, SelectNode db ph ≠ Err OutOfFuel) → (∀ ph, SelectLeaf db ph ≠ Err OutOfFuel) →
  (∀ ph n, SelectNode db ph = Ok n → 0 ≤ BitCount (Prefix n))%Z →
  lookupPathWithLockFromRoot db k cur leaf ≠ Err OutOfFuel.
Proof.
  intros HN HL HB. apply lookup_loop_total; try done; unfold lookup_fuel, len; lia.
Qed.
End termination.
