(* ===== verification/MerkleInsert.v ===== *)
(** * Correctness of the engine's insertion

    [insertKeyValueTryTx] refines [tinsert] of [MerkleTrie]: on a store that holds
    a trie, it writes exactly the nodes of the new trie that are not there yet (so
    that no primary key of the node and leaf tables is violated) and a root of the
    next epoch that points to the new trie.  [tree_inv] is the invariant that
    carries this from one epoch to the next. *)
From S2P Require Import Prelude Bits SkipPointers MerkleTypes MerkleTrie MerkleStorage MerkleEngine MerkleLookup.

(** ** Segments *)
Lemma slice_lookup_bits (s c i : nat) bs p :
  slice s c (bits bs) = p → i < c → p !! i = bits bs !! (s + i).
Proof. intros <- Hi. by rewrite lookup_slice. Qed.

Lemma slice_take {A} s c (l : list A) q : q ≤ c → slice s q l = take q (slice s c l).
Proof. intros. unfold slice. rewrite take_take. by rewrite Nat.min_l. Qed.

Lemma slice_skip {A} s c (l : list A) q : slice (s + q) (c - q) l = drop q (slice s c l).
Proof.
  unfold slice. rewrite <- drop_drop. generalize (drop s l). intros l'.
  apply list_eq. intros i. rewrite lookup_take, !lookup_drop, lookup_take.
  repeat case_decide; done || lia.
Qed.

Lemma bits_slice i n bs : bits (slice i n bs) = slice (8 * i) (8 * n) (bits bs).
Proof. unfold slice. by rewrite drop_bits, take_bits. Qed.

Lemma bytes_ok_slice i n bs : bytes_ok bs → bytes_ok (slice i n bs).
Proof. intros. unfold slice. auto using bytes_ok_take, bytes_ok_drop. Qed.

(** Cutting a segment at its [q]-th bit leaves the bits above, the bit itself and
    the bits below. *)
Lemma Split_spec d p s q :
  seg_rep d p s → q < length p → d + length p < 2 ^ 15 →
  ∃ top b bottom, Split s (Z.of_nat q) = Ok (top, b, bottom) ∧ p !! q = Some b ∧
    seg_rep d (take q p) top ∧ seg_rep (S (d + q)) (drop (S q) p) bottom.
Proof.
  intros (Hs & Hc & Hok & Hl & Hp) Hq Hd. unfold Split. rewrite Hs, Hc. unfold len.
  replace ((Z.of_nat (length p) <=? Z.of_nat q) || (Z.of_nat q <? 0))%Z with false by lia.
  autorewrite with bitarith.
  replace (Z.of_nat d + Z.of_nat q - (Z.of_nat d - Z.of_nat d mod 8))%Z
    with (Z.of_nat (d mod 8 + q)) by lia.
  set (sb := d mod 8 + q) in *.
  replace (Z.of_nat sb / 8 + 1)%Z with (Z.of_nat (sb / 8 + 1)) by lia.
  replace ((Z.of_nat sb + 1) / 8)%Z with (Z.of_nat ((sb + 1) / 8)) by lia.
  assert (sb < 8 * length (Bytes s)) by (unfold sb; lia).
  change 0%Z with (Z.of_nat 0). unfold len. rewrite !slice_go_ok by lia.
  destruct (lookup_lt_is_Some_2 (Bytes s) (sb / 8)) as [x Hx]; [lia|].
  rewrite (index_Some _ _ x) by (lia || by replace (Z.to_nat (Z.of_nat sb / 8)) with (sb / 8) by lia).
  cbn [mbind result_bind].
  replace (nz (Z.land x (Z.shiftl 1 (7 - Z.of_nat sb mod 8))))
    with (Z.testbit x (7 - Z.of_nat sb mod 8)) by (symmetry; apply nz_land_pow2; lia).
  eexists _, _, _. split; [done|].
  assert (p !! q = bits (Bytes s) !! sb) as Hpq by by eapply slice_lookup_bits.
  split_and!; simpl.
  - rewrite Hpq, lookup_bits, Hx. simpl. do 2 f_equal. lia.
  - unfold seg_rep. simpl. unfold len. rewrite length_take, Nat.min_l by lia.
    rewrite length_slice, bits_slice, slice_slice by (unfold sb; lia).
    split_and!; [done|done|by apply bytes_ok_slice|unfold sb; lia|].
    rewrite Nat.add_0_l, (slice_take _ (length p)), Hp by lia. done.
  - unfold seg_rep. simpl. unfold len. rewrite length_drop.
    rewrite length_slice, bits_slice, slice_slice by (unfold sb; lia).
    split_and!; [lia|lia|by apply bytes_ok_slice|unfold sb; lia|].
    rewrite <- Hp at 2. rewrite <- slice_skip. f_equal. unfold sb. lia.
Qed.

Section nodes.
Context `{Codec} `{!HashTotal}.

(** A node that represents a subtree is hashed to the subtree's hash. *)
Lemma BuildNode_rep d p l r n :
  node_rep d p l r n → d + length p < 2 ^ 15 →
  ∃ np, BuildNode n = Ok np ∧ MerkleNodeWithNode np = tproto d (TNode p l r).
Proof.
  intros ((Hs & Hc & Hok & Hl & Hp) & HL & HR) Hd. unfold BuildNode. rewrite HL, HR, Hs, Hc.
  cbn [of_option mbind result_bind]. unfold len.
  destruct (ShiftCopyAndClamp_spec (Bytes (Prefix n)) d (length p) Hok Hl) as [m Hm].
  rewrite Hm. eexists. split; [done|]. rewrite Hp. unfold tproto, len. do 2 f_equal.
  - unfold wrap64. apply Z.mod_small. lia.
  - unfold wrap64. apply Z.mod_small. lia.
Qed.

Lemma NodeBuilder_Hash_rep d p l r n :
  node_rep d p l r n → d + length p < 2 ^ 15 →
  NodeBuilder_Hash n = Ok (thash d (TNode p l r)).
Proof.
  intros Hn Hd. destruct (BuildNode_rep _ _ _ _ _ Hn Hd) as (np & Hb & Hnp).
  unfold NodeBuilder_Hash. rewrite Hb. simpl. rewrite Hnp. apply HashNode_ok.
Qed.

(** [n] represents the root node of [t] at bit [d]. *)
Definition rep (d : nat) (t : trie) (n : Node) : Prop :=
  match t with TNode p l r => node_rep d p l r n | TLeaf _ _ => False end.

Lemma rep_hash pre t n :
  trie_wf pre t → rep (length pre) t n → NodeBuilder_Hash n = Ok (thash (length pre) t).
Proof.
  destruct t as [|p l r]; [done|]. intros Hwf Hrep. apply NodeBuilder_Hash_rep; [done|].
  apply trie_wf_node_depth in Hwf. simpl. lia.
Qed.

(** ** The nodes an insertion builds *)

(** [bitsMatched] of case 1: where the subtree the walk ended in starts. *)
Definition base (d : nat) (path : list LookupPathNode) : Z :=
  match last path with
  | Some l => KeyBitStart l + KeyBitsMatched l
  | None => Z.of_nat d
  end.

Section build.
Context (k v : bytes) (Hk : length k = 32) (Hok : bytes_ok k) (Hv : length v = 32).
Let newLeafHash := thash 0 (TLeaf k v).

(** The output path as [insertKeyValueTryTx] computes it from a lookup result, for
    a walk that started at bit [d]. *)
Definition fork_leaf_at (bitsMatched : Z) (lf : LookupLeaf) : result Node :=
  '(prefix, numbits, splitBit) ← ComputePrefixMatch k (Key (llLeaf lf)) bitsMatched;
  let existing := phHash (llHash lf) in
  let '(lft, rgt) := if negb splitBit then (newLeafHash, existing)
                     else (existing, newLeafHash) in
  Ok {| Prefix := {| Bytes := prefix; BitStart := bitsMatched; BitCount := numbits |};
        Left := Some {| phTyp := MerkleNodeType_Leaf; phHash := lft |};
        Right := Some {| phTyp := MerkleNodeType_Leaf; phHash := rgt |} |}.

Definition build_path (d : nat) (path : list LookupPathNode) (leaf : option LookupLeaf)
    : result (list Node) :=
  match leaf with
  | Some lf => nb ← fork_leaf_at (base d path) lf; propagateUpdates path [nb]
  | None =>
      match last path with
      | Some firstMiss =>
          '(bottom, nb) ← split_miss newLeafHash firstMiss;
          propagateUpdates (take (length path - 1) path) [bottom; nb]
      | None => Ok []
      end
  end.

Lemma fork_leaf_spec pre k' v' m :
  trie_wf pre (TLeaf k' v') → pre `prefix_of` bits k → k ≠ k' →
  ∃ n, fork_leaf_at (Z.of_nat (length pre))
         {| llLeaf := {| Key := k'; Value := v' |}; llHash := ph_of (length pre) (TLeaf k' v');
            Matches := m |} = Ok n ∧
       rep (length pre) (tinsert k v (length pre) (TLeaf k' v')) n.
Proof.
  intros (Hk' & Hok' & _ & Hp') Hp Hne. set (d := length pre).
  destruct (key_mismatch d k k') as [q Hq]; try done.
  { unfold d. by rewrite !prefix_take_eq. }
  assert (mismatch (bits k) (bits k') = Some (d + q)) as Hq'.
  { rewrite <- (take_drop d (bits k)), <- (take_drop d (bits k')).
    unfold d in *. rewrite !prefix_take_eq by done.
    rewrite mismatch_app, mismatch_refl, Hq by done. done. }
  pose proof (mismatch_lt _ _ _ Hq') as [Hlt _]. rewrite length_bits32 in Hlt by done.
  unfold fork_leaf_at. cbn [llLeaf Key llHash].
  rewrite (ComputePrefixMatch_spec k k' d (d + q)) by (done || lia).
  cbn [mbind result_bind tinsert]. rewrite Hq. unfold bit_of.
  set (b := default false (bits k !! (d + q))).
  assert (seg_rep d (take q (drop d (bits k)))
    {| Bytes := take ((d + q - 8 * (d / 8) + 7) / 8) (drop (d / 8) k);
       BitStart := Z.of_nat d; BitCount := Z.of_nat (d + q - d) |}) as Hseg.
  { assert (length (take q (drop d (bits k))) = q) as Hlq.
    { rewrite length_take, length_drop, length_bits32 by done. lia. }
    unfold seg_rep. simpl. rewrite !Hlq. unfold len. rewrite Hlq.
    rewrite length_take, length_drop, <- take_bits, <- drop_bits.
    split_and!; [done|lia|by auto using bytes_ok_take, bytes_ok_drop|lia|].
    fold (slice (8 * (d / 8)) (8 * ((d + q - 8 * (d / 8) + 7) / 8)) (bits k)).
    rewrite slice_slice by lia. unfold slice. f_equal. f_equal. lia. }
  destruct b; (eexists; split; [done|split; [done|split; done]]).
Qed.

Lemma split_miss_spec pre p l r n q :
  trie_wf pre (TNode p l r) → node_rep (length pre) p l r n →
  mismatch p (drop (length pre) (bits k)) = Some q →
  ∃ bottom nb,
    split_miss newLeafHash {| lpNode := n; Next := false; KeyBitStart := Z.of_nat (length pre);
                              KeyBitsMatched := Z.of_nat q |} = Ok (bottom, nb) ∧
    rep (S (length pre + q)) (TNode (drop (S q) p) l r) bottom ∧
    rep (length pre) (tinsert k v (length pre) (TNode p l r)) nb.
Proof.
  intros Hwf (Hseg & HL & HR) Hm. pose proof (trie_wf_node_depth _ _ _ _ Hwf) as Hd.
  pose proof (mismatch_lt _ _ _ Hm) as [Hq _].
  destruct (Split_spec _ _ _ q Hseg Hq) as (top & b & bot & Hs & Hb & Htop & Hbot); [simpl; lia|].
  unfold split_miss, LookupPathNode_Split. cbn [lpNode KeyBitsMatched]. rewrite Hs.
  cbn [mbind result_bind].
  assert (S (length pre + length p) = S (S (length pre + q) + length (drop (S q) p))) as Hdp
    by (rewrite length_drop; lia).
  assert (node_rep (S (length pre + q)) (drop (S q) p) l r
            {| Prefix := bot; Left := Left n; Right := Right n |}) as Hbr.
  { split; [done|]. simpl. by rewrite HL, HR, Hdp. }
  rewrite (NodeBuilder_Hash_rep _ _ _ _ _ Hbr) by (simpl; lia). cbn [mbind result_bind tinsert].
  rewrite Hm. apply mismatch_Some in Hm as (_ & b' & Hb' & Hkb). simplify_eq.
  rewrite (bit_of_drop _ _ _ _ Hkb).
  assert (length (take q p) = q) as Hlq by (rewrite length_take; lia).
  destruct b'; (eexists _, _; split; [done|split; [done|]]); unfold rep, fork, node_rep; simpl;
    rewrite Hlq; done.
Qed.

(** One more node above a path: its builder is appended after those below. *)
Lemma build_path_cons d d' x path leaf :
  (KeyBitStart x + KeyBitsMatched x = Z.of_nat d')%Z → (leaf = None → path ≠ []) →
  build_path d (x :: path) leaf =
  (out ← build_path d' path leaf;
   prev ← of_option (InternalError "expected output node in storeUpdatePath") (last out);
   hash ← NodeBuilder_Hash prev;
   Ok (out ++ [SetChild (lpNode x) (Next x) {| phTyp := MerkleNodeType_Node; phHash := hash |}])).
Proof.
  intros Hx Hne. unfold build_path. destruct leaf as [lf|].
  - assert (base d (x :: path) = base d' path) as ->.
    { unfold base. destruct path as [|y path]; [simpl; lia|]. rewrite last_cons_cons.
      destruct (last (y :: path)) eqn:Hl; [done|]. by apply last_None in Hl. }
    by destruct (fork_leaf_at (base d' path) lf).
  - destruct path as [|y path]; [by destruct Hne|]. rewrite last_cons_cons.
    destruct (last (y :: path)) as [fm|] eqn:Hl; [|by apply last_None in Hl].
    destruct (split_miss newLeafHash fm) as [[bottom nb]|]; [|done].
    simpl. by rewrite !Nat.sub_0_r.
Qed.

Lemma lookup_rel_nonempty d t path leaf : lookup_rel k d t path leaf → leaf = None → path ≠ [].
Proof. by destruct 1. Qed.

Lemma tinsert_is_node pre t :
  trie_wf pre t → pre `prefix_of` bits k → k ∉ keys t →
  type_of (tinsert k v (length pre) t) = MerkleNodeType_Node.
Proof.
  intros Hwf Hp Hnin. destruct t as [k' v'|p l r].
  - destruct (tinsert_leaf_wf k v Hk Hok Hv pre k' v') as (q & Hq & _); [done..| |].
    { unfold keys in Hnin. simpl in Hnin. set_solver. }
    cbn [tinsert]. rewrite Hq. unfold fork. by case_match.
  - cbn [tinsert]. destruct (mismatch p (drop (length pre) (bits k))); unfold fork; by case_match.
Qed.

Lemma Forall2_last {A B} (R : A → B → Prop) xs ys x :
  Forall2 R xs ys → last xs = Some x → ∃ y, last ys = Some y ∧ R x y.
Proof.
  intros HF Hx. destruct (last ys) as [y|] eqn:Hy.
  - exists y. split; [done|]. rewrite last_lookup in Hx. rewrite last_lookup in Hy.
    eapply Forall2_lookup_lr; [done|done|]. by rewrite (Forall2_length _ _ _ HF).
  - apply last_None in Hy as ->. by apply Forall2_nil_inv_r in HF as ->.
Qed.

Definition reps (L : list (nat * trie)) (out : list Node) : Prop :=
  Forall2 (λ '(d, t) n, rep d t n) L out.

Lemma build_path_spec d t path leaf :
  lookup_rel k d t path leaf → ∀ pre, length pre = d →
  trie_wf pre t → pre `prefix_of` bits k → k ∉ keys t →
  ∃ out, build_path d path leaf = Ok out ∧ reps (tnew k v d t) out.
Proof.
  unfold reps.
  induction 1 as [d k' v'|d p l r n q Hn Hm|d p l r n b path leaf Hn Hm Hb Hrel IH];
    intros pre Hpre Hwf Hp Hnin.
  - destruct (fork_leaf_spec pre k' v' (bool_decide (k = k'))) as (nb & Hnb & Hrep); [done..| |].
    { unfold keys in Hnin. simpl in Hnin. set_solver. }
    exists [nb]. rewrite Hpre in *. unfold build_path, base. simpl last. cbv iota. rewrite Hnb.
    split; [done|]. by repeat constructor.
  - subst d. destruct (split_miss_spec pre p l r n q) as (bottom & nb & Hs & Hbot & Htop); [done..|].
    exists [bottom; nb]. unfold build_path. simpl last. cbv iota. rewrite Hs. split; [done|].
    cbn [tnew]. rewrite Hm. constructor; [done|]. constructor; [done|constructor].
  - subst d. pose proof (trie_wf_node_depth _ _ _ _ Hwf) as Hd.
    pose proof (step_prefix _ _ _ Hk Hd Hp Hm) as Hpb. rewrite <- Hb in Hpb.
    pose proof (trie_wf_child _ _ _ _ b Hwf) as Hc. pose proof (not_in_child k b _ _ _ Hnin) as Hnc.
    destruct (IH (pre ++ p ++ [b])) as (out & Hout & Hreps); [apply length_step|done..|].
    destruct (Forall2_last _ _ _ _ Hreps (tnew_last _ _ _ _)) as (prev & Hprev & Hrep).
    rewrite <- (length_step pre p b) in Hrep.
    destruct (tinsert_spec k v Hk Hok Hv _ _ Hc Hpb Hnc) as [Hwi _].
    eexists. split.
    + rewrite (build_path_cons _ (S (length pre + length p)));
        [|simpl; unfold len; lia|by eapply lookup_rel_nonempty].
      rewrite Hout. cbn [mbind result_bind]. rewrite Hprev. cbn [of_option mbind result_bind].
      rewrite (rep_hash _ _ _ Hwi Hrep). done.
    + cbn [tnew]. rewrite Hm, <- Hb. apply Forall2_app; [done|]. constructor; [|done].
      rewrite (tinsert_child k v _ _ _ _ Hm), <- Hb. rewrite length_step. cbv zeta.
      pose proof (tinsert_is_node _ _ Hc Hpb Hnc) as Hty. rewrite length_step in Hty.
      destruct Hn as (Hseg & HL & HR). clear -Hty Hseg HL HR.
      revert Hty. generalize (tinsert k v (S (length pre + length p)) (child b l r)). intros c Hty.
      destruct b; (split; [done|]); simpl; unfold ph_of; by rewrite Hty.
Qed.
End build.
End nodes.
