(* ===== verification/MerkleRefine.v ===== *)
(** * The engine refines the trie

    The invariant [tree_inv] of a store that holds a Merkle tree, and the proofs
    that the first insertion, every further insertion, a root refresh and the tree
    initialisation establish or preserve it.  [Reach] is the reachability relation
    over these operations. *)
From S2P Require Import Prelude Bits SkipPointers MerkleTypes MerkleTrie MerkleStorage MerkleEngine MerkleLookup MerkleInsert.

Section inj.
Context `{Codec} `{!HashTotal}.

(** ** Collision-free hashing makes subtree hashes injective *)
Lemma thash_inj P d1 t1 d2 t2 :
  coll_free P → (∀ n, n ∈ tnodes d1 t1 → P n) → (∀ n, n ∈ tnodes d2 t2 → P n) →
  thash d1 t1 = thash d2 t2 →
  t1 = t2 ∧ (type_of t1 = MerkleNodeType_Node → d1 = d2).
Proof.
  intros Hcf. revert d1 d2 t2.
  induction t1 as [k1 v1|p1 l1 IHl r1 IHr]; intros d1 d2 t2 H1 H2 Heq;
    rewrite !thash_tproto in Heq;
    apply (node_hash_inj _ _ _ Hcf) in Heq; auto using tproto_in_tnodes.
  - destruct t2; by simplify_eq/=.
  - destruct t2 as [|p2 l2 r2]; [done|]. simpl in Heq.
    injection Heq as Hd Hlen Hp Hl Hr. apply Nat2Z.inj in Hd as <-.
    unfold len in Hlen. apply Nat2Z.inj in Hlen. apply canon_inj in Hp as <-; [|done].
    apply IHl in Hl as [<- _]; [|intros; apply H1; simpl; set_solver..|intros; apply H2; simpl; set_solver].
    apply IHr in Hr as [<- _]; [|intros; apply H1; simpl; set_solver..|intros; apply H2; simpl; set_solver].
    done.
Qed.

Lemma subtrie_tnodes pre t pre0 t0 n :
  subtrie pre t pre0 t0 → n ∈ tnodes (length pre) t → n ∈ tnodes (length pre0) t0.
Proof.
  induction 1 as [|pre t pre' p l r b _ IH]; [done|]. intros Hn. specialize (IH Hn).
  rewrite length_step in IH. simpl. destruct b; simpl in IH; set_solver.
Qed.

(** ** Stores that grow *)
Definition ext (w w' : view) : Prop := v_nodes w ⊆ v_nodes w' ∧ v_leaves w ⊆ v_leaves w'.

Lemma stored_ext w w' d t : ext w w' → stored w d t → stored w' d t.
Proof.
  intros [Hn Hl]. revert d. induction t as [k v|p l IHl r IHr]; intros d; simpl.
  - intros Hst. by eapply lookup_weaken.
  - intros ((n & Hlk & Hrep) & H1 & H2). split; [|naive_solver]. exists n.
    split; [by eapply lookup_weaken|done].
Qed.

(** The root node of a subtree is in the store. *)
Definition node_at (w : view) (d : nat) (t : trie) : Prop :=
  ∃ n, v_nodes w !! thash d t = Some n ∧ rep d t n.

(** Writing the new leaf and the new nodes completes the new trie. *)
Lemma stored_tnew w w' k v d t :
  ext w w' → stored w d t → v_leaves w' !! thash 0 (TLeaf k v) = Some {| Key := k; Value := v |} →
  Forall (λ '(d', t'), node_at w' d' t') (tnew k v d t) → stored w' d (tinsert k v d t).
Proof.
  intros Hext Hst Hleaf. revert d Hst.
  induction t as [k' v'|p l r IH] using trie_child_ind; intros d Hst Hnew.
  - apply (stored_ext _ w') in Hst as Hst'; [|done].
    apply Forall_cons in Hnew as [(n & Hn & Hrep) _]. cbn [tinsert] in *.
    destruct (mismatch (drop d (bits k)) (drop d (bits k'))) as [q|]; [|done].
    destruct (bit_of k (d + q)); simpl in *; eauto 10.
  - cbn [tnew] in Hnew. destruct (mismatch p (drop d (bits k))) as [q|] eqn:Hm.
    + apply (stored_ext _ w') in Hst as Hst'; [|done].
      apply Forall_cons in Hnew as [Hbot Hnew]. apply Forall_cons in Hnew as [Htop _].
      pose proof (mismatch_lt _ _ _ Hm) as [Hq _].
      assert (stored w' (S (d + q)) (TNode (drop (S q) p) l r)) as Hst2.
      { split; [exact Hbot|]. destruct Hst' as (_ & ? & ?).
        rewrite length_drop. by replace (S (S (d + q) + (length p - S q))) with (S (d + length p)) by lia. }
      destruct Htop as (n & Hn & Hrep). cbn [tinsert] in *. rewrite Hm in *.
      assert (length (take q p) = q) as Hlq by (rewrite length_take; lia).
      destruct (bit_of k (d + q)); cbn [fork stored] in *; rewrite Hlq; eauto 10.
    + apply Forall_app in Hnew as [Hnew Htop]. apply Forall_cons in Htop as [(n & Hn & Hrep) _].
      pose proof (stored_child _ _ _ _ _ (bit_of k (d + length p)) Hst) as Hc.
      specialize (IH _ _ Hc Hnew). rewrite (tinsert_child k v _ _ _ _ Hm) in *.
      apply (stored_ext _ w') in Hst as (_ & Hl & Hr); [|done].
      destruct (bit_of k (d + length p)); simpl in *; eauto 10.
Qed.

(** ** Writing a list of nodes *)
Fixpoint add_nodes (l : list (bytes * Node)) (w : view) : view :=
  match l with
  | [] => w
  | (h, n) :: l' => add_nodes l' (add_node h n w)
  end.

Lemma add_nodes_rest l w :
  v_leaves (add_nodes l w) = v_leaves w ∧ v_root (add_nodes l w) = v_root w ∧
  v_hashes (add_nodes l w) = v_hashes w ∧ v_tail (add_nodes l w) = v_tail w ∧
  v_bk (add_nodes l w) = v_bk w.
Proof. revert w. induction l as [|[h n] l IH]; intros w; simpl; [done|]. exact (IH (add_node h n w)). Qed.

Lemma add_nodes_lookup l w h :
  NoDup l.*1 → v_nodes (add_nodes l w) !! h =
  match (list_to_map l : gmap bytes Node) !! h with Some n => Some n | None => v_nodes w !! h end.
Proof.
  revert w. induction l as [|[h' n] l IH]; intros w; simpl; [done|].
  rewrite NoDup_cons. intros [Hnin Hnd]. rewrite IH by done. simpl. rewrite !lookup_insert.
  case_decide as Hh; [subst h'|done]. apply not_elem_of_list_to_map_1 in Hnin. by rewrite Hnin.
Qed.

Lemma add_nodes_in l w h n :
  NoDup l.*1 → (h, n) ∈ l → v_nodes (add_nodes l w) !! h = Some n.
Proof.
  intros Hnd Hin. rewrite add_nodes_lookup by done.
  by rewrite (elem_of_list_to_map_1 _ _ _ Hnd Hin).
Qed.

Lemma add_nodes_inv l w h n :
  NoDup l.*1 → v_nodes (add_nodes l w) !! h = Some n → v_nodes w !! h = Some n ∨ (h, n) ∈ l.
Proof.
  intros Hnd. rewrite add_nodes_lookup by done.
  destruct ((list_to_map l : gmap bytes Node) !! h) as [n'|] eqn:Hl; [|by left].
  intros [= <-]. right. by apply elem_of_list_to_map_2.
Qed.

Lemma add_nodes_ext l w :
  NoDup l.*1 → (∀ h, h ∈ l.*1 → v_nodes w !! h = None) → ext w (add_nodes l w).
Proof.
  intros Hnd Hfr. split; [|by rewrite (proj1 (add_nodes_rest l w))].
  apply map_subseteq_spec. intros h n Hn. rewrite add_nodes_lookup by done.
  destruct ((list_to_map l : gmap bytes Node) !! h) as [n'|] eqn:Hl; [|done].
  apply elem_of_list_to_map_2 in Hl. rewrite Hfr in Hn; [done|].
  apply list_elem_of_fmap. by exists (h, n').
Qed.

Lemma length_thash d t : length (thash d t) = 32.
Proof. rewrite thash_tproto. apply length_node_hash. Qed.

(** ** Storing the new nodes *)
Section store.
Context {T : Type} `{StorageTransactorLaws T}.

Lemma storeNode_spec (t : T) pre p l r n :
  rd_ok t → trie_wf pre (TNode p l r) → rep (length pre) (TNode p l r) n →
  v_nodes (rd_view t) !! thash (length pre) (TNode p l r) = None →
  ∃ t', storeNode t n = Ok t' ∧ rd_ok t' ∧
    rd_view t' = add_node (thash (length pre) (TNode p l r)) n (rd_view t).
Proof.
  intros Ht Hwf Hrep Hfr. pose proof (trie_wf_node_depth _ _ _ _ Hwf) as Hd.
  unfold storeNode. rewrite (rep_hash _ _ _ Hwf Hrep). cbn [mbind result_bind].
  destruct Hrep as ((Hs & Hc & _) & HL & HR). rewrite HL, HR. simpl in Hd.
  destruct n as [seg nl nr]; simpl in *. subst.
  apply insert_node_law; simpl; rewrite ?length_thash; try done; try apply length_node_hash;
    unfold int2_ok, len in *; lia.
Qed.

Lemma storeNodes_spec (L : list (nat * trie)) out (t : T) :
  rd_ok t → reps L out →
  Forall (λ '(d, u), ∃ pre, length pre = d ∧ trie_wf pre u) L →
  NoDup ((λ '(d, u), thash d u) <$> L) →
  Forall (λ '(d, u), v_nodes (rd_view t) !! thash d u = None) L →
  ∃ t', storeNodes t out = Ok t' ∧ rd_ok t' ∧
    rd_view t' = add_nodes (zip ((λ '(d, u), thash d u) <$> L) out) (rd_view t).
Proof.
  intros Ht Hreps. revert t Ht.
  induction Hreps as [|[d u] n L out Hrep Hreps IH]; intros t Ht Hwf Hnd Hfr; [by exists t|].
  apply Forall_cons in Hwf as [(pre & <- & Hwf) Hwfs]. apply Forall_cons in Hfr as [Hf Hfr].
  simpl in Hnd. apply NoDup_cons in Hnd as [Hnin Hnd].
  destruct u as [|p l r]; [done|].
  destruct (storeNode_spec t pre p l r n) as (t1 & Hrun & Ht1 & Hv); [done..|].
  simpl. rewrite Hrun. cbn [mbind result_bind].
  destruct (IH t1 Ht1 Hwfs Hnd) as (t' & Hrun' & Ht' & Hv').
  - rewrite Forall_forall in Hfr |- *. intros [d' u'] Hin. specialize (Hfr _ Hin). simpl in Hfr |- *.
    rewrite Hv. simpl. rewrite lookup_insert_ne; [done|]. intros Heq. apply Hnin.
    apply list_elem_of_fmap. by exists (d', u').
  - exists t'. split_and!; [done..|]. by rewrite Hv', Hv.
Qed.

(** ** Storing a root *)
Context `{!RootHashTotal}.

Definition roots_upto (w : view) (e : Z) : Prop :=
  ∀ e', (1 ≤ e' < e)%Z → is_Some (v_hashes w !! e').

Lemma buildBackPointerHash_spec (t : T) e :
  rd_ok t → (0 ≤ e < 2 ^ 64)%Z → roots_upto (rd_view t) e →
  ∃ hs bph, buildBackPointerHash t e = Ok bph ∧
    Forall2 (λ e' h, v_hashes (rd_view t) !! e' = Some h) (MerkleBackpointerSequence e) hs ∧
    HashBackPointers (zip_with (λ ep h, {| bpEpno := ep; bpHash := h |})
                        (MerkleBackpointerSequence e) hs) = Ok bph.
Proof.
  intros Ht He Hup. unfold buildBackPointerHash. set (seq := MerkleBackpointerSequence e) in *.
  assert (∃ hs, Forall2 (λ e' h, v_hashes (rd_view t) !! e' = Some h) seq hs) as [hs Hhs].
  { assert (Forall (λ e', is_Some (v_hashes (rd_view t) !! e')) seq) as Hall.
    { apply Forall_forall. intros x Hx. apply Hup. by eapply backptr_range. }
    clearbody seq. induction Hall as [|x l [h Hh] _ [hs IH]]; [by exists []|].
    exists (h :: hs). by constructor. }
  destruct (is_ok_Ok _ (hash_bps_total (zip_with (λ ep h, {| bpEpno := ep; bpHash := h |}) seq hs)))
    as [bph Hbph].
  exists hs, bph. split_and!; [|done..]. case_bool_decide as Hl.
  - apply length_zero_iff_nil in Hl. by rewrite Hl in Hbph.
  - rewrite (select_hashes_law t seq hs) by done. cbn [mbind result_bind].
    rewrite (Forall2_length _ _ _ Hhs), Nat.ltb_irrefl. done.
Qed.

(** A new tail is acceptable when it is not older than the recorded one. *)
Definition hct_ok (w : view) (hct : option HostchainTail) : Prop :=
  ∀ n, hct = Some n → (0 ≤ Seqno n < 2 ^ 31)%Z ∧ length (htHash n) = 32 ∧
    ∀ c, v_tail w = Some c → (Seqno c ≤ Seqno n)%Z.

Lemma pick_tails_spec w hct :
  hct_ok w hct → ∃ st ins, pick_tails (v_tail w) hct = Ok (st, ins) ∧ tail_newer w ins.
Proof.
  intros Hok. unfold pick_tails. destruct hct as [n|].
  - destruct (Hok n eq_refl) as (Hb & Hl & Hc). destruct (v_tail w) as [c|] eqn:Hw.
    + specialize (Hc c eq_refl). replace (Seqno n <? Seqno c)%Z with false by lia.
      eexists _, _. split; [done|]. destruct (Z.eqb_spec (Seqno c) (Seqno n)); [by intros ?|].
      intros h [= <-]. split_and!; [lia..|done|]. intros h' Hh'. simplify_eq. lia.
    + eexists _, _. split; [done|]. intros h [= <-]. split_and!; [lia..|done|]. naive_solver.
  - destruct (v_tail w); (eexists _, _; split; [done|by intros ?]).
Qed.

(** [body] encodes a version-1 root of epoch [e] with the root node [ph], the
    back pointers of its epoch, and hashes to [hash]. *)
Definition root_encodes (w : view) (e : Z) (ph : PrefixedHash) (hash body : bytes) : Prop :=
  ∃ r1 hs, HashRoot (NewMerkleRootWithV1 r1) = Ok hash ∧
    enc_MerkleRoot (NewMerkleRootWithV1 r1) = Ok body ∧
    r1Epno r1 = e ∧ r1RootNode r1 = phHash ph ∧
    Forall2 (λ e' h, v_hashes w !! e' = Some h) (MerkleBackpointerSequence e) hs ∧
    HashBackPointers (zip_with (λ ep h, {| bpEpno := ep; bpHash := h |})
                        (MerkleBackpointerSequence e) hs) = Ok (r1BackPointers r1).

Lemma storeRoot_spec now (t : T) ph time hct :
  rd_ok t → (0 ≤ next_epno (rd_view t) < 2 ^ 31)%Z →
  roots_upto (rd_view t) (next_epno (rd_view t)) → length (phHash ph) = 32 →
  root_type_ok (rd_view t) ph → hct_ok (rd_view t) hct →
  ∃ t' hash body ins, storeRoot now t (next_epno (rd_view t)) ph time hct = Ok t' ∧ rd_ok t' ∧
    rd_view t' = add_root (next_epno (rd_view t)) hash body ph ins (rd_view t) ∧
    root_encodes (rd_view t) (next_epno (rd_view t)) ph hash body.
Proof.
  intros Ht He Hup Hph Hty Hhct. unfold storeRoot. set (e := next_epno (rd_view t)) in *.
  destruct (buildBackPointerHash_spec t e) as (hs & bph & Hbp & Hhs & Hbph); [done|lia|done|].
  rewrite Hbp. cbn [mbind result_bind]. rewrite select_tail_law by done. cbn [mbind result_bind].
  destruct (pick_tails_spec _ _ Hhct) as (st & ins & Hpick & Hnew). rewrite Hpick.
  cbn [mbind result_bind].
  set (r1 := {| r1Epno := e |}).
  destruct (is_ok_Ok _ (hash_root_total (NewMerkleRootWithV1 r1))) as [hash Hhash].
  destruct (HashRoot_enc _ _ Hhash) as (Hlen & raw & Hraw).
  rewrite Hhash. cbn [mbind result_bind]. rewrite Hraw. cbn [mbind result_bind].
  destruct (insert_root_law t (if (time =? 0)%Z then now else time) hash raw ph ins)
    as (t' & Hins & Ht' & Hv'); try done; [lia|].
  exists t', hash, raw, ins. split_and!; [done..|]. by exists r1, hs.
Qed.
End store.
End inj.

(** ** The invariant of a store *)
Section inv.
Context `{Codec} `{!HashTotal} (P : MerkleNode → Prop) (Hcf : coll_free P).

(** Where a node of the table comes from: a subtree of the current trie or of an
    earlier one.  Its keys are still in the tree, and if it is not a whole trie,
    its sibling position has a key. *)
Definition known (t : trie) (h : bytes) : Prop :=
  ∃ pre u, trie_wf pre u ∧ type_of u = MerkleNodeType_Node ∧ thash (length pre) u = h ∧
    (∀ n, n ∈ tnodes (length pre) u → P n) ∧
    (∀ kv, kv ∈ contents u → kv ∈ contents t) ∧
    ∀ pr b, pre = pr ++ [b] → ∃ k v, (k, v) ∈ contents t ∧ pr ++ [negb b] `prefix_of` bits k.

(** The body of a root encodes a version-1 root of its epoch and root node. *)
Definition body_ok (rt : Root) : Prop :=
  ∃ r1, enc_MerkleRoot (NewMerkleRootWithV1 r1) = Ok (Body rt) ∧
    r1Epno r1 = Epno rt ∧ r1RootNode r1 = phHash (RootNode rt).

Record tree_inv (w : view) (t : trie) : Prop := {
  inv_wf : trie_wf [] t;
  inv_stored : stored w 0 t;
  inv_P : ∀ n, n ∈ tnodes 0 t → P n;
  inv_nodes : ∀ h n, v_nodes w !! h = Some n → known t h;
  inv_leaves : ∀ h lf, v_leaves w !! h = Some lf →
    (Key lf, Value lf) ∈ contents t ∧ h = node_hash (MerkleNodeWithLeaf lf);
  inv_bk : v_bk w ≠ None;
  inv_root : ∃ rt, v_root w = Some rt ∧ RootNode rt = ph_of 0 t ∧ (1 ≤ Epno rt)%Z ∧
    body_ok rt ∧ roots_upto w (Epno rt + 1)
}.

Lemma contents_tnodes d t k v :
  (k, v) ∈ contents t → MerkleNodeWithLeaf {| Key := k; Value := v |} ∈ tnodes d t.
Proof.
  revert d. induction t as [k' v'|p l IHl r IHr]; intros d; simpl.
  - intros [= -> ->]%list_elem_of_singleton. set_solver.
  - intros [?|?]%elem_of_app; set_solver.
Qed.

Lemma wf_same_depth pre1 pre2 t :
  trie_wf pre1 t → trie_wf pre2 t → length pre1 = length pre2 → pre1 = pre2.
Proof.
  intros H1 H2 Hl. destruct (contents_nonempty t) as (k & v & Hin).
  apply (trie_wf_prefix _ _ _ _ H1) in Hin as Hp1. apply (trie_wf_prefix _ _ _ _ H2) in Hin as Hp2.
  rewrite <- (prefix_take_eq _ _ Hp1), <- (prefix_take_eq _ _ Hp2). by rewrite Hl.
Qed.

Section fresh.
Context (k v : bytes) (Hk : length k = 32) (Hok : bytes_ok k) (Hv : length v = 32).
Context (w : view) (t : trie) (Hinv : tree_inv w t) (Hnin : k ∉ keys t).
Context (HP : ∀ n, n ∈ tnodes 0 (tinsert k v 0 t) → P n).

Lemma not_in_contents v' : (k, v') ∉ contents t.
Proof.
  intros Hin. apply Hnin. unfold keys. apply list_elem_of_fmap. by exists (k, v').
Qed.

Lemma tinsert_wf0 :
  trie_wf [] (tinsert k v 0 t) ∧ contents (tinsert k v 0 t) ≡ₚ (k, v) :: contents t.
Proof. apply (tinsert_spec k v Hk Hok Hv []); [apply Hinv|apply prefix_nil|done]. Qed.

Lemma tnew_type pre u :
  trie_wf pre u → pre `prefix_of` bits k → k ∉ keys u →
  Forall (λ '(_, x), type_of x = MerkleNodeType_Node) (tnew k v (length pre) u).
Proof.
  revert pre. induction u as [k' v'|p l r IH] using trie_child_ind; intros pre Hwf Hp Hn.
  - apply Forall_singleton. by apply (tinsert_is_node k v).
  - pose proof (tinsert_is_node k v Hk Hok Hv pre _ Hwf Hp Hn) as Hty.
    pose proof (trie_wf_node_depth _ _ _ _ Hwf) as Hd. cbn [tnew].
    destruct (mismatch p (drop (length pre) (bits k))) as [q|] eqn:Hm.
    + constructor; [done|]. by apply Forall_singleton.
    + apply Forall_app_2; [|by apply Forall_singleton].
      pose proof (step_prefix _ _ _ Hk Hd Hp Hm) as Hpb.
      set (b := bit_of k (length pre + length p)) in *. rewrite <- (length_step pre p b).
      apply IH; [by apply trie_wf_child|done|by eapply not_in_child].
Qed.

(** Each new subtree: its position, and that all its nodes are in [P]. *)
Lemma tnew_positions :
  Forall (λ '(d, u), ∃ pre, length pre = d ∧ trie_wf pre u ∧ type_of u = MerkleNodeType_Node ∧
            subtrie pre u [] (tinsert k v 0 t) ∧ (∀ n, n ∈ tnodes d u → P n)) (tnew k v 0 t).
Proof.
  destruct tinsert_wf0 as [Hwf' _].
  pose proof (tnew_subtrie k v Hk Hv [] t (inv_wf _ _ Hinv) (prefix_nil _)) as Hs.
  pose proof (tnew_type [] t (inv_wf _ _ Hinv) (prefix_nil _) Hnin) as Hty. simpl in *.
  rewrite Forall_forall in Hs, Hty |- *. intros [d u] Hin.
  destruct (Hs _ Hin) as (pre & Hl & Hsub). specialize (Hty _ Hin). simpl in Hty.
  exists pre. split_and!; [done|by eapply subtrie_wf|done|done|].
  subst d. intros n Hn. apply HP. by apply (subtrie_tnodes pre u []).
Qed.

Lemma tnew_hash_nodup : NoDup ((λ '(d, u), thash d u) <$> tnew k v 0 t).
Proof.
  destruct (tnew_depths k v Hk Hv 0 t) as [Hs _]. pose proof tnew_positions as Hpos.
  induction (tnew k v 0 t) as [|[d u] L IH]; [constructor|].
  apply Forall_cons in Hpos as [(pre & Hl & _ & Hty & _ & Hp) Hpos]. simpl in *.
  apply StronglySorted_inv in Hs as [Hs Hall]. constructor; [|by apply IH].
  intros ([d' u'] & Heq & Hin)%list_elem_of_fmap.
  rewrite Forall_forall in Hpos. destruct (Hpos _ Hin) as (_ & _ & _ & _ & _ & Hp').
  destruct (thash_inj P d u d' u') as [_ Hd]; [done..|]. specialize (Hd Hty). subst d'.
  rewrite Forall_forall in Hall. specialize (Hall d). apply (Nat.lt_irrefl d), Hall.
  apply list_elem_of_fmap. by exists (d, u').
Qed.

(** No new node is in the table yet. *)
Lemma tnew_not_stored : Forall (λ '(d, u), v_nodes w !! thash d u = None) (tnew k v 0 t).
Proof.
  pose proof (tnew_fresh k v Hk Hok Hv [] t (inv_wf _ _ Hinv) (prefix_nil _) Hnin) as Hf.
  pose proof tnew_positions as Hpos. simpl in Hf. rewrite Forall_forall in Hf, Hpos |- *.
  intros [d u] Hin. destruct (Hpos _ Hin) as (pre & Hl & Hwf & Hty & _ & Hp).
  specialize (Hf _ Hin). simpl in Hf.
  destruct (v_nodes w !! thash d u) as [n|] eqn:Hlk; [exfalso|done].
  destruct (inv_nodes _ _ Hinv _ _ Hlk) as (pre' & u' & Hwf' & _ & Hh & Hp' & Hcont & Hsib).
  destruct (thash_inj P d u (length pre') u') as [-> Hd]; [done..|]. specialize (Hd Hty). subst d.
  destruct Hf as [Hkv|(pr & b & Hpl & Hwfb & _ & Hno)].
  - by apply (not_in_contents v), Hcont.
  - assert (pre' = pr ++ [b]) as -> by exact (wf_same_depth _ _ _ Hwf' Hwfb ltac:(congruence)).
    destruct (Hsib pr b eq_refl) as (k' & v' & Hin' & Hpre). by apply (Hno k' v').
Qed.

Lemma new_leaf_not_stored : v_leaves w !! thash 0 (TLeaf k v) = None.
Proof.
  destruct (v_leaves w !! thash 0 (TLeaf k v)) as [[k' v']|] eqn:Hlk; [exfalso|done].
  destruct (inv_leaves _ _ Hinv _ _ Hlk) as [Hin Hh]. simpl in Hin, Hh.
  apply (node_hash_inj P) in Hh; [|done|..].
  - injection Hh as Hk1 _. apply (not_in_contents v'). by rewrite Hk1.
  - apply HP, contents_tnodes. destruct tinsert_wf0 as [_ ->]. set_solver.
  - by apply (inv_P _ _ Hinv), contents_tnodes.
Qed.

Lemma new_key_not_stored h lf : v_leaves w !! h = Some lf → Key lf ≠ k.
Proof.
  intros Hlk Heq. destruct (inv_leaves _ _ Hinv _ _ Hlk) as [Hin _]. rewrite Heq in Hin.
  by eapply not_in_contents.
Qed.

(** What is known stays known in a larger trie. *)
Lemma known_mono t' h : (∀ kv, kv ∈ contents t → kv ∈ contents t') → known t h → known t' h.
Proof.
  intros Hsub (pre & u & Hwf & Hty & Hh & Hp & Hc & Hsib). exists pre, u. split_and!; try done.
  - naive_solver.
  - intros pr b Hpr. destruct (Hsib pr b Hpr) as (k' & v' & ? & ?). eauto.
Qed.

Lemma known_new d u : (d, u) ∈ tnew k v 0 t → known (tinsert k v 0 t) (thash d u).
Proof.
  intros Hin. pose proof tnew_positions as Hpos. rewrite Forall_forall in Hpos.
  destruct (Hpos _ Hin) as (pre & <- & Hwf & Hty & Hsub & Hp).
  exists pre, u. split_and!; try done.
  - intros kv Hkv. by eapply subtrie_contents.
  - intros pr b ->. eapply subtrie_sibling; [done|apply tinsert_wf0|done|].
    rewrite length_app. simpl. lia.
Qed.
End fresh.
End inv.

(** ** Insertion refines [tinsert] *)
Section refine.
Context `{Codec} `{!HashTotal} `{!RootHashTotal} (P : MerkleNode → Prop) (Hcf : coll_free P).
Context {T : Type} `{StorageTransactorLaws T}.

Definition bk_ok (bk : option Bookkeeping) : Prop :=
  ∀ b, bk = Some b → (0 ≤ BatchNo b < 2 ^ 31)%Z ∧ int4_ok (Pos b).

(** What the caller of an insertion provides. *)
Record arg_ok (w : view) (arg : InsertKeyValueArg) : Prop := {
  arg_key : length (ikKey arg) = 32;
  arg_key_bytes : bytes_ok (ikKey arg);
  arg_val : length (ikVal arg) = 32;
  arg_hct : hct_ok w (ikHct arg);
  arg_bk : bk_ok (ikBk arg)
}.

Definition epno_of (w : view) : Z := match v_root w with Some rt => Epno rt | None => 0 end.

Lemma update_bk_opt (t : T) bk :
  rd_ok t → v_bk (rd_view t) ≠ None → bk_ok bk →
  ∃ t', match bk with Some b => UpdateBookkeeping t b | None => Ok t end = Ok t' ∧ rd_ok t' ∧
    rd_view t' = match bk with Some b => set_bk b (rd_view t) | None => rd_view t end.
Proof.
  intros Ht Hb Hbk. destruct bk as [b|]; [|by exists t].
  destruct (Hbk b eq_refl) as [Hbn Hpos]. apply update_bk_law; try done; unfold int4_ok; lia.
Qed.

Lemma storeLeaf_spec (t : T) k v e :
  rd_ok t → v_leaves (rd_view t) !! thash 0 (TLeaf k v) = None →
  (∀ h lf, v_leaves (rd_view t) !! h = Some lf → Key lf ≠ k) →
  length k = 32 → length v = 32 → (0 ≤ e < 2 ^ 31)%Z →
  ∃ t', storeLeaf t {| Key := k; Value := v |} e = Ok t' ∧ rd_ok t' ∧
    rd_view t' = add_leaf (thash 0 (TLeaf k v)) {| Key := k; Value := v |} (rd_view t).
Proof.
  intros Ht Hh Hk Hkl Hvl He. unfold storeLeaf, LeafBuilder_Hash. rewrite HashNode_ok.
  cbn [mbind result_bind Key Value]. apply insert_leaf_law; try done.
  - apply length_node_hash.
  - unfold int4_ok. lia.
  - lia.
Qed.

(** The invariant does not look at the hostchain tail, and carries over a change
    of bookkeeping. *)
Lemma tree_inv_set_bk w t b : tree_inv P w t → tree_inv P (set_bk b w) t.
Proof.
  intros []. constructor; try done. apply (stored_ext w); [done|done].
Qed.

Lemma wrap64_next e : (0 ≤ e)%Z → (wrap64 (e + 1) < 2 ^ 31)%Z → (e < 2 ^ 32)%Z → wrap64 (e + 1) = (e + 1)%Z.
Proof. intros. unfold wrap64. apply Z.mod_small. lia. Qed.

(** The view after an insertion of [k] that writes the nodes [l]. *)
Lemma tree_inv_insert w t k v out e hash body ins rt :
  let T' := tinsert k v 0 t in
  let l := zip ((λ '(d, u), thash d u) <$> tnew k v 0 t) out in
  let w' := add_root e hash body (ph_of 0 T') ins
              (add_nodes l (add_leaf (thash 0 (TLeaf k v)) {| Key := k; Value := v |} w)) in
  length k = 32 → bytes_ok k → length v = 32 → tree_inv P w t → k ∉ keys t →
  (∀ n, n ∈ tnodes 0 T' → P n) → reps (tnew k v 0 t) out →
  v_root w = Some rt → e = (Epno rt + 1)%Z →
  body_ok {| Epno := e; Body := body; RootNode := ph_of 0 T'; Sig := None |} → tree_inv P w' T'.
Proof.
  intros T' l w' Hk Hok Hv Hinv Hnin HP Hreps Hrt He Hbody.
  destruct (tinsert_wf0 P k v Hk Hok Hv w t Hinv Hnin) as [Hwf Hperm].
  assert (Hcont : ∀ kv, kv ∈ contents T' ↔ kv = (k, v) ∨ kv ∈ contents t).
  { intros kv. unfold T'. rewrite Hperm. apply elem_of_cons. }
  assert (Hnd : NoDup l.*1).
  { unfold l. rewrite fst_zip by (rewrite length_fmap, (Forall2_length _ _ _ Hreps); lia).
    by apply (tnew_hash_nodup P Hcf k v Hk Hok Hv w). }
  assert (Hl : ∀ h n, (h, n) ∈ l → ∃ d u, (d, u) ∈ tnew k v 0 t ∧ h = thash d u ∧ rep d u n).
  { unfold l. intros h n Hin. apply elem_of_lookup_zip_with_1 in Hin as (i & x & y & Heq & Hx & Hy).
    simplify_eq. rewrite list_lookup_fmap in Hx. apply fmap_Some in Hx as ([d u] & Hx & ->).
    exists d, u. split_and!; [by eapply list_elem_of_lookup_2|done|].
    by apply (Forall2_lookup_lr _ _ _ _ _ _ Hreps Hx Hy). }
  set (w1 := add_leaf _ _ w) in *.
  assert (Hfr : ∀ h, h ∈ l.*1 → v_nodes w1 !! h = None).
  { intros h ([h' n] & -> & Hin)%list_elem_of_fmap. destruct (Hl _ _ Hin) as (d & u & Hin' & -> & _).
    pose proof (tnew_not_stored P Hcf k v Hk Hok Hv w t Hinv Hnin HP) as Hns.
    rewrite Forall_forall in Hns. by apply (Hns (d, u)). }
  pose proof (add_nodes_rest l w1) as (Elv & Ert & Ehs & Etl & Ebk).
  destruct (inv_root _ _ _ Hinv) as (rt' & Hrt' & _ & Hge & _ & Hup). simplify_eq.
  constructor.
  - done.
  - apply (stored_tnew w); [|by apply Hinv|..].
    + split; simpl.
      * by apply (add_nodes_ext l w1).
      * rewrite Elv. simpl. apply insert_subseteq.
        by apply (new_leaf_not_stored P Hcf k v Hk Hok Hv w t).
    + simpl. rewrite Elv. simpl. apply lookup_insert_eq.
    + apply Forall_forall. intros [d u] Hin.
      apply list_elem_of_lookup in Hin as [i Hi].
      destruct (Forall2_lookup_l _ _ _ _ _ Hreps Hi) as (n & Hn & Hrep).
      exists n. split; [|done]. simpl. apply add_nodes_in; [done|].
      apply list_elem_of_lookup. exists i. unfold l. rewrite lookup_zip_with, list_lookup_fmap, Hi.
      simpl. by rewrite Hn.
  - done.
  - intros h n Hlk. simpl in Hlk. apply add_nodes_inv in Hlk as [Hlk|Hlk]; [| |done].
    + apply (known_mono P t); [|by apply (inv_nodes _ _ _ Hinv h n)].
      intros kv Hkv. apply Hcont. by right.
    + destruct (Hl _ _ Hlk) as (d & u & Hin & -> & _).
      by apply (known_new P k v Hk Hok Hv w).
  - intros h lf Hlk. simpl in Hlk. rewrite Elv in Hlk. simpl in Hlk.
    apply lookup_insert_Some in Hlk as [[<- <-]|[_ Hlk]].
    + split; [apply Hcont; by left|done].
    + apply (inv_leaves _ _ _ Hinv) in Hlk as [Hin ->]. split; [|done]. apply Hcont. by right.
  - simpl. rewrite Ebk. simpl. case_match; [done|apply Hinv].
  - eexists. split_and!; [done|done|simpl; lia|done|]. intros e' He'. simpl in *. rewrite Ehs. simpl.
    destruct (decide (e' = Epno rt + 1)%Z) as [->|Hne]; [by rewrite lookup_insert_eq|].
    rewrite lookup_insert_ne by done. apply Hup. lia.
Qed.

Lemma root_encodes_body w e ph hash body :
  root_encodes w e ph hash body →
  body_ok {| Epno := e; Body := body; RootNode := ph; Sig := None |}.
Proof. intros (r1 & hs & ? & ? & ? & ? & _). by exists r1. Qed.

Lemma hct_ok_eq w w' hct : v_tail w = v_tail w' → hct_ok w hct → hct_ok w' hct.
Proof. unfold hct_ok. by intros ->. Qed.

(** The view after writing the leaf, the nodes, the root and the bookkeeping. *)
Definition after_insert (w : view) (t : trie) (arg : InsertKeyValueArg) (w' : view) : Prop :=
  tree_inv P w' t ∧ epno_of w' = (epno_of w + 1)%Z ∧
  v_bk w' = (match ikBk arg with Some b => Some b | None => v_bk w end) ∧
  ∃ hash body rt, v_root w' = Some rt ∧ Body rt = body ∧ v_hashes w' !! Epno rt = Some hash ∧
    root_encodes w (Epno rt) (RootNode rt) hash body.

Lemma storeUpdatedPath_spec now (t : T) tr arg rt path leaf out :
  let k := ikKey arg in let v := ikVal arg in
  rd_ok t → tree_inv P (rd_view t) tr → arg_ok (rd_view t) arg → k ∉ keys tr →
  (∀ n, n ∈ tnodes 0 (tinsert k v 0 tr) → P n) →
  v_root (rd_view t) = Some rt → (Epno rt + 1 < 2 ^ 31)%Z → reps (tnew k v 0 tr) out →
  ∃ t', storeUpdatedPath now t
          (Some {| lrEpno := Epno rt; lrRootBody := Body rt; lrPath := path; lrLeaf := leaf |})
          {| Key := k; Value := v |} out arg = Ok t' ∧ rd_ok t' ∧
        after_insert (rd_view t) (tinsert k v 0 tr) arg (rd_view t').
Proof.
  intros k v Ht Hinv [Hk Hok Hv Hhct Hbk] Hnin HP Hrt He Hreps. fold k v in Hk, Hok, Hv.
  destruct (inv_root _ _ _ Hinv) as (rt' & Hrt' & _ & Hge & _ & Hup). simplify_eq.
  assert (Hnext : wrap64 (Epno rt + 1) = (Epno rt + 1)%Z) by (unfold wrap64; apply Z.mod_small; lia).
  unfold storeUpdatedPath. cbn [lrEpno]. rewrite Hnext.
  destruct (storeLeaf_spec t k v (Epno rt + 1)) as (t1 & Hr1 & Ht1 & Hv1); try done; [..|lia|].
  { by apply (new_leaf_not_stored P Hcf k v Hk Hok Hv _ tr). }
  { by apply (new_key_not_stored P k _ tr). }
  rewrite Hr1. cbn [mbind result_bind].
  pose proof (tnew_positions P k v Hk Hok Hv _ tr Hinv Hnin HP) as Hpos.
  destruct (storeNodes_spec (tnew k v 0 tr) out t1) as (t2 & Hr2 & Ht2 & Hv2); try done.
  { eapply Forall_impl; [exact Hpos|]. intros [d u] (pre & ? & ? & _). by exists pre. }
  { by apply (tnew_hash_nodup P Hcf k v Hk Hok Hv (rd_view t)). }
  { rewrite Hv1. exact (tnew_not_stored P Hcf k v Hk Hok Hv (rd_view t) tr Hinv Hnin HP). }
  rewrite Hr2. cbn [mbind result_bind]. rewrite Hv1 in Hv2.
  pose proof (add_nodes_rest (zip ((λ '(d, u), thash d u) <$> tnew k v 0 tr) out) (rd_view t1))
    as (Elv & Ert & Ehs & Etl & Ebk). rewrite Hv1 in *. rewrite <- Hv2 in Ert, Ehs, Etl, Ebk.
  destruct (Forall2_last _ _ _ _ Hreps (tnew_last k v 0 tr)) as (n & Hlast & Hrep).
  destruct (tinsert_wf0 P k v Hk Hok Hv _ tr Hinv Hnin) as [Hwf _].
  rewrite Hlast, (rep_hash [] _ _ Hwf Hrep). cbn [mbind result_bind].
  assert (type_of (tinsert k v 0 tr) = MerkleNodeType_Node) as Hty.
  { apply (tinsert_is_node k v Hk Hok Hv []); [apply Hinv|apply prefix_nil|done]. }
  assert ({| phTyp := MerkleNodeType_Node; phHash := thash (length []) (tinsert k v 0 tr) |} =
          ph_of 0 (tinsert k v 0 tr)) as -> by (unfold ph_of; by rewrite Hty).
  assert (next_epno (rd_view t2) = (Epno rt + 1)%Z) as Hn2.
  { unfold next_epno. by rewrite Ert; simpl; rewrite Hrt. }
  destruct (storeRoot_spec now t2 (ph_of 0 (tinsert k v 0 tr)) (ikTime arg) (ikHct arg))
    as (t3 & hash & body & ins & Hr3 & Ht3 & Hv3 & Henc); try rewrite Hn2; try done; [lia|..].
  { intros e' He'. rewrite Ehs. by apply Hup. }
  { apply length_thash. }
  { unfold root_type_ok. rewrite Ert. simpl. rewrite Hrt. simpl. by rewrite Hty. }
  { by eapply (hct_ok_eq (rd_view t)). }
  rewrite Hn2 in Hr3, Hv3, Henc. rewrite Hr3. cbn [mbind result_bind].
  assert (Hinv3 : tree_inv P (rd_view t3) (tinsert k v 0 tr)).
  { rewrite Hv3, Hv2. apply (tree_inv_insert _ _ _ _ _ _ _ _ _ rt); try done.
    by eapply (root_encodes_body (rd_view t2)). }
  destruct (update_bk_opt t3 (ikBk arg)) as (t4 & Hr4 & Ht4 & Hv4); [done|apply Hinv3|done|].
  exists t4. split_and!; [done..|]. unfold after_insert. rewrite Hv4.
  assert (Hroot : root_encodes (rd_view t) (Epno rt + 1) (ph_of 0 (tinsert k v 0 tr)) hash body).
  { destruct Henc as (r1 & hs & ? & ? & ? & ? & Hhs & ?). exists r1, hs. rewrite Ehs in Hhs.
    split_and!; done. }
  assert (Hb3 : v_bk (rd_view t3) = v_bk (rd_view t)).
  { rewrite Hv3. simpl. rewrite Ebk.
    by replace (Epno rt + 1 =? MerkleEpnoFirst)%Z with false by (unfold MerkleEpnoFirst; lia). }
  unfold epno_of. rewrite Hrt. destruct (ikBk arg) as [b|].
  - split; [by apply tree_inv_set_bk|]. simpl. rewrite Hv3. simpl. split_and!; [done..|].
    eexists hash, body, _. split_and!; [done|done|simpl; apply lookup_insert_eq|done].
  - split; [done|]. rewrite Hb3, Hv3. simpl. split_and!; [done..|].
    eexists hash, body, _. split_and!; [done|done|simpl; apply lookup_insert_eq|done].
Qed.

Lemma found_None k tr leaf :
  trie_wf [] tr → length k = 32 → bytes_ok k → k ∉ keys tr → found_value leaf = tget k 0 tr →
  ∀ lf, leaf = Some lf → Matches lf = false.
Proof.
  intros Hwf Hk Hok Hnin Hf lf ->. simpl in Hf. destruct (Matches lf); [exfalso|done].
  symmetry in Hf. apply (tget_spec [] tr k _ Hwf Hk Hok (prefix_nil _)) in Hf.
  apply Hnin. unfold keys. apply list_elem_of_fmap. by exists (k, Value (llLeaf lf)).
Qed.

(** The part of [insertKeyValueTryTx] between the lookup and the writes. *)
Lemma insert_builds now (t : T) arg res :
  lookupPathWithLock t {| laKey := ikKey arg; laSigned := false; laRoot := None |} = Ok (Some res) →
  (∀ lf, lrLeaf res = Some lf → Matches lf = false) →
  insertKeyValueTryTx now t arg =
  (out ← build_path (ikKey arg) (ikVal arg) 0 (lrPath res) (lrLeaf res);
   storeUpdatedPath now t (Some res) {| Key := ikKey arg; Value := ikVal arg |} out arg).
Proof.
  intros Hres Hm. unfold insertKeyValueTryTx. rewrite Hres. unfold LeafBuilder_Hash.
  rewrite HashNode_ok. unfold build_path. destruct (lrLeaf res) as [lf|].
  - rewrite (Hm lf eq_refl). cbn [mbind result_bind].
    change (fork_leaf (ikKey arg) (node_hash (MerkleNodeWithLeaf {| Key := ikKey arg; Value := ikVal arg |}))
              (lrPath res) lf)
      with (fork_leaf_at (ikKey arg) (ikVal arg) (base 0 (lrPath res)) lf).
    by destruct (fork_leaf_at (ikKey arg) (ikVal arg) (base 0 (lrPath res)) lf).
  - cbn [mbind result_bind]. destruct (last (lrPath res)) as [fm|]; [|done].
    change (thash 0 (TLeaf (ikKey arg) (ikVal arg)))
      with (node_hash (MerkleNodeWithLeaf {| Key := ikKey arg; Value := ikVal arg |})).
    by destruct (split_miss _ fm) as [[bottom nb]|].
Qed.

Lemma insert_new now (t : T) tr arg :
  rd_ok t → tree_inv P (rd_view t) tr → arg_ok (rd_view t) arg → ikKey arg ∉ keys tr →
  (∀ n, n ∈ tnodes 0 (tinsert (ikKey arg) (ikVal arg) 0 tr) → P n) →
  (epno_of (rd_view t) + 1 < 2 ^ 31)%Z →
  ∃ t', insertKeyValueTryTx now t arg = Ok t' ∧ rd_ok t' ∧
        after_insert (rd_view t) (tinsert (ikKey arg) (ikVal arg) 0 tr) arg (rd_view t').
Proof.
  intros Ht Hinv Harg Hnin HP He. pose proof Harg as [Hk Hok Hv _ _].
  destruct (inv_root _ _ _ Hinv) as (rt & Hrt & Hroot & Hge & _ & Hup).
  destruct (lookupPathWithLock_spec t tr rt (ikKey arg)) as (path & leaf & Hrun & Hrel);
    [done|done|done|apply Hinv|apply Hinv|done|done|].
  erewrite insert_builds; [|done|].
  2:{ simpl. apply (found_None (ikKey arg) tr); [apply Hinv|done|done|done|by eapply lookup_rel_tget]. }
  cbn [lrPath lrLeaf].
  destruct (build_path_spec (ikKey arg) (ikVal arg) Hk Hok Hv _ _ _ _ Hrel []) as (out & Hout & Hreps);
    [done|apply Hinv|apply prefix_nil|done|].
  rewrite Hout. cbn [mbind result_bind]. unfold epno_of in He. rewrite Hrt in He.
  by apply storeUpdatedPath_spec.
Qed.

Lemma insert_existing now (t : T) tr arg :
  rd_ok t → tree_inv P (rd_view t) tr → arg_ok (rd_view t) arg → ikKey arg ∈ keys tr →
  ∃ t', insertKeyValueTryTx now t arg = Ok t' ∧ rd_ok t' ∧
    rd_view t' = match ikBk arg with Some b => set_bk b (rd_view t) | None => rd_view t end.
Proof.
  intros Ht Hinv Harg Hin. pose proof Harg as [Hk Hok Hv _ Hbk].
  destruct (inv_root _ _ _ Hinv) as (rt & Hrt & Hroot & Hge & _ & Hup).
  destruct (lookupPathWithLock_spec t tr rt (ikKey arg)) as (path & leaf & Hrun & Hrel);
    [done|done|done|apply Hinv|apply Hinv|done|done|].
  unfold keys in Hin. apply list_elem_of_fmap in Hin as ([k' v] & Heq & Hin). simpl in Heq. subst k'.
  apply (tget_spec [] tr) in Hin; [|apply Hinv|done|done|apply prefix_nil].
  pose proof (lookup_rel_tget _ _ _ _ _ Hrel) as Hf. simpl in Hin. rewrite Hin in Hf.
  unfold found_value in Hf. destruct leaf as [lf|]; [|done]. simpl in Hf.
  destruct (Matches lf) eqn:Hm; [|done].
  unfold insertKeyValueTryTx. rewrite Hrun. cbn [lrLeaf]. rewrite Hm.
  apply update_bk_opt; [done|apply Hinv|done].
Qed.

(** C7: inserting a key into a store that holds a tree always succeeds when the
    hostchain tail is not older than the recorded one, whatever storage implements
    the interface.  A new key yields a store that holds the tree with that one
    pair added, under a root of the next epoch; a key that is already there leaves
    the tree and the root as they are; the bookkeeping is updated in both cases. *)
Theorem insert_refines now (t : T) tr arg :
  rd_ok t → tree_inv P (rd_view t) tr → arg_ok (rd_view t) arg →
  (∀ n, n ∈ tnodes 0 (tinsert (ikKey arg) (ikVal arg) 0 tr) → P n) →
  (epno_of (rd_view t) + 1 < 2 ^ 31)%Z →
  ∃ t' tr', insertKeyValueTryTx now t arg = Ok t' ∧ rd_ok t' ∧ tree_inv P (rd_view t') tr' ∧
    v_bk (rd_view t') =
      (match ikBk arg with Some b => Some b | None => v_bk (rd_view t) end) ∧
    if decide (ikKey arg ∈ keys tr)
    then tr' = tr ∧ v_root (rd_view t') = v_root (rd_view t)
    else contents tr' ≡ₚ (ikKey arg, ikVal arg) :: contents tr ∧
         epno_of (rd_view t') = (epno_of (rd_view t) + 1)%Z.
Proof.
  intros Ht Hinv Harg HP He. case_decide as Hin.
  - destruct (insert_existing now t tr arg) as (t' & Hrun & Ht' & Hv'); [done..|].
    exists t', tr. rewrite Hv'. destruct (ikBk arg); split_and!; try done.
    by apply tree_inv_set_bk.
  - destruct (insert_new now t tr arg) as (t' & Hrun & Ht' & Hinv' & Hep & Hbk & _); [done..|].
    eexists t', _. split_and!; [done|done|exact Hinv'|done| |done].
    pose proof Harg as [Hk Hok Hv _ _].
    by apply (tinsert_wf0 P _ _ Hk Hok Hv (rd_view t) tr Hinv Hin).
Qed.

(** ** The other operations that write roots *)
Lemma tree_inv_add_root w tr rt hash body ins :
  tree_inv P w tr → v_root w = Some rt →
  body_ok {| Epno := Epno rt + 1; Body := body; RootNode := RootNode rt; Sig := None |} →
  tree_inv P (add_root (Epno rt + 1) hash body (RootNode rt) ins w) tr.
Proof.
  intros [Hwf Hst HP Hn Hl Hb (rt' & Hrt' & Hroot & Hge & _ & Hup)] Hrt Hbody. simplify_eq. constructor; try done.
  - by apply (stored_ext w).
  - simpl. by case_match.
  - eexists. split_and!; [done|done|simpl; lia|done|]. intros e' He'. simpl in *.
    destruct (decide (e' = Epno rt' + 1)%Z) as [->|Hne]; [by rewrite lookup_insert_eq|].
    rewrite lookup_insert_ne by done. apply Hup. lia.
Qed.

Lemma StoreRoot_inv now (t : T) tr time hct bk :
  rd_ok t → tree_inv P (rd_view t) tr → hct_ok (rd_view t) (Some hct) → bk_ok (Some bk) →
  (epno_of (rd_view t) + 1 < 2 ^ 31)%Z →
  ∃ t', StoreRootTx now t time hct bk = Ok t' ∧ rd_ok t' ∧ tree_inv P (rd_view t') tr ∧
    epno_of (rd_view t') = (epno_of (rd_view t) + 1)%Z ∧ v_bk (rd_view t') = Some bk.
Proof.
  intros Ht Hinv Hhct Hbk He. destruct (inv_root _ _ _ Hinv) as (rt & Hrt & Hroot & Hge & _ & Hup).
  unfold epno_of in *. rewrite Hrt in *.
  assert (Hnext : next_epno (rd_view t) = (Epno rt + 1)%Z).
  { unfold next_epno. rewrite Hrt. unfold wrap64. apply Z.mod_small. lia. }
  unfold StoreRootTx. rewrite select_root_law, Hrt by done. cbn [of_option fmap result_fmap mbind result_bind].
  replace (wrap64 (Epno rt + 1)) with (Epno rt + 1)%Z by (unfold wrap64; rewrite Z.mod_small; lia).
  destruct (storeRoot_spec now t (RootNode rt) time (Some hct))
    as (t1 & hash & body & ins & Hr1 & Ht1 & Hv1 & Henc); rewrite ?Hnext; try done; [lia|..].
  { rewrite Hroot. apply length_thash. }
  { unfold root_type_ok. by rewrite Hrt. }
  rewrite Hnext in Hr1, Hv1, Henc. rewrite Hr1. cbn [mbind result_bind].
  assert (tree_inv P (rd_view t1) tr) as Hinv1.
  { rewrite Hv1. apply tree_inv_add_root; try done. by eapply (root_encodes_body (rd_view t)). }
  destruct (update_bk_opt t1 (Some bk)) as (t2 & Hr2 & Ht2 & Hv2); [done|apply Hinv1|done|].
  exists t2. rewrite Hv2. split_and!; [done..|by apply tree_inv_set_bk| |done]. simpl. by rewrite Hv1.
Qed.

(** A store with no tree yet. *)
Definition blank (w : view) : Prop := v_nodes w = ∅ ∧ v_leaves w = ∅ ∧ v_root w = None.

Lemma tree_inv_first w k v hash body ins :
  blank w → length k = 32 → bytes_ok k → length v = 32 →
  P (MerkleNodeWithLeaf {| Key := k; Value := v |}) →
  body_ok {| Epno := MerkleEpnoFirst; Body := body; RootNode := ph_of 0 (TLeaf k v); Sig := None |} →
  tree_inv P (add_root MerkleEpnoFirst hash body (ph_of 0 (TLeaf k v)) ins
                (add_leaf (thash 0 (TLeaf k v)) {| Key := k; Value := v |} w)) (TLeaf k v).
Proof.
  intros (Hn & Hl & Hr) Hk Hok Hv HPl Hbody. constructor.
  - simpl. split_and!; try done. apply prefix_nil.
  - simpl. apply lookup_insert_eq.
  - simpl. intros n ->%list_elem_of_singleton. done.
  - simpl. rewrite Hn. by intros ? ? ?%lookup_empty_Some.
  - simpl. rewrite Hl. intros h lf [[<- <-]|[_ Hlk]]%lookup_insert_Some; [|by apply lookup_empty_Some in Hlk].
    split; [simpl; set_solver|done].
  - done.
  - eexists. split_and!; [done|done|simpl; unfold MerkleEpnoFirst; lia|done|]. intros e' He'. simpl in *.
    unfold MerkleEpnoFirst in *. replace e' with 1%Z by lia. by rewrite lookup_insert_eq.
Qed.

Lemma InitTree_inv now (t : T) :
  rd_ok t → blank (rd_view t) → P (MerkleNodeWithLeaf {| Key := zero_hash; Value := zero_hash |}) →
  ∃ t', InitTreeTx now t = Ok t' ∧ rd_ok t' ∧
    tree_inv P (rd_view t') (TLeaf zero_hash zero_hash) ∧ epno_of (rd_view t') = MerkleEpnoFirst ∧
    v_bk (rd_view t') = Some NewBookkeeping.
Proof.
  intros Ht Hblank HPl. pose proof Hblank as (Hn & Hl & Hr). unfold InitTreeTx.
  rewrite HashNode_ok. cbn [mbind result_bind].
  destruct (is_ok_Ok _ (hash_bps_total [])) as [bph ->]. cbn [mbind result_bind].
  set (r1 := {| r1Epno := MerkleEpnoFirst |}).
  destruct (is_ok_Ok _ (hash_root_total (NewMerkleRootWithV1 r1))) as [hash Hhash].
  destruct (HashRoot_enc _ _ Hhash) as (Hlen & raw & Hraw).
  rewrite Hhash. cbn [mbind result_bind]. rewrite Hraw. cbn [mbind result_bind].
  rewrite select_root_law, Hr, select_leaf_law, Hl by done. cbn [of_option fmap result_fmap].
  change (v_leaves (rd_view t)) with (v_leaves (rd_view t)).
  destruct (insert_leaf_law t (thash 0 (TLeaf zero_hash zero_hash)) zero_hash zero_hash MerkleEpnoFirst)
    as (t1 & Hr1 & Ht1 & Hv1); try done; [by rewrite Hl|by rewrite Hl|apply length_node_hash|].
  rewrite lookup_empty. cbn [of_option].
  change (node_hash (MerkleNodeWithLeaf {| Key := zero_hash; Value := zero_hash |}))
    with (thash 0 (TLeaf zero_hash zero_hash)).
  cbn [Key Value r1Epno r1]. rewrite Hr1. cbn [mbind result_bind].
  assert (Hnext : next_epno (rd_view t1) = MerkleEpnoFirst)
    by (unfold next_epno; rewrite Hv1; simpl; by rewrite Hr).
  destruct (insert_root_law t1 now hash raw (ph_of 0 (TLeaf zero_hash zero_hash)) None)
    as (t2 & Hr2 & Ht2 & Hv2); try done.
  { by rewrite Hnext. }
  { apply length_node_hash. }
  { unfold root_type_ok. rewrite Hv1. simpl. by rewrite Hr. }
  rewrite Hnext in Hr2, Hv2. exists t2. rewrite Hv2, Hv1. split_and!; [exact Hr2|done| |done|done].
  apply tree_inv_first; try done; [by vm_compute; repeat constructor|]. by exists r1.
Qed.

(** ** Reachable stores *)

(** The stores that a sequence of committed transactions produces from a blank one,
    with the tree they should hold.  Every insertion is accompanied by the
    requirement that the nodes of the new tree are among those hashing does not
    confuse. *)
Inductive reach : T → trie → Prop :=
  | reach_init now t t' :
      rd_ok t → blank (rd_view t) →
      P (MerkleNodeWithLeaf {| Key := zero_hash; Value := zero_hash |}) →
      InitTreeTx now t = Ok t' → reach t' (TLeaf zero_hash zero_hash)
  | reach_insert now t tr arg t' :
      reach t tr → arg_ok (rd_view t) arg → (epno_of (rd_view t) + 1 < 2 ^ 31)%Z →
      ikKey arg ∉ keys tr → (∀ n, n ∈ tnodes 0 (tinsert (ikKey arg) (ikVal arg) 0 tr) → P n) →
      insertKeyValueTryTx now t arg = Ok t' → reach t' (tinsert (ikKey arg) (ikVal arg) 0 tr)
  | reach_again now t tr arg t' :
      reach t tr → arg_ok (rd_view t) arg → ikKey arg ∈ keys tr →
      insertKeyValueTryTx now t arg = Ok t' → reach t' tr
  | reach_root now t tr time hct bk t' :
      reach t tr → hct_ok (rd_view t) (Some hct) → bk_ok (Some bk) →
      (epno_of (rd_view t) + 1 < 2 ^ 31)%Z →
      StoreRootTx now t time hct bk = Ok t' → reach t' tr
  | reach_bk t tr bk t' :
      reach t tr → bk_ok (Some bk) → UpdateBookkeeping t bk = Ok t' → reach t' tr.

Lemma reach_tree_inv t tr : reach t tr → rd_ok t ∧ tree_inv P (rd_view t) tr.
Proof.
  induction 1 as [now t t' Ht Hb HPl Hrun|now t tr arg t' _ [Ht Hinv] Harg He Hnin HP Hrun
    |now t tr arg t' _ [Ht Hinv] Harg Hin Hrun|now t tr time hct bk t' _ [Ht Hinv] Hh Hbk He Hrun
    |t tr bk t' _ [Ht Hinv] Hbk Hrun].
  - destruct (InitTree_inv now t) as (t2 & Hrun' & ? & ? & _); [done..|]. rewrite Hrun in Hrun'. by simplify_eq.
  - destruct (insert_new now t tr arg) as (t2 & Hrun' & ? & ? & _); [done..|]. rewrite Hrun in Hrun'. by simplify_eq.
  - destruct (insert_existing now t tr arg) as (t2 & Hrun' & Ht2 & Hv2); [done..|]. rewrite Hrun in Hrun'. simplify_eq.
    split; [done|]. rewrite Hv2. destruct (ikBk arg); [by apply tree_inv_set_bk|done].
  - destruct (StoreRoot_inv now t tr time hct bk) as (t2 & Hrun' & ? & ? & _); [done..|]. rewrite Hrun in Hrun'. by simplify_eq.
  - destruct (update_bk_opt t (Some bk)) as (t2 & Hrun' & Ht2 & Hv2); [done|apply Hinv|done|].
    rewrite Hrun in Hrun'. simplify_eq. split; [done|]. rewrite Hv2. by apply tree_inv_set_bk.
Qed.

(** C23: every store that initialisation, insertions, root refreshes and
    bookkeeping updates produce holds the tree of the inserted pairs: the tree is
    well formed, each of its nodes and leaves is in the tables under its hash, the
    latest root points to it, and every epoch up to the latest has a root hash. *)
Theorem reachable_stores_hold_tree t tr :
  reach t tr → rd_ok t ∧ trie_wf [] tr ∧ stored (rd_view t) 0 tr ∧
  ∃ rt, v_root (rd_view t) = Some rt ∧ RootNode rt = ph_of 0 tr ∧
    ∀ e, (1 ≤ e ≤ Epno rt)%Z → is_Some (v_hashes (rd_view t) !! e).
Proof.
  intros [Ht [Hwf Hst _ _ _ _ (rt & Hrt & Hroot & _ & _ & Hup)]]%reach_tree_inv.
  split_and!; [done..|]. exists rt. split_and!; [done..|]. intros e He. apply Hup. lia.
Qed.

(** C29: the root node hash is a function of the set of pairs in the tree: two
    histories of insertions, in any order and interleaved with root refreshes,
    that end with the same pairs end with the same root node. *)
Theorem root_hash_determined_by_contents t1 tr1 t2 tr2 rt1 rt2 :
  reach t1 tr1 → reach t2 tr2 → (∀ kv, kv ∈ contents tr1 ↔ kv ∈ contents tr2) →
  v_root (rd_view t1) = Some rt1 → v_root (rd_view t2) = Some rt2 → RootNode rt1 = RootNode rt2.
Proof.
  intros [_ [Hwf1 _ _ _ _ _ (r1 & Hr1 & Hn1 & _)]]%reach_tree_inv
         [_ [Hwf2 _ _ _ _ _ (r2 & Hr2 & Hn2 & _)]]%reach_tree_inv Heq E1 E2.
  simplify_eq. rewrite Hn1, Hn2. by rewrite (trie_canonical [] tr1 tr2).
Qed.
End refine.
