(* ===== verification/MerkleVerify.v ===== *)
(** * The client's path verification

    [Verify], [VerifyPresence], [VerifyAbsence] and [verifyPath] of
    [lib/merkle/client.go].  Soundness: a path the client accepts against a root
    tells the truth about the trie under that root.  Completeness: the path the
    engine looks up and compresses is accepted, with the right answer. *)
From S2P Require Import Prelude Bits SkipPointers MerkleTypes MerkleTrie MerkleStorage MerkleEngine MerkleLookup MerkleInsert MerkleRefine.

Definition edgeLen : Z := 33.

Section verify.
Context `{Codec}.

(** The first loop: the interior nodes along the path, each with its sibling set
    and the other child still empty, and the bit cursor behind the last one.  It
    consumes [edgeLen] bytes per turn. *)
Fixpoint unpack_path (fuel : nat) (keyBytes bytePath : bytes) (bitCursor : Z)
    : result (list MerkleInteriorNode * Z) :=
  match fuel with
  | O => Err OutOfFuel
  | S fuel' =>
      if (len bytePath <=? 0)%Z then Ok ([], bitCursor)
      else if (len bytePath <? edgeLen)%Z
      then Err (MerkleVerifyError "bad path, needs to be a multiple of 33 bytes")
      else
        prefixLen ← index bytePath 0;
        prfx ← CopyAndClamp keyBytes bitCursor prefixLen;
        pb ← of_option (MerkleVerifyError "key bit offset overflow") prfx;
        let inode := {| PrefixBitStart := wrap64 bitCursor; PrefixBitCount := wrap64 prefixLen;
                        nPrefix := pb; nLeft := zero_hash; nRight := zero_hash |} in
        bit ← BitAt keyBytes (bitCursor + prefixLen);
        let tmp := slice 1 32 bytePath in
        let inode := SetChild_in inode (negb bit) tmp in
        '(path, cursor) ← unpack_path fuel' keyBytes (drop 33 bytePath) (bitCursor + prefixLen + 1);
        Ok (inode :: path, cursor)
  end.

(** The node at the end of the path, and the key found there if it is another one. *)
Definition terminal_node (term : MerklePathTerminal) (key : bytes) (bitCursor : Z)
    : result (MerkleNode * option bytes) :=
  complete ← GetLeaf term;
  match complete with
  | false =>
      inc ← TerminalFalse term;
      let n := NodeAtPrefixMiss inc in
      match AssertKeyMatch key (nPrefix n) bitCursor (wrap_int (PrefixBitCount n)) with
      | Err (BitPrefixMatchError _) => Ok (MerkleNodeWithNode n, None)
      | Err GoPanic => Err GoPanic
      | _ => Err (MerkleVerifyError "we matched up to last interior node but server claimed otherwise")
      end
  | true =>
      ptl ← TerminalTrue term;
      Ok (MerkleNodeWithLeaf {| Key := default key (FoundKey ptl); Value := ptlLeaf ptl |},
          FoundKey ptl)
  end.

(** The second loop, from the last node to the first. *)
Fixpoint fold_path (path : list MerkleInteriorNode) (lastHash : bytes) : result bytes :=
  match path with
  | [] => Ok lastHash
  | curr :: path' =>
      h ← fold_path path' lastHash;
      HashNode (MerkleNodeWithNode (SetEmpty curr h))
  end.

Definition verifyPath (p : MerklePathCompressed) (key : bytes) : result () :=
  '(path, bitCursor) ← unpack_path (S (length (pcPath p))) key (pcPath p) 0;
  '(last, foundKey) ← terminal_node (pcTerminal p) key bitCursor;
  lastHash ← HashNode last;
  lastHash ← fold_path path lastHash;
  v ← GetV (pcRoot p);
  _ ← guard_err (negb (v =? MerkleRootVersion_V1)%Z)
        (VersionNotSupportedError "got merkle root from the future");
  rv1 ← V1 (pcRoot p);
  _ ← guard_err (negb (bool_decide (r1RootNode rv1 = lastHash)))
        (MerkleVerifyError "failed to match root node hash");
  match foundKey with
  | None => Ok ()
  | Some fk =>
      _ ← guard_err (bool_decide (fk = key))
            (MerkleVerifyError "found key was the same as our key, and it should not have been");
      AssertKeyMatch fk key 0 bitCursor
  end.

Definition VerifyAbsence (p : MerklePathCompressed) (key : bytes) : result () :=
  found ← KeyWasFound (pcTerminal p);
  _ ← guard_err found (MerkleVerifyError "server claimed key was in tree");
  verifyPath p key.

Definition VerifyPresence (p : MerklePathCompressed) (key : bytes) : result bytes :=
  found ← KeyWasFound (pcTerminal p);
  _ ← guard_err (negb found) (MerkleVerifyError "server claimed key was not in tree");
  _ ← verifyPath p key;
  which ← GetLeaf (pcTerminal p);
  _ ← guard_err (negb which) (MerkleVerifyError "expected a leaf at the end of the path");
  ptl ← TerminalTrue (pcTerminal p);
  Ok (ptlLeaf ptl).

Definition Verify (p : MerklePathCompressed) (key : bytes) (present : bool)
    : result (option bytes) :=
  if present then Some <$> VerifyPresence p key else _ ← VerifyAbsence p key; Ok None.

(** ** Unpacking terminates *)
Lemma unpack_path_total fuel key bp bc :
  length bp < fuel → unpack_path fuel key bp bc ≠ Err OutOfFuel.
Proof.
  revert bp bc. induction fuel as [|fuel IH]; intros bp bc Hf; [lia|]. cbn [unpack_path].
  destruct (len bp <=? 0)%Z eqn:?; [done|]. destruct (len bp <? edgeLen)%Z eqn:?; [done|].
  destruct (index bp 0) as [x|e] eqn:Hx; cbn [mbind result_bind].
  2:{ unfold index, of_option in Hx. repeat case_match; naive_solver. }
  destruct (CopyAndClamp key bc x) as [[pb|]|e] eqn:Hc; cbn [of_option mbind result_bind]; [|done|].
  2:{ unfold CopyAndClamp, slice_go in Hc. repeat (case_match; simplify_eq/=); try done; naive_solver. }
  pose proof (BitAt_fuel key (bc + x)) as Hb.
  destruct (BitAt key (bc + x)) as [b|e]; cbn [mbind result_bind]; [|naive_solver].
  specialize (IH (drop 33 bp) (bc + x + 1)%Z).
  destruct (unpack_path fuel key (drop 33 bp) (bc + x + 1)) as [[]|e]; cbn [mbind result_bind]; [done|].
  intros [= ->]. apply IH; [|done]. rewrite length_drop. unfold len in *. lia.
Qed.
End verify.

(** ** Soundness *)
Section sound.
Context `{Codec} `{!HashTotal} (P : MerkleNode → Prop) (Hcf : coll_free P).
(** [SetEmpty] takes an all-zero hash for a missing child. *)
Context (Hnz : ∀ n, P n → node_hash n ≠ zero_hash).
Context (key : bytes) (Hk : length key = 32) (Hok : bytes_ok key).

(** The nodes the second loop hashes. *)
Fixpoint fold_nodes (path : list MerkleInteriorNode) (lastHash : bytes) : list MerkleNode :=
  match path with
  | [] => []
  | curr :: path' =>
      match fold_path path' lastHash with
      | Ok h => MerkleNodeWithNode (SetEmpty curr h) :: fold_nodes path' lastHash
      | Err _ => []
      end
  end.

(** All nodes the verifier hashes for a path. *)
Definition verifier_nodes (p : MerklePathCompressed) : list MerkleNode :=
  match unpack_path (S (length (pcPath p))) key (pcPath p) 0 with
  | Ok (path, cursor) =>
      match terminal_node (pcTerminal p) key cursor with
      | Ok (last, _) => last :: fold_nodes path (node_hash last)
      | Err _ => []
      end
  | Err _ => []
  end.

(** One unpacked edge that hashes to a subtree: the subtree is a node whose prefix
    the key matches, and the rest of the path hashes to the child on its side. *)
Lemma edge_sound pre t x pb b tmp h :
  trie_wf pre t → pre `prefix_of` bits key → (0 ≤ x)%Z →
  (∀ n, n ∈ tnodes (length pre) t → P n) →
  CopyAndClamp key (Z.of_nat (length pre)) x = Ok (Some pb) →
  BitAt key (Z.of_nat (length pre) + x) = Ok b →
  MerkleNodeWithNode (SetEmpty (SetChild_in
    {| PrefixBitStart := wrap64 (Z.of_nat (length pre)); PrefixBitCount := wrap64 x;
       nPrefix := pb; nLeft := zero_hash; nRight := zero_hash |} (negb b) tmp) h)
    = tproto (length pre) t →
  ∃ p l r, t = TNode p l r ∧ x = len p ∧ b = bit_of key (length pre + length p) ∧
    mismatch p (drop (length pre) (bits key)) = None ∧
    h = thash (S (length pre + length p)) (child b l r).
Proof.
  intros Hwf Hp Hx HP Hcc Hbit Heq. pose proof (BitAt_ok _ _ _ Hbit) as Hlt. unfold len in Hlt.
  rewrite Hk in Hlt. replace x with (Z.of_nat (Z.to_nat x)) in * by lia.
  set (c := Z.to_nat x) in *. clearbody c. clear Hx.
  rewrite CopyAndClamp_spec in Hcc by (done || lia). injection Hcc as <-.
  rewrite <- Nat2Z.inj_add, BitAt_spec in Hbit. apply of_option_Ok in Hbit.
  destruct t as [|p l r]; [done|]. exists p, l, r. split; [done|].
  assert (∃ lft rgt, SetEmpty (SetChild_in
    {| PrefixBitStart := wrap64 (Z.of_nat (length pre)); PrefixBitCount := wrap64 (Z.of_nat c);
       nPrefix := canon (length pre) (slice (length pre) c (bits key));
       nLeft := zero_hash; nRight := zero_hash |} (negb b) tmp) h =
    {| PrefixBitStart := wrap64 (Z.of_nat (length pre)); PrefixBitCount := wrap64 (Z.of_nat c);
       nPrefix := canon (length pre) (slice (length pre) c (bits key));
       nLeft := lft; nRight := rgt |} ∧ (if b then rgt = h else lft = h ∨ lft = zero_hash))
    as (lft & rgt & Hn & Hside).
  { destruct b; simpl; [by eauto|]. unfold SetEmpty. simpl. destruct (IsEmpty tmp); simpl; eauto 10. }
  rewrite Hn in Heq. simpl in Heq. injection Heq as _ Hc Hpre Hl Hr.
  assert (wrap64 (Z.of_nat c) = Z.of_nat c) as Hw by (unfold wrap64; apply Z.mod_small; lia).
  rewrite Hw in Hc. assert (c = length p) as -> by (unfold len in Hc; lia).
  assert (slice (length pre) (length p) (bits key) = p) as Hsl.
  { apply (canon_inj (length pre)); [|done]. rewrite length_slice, length_bits32 by done. lia. }
  split_and!; [done|unfold bit_of; by rewrite Hbit| |].
  - rewrite <- mismatch_slice, Hsl, mismatch_refl; [done|]. rewrite length_bits32 by done. lia.
  - destruct b; simpl in *; [congruence|]. destruct Hside as [<-|Hz]; [done|].
    exfalso. rewrite Hz, thash_tproto in Hl. apply (Hnz (tproto (S (length pre + length p)) l)).
    + apply HP. simpl. pose proof (tproto_in_tnodes (S (length pre + length p)) l). set_solver.
    + done.
Qed.

Lemma path_sound fuel bp pre t path cursor lst :
  unpack_path fuel key bp (Z.of_nat (length pre)) = Ok (path, cursor) → bytes_ok bp →
  trie_wf pre t → pre `prefix_of` bits key →
  fold_path path (node_hash lst) = Ok (thash (length pre) t) →
  (∀ n, n ∈ fold_nodes path (node_hash lst) → P n) →
  (∀ n, n ∈ tnodes (length pre) t → P n) →
  ∃ pre' t', cursor = Z.of_nat (length pre') ∧ trie_wf pre' t' ∧ pre' `prefix_of` bits key ∧
    tget key (length pre) t = tget key (length pre') t' ∧ node_hash lst = thash (length pre') t' ∧
    (∀ n, n ∈ tnodes (length pre') t' → P n).
Proof.
  revert bp pre t path cursor. induction fuel as [|fuel IH]; intros bp pre t path cursor Hun Hbp
    Hwf Hp Hfold HPf HPt; [done|]. cbn [unpack_path] in Hun.
  destruct (len bp <=? 0)%Z eqn:Hbp0.
  { simplify_eq/=. exists pre, t. naive_solver. }
  destruct (len bp <? edgeLen)%Z; [done|]. inv_ok.
  rename select (index bp 0 = Ok _) into Hx. rename select (CopyAndClamp _ _ _ = _) into Hcc.
  rename select (BitAt _ _ = _) into Hbit. case_match; simplify_eq/=. inv_ok.
  rename select (unpack_path _ _ _ _ = _) into Hun.
  rename select (fold_path _ _ = _) into Hf. rewrite Hf in HPf.
  match type of Hbit with _ = Ok ?b => rename b into bit end.
  match type of Hx with _ = Ok ?c => rename c into cnt end.
  assert (0 ≤ cnt)%Z as Hcnt.
  { unfold index in Hx. case_match; [|done]. apply of_option_Ok in Hx.
    eapply Forall_lookup_1 in Hx; [|exact Hbp]. unfold byte_ok in Hx. lia. }
  rewrite HashNode_ok in Hfold. injection Hfold as Hfold. rewrite thash_tproto in Hfold.
  apply (node_hash_inj P) in Hfold; [|done|apply HPf; set_solver|apply HPt, tproto_in_tnodes].
  destruct (edge_sound _ _ _ _ _ _ _ Hwf Hp Hcnt HPt Hcc Hbit Hfold)
    as (p & lt & rt & -> & -> & Hb & Hm & ->).
  pose proof (trie_wf_node_depth _ _ _ _ Hwf) as Hd.
  pose proof (step_prefix _ _ _ Hk Hd Hp Hm) as Hpb. rewrite <- Hb in Hpb.
  replace (Z.of_nat (length pre) + len p + 1)%Z with (Z.of_nat (length (pre ++ p ++ [bit])))
    in Hun by (rewrite length_step; unfold len; lia).
  destruct (IH _ _ (child bit lt rt) _ _ Hun) as (pre' & t' & Hc & Hw & Hpp & Hget & Hlst & HPt').
  - by apply bytes_ok_drop.
  - by apply trie_wf_child.
  - done.
  - by rewrite length_step.
  - intros n Hn. apply HPf. set_solver.
  - rewrite length_step. intros n Hn. apply HPt. simpl. destruct bit; simpl in Hn; set_solver.
  - exists pre', t'. split_and!; try done. rewrite <- Hget, length_step. simpl. rewrite Hm, <- Hb.
    by destruct bit.
Qed.

(** What a terminal claims about the key. *)
Definition claimed (term : MerklePathTerminal) : option bytes :=
  ptl ← tF1 term; match FoundKey ptl with None => Some (ptlLeaf ptl) | Some _ => None end.

(** The node at the end of the path decides the lookup in the subtree it hashes to. *)
Lemma terminal_sound term pre t lst fk :
  terminal_node term key (Z.of_nat (length pre)) = Ok (lst, fk) →
  trie_wf pre t → pre `prefix_of` bits key → lst = tproto (length pre) t → fk ≠ Some key →
  tget key (length pre) t = if tLeaf term then claimed term else None.
Proof.
  intros Hterm Hwf Hp Hl Hfk. unfold terminal_node, GetLeaf in Hterm.
  destruct (tLeaf term) eqn:HL; inv_ok.
  - unfold TerminalTrue in *. inv_ok. rename select (tF1 term = Some _) into H1.
    unfold claimed. rewrite H1. simpl.
    rename select (_ = tproto _ _) into Hl. rename select MerklePathToLeaf into ptl.
    destruct t as [k' v'|]; [|done]. injection Hl as <- <-. simpl.
    destruct (FoundKey ptl); simpl; case_decide; naive_solver.
  - unfold TerminalFalse in *. inv_ok. rename select MerklePathIncomplete into inc.
    destruct (AssertKeyMatch _ _ _ _) as [|e] eqn:Hak; [done|]. destruct e; simplify_eq/=.
    rename select (_ = tproto _ _) into Hl. destruct t as [|p l r]; [done|]. injection Hl as Hn. rewrite Hn in Hak. simpl in Hak.
    pose proof (trie_wf_node_depth _ _ _ _ Hwf) as Hd.
    replace (wrap_int (len p)) with (len p) in Hak by (unfold wrap_int, len; rewrite Z.mod_small; lia).
    destruct (decide (p = [])) as [->|Hne]; [done|].
    unfold len in Hak. rewrite AssertKeyMatch_spec in Hak;
      [|done|apply canon_ok|rewrite Hk; lia|by apply length_canon|rewrite Hk; lia].
    rewrite bits_canon, mismatch_slice in Hak by (rewrite length_bits32 by done; lia).
    cbn [tget]. by destruct (mismatch p (drop (length pre) (bits key))).
Qed.

Lemma verifyPath_sound p t r1 :
  verifyPath p key = Ok () → rF1 (pcRoot p) = Some r1 → r1RootNode r1 = thash 0 t →
  trie_wf [] t → bytes_ok (pcPath p) → (∀ n, n ∈ tnodes 0 t → P n) →
  (∀ n, n ∈ verifier_nodes p → P n) →
  tget key 0 t = if tLeaf (pcTerminal p) then claimed (pcTerminal p) else None.
Proof.
  intros Hv Hr1 Hroot Hwf Hbp HPt HPv. unfold verifyPath, verifier_nodes in *.
  destruct (unpack_path _ _ _ _) as [[path cursor]|] eqn:Hun; [|done]. cbn [mbind result_bind] in Hv.
  destruct (terminal_node _ _ _) as [[lst fk]|] eqn:Hterm; [|done]. cbn [mbind result_bind] in Hv.
  rewrite HashNode_ok in Hv. cbn [mbind result_bind] in Hv.
  destruct (fold_path path (node_hash lst)) as [h|] eqn:Hfold; [|done]. cbn [mbind result_bind] in Hv.
  apply bind_Ok in Hv as (v & _ & Hv). apply bind_Ok in Hv as (u1 & _ & Hv).
  apply bind_Ok in Hv as (rv1 & HV1 & Hv). apply bind_Ok in Hv as (u2 & Heq & Hv).
  unfold V1 in HV1. rewrite Hr1 in HV1. cbn [of_option mbind result_bind] in HV1.
  apply bind_Ok in HV1 as (u3 & _ & [= <-]).
  apply guard_err_Ok, negb_false_iff, bool_decide_eq_true in Heq.
  assert (fk ≠ Some key) as Hfk.
  { intros ->. rewrite bool_decide_eq_true_2 in Hv by done. done. }
  rewrite <- Heq, Hroot in Hfold.
  destruct (path_sound _ _ [] t _ _ _ Hun Hbp Hwf (prefix_nil _) Hfold)
    as (pre' & t' & -> & Hw & Hp & Hget & Hlst & HPt'); [intros; apply HPv; set_solver|done|].
  simpl in Hget. rewrite Hget. eapply terminal_sound; [done..| |done].
  apply (node_hash_inj P); [done|apply HPv; set_solver|apply HPt', tproto_in_tnodes|].
  by rewrite Hlst, thash_tproto.
Qed.
Lemma VerifyPresence_tget p t r1 v :
  VerifyPresence p key = Ok v → rF1 (pcRoot p) = Some r1 → r1RootNode r1 = thash 0 t →
  trie_wf [] t → bytes_ok (pcPath p) → (∀ n, n ∈ tnodes 0 t → P n) →
  (∀ n, n ∈ verifier_nodes p → P n) → tget key 0 t = Some v.
Proof.
  intros Hver Hr1 Hroot Hwf Hbp HPt HPv. unfold VerifyPresence in Hver.
  apply bind_Ok in Hver as (found & Hfound & Hver). apply bind_Ok in Hver as (u1 & Hf & Hver).
  apply bind_Ok in Hver as ([] & Hpath & Hver). apply guard_err_Ok, negb_false_iff in Hf. subst found.
  rewrite (verifyPath_sound p t r1 Hpath Hr1 Hroot Hwf Hbp HPt HPv).
  unfold KeyWasFound, GetLeaf in *. unfold claimed.
  destruct (tLeaf (pcTerminal p)) eqn:HL; inv_ok. unfold TerminalTrue in *. rewrite HL in *. inv_ok.
  rename select (tF1 _ = Some _) into H1. rewrite H1. simpl.
  rename select (bool_decide _ = true) into Hfk. apply bool_decide_eq_true in Hfk. by rewrite Hfk.
Qed.

Lemma VerifyAbsence_tget p t r1 :
  VerifyAbsence p key = Ok () → rF1 (pcRoot p) = Some r1 → r1RootNode r1 = thash 0 t →
  trie_wf [] t → bytes_ok (pcPath p) → (∀ n, n ∈ tnodes 0 t → P n) →
  (∀ n, n ∈ verifier_nodes p → P n) → tget key 0 t = None.
Proof.
  intros Hver Hr1 Hroot Hwf Hbp HPt HPv. unfold VerifyAbsence in Hver.
  apply bind_Ok in Hver as (found & Hfound & Hver). apply bind_Ok in Hver as (u1 & Hf & Hpath).
  apply guard_err_Ok in Hf. subst found.
  rewrite (verifyPath_sound p t r1 Hpath Hr1 Hroot Hwf Hbp HPt HPv).
  unfold KeyWasFound, GetLeaf in *. unfold claimed in *.
  destruct (tLeaf (pcTerminal p)) eqn:HL; inv_ok; [|done]. unfold TerminalTrue in *. rewrite HL in *. inv_ok.
  rename select (tF1 _ = Some _) into H1. rewrite H1. simpl.
  rename select (bool_decide _ = false) into Hfk. apply bool_decide_eq_false in Hfk.
  by destruct (FoundKey _).
Qed.
End sound.

(** C9: soundness of presence.  A value the client accepts for a key against a
    root is the value of that key in the tree under the root: the server cannot
    make it accept another one.  The hypotheses say that hashing confuses no two
    of the nodes involved (those of the tree and those the verifier hashes) and
    gives none of them the all-zero hash, which stands for a missing child. *)
Theorem VerifyPresence_sound `{Codec} `{!HashTotal} P p key t r1 v :
  coll_free P → (∀ n, P n → node_hash n ≠ zero_hash) →
  (∀ n, n ∈ tnodes 0 t → P n) → (∀ n, n ∈ verifier_nodes key p → P n) →
  length key = 32 → bytes_ok key → bytes_ok (pcPath p) → trie_wf [] t →
  rF1 (pcRoot p) = Some r1 → r1RootNode r1 = thash 0 t →
  VerifyPresence p key = Ok v → (key, v) ∈ contents t.
Proof.
  intros Hcf Hnz HPt HPv Hk Hok Hbp Hwf Hr1 Hroot Hver.
  apply (tget_spec []); [done..|apply prefix_nil|]. by eapply (VerifyPresence_tget P).
Qed.

(** C11: soundness of absence.  If the client accepts that a key is not in the tree
    under a root, then it is not. *)
Theorem VerifyAbsence_sound `{Codec} `{!HashTotal} P p key t r1 :
  coll_free P → (∀ n, P n → node_hash n ≠ zero_hash) →
  (∀ n, n ∈ tnodes 0 t → P n) → (∀ n, n ∈ verifier_nodes key p → P n) →
  length key = 32 → bytes_ok key → bytes_ok (pcPath p) → trie_wf [] t →
  rF1 (pcRoot p) = Some r1 → r1RootNode r1 = thash 0 t →
  VerifyAbsence p key = Ok () → key ∉ keys t.
Proof.
  intros Hcf Hnz HPt HPv Hk Hok Hbp Hwf Hr1 Hroot Hver.
  intros ([k v] & Heq & Hin)%list_elem_of_fmap. simpl in Heq. subst k.
  apply (tget_spec []) in Hin; [|done..|apply prefix_nil]. simpl in Hin.
  pose proof (VerifyAbsence_tget P Hcf Hnz key Hk Hok p t r1 Hver Hr1 Hroot Hwf Hbp HPt HPv). congruence.
Qed.

(** ** Completeness *)
Section complete.
Context `{Codec} `{!HashTotal}.
Context (key : bytes) (Hk : length key = 32) (Hok : bytes_ok key).

(** [compressPath], extended to the empty path of a walk that starts at a leaf. *)
Definition compress_from (path : list LookupPathNode) (leaf : option LookupLeaf)
    : result (bytes * MerklePathTerminal) :=
  match path, leaf with
  | [], Some lf => Ok ([], NewMerklePathTerminalWithTrue
      {| ptlLeaf := Value (llLeaf lf);
         FoundKey := if Matches lf then None else Some (Key (llLeaf lf)) |})
  | _, _ => compressPath path leaf
  end.

Lemma compress_cons x path leaf e :
  compress_edge x = Ok e → (BitCount (Prefix (lpNode x)) ≤ KeyBitsMatched x)%Z →
  (leaf = None → path ≠ []) →
  compressPath (x :: path) leaf = '(bs, term) ← compress_from path leaf; Ok (e ++ bs, term).
Proof.
  intros He Hx Hne. unfold compress_from. destruct path as [|y path].
  - destruct leaf as [lf|]; [|by destruct Hne]. unfold compressPath. simpl last.
    cbn [of_option mbind result_bind].
    replace (KeyBitsMatched x <? BitCount (Prefix (lpNode x)))%Z with false by lia.
    cbn [mbind result_bind mapM_r]. rewrite He. done.
  - replace (match leaf with Some _ | _ => compressPath (y :: path) leaf end)
      with (compressPath (y :: path) leaf) by by destruct leaf.
    unfold compressPath. rewrite last_cons_cons.
    destruct (last (y :: path)) as [l|]; [|done]. cbn [of_option mbind result_bind].
    destruct (KeyBitsMatched l <? BitCount (Prefix (lpNode l)))%Z.
    + destruct (BuildNode (lpNode l)); [|done]. cbn [mbind result_bind].
      replace (take (length (x :: y :: path) - 1) (x :: y :: path))
        with (x :: take (length (y :: path) - 1) (y :: path)) by (simpl; by rewrite Nat.sub_0_r).
      cbn [mapM_r]. rewrite He. cbn [mbind result_bind].
      by destruct (mapM_r compress_edge (take (length (y :: path) - 1) (y :: path))).
    + cbn [mbind result_bind]. cbn [mapM_r]. rewrite He. cbn [mbind result_bind].
      destruct (compress_edge y); [|done]. cbn [mbind result_bind].
      by destruct (mapM_r compress_edge path).
Qed.

Lemma IsEmpty_zero h : length h = 32 → IsEmpty h = true → h = zero_hash.
Proof.
  intros Hl He. unfold zero_hash. rewrite <- Hl. clear Hl.
  induction h as [|x h IH]; [done|]. simpl in *.
  destruct (Z.eqb_spec x 0) as [->|]; [|done]. f_equal. by apply IH.
Qed.

(** One edge of a compressed path unpacks to the node it came from. *)
Lemma unpack_edge fuel d p l r b bs :
  d + length p < 256 → mismatch p (drop d (bits key)) = None → b = bit_of key (d + length p) →
  unpack_path (S fuel) key
    ((wrap8 (len p) :: thash (S (d + length p)) (child (negb b) l r)) ++ bs) (Z.of_nat d) =
  ('(path, cursor) ← unpack_path fuel key bs (Z.of_nat (S (d + length p)));
   Ok (SetChild_in {| PrefixBitStart := Z.of_nat d; PrefixBitCount := len p; nPrefix := canon d p;
                      nLeft := zero_hash; nRight := zero_hash |} (negb b)
         (thash (S (d + length p)) (child (negb b) l r)) :: path, cursor)).
Proof.
  intros Hd Hm Hb. cbn [unpack_path]. set (h := thash _ (child _ l r)).
  assert (length h = 32) as Hh by apply length_thash.
  assert (len ((wrap8 (len p) :: h) ++ bs) = 33 + len bs)%Z as ->.
  { unfold len. rewrite length_app. simpl. rewrite Hh. lia. }
  unfold edgeLen. replace (33 + len bs <=? 0)%Z with false by (unfold len; lia).
  replace (33 + len bs <? 33)%Z with false by (unfold len; lia).
  rewrite (index_Some _ _ (wrap8 (len p))) by done. cbn [mbind result_bind].
  replace (wrap8 (len p)) with (Z.of_nat (length p)) by (unfold wrap8, len; rewrite Z.mod_small; lia).
  rewrite CopyAndClamp_spec by (done || rewrite Hk; lia). cbn [of_option mbind result_bind].
  assert (slice d (length p) (bits key) = p) as ->.
  { apply mismatch_None; [rewrite length_slice, length_bits32 by done; lia|].
    rewrite mismatch_slice; [done|]. rewrite length_bits32 by done. lia. }
  rewrite <- Nat2Z.inj_add, BitAt_spec, bits_lookup_bit_of by (rewrite length_bits32 by done; lia).
  cbn [of_option mbind result_bind]. rewrite <- Hb.
  replace (Z.of_nat (d + length p) + 1)%Z with (Z.of_nat (S (d + length p))) by lia.
  replace (drop 33 _) with bs; [|simpl; by rewrite drop_app_length'].
  assert (∀ x, slice 1 32 ((x :: h) ++ bs) = h) as ->.
  { intros x. unfold slice. change (drop 1 ((x :: h) ++ bs)) with (h ++ bs).
    by rewrite take_app_length'. }
  unfold len. unfold wrap64. rewrite !Z.mod_small by lia. done.
Qed.

Lemma SetEmpty_edge d p l r b h :
  (b = false → IsEmpty (thash (S (d + length p)) r) = false) →
  h = thash (S (d + length p)) (child b l r) →
  MerkleNodeWithNode (SetEmpty (SetChild_in
    {| PrefixBitStart := Z.of_nat d; PrefixBitCount := len p; nPrefix := canon d p;
       nLeft := zero_hash; nRight := zero_hash |} (negb b)
      (thash (S (d + length p)) (child (negb b) l r))) h) = tproto d (TNode p l r).
Proof.
  intros Hz ->. destruct b; simpl; [done|]. unfold SetEmpty. simpl. by rewrite Hz.
Qed.

(** [term] at [cursor] is accepted and hashes to the subtree [t] at bit [d]. *)
Definition accepted (d : nat) (t : trie) (bs : bytes) (term : MerklePathTerminal) : Prop :=
  ∃ inodes cursor lst fk,
    (∀ fuel, length bs < fuel → unpack_path fuel key bs (Z.of_nat d) = Ok (inodes, cursor)) ∧
    terminal_node term key cursor = Ok (lst, fk) ∧
    fold_path inodes (node_hash lst) = Ok (thash d t) ∧
    (∀ f, fk = Some f → f ≠ key ∧ AssertKeyMatch f key 0 cursor = Ok ()) ∧
    KeyWasFound term = Ok (bool_decide (is_Some (tget key d t))) ∧
    ∀ v, tget key d t = Some v → tLeaf term = true ∧ ptlLeaf <$> tF1 term = Some v.

Lemma accepted_leaf pre k' v m :
  trie_wf pre (TLeaf k' v) → pre `prefix_of` bits key → m = bool_decide (key = k') →
  accepted (length pre) (TLeaf k' v) []
    (NewMerklePathTerminalWithTrue {| ptlLeaf := v; FoundKey := if m then None else Some k' |}).
Proof.
  intros (Hk' & Hok' & _ & Hp') Hp ->. unfold accepted.
  eexists [], (Z.of_nat (length pre)), _, _. split_and!.
  - intros fuel Hf. destruct fuel; [simpl in Hf; lia|done].
  - done.
  - simpl. case_bool_decide; by subst.
  - intros f. case_bool_decide; [done|]. intros [= <-]. split; [done|].
    change 0%Z with (Z.of_nat 0).
    pose proof (prefix_length _ _ Hp) as Hl. rewrite length_bits32 in Hl by done.
    rewrite AssertKeyMatch_spec by (done || rewrite ?Hk, ?Hk'; simpl; lia).
    replace (0 mod 8) with 0 by done. unfold slice. rewrite !drop_0, !prefix_take_eq by done.
    by rewrite mismatch_refl.
  - unfold KeyWasFound. simpl. case_bool_decide; case_decide; try done.
  - simpl. intros v'. case_decide; [|done]. by intros [= <-].
Qed.

Lemma accepted_miss pre p l r np q :
  trie_wf pre (TNode p l r) → mismatch p (drop (length pre) (bits key)) = Some q →
  MerkleNodeWithNode np = tproto (length pre) (TNode p l r) →
  accepted (length pre) (TNode p l r) []
    (NewMerklePathTerminalWithFalse {| NodeAtPrefixMiss := np |}).
Proof.
  intros Hwf Hm Hnp. pose proof (trie_wf_node_depth _ _ _ _ Hwf) as Hd. simpl in Hnp.
  injection Hnp as ->. unfold accepted.
  eexists [], (Z.of_nat (length pre)), _, None. split_and!.
  - intros fuel Hf. destruct fuel; [simpl in Hf; lia|done].
  - unfold terminal_node. simpl.
    replace (wrap_int (len p)) with (len p) by (unfold wrap_int, len; rewrite Z.mod_small; lia).
    assert (p ≠ []) as Hne by (by intros ->). unfold len. rewrite AssertKeyMatch_spec;
      [|done|apply canon_ok|rewrite Hk; lia|by apply length_canon|rewrite Hk; lia].
    rewrite bits_canon, mismatch_slice, Hm by (rewrite length_bits32 by done; lia). done.
  - simpl. done.
  - done.
  - cbn [tget]. rewrite Hm. done.
  - cbn [tget]. rewrite Hm. done.
Qed.

Lemma accepted_step pre p l r b bs term :
  trie_wf pre (TNode p l r) → mismatch p (drop (length pre) (bits key)) = None →
  b = bit_of key (length pre + length p) → node_hash (tproto (S (length pre + length p)) r) ≠ zero_hash →
  accepted (S (length pre + length p)) (child b l r) bs term →
  accepted (length pre) (TNode p l r)
    ((wrap8 (len p) :: thash (S (length pre + length p)) (child (negb b) l r)) ++ bs) term.
Proof.
  intros Hwf Hm Hb Hnz (inodes & cursor & lst & fk & Hun & Hterm & Hfold & Hfk & Hfound & Hval).
  pose proof (trie_wf_node_depth _ _ _ _ Hwf) as Hd.
  assert (Hget : tget key (length pre) (TNode p l r) =
                 tget key (S (length pre + length p)) (child b l r)).
  { cbn [tget]. rewrite Hm, <- Hb. by destruct b. }
  unfold accepted. rewrite Hget. eexists _, cursor, lst, fk. split_and!; try done.
  - intros fuel Hf. destruct fuel as [|fuel]; [lia|]. rewrite unpack_edge by done.
    rewrite Hun; [done|]. rewrite length_app in Hf. simpl in Hf. lia.
  - cbn [fold_path]. rewrite Hfold. cbn [mbind result_bind].
    rewrite (SetEmpty_edge (length pre) p l r b); [apply HashNode_ok| |done].
    intros _. apply not_true_iff_false. intros Hz. apply Hnz.
    rewrite <- thash_tproto. apply IsEmpty_zero; [apply length_thash|done].
Qed.

Lemma compress_edge_rep d p l r b n kbs kbm :
  node_rep d p l r n →
  compress_edge {| lpNode := n; Next := b; KeyBitStart := kbs; KeyBitsMatched := kbm |} =
    Ok (wrap8 (len p) :: thash (S (d + length p)) (child (negb b) l r)).
Proof.
  intros Hn. unfold compress_edge, OppositeHash. cbn [lpNode Next].
  rewrite (ph_of_child _ (negb b) _ _ _ _ Hn). simpl. by destruct Hn as ((_ & -> & _) & _).
Qed.

Lemma compress_accepted d t path leaf :
  lookup_rel key d t path leaf → ∀ pre, length pre = d → trie_wf pre t → pre `prefix_of` bits key →
  (∀ n, n ∈ tnodes d t → node_hash n ≠ zero_hash) →
  ∃ bs term, compress_from path leaf = Ok (bs, term) ∧ accepted d t bs term.
Proof.
  induction 1 as [d k' v'|d p l r n q Hn Hm|d p l r n b path leaf Hn Hm Hb Hrel IH];
    intros pre <- Hwf Hp Hnz.
  - eexists _, _. split; [done|]. simpl. by apply accepted_leaf.
  - pose proof (trie_wf_node_depth _ _ _ _ Hwf) as Hd.
    destruct (BuildNode_rep _ _ _ _ _ Hn) as (np & Hb & Hnp); [simpl; lia|].
    exists [], (NewMerklePathTerminalWithFalse {| NodeAtPrefixMiss := np |}).
    split; [|by eapply accepted_miss].
    unfold compress_from, compressPath. simpl last. cbn [of_option mbind result_bind].
    cbn [lpNode KeyBitsMatched]. pose proof (mismatch_lt _ _ _ Hm) as [Hq _].
    assert (BitCount (Prefix n) = len p) as -> by by destruct Hn as ((_ & ? & _) & _).
    replace (Z.of_nat q <? len p)%Z with true by (unfold len; lia).
    rewrite Hb. done.
  - pose proof (trie_wf_node_depth _ _ _ _ Hwf) as Hd.
    pose proof (step_prefix _ _ _ Hk Hd Hp Hm) as Hpb. rewrite <- Hb in Hpb.
    destruct (IH (pre ++ p ++ [b])) as (bs & term & Hc & Hacc);
      [apply length_step|by apply trie_wf_child|done| |].
    { intros n' Hn'. apply Hnz. simpl. destruct b; simpl in Hn'; set_solver. }
    eexists _, term. split.
    + unfold compress_from at 1. erewrite compress_cons;
        [|by eapply compress_edge_rep| |by eapply lookup_rel_nonempty].
      2:{ simpl. destruct Hn as ((_ & -> & _) & _). lia. }
      by rewrite Hc.
    + apply accepted_step; try done. apply Hnz. simpl.
      pose proof (tproto_in_tnodes (S (length pre + length p)) r). set_solver.
Qed.

(** A compressed path that is accepted verifies against a root of the tree. *)
Lemma accepted_verifies t bs term root r1 :
  accepted 0 t bs term → root = NewMerkleRootWithV1 r1 → r1RootNode r1 = thash 0 t →
  Verify {| pcRoot := root; pcPath := bs; pcTerminal := term |} key
    (bool_decide (is_Some (tget key 0 t))) = Ok (tget key 0 t).
Proof.
  intros (inodes & cursor & lst & fk & Hun & Hterm & Hfold & Hfk & Hfound & Hval) -> Hroot.
  assert (verifyPath {| pcRoot := NewMerkleRootWithV1 r1; pcPath := bs; pcTerminal := term |} key = Ok ())
    as Hver.
  { unfold verifyPath. cbn [pcPath pcTerminal pcRoot]. change 0%Z with (Z.of_nat 0) at 1.
    rewrite Hun by lia. cbn [mbind result_bind]. rewrite Hterm. cbn [mbind result_bind].
    rewrite HashNode_ok. cbn [mbind result_bind]. rewrite Hfold. simpl. rewrite Hroot.
    rewrite bool_decide_eq_true_2 by done. simpl. destruct fk as [f|]; [|done].
    destruct (Hfk f eq_refl) as [Hne Hm]. by rewrite bool_decide_eq_false_2. }
  unfold Verify, VerifyPresence, VerifyAbsence. cbn [pcTerminal]. rewrite Hfound, Hver.
  destruct (tget key 0 t) as [v|]; [|done]. destruct (Hval v eq_refl) as [HL HF].
  cbn [bool_decide]. simpl.
  unfold GetLeaf, TerminalTrue. rewrite HL. destruct (tF1 term) as [ptl|]; [|done].
  simpl in *. by simplify_eq.
Qed.
End complete.

Section end_to_end.
Context `{Codec} `{!HashTotal} `{!RootHashTotal} (P : MerkleNode → Prop) (Hcf : coll_free P).
Context {T : Type} `{StorageTransactorLaws T}.

(** Looking up several keys under one root. *)
Lemma lookupPaths_verify {R : Type} `{StorageReaderLaws R} (db : R) tr arg rt root r1 :
  rd_ok db → SelectRootForTraversal db (mlaSigned arg) (mlaRoot arg) = Ok (Some rt) →
  RootNode rt = ph_of 0 tr → stored (rd_view db) 0 tr → trie_wf [] tr →
  type_of tr = MerkleNodeType_Node → (∀ n, n ∈ tnodes 0 tr → node_hash n ≠ zero_hash) →
  dec_MerkleRoot (Body rt) = Ok root → root = NewMerkleRootWithV1 r1 → r1RootNode r1 = thash 0 tr →
  Forall (λ k, length k = 32 ∧ bytes_ok k) (mlaKeys arg) →
  ∃ res ps, lookupPathsWithLock db arg = Ok res ∧ LookupPathsRes_Compress res = Ok ps ∧ psRoot ps = root ∧
    Forall2 (λ k p, Verify {| pcRoot := root; pcPath := ppPath p; pcTerminal := ppTerminal p |} k
                      (bool_decide (is_Some (tget k 0 tr))) = Ok (tget k 0 tr)) (mlaKeys arg) (psPaths ps).
Proof.
  intros Hdb Hsel Hrt Hst Hwf Hty Hnz Hdec Hroot Hr1 Hkeys.
  assert (∃ singles pairs,
    Forall2 (λ k x, lookupPathWithLockFromRoot db k (start_node 0 tr) (start_leaf 0 tr) = Ok x) (mlaKeys arg) singles ∧
    Forall2 (λ x p, (path ← of_option GoPanic x;
      _ ← guard_err (bool_decide (length (lsPath path) = 0)) (MerkleVerifyError "empty path");
      '(bs, term) ← compressPath (lsPath path) (lsLeaf path);
      Ok {| ppPath := bs; ppTerminal := term |}) = Ok p) singles pairs ∧
    Forall2 (λ k p, Verify {| pcRoot := root; pcPath := ppPath p; pcTerminal := ppTerminal p |} k
                      (bool_decide (is_Some (tget k 0 tr))) = Ok (tget k 0 tr)) (mlaKeys arg) pairs)
    as (singles & pairs & Hsingles & Hpairs & Hver).
  { induction Hkeys as [|k ks [Hk Hok] _ (singles & pairs & IH1 & IH2 & IH3)]; [by exists [], []; split_and!; constructor|].
    destruct (lookupPathWithLockFromRoot_spec db k tr) as (path & leaf & Hrun & Hrel); [done..|].
    destruct (compress_accepted k Hk Hok _ _ _ _ Hrel []) as (bs & term & Hc & Hacc); [done|done|apply prefix_nil|done|].
    assert (path ≠ []) as Hne by (by destruct Hrel).
    eexists (_ :: singles), ({| ppPath := bs; ppTerminal := term |} :: pairs). split_and!; constructor; try done.
    - cbn [of_option mbind result_bind lsPath lsLeaf].
      rewrite bool_decide_eq_false_2 by (by intros ?%length_zero_iff_nil). cbn [guard_err mbind result_bind].
      replace (compressPath path leaf) with (compress_from path leaf) by (destruct path; [done|by destruct leaf]).
      by rewrite Hc.
    - simpl. by apply (accepted_verifies k) with r1. }
  unfold lookupPathsWithLock, LookupPathsRes_Compress. rewrite Hsel. cbn [mbind result_bind].
  rewrite Hrt. unfold ph_of at 1. cbn [phTyp]. rewrite Hty.
  replace (start_node 0 tr) with (Some (ph_of 0 tr)) in Hsingles by (by destruct tr).
  replace (start_leaf 0 tr) with (@None PrefixedHash) in Hsingles by (by destruct tr).
  rewrite (mapM_r_Forall2 _ _ _ Hsingles). cbn [mbind result_bind]. eexists _, _. split; [done|].
  cbn [lpsRootBody lpsPaths]. rewrite Hdec. cbn [mbind result_bind].
  rewrite (mapM_r_Forall2 _ _ _ Hpairs). done.
Qed.

(** C19: the server's answers are accepted.  On every reachable store whose tree
    has an interior root, the path the engine looks up for a key, compressed, is
    accepted by the client's verification with the decoded root, and the verified
    answer is the key's value in the tree, or absence. *)
Theorem served_paths_verify t tr key :
  reach P t tr → type_of tr = MerkleNodeType_Node →
  (∀ r raw, enc_MerkleRoot r = Ok raw → dec_MerkleRoot raw = Ok r) →
  (∀ n, n ∈ tnodes 0 tr → node_hash n ≠ zero_hash) → length key = 32 → bytes_ok key →
  ∃ res c present answer,
    lookupPathWithLock t {| laKey := key; laSigned := false; laRoot := None |} = Ok (Some res) ∧
    LookupPathRes_Compress res = Ok c ∧ Verify c key present = Ok answer ∧
    present = bool_decide (is_Some answer) ∧
    ∀ v, answer = Some v ↔ (key, v) ∈ contents tr.
Proof.
  intros [Ht Hinv]%(reach_tree_inv P Hcf) Hty Hdec Hnz Hk Hok.
  destruct (inv_root _ _ _ Hinv) as (rt & Hrt & Hroot & _ & (r1 & Henc & _ & Hr1) & _).
  destruct (lookupPathWithLock_spec t tr rt key) as (path & leaf & Hrun & Hrel);
    [done|done|done|apply Hinv|apply Hinv|done|done|].
  destruct (compress_accepted key Hk Hok _ _ _ _ Hrel []) as (bs & term & Hc & Hacc);
    [done|apply Hinv|apply prefix_nil|done|].
  assert (path ≠ []) as Hne by (by destruct Hrel).
  eexists _, _, _, (tget key 0 tr). split_and!; [done| | |done|].
  - unfold LookupPathRes_Compress. cbn [lrRootBody lrPath lrLeaf]. rewrite (Hdec _ _ Henc).
    cbn [mbind result_bind]. rewrite bool_decide_eq_false_2 by (by intros ?%length_zero_iff_nil).
    cbn [guard_err mbind result_bind].
    replace (compressPath path leaf) with (compress_from path leaf) by (destruct path; [done|by destruct leaf]).
    by rewrite Hc.
  - apply (accepted_verifies key) with r1; try done. by rewrite Hr1, Hroot.
  - intros v. apply (tget_spec []); [apply Hinv|done|done|apply prefix_nil].
Qed.

(** a tree of a single leaf has no path to serve: the engine finds the leaf, and
    compression reports the empty path instead of an unverifiable answer. *)
Theorem single_leaf_has_no_path t k' v' key :
  reach P t (TLeaf k' v') →
  (∀ r raw, enc_MerkleRoot r = Ok raw → dec_MerkleRoot raw = Ok r) →
  length key = 32 → bytes_ok key →
  ∃ res, lookupPathWithLock t {| laKey := key; laSigned := false; laRoot := None |} = Ok (Some res) ∧
    LookupPathRes_Compress res = Err (MerkleVerifyError "empty path").
Proof.
  intros [Ht Hinv]%(reach_tree_inv P Hcf) Hdec Hk Hok.
  destruct (inv_root _ _ _ Hinv) as (rt & Hrt & Hroot & _ & (r1 & Henc & _ & Hr1) & _).
  destruct (lookupPathWithLock_spec t (TLeaf k' v') rt key) as (path & leaf & Hrun & Hrel);
    [done|done|done|apply Hinv|apply Hinv|done|done|].
  eexists. split; [done|]. inversion Hrel; subst. unfold LookupPathRes_Compress. cbn [lrRootBody lrPath].
  by rewrite (Hdec _ _ Henc).
Qed.
End end_to_end.
