(* ===== verification/MerkleExamples.v ===== *)
(** * Concrete runs of the Merkle tree

    A small codec and hash (a polynomial over the encoding) instantiate the class
    [Codec], the SQL storage instantiates the storage interfaces, and a tree of
    three keys is built by running the engine.  The witnesses of the Merkle
    theorems apply them to this run. *)
From S2P Require Import Prelude Bits SkipPointers MerkleTypes MerkleTrie MerkleStorage MerkleSql MerkleEngine MerkleLookup MerkleInsert MerkleRefine MerkleVerify.

(** ** A codec *)
Definition poly_mod : Z := Eval vm_compute in (2 ^ 127 - 1)%Z.
Definition poly_hash (l : bytes) : bytes :=
  let h := foldl (λ acc z, (acc * 257 + z + 1) mod poly_mod)%Z 7%Z l in
  ((λ i, Z.land (Z.shiftr h (8 * Z.of_nat i)) 255) <$> seq 0 16) ++ replicate 16 0%Z.

Definition ex_enc_node (n : MerkleNode) : bytes :=
  match n with
  | MerkleNodeWithLeaf lf => 0%Z :: Key lf ++ Value lf
  | MerkleNodeWithNode n => [1%Z; PrefixBitStart n; PrefixBitCount n; len (nPrefix n)] ++
      nPrefix n ++ nLeft n ++ nRight n
  end.

Definition ex_enc_root (r : MerkleRoot) : bytes :=
  rV r :: match rF1 r with
          | None => []
          | Some r1 => [r1Epno r1; r1Time r1; Seqno (r1Hostchain r1);
                        len (r1BackPointers r1); len (r1RootNode r1)] ++
              r1BackPointers r1 ++ r1RootNode r1 ++ htHash (r1Hostchain r1)
          end.

Definition ex_dec_root (b : bytes) : result MerkleRoot :=
  match b with
  | [v] => Ok {| rV := v; rF1 := None |}
  | v :: e :: t :: s :: n :: m :: rest => Ok
      {| rV := v; rF1 := Some
           {| r1Epno := e; r1Time := t; r1BackPointers := take (Z.to_nat n) rest;
              r1RootNode := take (Z.to_nat m) (drop (Z.to_nat n) rest);
              r1Hostchain := {| Seqno := s;
                                htHash := drop (Z.to_nat m) (drop (Z.to_nat n) rest) |} |} |}
  | _ => Err (CodecError "short root")
  end.

#[global] Instance ex_codec : Codec := {|
  uid_bytes u := [u];
  sha512_256 := poly_hash;
  enc_MerkleNode n := Ok (ex_enc_node n);
  enc_MerkleRoot r := Ok (ex_enc_root r);
  enc_MerkleBackPointers bps := Ok (bps ≫= λ b, bpEpno b :: bpHash b);
  dec_MerkleRoot := ex_dec_root;
  dec_Signature b := Ok b
|}.

#[global] Instance ex_hash_total : HashTotal.
Proof. intros n. reflexivity. Qed.
#[global] Instance ex_root_hash_total : RootHashTotal.
Proof. split; intros; reflexivity. Qed.

Lemma ex_dec_enc r raw : enc_MerkleRoot r = Ok raw → dec_MerkleRoot raw = Ok r.
Proof.
  intros [= <-]. destruct r as [v [[e t bp rn [s h]]|]]; [|done]. simpl. unfold len.
  rewrite !Nat2Z.id, take_app_length, drop_app_length, take_app_length, drop_app_length. done.
Qed.

(** Collision-freeness of a finite set of nodes is decidable. *)
Definition no_collision (l : list MerkleNode) : bool :=
  let hs := (λ n, (HashNode n, n)) <$> l in
  forallb (λ x1, forallb (λ x2, implb (bool_decide (x1.1 = x2.1)) (bool_decide (x1.2 = x2.2))) hs) hs.

Lemma no_collision_sound l : no_collision l = true → coll_free (λ n, n ∈ l).
Proof.
  intros Hl n1 n2 H1 H2 Heq. unfold no_collision in Hl. cbv zeta in Hl.
  assert (∀ n, n ∈ l → In (HashNode n, n) ((λ n, (HashNode n, n)) <$> l)) as Hin.
  { intros n Hn. apply list_elem_of_In, list_elem_of_fmap. by exists n. }
  rewrite forallb_forall in Hl. specialize (Hl _ (Hin n1 H1)).
  rewrite forallb_forall in Hl. specialize (Hl _ (Hin n2 H2)). cbn [fst snd] in Hl.
  rewrite (bool_decide_eq_true_2 _ Heq) in Hl. simpl in Hl. by apply bool_decide_eq_true in Hl.
Qed.

(** ** A run of the engine *)
Definition ex_key (a b : Z) : bytes := a :: b :: replicate 30 7%Z.
Definition ex_val (a : Z) : bytes := replicate 32 a.

Definition ex_blank : Tx := {| tx := empty_db; tx_host := 1 |}.
Definition ex_arg (k v : bytes) : InsertKeyValueArg :=
  {| ikKey := k; ikVal := v; ikBk := Some {| BatchNo := 2; Pos := 0 |}; ikTime := 0;
     ikHct := Some {| Seqno := 3; htHash := replicate 32 9%Z |} |}.

Definition run_ok (r : result Tx) : Tx := match r with Ok t => t | Err _ => ex_blank end.

Definition ex_t0 : Tx := Eval vm_compute in run_ok (InitTreeTx 100 ex_blank).
Definition ex_t1 : Tx :=
  Eval vm_compute in run_ok (insertKeyValueTryTx 101 ex_t0 (ex_arg (ex_key 200 1) (ex_val 5))).
Definition ex_t2 : Tx :=
  Eval vm_compute in run_ok (insertKeyValueTryTx 102 ex_t1 (ex_arg (ex_key 201 1) (ex_val 6))).
Definition ex_t3 : Tx :=
  Eval vm_compute in run_ok (insertKeyValueTryTx 103 ex_t2 (ex_arg (ex_key 192 9) (ex_val 8))).

Definition ex_tr0 : trie := TLeaf zero_hash zero_hash.
Definition ex_tr1 : trie := Eval vm_compute in tinsert (ex_key 200 1) (ex_val 5) 0 ex_tr0.
Definition ex_tr2 : trie := Eval vm_compute in tinsert (ex_key 201 1) (ex_val 6) 0 ex_tr1.
Definition ex_tr3 : trie := Eval vm_compute in tinsert (ex_key 192 9) (ex_val 8) 0 ex_tr2.

(** The tries of the same insertions in the reverse order. *)
Definition ex_ur1 : trie := Eval vm_compute in tinsert (ex_key 192 9) (ex_val 8) 0 ex_tr0.
Definition ex_ur2 : trie := Eval vm_compute in tinsert (ex_key 201 1) (ex_val 6) 0 ex_ur1.
Definition ex_ur3 : trie := Eval vm_compute in tinsert (ex_key 200 1) (ex_val 5) 0 ex_ur2.

Definition ex_nodes : list MerkleNode :=
  tnodes 0 ex_tr0 ++ tnodes 0 ex_tr1 ++ tnodes 0 ex_tr2 ++ tnodes 0 ex_tr3 ++
  tnodes 0 ex_ur1 ++ tnodes 0 ex_ur2 ++ tnodes 0 ex_ur3.
Definition ex_P (n : MerkleNode) : Prop := n ∈ ex_nodes.

Lemma ex_coll_free : coll_free ex_P.
Proof. apply no_collision_sound. vm_compute. reflexivity. Qed.

Lemma ex_blank_ok : db_ok 1 empty_db.
Proof.
  constructor; simpl; try constructor; try done; apply map_Forall_empty.
Qed.

Lemma ex_arg_ok w k v :
  length k = 32 → bytes_ok k → length v = 32 →
  (∀ c, v_tail w = Some c → (Seqno c ≤ 3)%Z) → arg_ok w (ex_arg k v).
Proof.
  intros Hk Hok Hv Ht. constructor; simpl; try done.
  - intros n [= <-]. split_and!; [simpl; lia..|done|done].
  - intros b [= <-]. unfold int4_ok. simpl. lia.
Qed.

Lemma reach_blank P : (∀ n, n ∈ tnodes 0 ex_tr0 → P n) → reach P ex_t0 ex_tr0.
Proof.
  intros HP. apply (reach_init _ 100 ex_blank).
  - apply ex_blank_ok.
  - done.
  - exact (HP _ (tproto_in_tnodes 0 ex_tr0)).
  - vm_compute. reflexivity.
Qed.
Lemma ex_reach0 : reach ex_P ex_t0 ex_tr0.
Proof. apply reach_blank. unfold ex_P, ex_nodes. intros n Hn. rewrite !elem_of_app. tauto. Qed.

Lemma bytes_ok_unpack b : forallb (λ x, (0 <=? x) && (x <? 256))%Z b = true → bytes_ok b.
Proof.
  intros Hb. rewrite forallb_forall in Hb. apply Forall_forall. intros x Hx.
  apply list_elem_of_In, Hb in Hx. unfold byte_ok. lia.
Qed.

Lemma ex_insert P now t tr k v t' tr' :
  reach P t tr → length k = 32 → bytes_ok k → length v = 32 →
  (∀ c, v_tail (rd_view t) = Some c → (Seqno c ≤ 3)%Z) → (epno_of (rd_view t) < 100)%Z →
  k ∉ keys tr → tinsert k v 0 tr = tr' → (∀ n, n ∈ tnodes 0 tr' → P n) →
  insertKeyValueTryTx now t (ex_arg k v) = Ok t' → reach P t' tr'.
Proof.
  intros Hr Hk Hok Hv Ht He Hn <- HP Hrun.
  eapply (reach_insert _ now t tr (ex_arg k v)); try done; [by apply ex_arg_ok|].
  change (epno_of (rd_view t) + 1 < 2 ^ 31)%Z. lia.
Qed.

Ltac ex_insert_tac :=
  first [ done | apply bytes_ok_unpack; vm_compute; reflexivity
        | apply (bool_decide_unpack _); vm_compute; exact I
        | vm_compute; reflexivity
        | intros ? Hc; vm_compute in Hc; simplify_eq; simpl; lia
        | unfold ex_P, ex_nodes; intros ? ?; rewrite !elem_of_app; tauto ].

Lemma ex_reach1 : reach ex_P ex_t1 ex_tr1.
Proof.
  apply (ex_insert ex_P 101 ex_t0 ex_tr0 (ex_key 200 1) (ex_val 5)); [exact ex_reach0|ex_insert_tac..].
Qed.
Lemma ex_reach2 : reach ex_P ex_t2 ex_tr2.
Proof.
  apply (ex_insert ex_P 102 ex_t1 ex_tr1 (ex_key 201 1) (ex_val 6)); [exact ex_reach1|ex_insert_tac..].
Qed.
Lemma ex_reach3 : reach ex_P ex_t3 ex_tr3.
Proof.
  apply (ex_insert ex_P 103 ex_t2 ex_tr2 (ex_key 192 9) (ex_val 8)); [exact ex_reach2|ex_insert_tac..].
Qed.

(** The same keys in another order. *)
Definition ex_u1 : Tx :=
  Eval vm_compute in run_ok (insertKeyValueTryTx 201 ex_t0 (ex_arg (ex_key 192 9) (ex_val 8))).
Definition ex_u2 : Tx :=
  Eval vm_compute in run_ok (insertKeyValueTryTx 202 ex_u1 (ex_arg (ex_key 201 1) (ex_val 6))).
Definition ex_u3 : Tx :=
  Eval vm_compute in run_ok (insertKeyValueTryTx 203 ex_u2 (ex_arg (ex_key 200 1) (ex_val 5))).

Lemma ex_reach_u1 : reach ex_P ex_u1 ex_ur1.
Proof.
  apply (ex_insert ex_P 201 ex_t0 ex_tr0 (ex_key 192 9) (ex_val 8)); [exact ex_reach0|ex_insert_tac..].
Qed.
Lemma ex_reach_u2 : reach ex_P ex_u2 ex_ur2.
Proof.
  apply (ex_insert ex_P 202 ex_u1 ex_ur1 (ex_key 201 1) (ex_val 6)); [exact ex_reach_u1|ex_insert_tac..].
Qed.
Lemma ex_reach_u3 : reach ex_P ex_u3 ex_ur3.
Proof.
  apply (ex_insert ex_P 203 ex_u2 ex_ur2 (ex_key 200 1) (ex_val 5)); [exact ex_reach_u2|ex_insert_tac..].
Qed.

Definition ex_root (t : Tx) : Root :=
  default {| Epno := 0; Body := []; RootNode := {| phTyp := MerkleNodeType_Leaf; phHash := [] |};
             Sig := None |} (v_root (rd_view t)).

(** The compressed path the engine serves for a key. *)
Definition ex_serve (t : Tx) (k : bytes) : result MerklePathCompressed :=
  res ← lookupPathWithLock t {| laKey := k; laSigned := false; laRoot := None |};
  r ← of_option GoPanic res;
  LookupPathRes_Compress r.
Definition ex_empty_path : MerklePathCompressed :=
  {| pcRoot := {| rV := 0; rF1 := None |}; pcPath := []; pcTerminal := zero_terminal |}.
Definition ex_present : MerklePathCompressed :=
  Eval vm_compute in match ex_serve ex_t3 (ex_key 201 1) with Ok c => c | Err _ => ex_empty_path end.
Definition ex_absent : MerklePathCompressed :=
  Eval vm_compute in match ex_serve ex_t3 (ex_key 203 1) with Ok c => c | Err _ => ex_empty_path end.
Definition ex_r1 : MerkleRootV1 :=
  Eval vm_compute in default {| r1Epno := 0; r1Time := 0; r1BackPointers := []; r1RootNode := [];
    r1Hostchain := {| Seqno := 0; htHash := [] |} |} (rF1 (pcRoot ex_present)).

Lemma ex_nonzero n : ex_P n → node_hash n ≠ zero_hash.
Proof.
  intros Hn. assert (forallb (λ n, negb (bool_decide (node_hash n = zero_hash))) ex_nodes = true) as Ha
    by (vm_compute; reflexivity).
  rewrite forallb_forall in Ha. apply list_elem_of_In, Ha in Hn.
  by apply negb_true_iff, bool_decide_eq_false in Hn.
Qed.

Lemma ex_P_all l : forallb (λ n, bool_decide (n ∈ ex_nodes)) l = true → ∀ n, n ∈ l → ex_P n.
Proof.
  rewrite forallb_forall. intros Hl n Hn%list_elem_of_In%Hl. by apply bool_decide_eq_true in Hn.
Qed.

(** ** Witnesses *)
Lemma lookup_correct_witness :
  ∃ res, lookupPathWithLock ex_t3 {| laKey := ex_key 201 1; laSigned := false; laRoot := None |} =
           Ok (Some res) ∧ lrEpno res = 4%Z ∧
         (found_value (lrLeaf res) = Some (ex_val 6) ↔ (ex_key 201 1, ex_val 6) ∈ contents ex_tr3).
Proof.
  destruct (reach_tree_inv ex_P ex_coll_free _ _ ex_reach3) as [Hok Hinv].
  destruct (lookup_correct ex_t3 ex_tr3 (ex_root ex_t3) (ex_key 201 1)) as (res & Hr & He & _ & Hf).
  - exact Hok.
  - vm_compute. reflexivity.
  - vm_compute. reflexivity.
  - apply Hinv.
  - apply Hinv.
  - reflexivity.
  - apply bytes_ok_unpack. reflexivity.
  - exists res. split; [exact Hr|]. split; [rewrite He; vm_compute; reflexivity|apply Hf].
Defined.

Lemma selectNode_fuel db ph : selectNode db ph ≠ Err OutOfFuel.
Proof.
  assert (∀ b, ImportPrefixedHashFromDB b ≠ Err OutOfFuel) as Hi.
  { intros [|t b]; [done|]. unfold ImportPrefixedHashFromDB. by repeat case_match. }
  unfold selectNode. destruct (merkle_nodes db !! phHash ph) as [row|]; [|done]. simpl.
  pose proof (Hi (nr_l row)). pose proof (Hi (nr_r row)).
  destruct (ImportPrefixedHashFromDB (nr_l row)), (ImportPrefixedHashFromDB (nr_r row)); naive_solver.
Qed.
Lemma selectLeaf_fuel db ph : selectLeaf db ph ≠ Err OutOfFuel.
Proof. unfold selectLeaf, of_option, guard_err. repeat (done || case_match; simplify_eq/=). Qed.
Lemma selectNode_bit_count db :
  map_Forall (λ _ row, (0 ≤ nr_bit_count row)%Z) (merkle_nodes db) →
  ∀ ph n, selectNode db ph = Ok n → (0 ≤ BitCount (Prefix n))%Z.
Proof. intros Ha ph n Hn. unfold selectNode in Hn. inv_ok. eapply Ha; eassumption. Qed.

Lemma lookup_terminates_witness :
  lookupPathWithLockFromRoot {| rdb := tx ex_t3; rdb_host := 1 |} (ex_key 201 1)
    (Some (RootNode (ex_root ex_t3))) None ≠ Err OutOfFuel.
Proof.
  apply lookup_terminates.
  - exact (selectNode_fuel (tx ex_t3)).
  - exact (selectLeaf_fuel (tx ex_t3)).
  - assert (map_Forall (λ _ row, (0 ≤ nr_bit_count row)%Z) (merkle_nodes (tx ex_t3))) as Ha
      by (apply (bool_decide_unpack _); vm_compute; exact I).
    exact (selectNode_bit_count (tx ex_t3) Ha).
Defined.

Lemma insert_refines_witness :
  ∃ t' tr', insertKeyValueTryTx 104 ex_t2 (ex_arg (ex_key 192 9) (ex_val 8)) = Ok t' ∧
    tree_inv ex_P (rd_view t') tr' ∧
    contents tr' ≡ₚ (ex_key 192 9, ex_val 8) :: contents ex_tr2 ∧
    epno_of (rd_view t') = (epno_of (rd_view ex_t2) + 1)%Z.
Proof.
  destruct (reach_tree_inv ex_P ex_coll_free _ _ ex_reach2) as [Hok Hinv].
  destruct (insert_refines ex_P ex_coll_free 104 ex_t2 ex_tr2 (ex_arg (ex_key 192 9) (ex_val 8)))
    as (t' & tr' & Hrun & _ & Hinv' & _ & Hd).
  - exact Hok.
  - exact Hinv.
  - apply ex_arg_ok; ex_insert_tac.
  - apply ex_P_all. vm_compute. reflexivity.
  - vm_compute. reflexivity.
  - exists t', tr'. rewrite decide_False in Hd by (apply (bool_decide_unpack _); vm_compute; exact I).
    split; [exact Hrun|]. split; [exact Hinv'|]. exact Hd.
Defined.

Lemma reachable_stores_hold_tree_witness :
  stored (rd_view ex_t3) 0 ex_tr3 ∧ is_Some (v_hashes (rd_view ex_t3) !! 2%Z).
Proof.
  destruct (reachable_stores_hold_tree ex_P ex_coll_free ex_t3 ex_tr3 ex_reach3)
    as (_ & _ & Hst & rt & Hrt & _ & Hup).
  split; [exact Hst|]. apply Hup. vm_compute in Hrt. injection Hrt as <-. simpl. lia.
Defined.

Lemma root_hash_determined_by_contents_witness :
  RootNode (ex_root ex_t3) = RootNode (ex_root ex_u3).
Proof.
  apply (root_hash_determined_by_contents ex_P ex_coll_free ex_t3 ex_tr3 ex_u3 ex_ur3).
  - exact ex_reach3.
  - exact ex_reach_u3.
  - intros kv. reflexivity.
  - vm_compute. reflexivity.
  - vm_compute. reflexivity.
Defined.

Lemma VerifyPresence_sound_witness :
  VerifyPresence ex_present (ex_key 201 1) = Ok (ex_val 6) ∧
  (ex_key 201 1, ex_val 6) ∈ contents ex_tr3.
Proof.
  split; [vm_compute; reflexivity|].
  apply (VerifyPresence_sound ex_P ex_present (ex_key 201 1) ex_tr3 ex_r1 (ex_val 6)).
  - exact ex_coll_free.
  - exact ex_nonzero.
  - apply ex_P_all. vm_compute. reflexivity.
  - apply ex_P_all. vm_compute. reflexivity.
  - reflexivity.
  - apply bytes_ok_unpack. reflexivity.
  - apply bytes_ok_unpack. vm_compute. reflexivity.
  - apply (reach_tree_inv ex_P ex_coll_free _ _ ex_reach3).
  - vm_compute. reflexivity.
  - vm_compute. reflexivity.
  - vm_compute. reflexivity.
Defined.

Lemma VerifyAbsence_sound_witness :
  VerifyAbsence ex_absent (ex_key 203 1) = Ok () ∧ ex_key 203 1 ∉ keys ex_tr3.
Proof.
  split; [vm_compute; reflexivity|].
  apply (VerifyAbsence_sound ex_P ex_absent (ex_key 203 1) ex_tr3 ex_r1).
  - exact ex_coll_free.
  - exact ex_nonzero.
  - apply ex_P_all. vm_compute. reflexivity.
  - apply ex_P_all. vm_compute. reflexivity.
  - reflexivity.
  - apply bytes_ok_unpack. reflexivity.
  - apply bytes_ok_unpack. vm_compute. reflexivity.
  - apply (reach_tree_inv ex_P ex_coll_free _ _ ex_reach3).
  - vm_compute. reflexivity.
  - vm_compute. reflexivity.
  - vm_compute. reflexivity.
Defined.

Lemma served_paths_verify_witness :
  ∃ res c present answer,
    lookupPathWithLock ex_t3 {| laKey := ex_key 201 1; laSigned := false; laRoot := None |} =
      Ok (Some res) ∧
    LookupPathRes_Compress res = Ok c ∧ Verify c (ex_key 201 1) present = Ok answer ∧
    answer = Some (ex_val 6).
Proof.
  destruct (served_paths_verify ex_P ex_coll_free ex_t3 ex_tr3 (ex_key 201 1))
    as (res & c & present & answer & H1 & H2 & H3 & _ & H5).
  - exact ex_reach3.
  - reflexivity.
  - exact ex_dec_enc.
  - intros n Hn. apply ex_nonzero, (ex_P_all (tnodes 0 ex_tr3)); [vm_compute; reflexivity|exact Hn].
  - reflexivity.
  - apply bytes_ok_unpack. reflexivity.
  - exists res, c, present, answer. split; [exact H1|]. split; [exact H2|]. split; [exact H3|].
    apply H5. apply (bool_decide_unpack _). vm_compute. exact I.
Defined.

Lemma single_leaf_has_no_path_witness :
  ∃ res, lookupPathWithLock ex_t0 {| laKey := ex_key 201 1; laSigned := false; laRoot := None |} =
           Ok (Some res) ∧
         LookupPathRes_Compress res = Err (MerkleVerifyError "empty path").
Proof.
  apply (single_leaf_has_no_path ex_P ex_coll_free ex_t0 zero_hash zero_hash (ex_key 201 1)).
  - exact ex_reach0.
  - exact ex_dec_enc.
  - reflexivity.
  - apply bytes_ok_unpack. reflexivity.
Defined.
