(* ===== verification/MerkleSession.v ===== *)
(** * Root histories on the client

    The part of [lib/merkle/client.go] that keeps the client's view of a host's
    Merkle roots consistent: [Session] (no rollback, no fork between the roots the
    client has accepted), the skip-pointer check between two roots, and the local
    root cache of [client/libclient/merkle_agent.go].

    A [Store] that fails makes the whole operation fail; entries stored before the
    failure are not tracked.  A [MerkleCollectRoots] that does not return is the
    error [OutOfFuel]. *)
From S2P Require Import Prelude Bits SkipPointers MerkleTypes.
Local Open Scope Z_scope.

(** ** The interface to the cache and the server *)
Class ClientInterface (C : Type) := {
  GetRootHashFromCache : C → Z → result (option bytes);
  GetRootFromCache : C → Z → result (option MerkleRoot);
  GetLatestRootFromCache : C → result (option MerkleRoot);
  Store : C → Z → option bytes → option MerkleRoot → bool → result C;
  GetRootsFromServer : C → list Z → list Z → result (list MerkleRoot * list bytes)
}.

Record openedRoot := { oR : MerkleRoot; oV1 : MerkleRootV1; oH : bytes }.
Definition oEpno (o : openedRoot) : Z := r1Epno (oV1 o).

Section session.
Context `{Codec}.

Definition openRoot (r : MerkleRoot) : result openedRoot :=
  v ← GetV r;
  _ ← guard_err (negb (v =? MerkleRootVersion_V1))
        (VersionNotSupportedError "merkle root from the future");
  rv1 ← V1 r;
  h ← HashRoot r;
  Ok {| oR := r; oV1 := rv1; oH := h |}.

Definition OpenMerkleRootNoSigCheck (b : bytes) : result MerkleRootV1 :=
  tmp ← dec_MerkleRoot b;
  v ← GetV tmp;
  _ ← guard_err (negb (v =? 1)) (VersionNotSupportedError "merkle root from the future");
  V1 tmp.

Definition getHash (hashes : gmap Z bytes) (roots : gmap Z MerkleRoot) (e : Z)
    : result (option bytes) :=
  match hashes !! e with
  | Some h => Ok (Some h)
  | None => match roots !! e with
            | None => Ok None
            | Some root => Some <$> HashRoot root
            end
  end.

Definition computeBackPointers (e : Z) (hashes : gmap Z bytes) (roots : gmap Z MerkleRoot)
    : result (bytes * list MerkleBackPointer) :=
  ret ← mapM_r (λ epno,
    hash ← getHash hashes roots epno;
    h ← of_option (MerkleBackPointerVerifyError "missing hash" epno) hash;
    Ok {| bpEpno := epno; bpHash := h |}) (MerkleBackpointerSequence e);
  hash ← HashBackPointers ret;
  Ok (hash, ret).

Fixpoint findBackPointer (bps : list MerkleBackPointer) (epno : Z) : option bytes :=
  match bps with
  | [] => None
  | b :: bps' => if bpEpno b =? epno then Some (bpHash b) else findBackPointer bps' epno
  end.

Definition checkRootAgainstBackPointers (bps : list MerkleBackPointer) (epno : Z)
    (root : MerkleRoot) : result () :=
  if bool_decide (length bps = 0%nat) then Ok ()
  else
    bp ← of_option (MerkleBackPointerVerifyError "missing backpointer" epno)
           (findBackPointer bps epno);
    rootHash ← HashRoot root;
    guard_err (negb (bool_decide (rootHash = bp)))
      (MerkleBackPointerVerifyError "backpointer mismatc" epno).

(** The loop over the roots of the path, with the back pointers of the previous
    root. *)
Fixpoint check_roots (path : list Z) (hashes : gmap Z bytes) (roots : gmap Z MerkleRoot)
    (bps : list MerkleBackPointer) : result (list MerkleBackPointer) :=
  match path with
  | [] => Ok bps
  | rootEpno :: path' =>
      root ← of_option (MerkleBackPointerVerifyError "missing root" rootEpno) (roots !! rootEpno);
      _ ← checkRootAgainstBackPointers bps rootEpno root;
      oRoot ← openRoot root;
      _ ← guard_err (negb (oEpno oRoot =? rootEpno))
            (MerkleBackPointerVerifyError "got mismatched root" (oEpno oRoot));
      '(expected, bps') ← computeBackPointers rootEpno hashes roots;
      _ ← guard_err (negb (bool_decide (r1BackPointers (oV1 oRoot) = expected)))
            (MerkleBackPointerVerifyError "bad backpointer hash" rootEpno);
      check_roots path' hashes roots bps'
  end.

Section client.
Context {C : Type} `{!ClientInterface C}.

Definition getRootHashFromCache (c : C) (e : Z) : result (option bytes) :=
  hash ← GetRootHashFromCache c e;
  match hash with
  | Some h => Ok (Some h)
  | None =>
      root ← GetRootFromCache c e;
      match root with
      | None => Ok None
      | Some r => Some <$> HashRoot r
      end
  end.

(** Roots found in the cache are added to the map, the others listed as needed. *)
Fixpoint load_roots (c : C) (path : list Z) (m : gmap Z MerkleRoot) (needed : list Z)
    : result (gmap Z MerkleRoot * list Z) :=
  match path with
  | [] => Ok (m, needed)
  | epno :: path' =>
      match m !! epno with
      | Some _ => load_roots c path' m needed
      | None =>
          root ← GetRootFromCache c epno;
          match root with
          | Some r => load_roots c path' (<[epno := r]> m) needed
          | None => load_roots c path' m (needed ++ [epno])
          end
      end
  end.

Fixpoint load_hashes (c : C) (epnos : list Z) (m : gmap Z bytes) (needed : list Z)
    : result (gmap Z bytes * list Z) :=
  match epnos with
  | [] => Ok (m, needed)
  | epno :: epnos' =>
      hash ← getRootHashFromCache c epno;
      match hash with
      | Some h => load_hashes c epnos' (<[epno := h]> m) needed
      | None => load_hashes c epnos' m (needed ++ [epno])
      end
  end.

(** The server's roots, checked against cached hashes.  [neededRoots[i]] panics
    when the server sends more roots than were asked for. *)
Fixpoint add_new_roots (c : C) (needed : list Z) (new : list MerkleRoot) (m : gmap Z MerkleRoot)
    : result (gmap Z MerkleRoot) :=
  match new, needed with
  | [], _ => Ok m
  | _ :: _, [] => Err GoPanic
  | root :: new', epno :: needed' =>
      hash ← GetRootHashFromCache c epno;
      _ ← match hash with
          | None => Ok ()
          | Some h =>
              computed ← HashRoot root;
              guard_err (negb (bool_decide (computed = h)))
                (MerkleBackPointerVerifyError
                   "cached merkle root hash isn't equal to root we just got" epno)
          end;
      add_new_roots c needed' new' (<[epno := root]> m)
  end.

Fixpoint add_new_hashes (needed : list Z) (new : list bytes) (m : gmap Z bytes)
    : result (gmap Z bytes) :=
  match new, needed with
  | [], _ => Ok m
  | _ :: _, [] => Err GoPanic
  | h :: new', epno :: needed' => add_new_hashes needed' new' (<[epno := h]> m)
  end.

Fixpoint store_roots (c : C) (rightEpno : Z) (needed : list Z) (new : list MerkleRoot)
    (hashes : gmap Z bytes) : result C :=
  match new, needed with
  | [], _ => Ok c
  | _ :: _, [] => Err GoPanic
  | root :: new', epno :: needed' =>
      c ← (if epno =? rightEpno then Ok c else Store c epno (hashes !! epno) (Some root) false);
      store_roots c rightEpno needed' new' hashes
  end.

Fixpoint store_hashes (c : C) (rightEpno : Z) (needed : list Z) (new : list bytes) : result C :=
  match new, needed with
  | [], _ => Ok c
  | _ :: _, [] => Err GoPanic
  | h :: new', epno :: needed' =>
      c ← (if epno =? rightEpno then Ok c else Store c epno (Some h) None false);
      store_hashes c rightEpno needed' new'
  end.

(** [collect_fuel] hops are enough for every pair of epochs with [1 ≤ left < right]:
    [collect_roots_correct]. *)
Definition collect_fuel : nat := 128.

(** What the check works on: the path, the roots and hashes known for it, and what
    came from the server. *)
Definition gather (c : C) (right left : openedRoot)
    : result (list Z * gmap Z MerkleRoot * gmap Z bytes * (list Z * list MerkleRoot) *
              (list Z * list bytes)) :=
  '(path, hashes) ← of_option OutOfFuel (MerkleCollectRoots collect_fuel (oEpno right) (oEpno left));
  let m0 := <[oEpno left := oR left]> (<[oEpno right := oR right]> ∅) in
  '(rm, neededRoots) ← load_roots c path m0 [];
  '(hm, neededHashes) ← load_hashes c hashes ∅ [];
  '(newRoots, newHashes) ←
    (if bool_decide (length neededHashes = 0%nat) && bool_decide (length neededRoots = 0%nat)
     then Ok ([], []) else GetRootsFromServer c neededRoots neededHashes);
  rm ← add_new_roots c neededRoots newRoots rm;
  hm ← add_new_hashes neededHashes newHashes hm;
  Ok (path, rm, hm, (neededRoots, newRoots), (neededHashes, newHashes)).

Definition checkSkipPointersFromAtoB (c : C) (right left : openedRoot) : result C :=
  _ ← guard_err (oEpno right <=? oEpno left)
        (InternalError "right epno is less than or equal to left epno");
  '(path, rm, hm, (neededRoots, newRoots), (neededHashes, newHashes)) ← gather c right left;
  bps ← check_roots path hm rm [];
  _ ← checkRootAgainstBackPointers bps (oEpno left) (oR left);
  c ← store_roots c (oEpno right) neededRoots newRoots hm;
  store_hashes c (oEpno right) neededHashes newHashes.

(** ** Sessions *)
Record Session := { rootAtStart : option openedRoot; isInit : bool }.
Definition NewSession : Session := {| rootAtStart := None; isInit := false |}.

(** The test for a missing root precedes the test for an error, and an error comes
    with a nil root: every error of the cache reads as "no root". *)
Definition loadLatestKnownRoot (c : C) : result (option openedRoot) :=
  match GetLatestRootFromCache c with
  | Err _ | Ok None => Ok None
  | Ok (Some existing) => Some <$> openRoot existing
  end.

Definition Init (c : C) (s : Session) : result Session :=
  root ← loadLatestKnownRoot c;
  Ok {| rootAtStart := root; isInit := true |}.

Definition InitWithRoot (s : Session) (mr : MerkleRoot) : result Session :=
  root ← openRoot mr;
  Ok {| rootAtStart := Some root; isInit := true |}.

(** A nil [rootAtStart] is dereferenced. *)
Definition CheckHistoricalRoot (c : C) (s : Session) (root : MerkleRoot) : result C :=
  oRoot ← openRoot root;
  start ← of_option GoPanic (rootAtStart s);
  if oEpno start <? oEpno oRoot
  then Err (MerkleVerifyError "historical root was newer than the root we just got!")
  else if oEpno oRoot =? oEpno start
  then _ ← guard_err (negb (bool_decide (oH oRoot = oH start)))
             (MerkleVerifyError "historical root hash mismatch"); Ok c
  else checkSkipPointersFromAtoB c start oRoot.

Definition storeLatest (c : C) (l : openedRoot) : result C :=
  Store c (oEpno l) (Some (oH l)) (Some (oR l)) true.

Definition start_newer (s : Session) (o : openedRoot) : bool :=
  match rootAtStart s with Some st => oEpno o <? oEpno st | None => false end.

Definition Run (c : C) (s : Session) (latest : MerkleRoot) : result C :=
  _ ← guard_err (negb (isInit s)) (InternalError "must call Init() before Run()");
  oLatest ← openRoot latest;
  existing ← loadLatestKnownRoot c;
  match existing with
  | None =>
      match rootAtStart s with
      | Some _ => Err (InternalError "merkle root was non-nil then nil!")
      | None => storeLatest c oLatest
      end
  | Some existing =>
      _ ← guard_err (start_newer s existing)
            (InternalError "merkle root at start is newer than latest known root");
      _ ← guard_err (start_newer s oLatest)
            (MerkleRollbackError (match rootAtStart s with Some st => oEpno st | None => 0 end)
               (oEpno oLatest));
      if oEpno oLatest =? oEpno existing
      then _ ← guard_err (negb (bool_decide (oH oLatest = oH existing)))
                 (MerkleVerifyError "hash mismatch at epno"); Ok c
      else
        let '(rgt, lft) := if oEpno oLatest <? oEpno existing then (existing, oLatest)
                              else (oLatest, existing) in
        c ← checkSkipPointersFromAtoB c rgt lft;
        storeLatest c oLatest
  end.

Definition CheckAndStoreLatestRoot (c : C) (latest : MerkleRoot) : result C :=
  sess ← Init c NewSession;
  Run c sess latest.

(** [GotLatestRoot] of [lib/merkle/agent.go]. *)
Definition GotLatestRoot (c : C) (root : MerkleRoot) : result (MerkleRoot * C) :=
  c ← CheckAndStoreLatestRoot c root;
  Ok (root, c).
End client.
End session.

(** ** Chains of roots *)
Section chain.
Context `{Codec}.

(** [r] names the hash of [r'] among its back pointers, at the epoch of [r']. *)
Definition points_to (r r' : MerkleRoot) : Prop :=
  ∃ v1 v1' bps h, rF1 r = Some v1 ∧ rF1 r' = Some v1' ∧ r1Epno v1' < r1Epno v1 ∧
    HashBackPointers bps = Ok (r1BackPointers v1) ∧ HashRoot r' = Ok h ∧
    {| bpEpno := r1Epno v1'; bpHash := h |} ∈ bps.

(** The same hop, by a root and by back pointers that are among those the check has looked at. *)
Definition points_via (rs : list MerkleRoot) (bss : list (list MerkleBackPointer)) (r r' : MerkleRoot) : Prop :=
  ∃ v1 v1' bps h, bps ∈ bss ∧ r' ∈ rs ∧ rF1 r = Some v1 ∧ rF1 r' = Some v1' ∧ r1Epno v1' < r1Epno v1 ∧
    HashBackPointers bps = Ok (r1BackPointers v1) ∧ HashRoot r' = Ok h ∧
    {| bpEpno := r1Epno v1'; bpHash := h |} ∈ bps.
Lemma points_via_to rs bss r r' : points_via rs bss r r' → points_to r r'.
Proof. intros (v1 & v1' & bps & h & _ & _ & ?). by exists v1, v1', bps, h. Qed.

(** The roots of the path, and the back pointers that were computed for them. *)
Definition path_roots (path : list Z) (rm : gmap Z MerkleRoot) : list MerkleRoot := omap (rm !!.) path.
Definition path_bps (path : list Z) (hm : gmap Z bytes) (rm : gmap Z MerkleRoot) : list (list MerkleBackPointer) :=
  omap (λ e, match computeBackPointers e hm rm with Ok (_, bps) => Some bps | Err _ => None end) path.
Lemma path_roots_elem path rm e r : e ∈ path → rm !! e = Some r → r ∈ path_roots path rm.
Proof. intros. apply list_elem_of_omap. by exists e. Qed.
Lemma path_bps_elem path hm rm e h bps :
  e ∈ path → computeBackPointers e hm rm = Ok (h, bps) → bps ∈ path_bps path hm rm.
Proof. intros He Hc. apply list_elem_of_omap. exists e. by rewrite Hc. Qed.

Lemma openRoot_Ok r o :
  openRoot r = Ok o → oR o = r ∧ rV r = 1 ∧ rF1 r = Some (oV1 o) ∧ HashRoot r = Ok (oH o).
Proof.
  unfold openRoot, GetV, V1. intros Ho. inv_ok. split_and!; try done.
  unfold MerkleRootVersion_V1 in *. lia.
Qed.

Lemma computeBackPointers_Ok e hm rm h bps :
  computeBackPointers e hm rm = Ok (h, bps) →
  bpEpno <$> bps = MerkleBackpointerSequence e ∧ HashBackPointers bps = Ok h.
Proof.
  unfold computeBackPointers. intros Hc. apply bind_Ok in Hc as (ret & Hm & Hc).
  apply bind_Ok in Hc as (h' & Hh & [= <- <-]). split; [|done].
  apply mapM_r_Ok in Hm. clear Hh. revert Hm. generalize (MerkleBackpointerSequence e). intros l Hm.
  induction Hm as [|x y l l' Hxy _ IH]; [done|]. simpl. inv_ok. by f_equal.
Qed.

Lemma findBackPointer_Some bps e h :
  findBackPointer bps e = Some h → {| bpEpno := e; bpHash := h |} ∈ bps.
Proof.
  induction bps as [|[e' h'] bps IH]; simpl; [done|].
  destruct (Z.eqb_spec e' e) as [->|]; [intros [= ->]; set_solver|]. intros. set_solver.
Qed.

Lemma checkRoot_Ok bps e r x :
  checkRootAgainstBackPointers bps e r = Ok () → x ∈ bps →
  ∃ h, HashRoot r = Ok h ∧ {| bpEpno := e; bpHash := h |} ∈ bps.
Proof.
  unfold checkRootAgainstBackPointers. intros Hc Hx. case_bool_decide as Hl.
  { apply length_zero_iff_nil in Hl. subst. by apply not_elem_of_nil in Hx. }
  inv_ok. apply negb_false_iff, bool_decide_eq_true in Hc. subst.
  eexists. split; [done|]. by apply findBackPointer_Some.
Qed.

Lemma skip_path_self t p : skip_path t t p → p = [].
Proof. inversion 1; [done|lia]. Qed.

(** Walking the path: each root is named by the one before it, and the last one's
    back pointers, returned by the loop, name the epoch the path leads to. *)
Lemma check_roots_chain path rs t s p hm rm bps0 bps :
  let bss := path_bps path hm rm in
  p ⊆ path → path_roots path rm ⊆ rs →
  skip_path t s p → t < s → 1 ≤ t → s < 2 ^ 64 → check_roots p hm rm bps0 = Ok bps →
  ∃ r v1, rm !! s = Some r ∧ s ∈ path ∧ rF1 r = Some v1 ∧ r1Epno v1 = s ∧
    checkRootAgainstBackPointers bps0 s r = Ok () ∧
    ∃ rl vl, rtc (points_via rs bss) r rl ∧ rF1 rl = Some vl ∧ t < r1Epno vl ∧ bps ∈ bss ∧
      HashBackPointers bps = Ok (r1BackPointers vl) ∧ t ∈ bpEpno <$> bps.
Proof.
  intros bss Hp Hrs Hsp. revert bps0 Hp. induction Hsp as [|s s' p Hts Hin Hle Hsp IH]; intros bps0 Hp Hlt H1 H64 Hc;
    [lia|]. cbn [check_roots] in Hc.
  apply bind_Ok in Hc as (r & Hr & Hc). apply of_option_Ok in Hr.
  apply bind_Ok in Hc as ([] & Hchk & Hc). apply bind_Ok in Hc as (o & Ho & Hc).
  apply bind_Ok in Hc as (u1 & He & Hc). apply guard_err_Ok in He.
  apply bind_Ok in Hc as ([exp bps'] & Hcb & Hc). apply bind_Ok in Hc as (u2 & Hx & Hc).
  apply guard_err_Ok, negb_false_iff, bool_decide_eq_true in Hx.
  apply openRoot_Ok in Ho as (_ & _ & Hv1 & _). unfold oEpno in He.
  assert (r1Epno (oV1 o) = s) as Hes by lia.
  assert (s ∈ path) as Hs by (apply Hp; left). pose proof (path_bps_elem _ _ _ _ _ _ Hs Hcb) as Hbss.
  apply computeBackPointers_Ok in Hcb as [Hseq Hh].
  exists r, (oV1 o). split_and!; [done..|].
  destruct (decide (s' = t)) as [->|Hne].
  - apply skip_path_self in Hsp as ->. simpl in Hc. simplify_eq.
    exists r, (oV1 o). split_and!; [apply rtc_refl|done|lia|done|congruence|by rewrite Hseq].
  - pose proof (backptr_range s s' ltac:(lia) Hin) as Hrange.
    destruct (IH bps' ltac:(intros x Hx'; apply Hp; by right) ltac:(lia) H1 ltac:(lia) Hc)
      as (r' & v1' & Hr' & Hs' & Hv1' & He' & Hchk' & rl & vl & Hrtc & Hrest).
    exists rl, vl. split; [|done]. eapply rtc_l; [|done].
    rewrite <- Hseq in Hin. apply list_elem_of_fmap in Hin as (x & -> & Hx').
    destruct (checkRoot_Ok _ _ _ _ Hchk' Hx') as (h & Hhr & Hmem).
    exists (oV1 o), v1', bps', h. rewrite He', Hx. split_and!; try done; [|lia]. apply Hrs. by eapply path_roots_elem.
Qed.

Section loads.
Context {C : Type} `{!ClientInterface C}.

(** Loading does not change what is in the map, nor ask for it again. *)
Lemma load_roots_keeps (c : C) path m needed m' needed' e r :
  load_roots c path m needed = Ok (m', needed') → m !! e = Some r → e ∉ needed →
  m' !! e = Some r ∧ e ∉ needed'.
Proof.
  revert m needed. induction path as [|x path IH]; simpl; intros m needed Hl He Hn; [by simplify_eq|].
  destruct (m !! x) eqn:Hx; [by eapply IH|].
  assert (x ≠ e) by (intros ->; congruence).
  inv_ok. case_match; eapply IH; try done.
  - by rewrite lookup_insert_ne.
  - rewrite not_elem_of_app, list_elem_of_singleton. naive_solver.
Qed.

Lemma add_new_roots_keeps (c : C) needed new m m' e r :
  add_new_roots c needed new m = Ok m' → m !! e = Some r → e ∉ needed → m' !! e = Some r.
Proof.
  revert needed m. induction new as [|x new IH]; intros [|n needed] m Ha He Hn; simpl in *; try by simplify_eq.
  rewrite not_elem_of_cons in Hn. inv_ok. eapply IH; [done| |naive_solver].
  rewrite lookup_insert_ne; [done|]. naive_solver.
Qed.

Lemma gather_right (c : C) right left path rm hm x y :
  gather c right left = Ok (path, rm, hm, x, y) → oEpno left < oEpno right →
  rm !! oEpno right = Some (oR right) ∧
  ∃ hs, MerkleCollectRoots collect_fuel (oEpno right) (oEpno left) = Some (path, hs).
Proof.
  unfold gather. intros Hg Hlt.
  apply bind_Ok in Hg as ([path0 hs] & Hcol & Hg). apply of_option_Ok in Hcol.
  apply bind_Ok in Hg as ([rm0 nr] & Hlr & Hg). apply bind_Ok in Hg as ([hm0 nh] & _ & Hg).
  apply bind_Ok in Hg as ([newR newH] & _ & Hg). apply bind_Ok in Hg as (rm1 & Har & Hg).
  apply bind_Ok in Hg as (hm1 & _ & Hg). simplify_eq. split; [|by exists hs].
  eapply load_roots_keeps in Hlr as [Hlk Hni].
  - by eapply add_new_roots_keeps.
  - rewrite lookup_insert_ne by lia. apply lookup_insert_eq.
  - apply not_elem_of_nil.
Qed.

(** What the check from [right] to [left] looks at. *)
Definition examined_roots (c : C) (right left : openedRoot) : list MerkleRoot :=
  oR left :: match gather c right left with Ok (path, rm, _, _, _) => path_roots path rm | Err _ => [] end.
Definition examined_bps (c : C) (right left : openedRoot) : list (list MerkleBackPointer) :=
  match gather c right left with Ok (path, rm, hm, _, _) => path_bps path hm rm | Err _ => [] end.

Lemma checkSkipPointers_via (c c' : C) right left :
  openRoot (oR right) = Ok right → openRoot (oR left) = Ok left →
  1 ≤ oEpno left → oEpno right < 2 ^ 64 →
  checkSkipPointersFromAtoB c right left = Ok c' →
  tc (points_via (examined_roots c right left) (examined_bps c right left)) (oR right) (oR left).
Proof.
  intros HoR HoL H1 H64 Hc. unfold checkSkipPointersFromAtoB in Hc.
  apply bind_Ok in Hc as (u & Hlt & Hc). apply guard_err_Ok in Hlt.
  apply bind_Ok in Hc as ([[[[path rm] hm] [nr newR]] [nh newH]] & Hg & Hc).
  apply bind_Ok in Hc as (bps & Hcr & Hc). apply bind_Ok in Hc as ([] & Hlast & _).
  unfold examined_roots, examined_bps. rewrite Hg.
  apply gather_right in Hg as [Hrm (hs & Hcol)]; [|lia].
  destruct (collect_roots_run (oEpno right) (oEpno left)) as (p & sib & Hcol' & Hsp & _); [lia|lia|].
  unfold collect_fuel in Hcol. rewrite Hcol in Hcol'. simplify_eq.
  destruct (check_roots_chain p (oR left :: path_roots p rm) _ _ _ _ _ _ _ ltac:(done) ltac:(intros x; by right) Hsp ltac:(lia) H1 H64 Hcr)
    as (r & v1 & Hr & _ & _ & _ & _ & rl & vl & Hrtc & Hvl & Hgt & Hbss & Hbh & Hin).
  rewrite Hrm in Hr. simplify_eq.
  apply list_elem_of_fmap in Hin as (x & Hx & Hx').
  destruct (checkRoot_Ok _ _ _ _ Hlast Hx') as (h & Hh & Hmem).
  apply openRoot_Ok in HoL as (_ & _ & HvL & _).
  eapply tc_rtc_l; [exact Hrtc|]. apply tc_once.
  exists vl, (oV1 left), bps, h. split_and!; try done. left.
Qed.
Lemma checkSkipPointers_chain (c c' : C) right left :
  openRoot (oR right) = Ok right → openRoot (oR left) = Ok left →
  1 ≤ oEpno left → oEpno right < 2 ^ 64 →
  checkSkipPointersFromAtoB c right left = Ok c' → tc points_to (oR right) (oR left).
Proof.
  intros HoR HoL H1 H64 Hc. eapply (tc_congruence id); [|by eapply checkSkipPointers_via].
  intros r r'. apply points_via_to.
Qed.
End loads.
End chain.

(** ** What a session guarantees *)
Section guarantees.
Context `{Codec} {C : Type} `{!ClientInterface C}.

(** Epochs a server may use. *)
Definition epno_ok (o : openedRoot) : Prop := 1 ≤ oEpno o < 2 ^ 64.

Lemma loadLatestKnownRoot_opened (c : C) o :
  loadLatestKnownRoot c = Ok (Some o) → openRoot (oR o) = Ok o.
Proof.
  unfold loadLatestKnownRoot. destruct (GetLatestRootFromCache c) as [[r|]|]; intros Hl; inv_ok.
  rename select (openRoot _ = _) into Ho. pose proof (openRoot_Ok _ _ Ho) as [-> _]. done.
Qed.

(** C32: no fork and no rollback within a client.  When [Run] accepts a root while the
    client already knows one, the two roots are the same root, or the newer one
    commits to the older one through a chain of back-pointer hashes; and the
    accepted root is not older than the root known when the session started. *)
Theorem session_run_consistent (c c' : C) s latest o existing :
  Run c s latest = Ok c' → openRoot latest = Ok o →
  loadLatestKnownRoot c = Ok (Some existing) → epno_ok o → epno_ok existing →
  (oH o = oH existing ∧ oEpno o = oEpno existing ∨
   oEpno existing < oEpno o ∧ tc points_to latest (oR existing) ∨
   oEpno o < oEpno existing ∧ tc points_to (oR existing) latest) ∧
  ∀ st, rootAtStart s = Some st → oEpno st ≤ oEpno o.
Proof.
  intros Hrun Ho Hex Ho1 He1. unfold Run in Hrun.
  apply bind_Ok in Hrun as (u1 & _ & Hrun). rewrite Ho in Hrun. cbn [mbind result_bind] in Hrun.
  rewrite Hex in Hrun. cbn [mbind result_bind] in Hrun.
  apply bind_Ok in Hrun as (u2 & _ & Hrun). apply bind_Ok in Hrun as (u3 & Hroll & Hrun).
  apply guard_err_Ok in Hroll.
  split; [|unfold start_newer in Hroll; intros st Hst; rewrite Hst in Hroll; lia].
  pose proof (openRoot_Ok _ _ Ho) as (HoR & _).
  pose proof (loadLatestKnownRoot_opened _ _ Hex) as Hexo. unfold epno_ok in *.
  assert (openRoot (oR o) = Ok o) as Hoo by by rewrite HoR.
  destruct (Z.eqb_spec (oEpno o) (oEpno existing)) as [Heq|Hne].
  - apply bind_Ok in Hrun as (u4 & Hh & _). apply guard_err_Ok, negb_false_iff, bool_decide_eq_true in Hh.
    by left.
  - right. rewrite <- HoR. destruct (Z.ltb_spec (oEpno o) (oEpno existing)) as [Hlt|Hge];
      apply bind_Ok in Hrun as (c1 & Hchk & _).
    + right. split; [done|]. eapply checkSkipPointers_chain; try done; lia.
    + left. split; [lia|]. eapply checkSkipPointers_chain; try done; lia.
Qed.

(** A root older than the one known at the start of the session is reported as
    a rollback, whatever else it contains. *)
Theorem session_run_rollback (c : C) s latest o existing st :
  isInit s = true → openRoot latest = Ok o → loadLatestKnownRoot c = Ok (Some existing) →
  rootAtStart s = Some st → oEpno st ≤ oEpno existing → oEpno o < oEpno st →
  Run c s latest = Err (MerkleRollbackError (oEpno st) (oEpno o)).
Proof.
  intros Hi Ho Hex Hst Hle Hlt. unfold Run, start_newer. rewrite Hi, Ho. cbn [mbind result_bind negb guard_err].
  rewrite Hex, Hst. cbn [mbind result_bind].
  replace (oEpno existing <? oEpno st) with false by lia.
  by replace (oEpno o <? oEpno st) with true by lia.
Qed.

(** An error of the local cache reads as an empty cache: the check then accepts
    and stores any well-formed root as the latest one, with no comparison. *)
Theorem cache_error_disables_check (c : C) e latest o :
  GetLatestRootFromCache c = Err e → openRoot latest = Ok o →
  CheckAndStoreLatestRoot c latest = Store c (oEpno o) (Some (oH o)) (Some latest) true.
Proof.
  intros He Ho. unfold CheckAndStoreLatestRoot, Init, loadLatestKnownRoot, Run.
  rewrite He. cbn [mbind result_bind isInit negb guard_err]. rewrite Ho. cbn [mbind result_bind].
  unfold loadLatestKnownRoot. rewrite He. cbn [mbind result_bind rootAtStart]. unfold storeLatest.
  pose proof (openRoot_Ok _ _ Ho) as (-> & _). done.
Qed.

(** ** Agreement with the host's history *)

(** The roots the host published up to epoch [N], one per epoch, each with the back
    pointers the engine computes for its epoch. *)
Definition host_bps (hist : Z → MerkleRoot) (e : Z) (bps : list MerkleBackPointer) : Prop :=
  Forall2 (λ e' bp, bpEpno bp = e' ∧ HashRoot (hist e') = Ok (bpHash bp)) (MerkleBackpointerSequence e) bps.
Definition history (N : Z) (hist : Z → MerkleRoot) : Prop :=
  ∀ e, 1 ≤ e ≤ N → ∃ v1 bps, rV (hist e) = 1 ∧ rF1 (hist e) = Some v1 ∧ r1Epno v1 = e ∧
    host_bps hist e bps ∧ HashBackPointers bps = Ok (r1BackPointers v1).

(** None of the values in [l] has the hash of a different value of the host's. *)
Definition no_clash {A} (hash : A → result bytes) (l : list A) (hosts : A → Prop) : Prop :=
  ∀ x y h, x ∈ l → hosts y → hash x = Ok h → hash y = Ok h → x = y.
(** The roots and back pointers that a check from [right] to [left] looks at do not clash with the history. *)
Definition examined_no_clash (c : C) (right left : openedRoot) (N : Z) (hist : Z → MerkleRoot) : Prop :=
  no_clash HashRoot (examined_roots c right left) (λ r, ∃ e, 1 ≤ e ≤ N ∧ r = hist e) ∧
  no_clash HashBackPointers (examined_bps c right left) (λ bps, ∃ e, 1 ≤ e ≤ N ∧ host_bps hist e bps).

Section agree.
Context (c : C) (right left : openedRoot) (N : Z) (hist : Z → MerkleRoot).
Context (Hh : history N hist) (HN : N < 2 ^ 64) (Hnc : examined_no_clash c right left N hist).

Lemma points_via_history e r' :
  1 ≤ e ≤ N → points_via (examined_roots c right left) (examined_bps c right left) (hist e) r' →
  ∃ e', 1 ≤ e' < e ∧ r' = hist e'.
Proof.
  intros He (v1 & v1' & bps & h & Hbss & Hrs & Hv1 & Hv1' & Hlt & Hb & Hr & Hin). destruct Hnc as [Nr Nb].
  destruct (Hh e He) as (w1 & hbps & _ & Hw1 & Hwe & Hhb & Hbps). simplify_eq.
  rewrite (Nb bps hbps _ Hbss (ex_intro _ _ (conj He Hhb)) Hb Hbps) in Hin.
  apply list_elem_of_lookup in Hin as (i & Hi).
  destruct (Forall2_lookup_r _ _ _ _ _ Hhb Hi) as (e' & He' & Heq & Hhash). simpl in *. subst e'.
  apply list_elem_of_lookup_2 in He'. apply backptr_range in He'; [|lia].
  exists (r1Epno v1'). split; [done|]. eapply Nr; [done| |done..]. exists (r1Epno v1'). split; [lia|done].
Qed.

Lemma chain_via_history e r' :
  1 ≤ e ≤ N → tc (points_via (examined_roots c right left) (examined_bps c right left)) (hist e) r' →
  ∃ e', 1 ≤ e' < e ∧ r' = hist e'.
Proof.
  intros He Htc. remember (hist e) as r eqn:Hr. revert e He Hr.
  induction Htc as [r r' Hp|r r1 r' Hp Htc IH]; intros e He ->.
  - by apply points_via_history.
  - destruct (points_via_history _ _ He Hp) as (e1 & He1 & ->).
    destruct (IH e1 ltac:(lia) eq_refl) as (e' & He' & ->). exists e'. split; [lia|done].
Qed.
End agree.

(** C33: fork consistency.  If the root a session starts from is the host's root of
    its epoch, then every historical root the session accepts is the host's root
    of its epoch, unless one of the roots or back pointers that the check looked at has the
    hash of a different one in the host's history. *)
Theorem historical_root_agrees (c c' : C) s st root o N hist :
  history N hist → N < 2 ^ 64 → rootAtStart s = Some st → openRoot (oR st) = Ok st →
  1 ≤ oEpno st ≤ N → oR st = hist (oEpno st) →
  openRoot root = Ok o → 1 ≤ oEpno o → examined_no_clash c st o N hist →
  CheckHistoricalRoot c s root = Ok c' → root = hist (oEpno o).
Proof.
  intros Hh HN Hst Hso Hse Hsr Ho Ho1 Hnc Hchk. unfold CheckHistoricalRoot in Hchk.
  rewrite Ho, Hst in Hchk. cbn [of_option mbind result_bind] in Hchk.
  pose proof (openRoot_Ok _ _ Ho) as (HoR & _ & Hv & Hhash).
  destruct (Z.ltb_spec (oEpno st) (oEpno o)); [done|].
  destruct (Z.eqb_spec (oEpno o) (oEpno st)) as [Heq|Hne].
  - apply bind_Ok in Hchk as (u & Hg & _). apply guard_err_Ok, negb_false_iff, bool_decide_eq_true in Hg.
    apply openRoot_Ok in Hso as (_ & _ & _ & Hs). rewrite Hg in Hhash. rewrite Hsr in Hs.
    destruct Hnc as [Nr _]. rewrite Heq. eapply Nr; [rewrite <- HoR; left|by eauto|done..].
  - apply checkSkipPointers_via in Hchk; [|done|by rewrite HoR|done|lia].
    rewrite Hsr, HoR in Hchk.
    destruct (chain_via_history _ _ _ _ _ Hh HN Hnc _ _ Hse Hchk) as (e' & He' & Hr).
    destruct (Hh e' ltac:(lia)) as (v1 & _ & _ & Hv1 & Hve & _).
    rewrite Hr in Hv. rewrite Hv1 in Hv. simplify_eq. unfold oEpno. done.
Qed.
End guarantees.
