(* ===== verification/MerkleCache.v ===== *)
(** * The client's root cache

    The local storage of [client/libclient/merkle_agent.go] as an instance of the
    session's [ClientInterface]: a counter for the latest epoch (the hard
    database) and two soft tables, hashes by epoch and roots by hash.  The
    server's answers are a function.  The witnesses of the session theorems run
    over this cache with a toy codec whose hashes are 32 bytes long. *)
From S2P Require Import Prelude Bits SkipPointers MerkleTypes MerkleSession.
Local Open Scope Z_scope.

Record LocalStorage := {
  MerkleLatestEpno : option Z;
  MerkleRootHashByEpno : gmap Z bytes;
  MerkleRootByHash : gmap bytes MerkleRoot;
  server : list Z → list Z → result (list MerkleRoot * list bytes)
}.

Definition Ls_GetRootHashFromCache (a : LocalStorage) (ep : Z) : result (option bytes) :=
  Ok (MerkleRootHashByEpno a !! ep).

Definition getRootWithHash (a : LocalStorage) (hsh : bytes) : result (option MerkleRoot) :=
  Ok (MerkleRootByHash a !! hsh).

Definition Ls_GetRootFromCache (a : LocalStorage) (ep : Z) : result (option MerkleRoot) :=
  hsh ← Ls_GetRootHashFromCache a ep;
  match hsh with None => Ok None | Some h => getRootWithHash a h end.

Definition Ls_GetLatestRootFromCache (a : LocalStorage) : result (option MerkleRoot) :=
  match MerkleLatestEpno a with
  | None => Ok None
  | Some c => Ls_GetRootFromCache a (wrap64 c)
  end.

(** [ON CONFLICT DO UPDATE SET val=$3 WHERE val<$3]: the counter never decreases. *)
Definition put_counter (old : option Z) (val : Z) : option Z :=
  match old with
  | None => Some val
  | Some v => if v <? val then Some val else Some v
  end.

Definition Ls_Store (a : LocalStorage) (ep : Z) (h : option bytes) (r : option MerkleRoot)
    (latest : bool) : result LocalStorage :=
  hsh ← of_option (InternalError "hash must be non-nil") h;
  _ ← guard_err ((ep =? 0) && bool_decide (r = None)) (InternalError "nothing to store");
  _ ← guard_err (latest && (ep =? 0)) (InternalError "cannot store latest without epno");
  Ok {| MerkleLatestEpno := if latest then put_counter (MerkleLatestEpno a) (wrap_int ep)
                            else MerkleLatestEpno a;
        MerkleRootHashByEpno := if 0 <? ep then <[ep := hsh]> (MerkleRootHashByEpno a)
                                else MerkleRootHashByEpno a;
        MerkleRootByHash := match r with
                            | Some root => <[hsh := root]> (MerkleRootByHash a)
                            | None => MerkleRootByHash a
                            end;
        server := server a |}.

#[global] Instance LocalStorage_client : ClientInterface LocalStorage := {|
  GetRootHashFromCache := Ls_GetRootHashFromCache;
  GetRootFromCache := Ls_GetRootFromCache;
  GetLatestRootFromCache := Ls_GetLatestRootFromCache;
  Store := Ls_Store;
  GetRootsFromServer a := server a
|}.

(** ** The latest epoch never goes back *)
Definition latest_le (a b : LocalStorage) : Prop :=
  ∀ e, MerkleLatestEpno a = Some e → ∃ e', MerkleLatestEpno b = Some e' ∧ e ≤ e'.

#[global] Instance latest_le_preorder : PreOrder latest_le.
Proof.
  split.
  - intros a e He. eauto with lia.
  - intros a b c Hab Hbc e He. destruct (Hab e He) as (e1 & H1 & ?).
    destruct (Hbc e1 H1) as (e2 & H2 & ?). exists e2. split; [done|lia].
Qed.

Lemma Ls_Store_latest a ep h r l a' : Ls_Store a ep h r l = Ok a' → latest_le a a'.
Proof.
  unfold Ls_Store. intros Hs. inv_ok. intros e He. simpl. destruct l; [|by eauto with lia].
  rewrite He. simpl. destruct (Z.ltb_spec e (wrap_int ep)); eauto with lia.
Qed.

Section monotone.
Context `{Codec}.

Lemma store_roots_latest (a a' : LocalStorage) re needed new hm :
  store_roots a re needed new hm = Ok a' → latest_le a a'.
Proof.
  revert a needed. induction new as [|x new IH]; intros a [|n needed] Hs; simpl in Hs; simplify_eq; try done.
  apply bind_Ok in Hs as (a1 & H1 & H2). trans a1; [|by eapply IH].
  destruct (n =? re); [by simplify_eq|]. by eapply Ls_Store_latest.
Qed.

Lemma store_hashes_latest (a a' : LocalStorage) re needed new :
  store_hashes a re needed new = Ok a' → latest_le a a'.
Proof.
  revert a needed. induction new as [|x new IH]; intros a [|n needed] Hs; simpl in Hs; simplify_eq; try done.
  apply bind_Ok in Hs as (a1 & H1 & H2). trans a1; [|by eapply IH].
  destruct (n =? re); [by simplify_eq|]. by eapply Ls_Store_latest.
Qed.

Lemma checkSkipPointers_latest (a a' : LocalStorage) rgt lft :
  checkSkipPointersFromAtoB a rgt lft = Ok a' → latest_le a a'.
Proof.
  unfold checkSkipPointersFromAtoB. intros Hc. apply bind_Ok in Hc as (u & _ & Hc).
  apply bind_Ok in Hc as ([[[[path rm] hm] [nr newR]] [nh newH]] & _ & Hc).
  apply bind_Ok in Hc as (bps & _ & Hc). apply bind_Ok in Hc as (u2 & _ & Hc).
  apply bind_Ok in Hc as (a1 & H1 & H2).
  trans a1; [by eapply store_roots_latest|by eapply store_hashes_latest].
Qed.

(** With the local cache, the latest known epoch never decreases, also when two
    sessions race and the slower one ends with an older root. *)
Theorem run_latest_monotone (a a' : LocalStorage) s latest e :
  Run a s latest = Ok a' → MerkleLatestEpno a = Some e →
  ∃ e', MerkleLatestEpno a' = Some e' ∧ e ≤ e'.
Proof.
  intros Hrun. revert e. change (latest_le a a'). unfold Run in Hrun.
  apply bind_Ok in Hrun as (u1 & _ & Hrun). apply bind_Ok in Hrun as (o & _ & Hrun).
  apply bind_Ok in Hrun as ([ex|] & _ & Hrun).
  - apply bind_Ok in Hrun as (u2 & _ & Hrun). apply bind_Ok in Hrun as (u3 & _ & Hrun).
    destruct (oEpno o =? oEpno ex); [by apply bind_Ok in Hrun as (u4 & _ & [= <-])|].
    destruct (oEpno o <? oEpno ex); apply bind_Ok in Hrun as (a1 & H1 & H2);
      (trans a1; [by eapply checkSkipPointers_latest|exact (Ls_Store_latest _ _ _ _ _ _ H2)]).
  - destruct (rootAtStart s); [done|]. exact (Ls_Store_latest _ _ _ _ _ _ Hrun).
Qed.
End monotone.

(** ** A run with 32-byte hashes *)
Definition toy_hash (l : bytes) : bytes :=
  let x := foldl (λ acc b, ((acc * 263 + b + 1) mod (2 ^ 256 - 189))%Z) 7 l in
  map (λ i, (x / 256 ^ (31 - Z.of_nat i)) mod 256) (seq 0 32).
Definition toy_enc_root (r : MerkleRoot) : bytes :=
  rV r :: match rF1 r with
          | None => []
          | Some r1 => [r1Epno r1; r1Time r1; Seqno (r1Hostchain r1);
                        len (r1BackPointers r1); len (r1RootNode r1)] ++
              r1BackPointers r1 ++ r1RootNode r1 ++ htHash (r1Hostchain r1)
          end.
Definition toy_enc_bps (bps : list MerkleBackPointer) : bytes :=
  bps ≫= λ b, bpEpno b :: len (bpHash b) :: bpHash b.

#[local] Instance toy_codec : Codec := {|
  uid_bytes u := [];
  sha512_256 := toy_hash;
  enc_MerkleNode n := Ok [];
  enc_MerkleRoot r := Ok (toy_enc_root r);
  enc_MerkleBackPointers bps := Ok (toy_enc_bps bps);
  dec_MerkleRoot b := Err (CodecError "not used");
  dec_Signature b := Ok b
|}.

(** Three epochs of a host, each root built over the earlier ones. *)
Definition toy_root (e : Z) (prev : list (Z * MerkleRoot)) : MerkleRoot :=
  let hash_of e' := match (list_to_map prev : gmap Z MerkleRoot) !! e' with
                    | Some r => match HashRoot r with Ok h => h | Err _ => [] end
                    | None => []
                    end in
  let bps := (λ e', {| bpEpno := e'; bpHash := hash_of e' |}) <$> MerkleBackpointerSequence e in
  NewMerkleRootWithV1
    {| r1Epno := e; r1Time := 1000 + e;
       r1BackPointers := match HashBackPointers bps with Ok h => h | Err _ => [] end;
       r1RootNode := [e]; r1Hostchain := {| Seqno := 1; htHash := [] |} |}.

Definition toy_roots : list (Z * MerkleRoot) :=
  Eval vm_compute in foldl (λ acc e, (e, toy_root e acc) :: acc) [] [1; 2; 3].
Definition toy_hist (e : Z) : MerkleRoot :=
  default (NewMerkleRootWithV1 {| r1Epno := 0; r1Time := 0; r1BackPointers := []; r1RootNode := [];
             r1Hostchain := {| Seqno := 0; htHash := [] |} |})
    ((list_to_map toy_roots : gmap Z MerkleRoot) !! e).

Definition toy_server (roots hashes : list Z) : result (list MerkleRoot * list bytes) :=
  Ok (toy_hist <$> roots, (λ e, match HashRoot (toy_hist e) with Ok h => h | Err _ => [] end) <$> hashes).
Definition toy_empty : LocalStorage :=
  {| MerkleLatestEpno := None; MerkleRootHashByEpno := ∅; MerkleRootByHash := ∅;
     server := toy_server |}.
Definition toy_open (e : Z) : openedRoot :=
  match openRoot (toy_hist e) with
  | Ok o => o
  | Err _ => {| oR := toy_hist e; oV1 := {| r1Epno := 0; r1Time := 0; r1BackPointers := [];
                r1RootNode := []; r1Hostchain := {| Seqno := 0; htHash := [] |} |}; oH := [] |}
  end.
Definition run_cache (r : result LocalStorage) : LocalStorage :=
  match r with Ok a => a | Err _ => toy_empty end.
Definition toy_session (e : Z) : Session :=
  {| rootAtStart := Some (toy_open e); isInit := true |}.
(** The cache after accepting epoch 1, then epoch 3. *)
Definition toy_cache1 : LocalStorage := run_cache (CheckAndStoreLatestRoot toy_empty (toy_hist 1)).
Definition toy_cache3 : LocalStorage := run_cache (Run toy_cache1 (toy_session 1) (toy_hist 3)).

Lemma run_cache_ok r : is_ok r = true → r = Ok (run_cache r).
Proof. by destruct r. Qed.

#[local] Instance openedRoot_eq_dec : EqDecision openedRoot.
Proof. solve_decision. Defined.

(** Decides an equation by evaluating it to a boolean. *)
Ltac toy_decide := apply (bool_decide_unpack _); vm_compute; exact I.
Ltac toy_run := apply run_cache_ok; vm_compute; reflexivity.

Definition toy_bps (e : Z) : list MerkleBackPointer :=
  (λ e', {| bpEpno := e'; bpHash := match HashRoot (toy_hist e') with Ok h => h | Err _ => [] end |}) <$> MerkleBackpointerSequence e.
Lemma toy_epochs e : 1 ≤ e ≤ 3 → e ∈ [1; 2; 3].
Proof. intros ?. assert (e = 1 ∨ e = 2 ∨ e = 3) as [->|[->| ->]] by lia; set_solver. Qed.
Lemma toy_host_bps e : host_bps toy_hist e (toy_bps e).
Proof. apply Forall2_fmap_r, Forall_Forall2_diag, Forall_true. intros e'. split; [done|]. unfold HashRoot, PrefixedHashInto. done. Qed.
Lemma host_bps_unique hist e bps bps' : host_bps hist e bps → host_bps hist e bps' → bps = bps'.
Proof.
  unfold host_bps. generalize (MerkleBackpointerSequence e). intros l Hl. revert bps'.
  induction Hl as [|e' [? ?] l bps [He Hh] _ IH]; intros bps'; inversion 1 as [|? [? ?] ? ? [He' Hh'] Hr]; subst; [done|].
  simpl in *. simplify_eq. rewrite Hh in Hh'. simplify_eq. f_equal. by apply IH.
Qed.

Lemma toy_history : history 3 toy_hist.
Proof.
  intros e He%toy_epochs. exists (oV1 (toy_open e)), (toy_bps e). split_and!; [| | |apply toy_host_bps|];
    repeat (apply elem_of_cons in He as [->|He]; [vm_compute; reflexivity|]); by apply not_elem_of_nil in He.
Qed.

(** Over a finite list of the host's values, the absence of clashes is a computation. *)
Lemma no_clash_list {A} `{EqDecision A} (hash : A → result bytes) (l l' : list A) (hosts : A → Prop) :
  (∀ y, hosts y → y ∈ l') →
  forallb (λ x, forallb (λ y, bool_decide (x = y) || negb (bool_decide (hash x = hash y))) l') l = true →
  no_clash hash l hosts.
Proof.
  intros Hl' Hc x y h Hx Hy Ex Ey. rewrite forallb_forall in Hc. specialize (Hc x (proj1 (list_elem_of_In _ _) Hx)).
  rewrite forallb_forall in Hc. specialize (Hc y (proj1 (list_elem_of_In _ _) (Hl' _ Hy))).
  rewrite Ex, Ey, (bool_decide_true (Ok h = Ok h)), orb_false_r in Hc by done. by apply bool_decide_eq_true in Hc.
Qed.
Lemma toy_no_clash : examined_no_clash toy_cache3 (toy_open 3) (toy_open 1) 3 toy_hist.
Proof.
  split; [apply (no_clash_list _ _ (toy_hist <$> [1; 2; 3]))|apply (no_clash_list _ _ (toy_bps <$> [1; 2; 3]))].
  - intros r (e & He & ->). by apply list_elem_of_fmap_2, toy_epochs.
  - vm_compute. reflexivity.
  - intros bps (e & He & Hb). rewrite (host_bps_unique _ _ _ _ Hb (toy_host_bps e)). by apply list_elem_of_fmap_2, toy_epochs.
  - vm_compute. reflexivity.
Qed.

Lemma toy_epno1 : oEpno (toy_open 1) = 1.
Proof. vm_compute. reflexivity. Qed.
Lemma toy_epno3 : oEpno (toy_open 3) = 3.
Proof. vm_compute. reflexivity. Qed.
Ltac toy_epnos := unfold epno_ok in *; rewrite ?toy_epno1, ?toy_epno3 in *; lia.

(** ** Witnesses *)
Lemma session_run_consistent_witness :
  tc points_to (toy_hist 3) (toy_hist 1).
Proof.
  destruct (session_run_consistent toy_cache1 toy_cache3 (toy_session 1) (toy_hist 3) (toy_open 3)
              (toy_open 1)) as [[[_ Heq]|[[_ Htc]|[Hlt _]]] _].
  - toy_run.
  - toy_decide.
  - toy_decide.
  - toy_epnos.
  - toy_epnos.
  - exfalso. toy_epnos.
  - exact Htc.
  - exfalso. toy_epnos.
Defined.

Lemma session_run_rollback_witness :
  Run toy_cache3 (toy_session 3) (toy_hist 1) = Err (MerkleRollbackError 3 1).
Proof.
  rewrite (session_run_rollback toy_cache3 (toy_session 3) (toy_hist 1) (toy_open 1) (toy_open 3)
             (toy_open 3)).
  - rewrite toy_epno1, toy_epno3. reflexivity.
  - reflexivity.
  - toy_decide.
  - toy_decide.
  - reflexivity.
  - toy_epnos.
  - toy_epnos.
Defined.

(** A cache whose reads of the latest root fail. *)
Record BrokenCache := { inner : LocalStorage }.
#[local] Instance BrokenCache_client : ClientInterface BrokenCache := {|
  GetRootHashFromCache c := Ls_GetRootHashFromCache (inner c);
  GetRootFromCache c := Ls_GetRootFromCache (inner c);
  GetLatestRootFromCache c := Err (DataError "disk read error");
  Store c ep h r l := a ← Ls_Store (inner c) ep h r l; Ok {| inner := a |};
  GetRootsFromServer c := server (inner c)
|}.

Lemma cache_error_disables_check_witness :
  is_ok (CheckAndStoreLatestRoot {| inner := toy_cache3 |} (toy_hist 1)) = true.
Proof.
  rewrite (cache_error_disables_check {| inner := toy_cache3 |} (DataError "disk read error")
             (toy_hist 1) (toy_open 1)).
  - vm_compute. reflexivity.
  - reflexivity.
  - toy_decide.
Defined.

Lemma historical_root_agrees_witness : toy_hist 1 = toy_hist (oEpno (toy_open 1)).
Proof.
  apply (historical_root_agrees toy_cache3
           (run_cache (CheckHistoricalRoot toy_cache3 (toy_session 3) (toy_hist 1)))
           (toy_session 3) (toy_open 3) (toy_hist 1) (toy_open 1) 3 toy_hist).
  - exact toy_history.
  - lia.
  - reflexivity.
  - toy_decide.
  - toy_epnos.
  - toy_decide.
  - toy_decide.
  - toy_epnos.
  - exact toy_no_clash.
  - toy_run.
Defined.

Lemma run_latest_monotone_witness :
  ∃ e', MerkleLatestEpno toy_cache3 = Some e' ∧ 1 ≤ e'.
Proof.
  apply (run_latest_monotone toy_cache1 toy_cache3 (toy_session 1) (toy_hist 3) 1).
  - toy_run.
  - toy_decide.
Defined.
