(* ===== verification/Role.v ===== *)
(** * Roles ([proto/lib/extras.go], [proto/lib/chains.go], [lib/core/role.go])

    A role is a tagged union on the wire ([Role]: a [RoleType] and, for a member,
    a pointer to its visibility level) and a flat comparable key ([RoleKey]) in
    memory, where it indexes maps and is compared.  [RoleType] and [VizLevel] are
    Go integers, so both hold values outside the four constants; [validate] is the
    check that refuses them.  The theorems show that the three comparisons of
    [RoleKey] are one total order, that import and export are inverse on valid
    roles, that [Role.IsAtOrAbove] is that order, and where [Role.Cmp] leaves it. *)
From S2P Require Import Prelude.

(** ** The wire type ([proto/lib/chains.go]) *)
Abbreviation RoleType := Z.
Definition RoleType_NONE : RoleType := 0.
Definition RoleType_MEMBER : RoleType := 1.
Definition RoleType_ADMIN : RoleType := 2.
Definition RoleType_OWNER : RoleType := 3.

Abbreviation VizLevel := Z.
Definition VizLevelMin : VizLevel := -32768.
Definition VizLevelKvMin : VizLevel := -0x4000.
Definition VizLevelMax : VizLevel := 32767.

Record Role := mkRole { role_T : RoleType; role_F0 : option VizLevel }.

#[global] Instance Role_eq_dec : EqDecision Role.
Proof. solve_decision. Defined.

Definition GetT (r : Role) : result RoleType :=
  _ ← guard_err ((role_T r =? RoleType_MEMBER)%Z && bool_decide (role_F0 r = None))
        (DataError "unexpected nil case for F_0__");
  Ok (role_T r).

Definition Member (r : Role) : result VizLevel :=
  match role_F0 r with
  | None => Err GoPanic
  | Some v => if (role_T r =? RoleType_MEMBER)%Z then Ok v else Err GoPanic
  end.

Definition NewRoleDefault (s : RoleType) : Role := mkRole s None.
Definition NewRoleWithMember (v : VizLevel) : Role := mkRole RoleType_MEMBER (Some v).

(** ** Operations on the wire type ([proto/lib/extras.go]) *)
Definition Role_Eq (r r2 : Role) : result bool :=
  t1 ← GetT r;
  t2 ← GetT r2;
  if negb (t1 =? t2)%Z then Ok false
  else if negb (t1 =? RoleType_MEMBER)%Z then Ok true
  else v1 ← Member r; v2 ← Member r2; Ok (v1 =? v2)%Z.

Definition RoleType_Cmp (r r2 : RoleType) : Z :=
  if (r =? r2)%Z then 0%Z else if (r <? r2)%Z then (-1)%Z else 1%Z.

Definition Role_ExportToDB (r : Role) : result (Z * Z) :=
  t ← GetT r;
  l ← (if (t =? RoleType_MEMBER)%Z then Member r else Ok 0%Z);
  Ok (t, l).

Definition ImportRoleFromDB (t l : Z) : result Role :=
  if ((t =? RoleType_ADMIN) || (t =? RoleType_OWNER))%Z then
    _ ← guard_err (nz l) (DataError "invalid level for admin or owner");
    Ok (NewRoleDefault t)
  else if (t =? RoleType_MEMBER)%Z then
    _ ← guard_err ((l <? -0xffff) || (0xffff <? l))%Z (DataError "invalid level for member");
    Ok (NewRoleWithMember l)
  else Err (DataError "invalid role type").

Definition Role_Cmp (r r2 : Role) : result Z :=
  t1 ← GetT r;
  t2 ← GetT r2;
  let res := RoleType_Cmp t1 t2 in
  if nz res then Ok res
  else if negb (t1 =? RoleType_MEMBER)%Z then Ok 0%Z
  else l1 ← Member r;
       l2 ← Member r2;
       if (l1 <? l2)%Z then Ok (-1)%Z
       else if (l1 <? l2)%Z then Ok 1%Z
       else Ok 0%Z.

Definition Role_GreaterThan (r r2 : Role) : result bool := c ← Role_Cmp r r2; Ok (0 <? c)%Z.
Definition Role_LessThan (r r2 : Role) : result bool := c ← Role_Cmp r r2; Ok (c <? 0)%Z.

Definition Role_AssertEq (r r2 : Role) (neqErr : error) : result () :=
  eq ← Role_Eq r r2;
  if negb eq then Err neqErr else Ok ().

Definition RoleType_IsAdminOrAbove (r : RoleType) : bool := (0 <=? RoleType_Cmp r RoleType_ADMIN)%Z.

Definition Role_IsAdminOrAbove (r : Role) : result bool :=
  typ ← GetT r; Ok (RoleType_IsAdminOrAbove typ).

Definition Role_IsNone (r : Role) : result bool := typ ← GetT r; Ok (typ =? RoleType_NONE)%Z.

Definition Role_IsAtOrAbove (r r2 : Role) : result bool :=
  typ ← GetT r;
  typ2 ← GetT r2;
  let tmp := RoleType_Cmp typ typ2 in
  if (tmp <? 0)%Z then Ok false
  else if (0 <? tmp)%Z then Ok true
  else if ((tmp =? 0) && (typ =? RoleType_MEMBER))%Z then
    v ← Member r; v2 ← Member r2; Ok (v2 <=? v)%Z
  else if ((tmp =? 0) && negb (typ =? RoleType_MEMBER))%Z then Ok true
  else Ok false.

Definition SimpleEq (r r2 : Role) : result bool :=
  if negb (role_T r =? role_T r2)%Z then Ok false
  else if (role_T r =? RoleType_MEMBER)%Z then
    v ← Member r; v2 ← Member r2; Ok (v =? v2)%Z
  else Ok true.

Definition SimpleCmp (r r2 : Role) : result Z :=
  if negb (role_T r =? role_T r2)%Z then Ok (wrap_int (role_T r - role_T r2))
  else if (role_T r =? RoleType_MEMBER)%Z then
    v ← Member r; v2 ← Member r2; Ok (wrap_int (v - v2))
  else Ok 0%Z.

(** ** The comparable key ([lib/core/role.go]) *)
Record RoleKey := mkRoleKey { Typ : RoleType; Lev : VizLevel }.

#[global] Instance RoleKey_eq_dec : EqDecision RoleKey.
Proof. solve_decision. Defined.
#[global] Instance RoleKey_countable : Countable RoleKey.
Proof.
  apply (inj_countable' (λ r, (Typ r, Lev r)) (λ p, mkRoleKey p.1 p.2)). by intros [].
Defined.
#[global] Instance RoleKey_inhabited : Inhabited RoleKey := populate (mkRoleKey 0 0).

Definition OwnerRole : RoleKey := mkRoleKey RoleType_OWNER 0.
Definition AdminRole : RoleKey := mkRoleKey RoleType_ADMIN 0.
Definition MemberRole : RoleKey := mkRoleKey RoleType_MEMBER 0.
Definition KVMinRole : RoleKey := mkRoleKey RoleType_MEMBER VizLevelKvMin.

Definition validate (r : RoleKey) : result () :=
  if (Typ r =? RoleType_MEMBER)%Z then
    guard_err ((Lev r <? -32768) || (32768 <=? Lev r))%Z (ValidationError "invalid viz level")
  else if ((Typ r =? RoleType_ADMIN) || (Typ r =? RoleType_OWNER) || (Typ r =? RoleType_NONE))%Z then
    guard_err (nz (Lev r)) (ValidationError "invalid viz level")
  else Err (ValidationError "invalid role type").

Definition ImportRole (p : Role) : result RoleKey :=
  rt ← GetT p;
  viz ← (if (rt =? RoleType_MEMBER)%Z then Member p else Ok 0%Z);
  let ret := mkRoleKey rt viz in
  _ ← validate ret;
  Ok ret.

Definition ImportRoleKeyFromDB (rt vl : Z) : result RoleKey :=
  let ret := mkRoleKey rt vl in
  _ ← validate ret;
  Ok ret.

Definition Export (r : RoleKey) : Role :=
  if (Typ r =? RoleType_MEMBER)%Z then NewRoleWithMember (Lev r) else NewRoleDefault (Typ r).

Definition LessThan (r r2 : RoleKey) : bool :=
  if (Typ r <? Typ r2)%Z then true
  else if (Typ r2 <? Typ r)%Z then false
  else (Lev r <? Lev r2)%Z.

Definition LessThanOrEqual (r r2 : RoleKey) : bool :=
  if (Typ r <? Typ r2)%Z then true
  else if (Typ r2 <? Typ r)%Z then false
  else (Lev r <=? Lev r2)%Z.

Definition RoleKey_Eq (r r2 : RoleKey) : bool := (Typ r =? Typ r2)%Z && (Lev r =? Lev r2)%Z.

Definition RoleKey_Cmp (r r2 : RoleKey) : Z :=
  if (Typ r <? Typ r2)%Z then (-1)%Z
  else if (Typ r2 <? Typ r)%Z then 1%Z
  else if (Lev r <? Lev r2)%Z then (-1)%Z
  else if (Lev r2 <? Lev r)%Z then 1%Z
  else 0%Z.

Definition IsOwner (r : RoleKey) : bool := (Typ r =? RoleType_OWNER)%Z.
Definition RoleKey_IsAdminOrAbove (r : RoleKey) : bool := RoleType_IsAdminOrAbove (Typ r).
Definition RoleKey_IsNone (r : RoleKey) : bool := (Typ r =? RoleType_NONE)%Z.

Record SharedKeyGen := mkSharedKeyGen { skgRole : Role; skgGen : Z }.

Fixpoint import_gens (skg : list SharedKeyGen) (ret : gmap RoleKey Z) : result (gmap RoleKey Z) :=
  match skg with
  | [] => Ok ret
  | v :: skg' => rk ← ImportRole (skgRole v); import_gens skg' (<[rk := skgGen v]> ret)
  end.
Definition ImportSharedKeyGens (skg : list SharedKeyGen) : result (gmap RoleKey Z) :=
  import_gens skg ∅.

(** ** The order *)
Definition rk_le (r r2 : RoleKey) : Prop :=
  (Typ r < Typ r2 ∨ Typ r = Typ r2 ∧ Lev r ≤ Lev r2)%Z.
Definition rk_lt (r r2 : RoleKey) : Prop :=
  (Typ r < Typ r2 ∨ Typ r = Typ r2 ∧ Lev r < Lev r2)%Z.

(** Case analysis on every integer test in the goal and the hypotheses. *)
Ltac z_cases :=
  repeat match goal with
  | |- context [(?a =? ?b)%Z] => destruct (Z.eqb_spec a b)
  | |- context [(?a <? ?b)%Z] => destruct (Z.ltb_spec a b)
  | |- context [(?a <=? ?b)%Z] => destruct (Z.leb_spec a b)
  | H : context [(?a =? ?b)%Z] |- _ => destruct (Z.eqb_spec a b)
  | H : context [(?a <? ?b)%Z] |- _ => destruct (Z.ltb_spec a b)
  | H : context [(?a <=? ?b)%Z] |- _ => destruct (Z.leb_spec a b)
  end.

Ltac unfold_role_types :=
  unfold RoleType_NONE, RoleType_MEMBER, RoleType_ADMIN, RoleType_OWNER in *.

(** Goals on the order of role keys, by arithmetic on their two fields. *)
Ltac rk_lia :=
  repeat match goal with r : RoleKey |- _ => destruct r end;
  unfold rk_le, rk_lt, OwnerRole, AdminRole, MemberRole, KVMinRole in *;
  unfold_role_types; simpl in *; lia.

Lemma LessThan_spec r r2 : LessThan r r2 = true ↔ rk_lt r r2.
Proof. unfold LessThan, rk_lt. z_cases; lia. Qed.
Lemma LessThan_false r r2 : LessThan r r2 = false ↔ rk_le r2 r.
Proof. unfold LessThan, rk_le. z_cases; lia. Qed.
Lemma LessThanOrEqual_spec r r2 : LessThanOrEqual r r2 = true ↔ rk_le r r2.
Proof. unfold LessThanOrEqual, rk_le. z_cases; lia. Qed.
Lemma RoleKey_Eq_spec r r2 : RoleKey_Eq r r2 = true ↔ r = r2.
Proof. destruct r, r2; unfold RoleKey_Eq; simpl. z_cases; naive_solver. Qed.
Lemma RoleKey_Cmp_lt r r2 : (RoleKey_Cmp r r2 < 0)%Z ↔ rk_lt r r2.
Proof. unfold RoleKey_Cmp, rk_lt. z_cases; lia. Qed.
Lemma RoleKey_Cmp_gt r r2 : (0 < RoleKey_Cmp r r2)%Z ↔ rk_lt r2 r.
Proof. unfold RoleKey_Cmp, rk_lt. z_cases; lia. Qed.
Lemma RoleKey_Cmp_eq r r2 : RoleKey_Cmp r r2 = 0%Z ↔ r = r2.
Proof.
  destruct r, r2; unfold RoleKey_Cmp; simpl.
  z_cases; split; intros; simplify_eq; try lia; f_equal; lia.
Qed.
Lemma RoleKey_Cmp_le r r2 : (RoleKey_Cmp r r2 ≤ 0)%Z ↔ rk_le r r2.
Proof. unfold RoleKey_Cmp, rk_le. z_cases; lia. Qed.

#[global] Instance rk_le_dec r r2 : Decision (rk_le r r2).
Proof. unfold rk_le. apply _. Defined.
#[global] Instance rk_lt_dec r r2 : Decision (rk_lt r r2).
Proof. unfold rk_lt. apply _. Defined.
#[global] Instance rk_le_preorder : PreOrder rk_le.
Proof. split; [intros r|intros r1 r2 r3]; rk_lia. Qed.
#[global] Instance rk_le_antisym : AntiSymm (=) rk_le.
Proof. intros [] []; unfold rk_le; simpl; intros. f_equal; lia. Qed.
#[global] Instance rk_le_total : Total rk_le.
Proof. intros r1 r2; rk_lia. Qed.

Lemma rk_le_not_lt r r2 : rk_le r r2 ↔ ¬ rk_lt r2 r.
Proof. rk_lia. Qed.
Lemma rk_lt_le_trans r1 r2 r3 : rk_lt r1 r2 → rk_le r2 r3 → rk_lt r1 r3.
Proof. rk_lia. Qed.
Lemma rk_lt_irrefl r : ¬ rk_lt r r.
Proof. rk_lia. Qed.

Lemma RoleType_IsAdminOrAbove_spec t : RoleType_IsAdminOrAbove t = true ↔ (2 ≤ t)%Z.
Proof.
  unfold RoleType_IsAdminOrAbove, RoleType_Cmp; unfold_role_types. z_cases; lia.
Qed.

#[export] Hint Rewrite LessThan_spec LessThan_false LessThanOrEqual_spec RoleKey_Eq_spec
  RoleType_IsAdminOrAbove_spec : foks.

(** ** Validity *)
Definition rk_valid (r : RoleKey) : Prop :=
  (Typ r = RoleType_MEMBER ∧ VizLevelMin ≤ Lev r ≤ VizLevelMax ∨
   (Typ r = RoleType_ADMIN ∨ Typ r = RoleType_OWNER ∨ Typ r = RoleType_NONE) ∧ Lev r = 0)%Z.

#[global] Instance rk_valid_dec r : Decision (rk_valid r).
Proof. unfold rk_valid. apply _. Defined.

Lemma validate_spec r u : validate r = Ok u ↔ rk_valid r.
Proof.
  destruct u. unfold validate, rk_valid, nz, VizLevelMin, VizLevelMax, guard_err.
  unfold_role_types. z_cases; simpl; split; intros; try done; lia.
Qed.

Lemma validate_bind {A} r (x : result A) a :
  (validate r ≫= λ _, x) = Ok a ↔ rk_valid r ∧ x = Ok a.
Proof.
  rewrite bind_Ok. split.
  - intros (? & Hv & Hx). by apply validate_spec in Hv.
  - intros [Hv Hx]. exists (). by rewrite validate_spec.
Qed.

Lemma rk_valid_level r : rk_valid r → Typ r ≠ RoleType_MEMBER → Lev r = 0%Z.
Proof. unfold rk_valid. tauto. Qed.

Lemma ImportRole_Ok p k :
  ImportRole p = Ok k ↔
  rk_valid k ∧ role_T p = Typ k ∧ (Typ k = RoleType_MEMBER → role_F0 p = Some (Lev k)).
Proof.
  destruct p as [t v], k as [t' v']. unfold ImportRole, GetT, Member; simpl.
  destruct (Z.eqb_spec t RoleType_MEMBER) as [->|Hne]; [destruct v; simpl|simpl].
  - etrans; [apply validate_bind|]. naive_solver.
  - naive_solver.
  - apply Z.eqb_neq in Hne as Hb. rewrite Hb; simpl.
    etrans; [apply validate_bind|]. split; [naive_solver|]. intros (Hv & -> & _).
    pose proof (rk_valid_level _ Hv Hne) as Hl. simpl in Hl. by subst.
Qed.

Lemma ImportRole_valid p k : ImportRole p = Ok k → rk_valid k.
Proof. by intros [? _]%ImportRole_Ok. Qed.

Lemma ImportRoleKeyFromDB_Ok rt vl k :
  ImportRoleKeyFromDB rt vl = Ok k ↔ k = mkRoleKey rt vl ∧ rk_valid k.
Proof. unfold ImportRoleKeyFromDB. rewrite validate_bind. naive_solver. Qed.

Lemma ImportRole_Export k : ImportRole (Export k) = Ok k ↔ rk_valid k.
Proof.
  rewrite ImportRole_Ok. unfold Export.
  destruct (Z.eqb_spec (Typ k) RoleType_MEMBER); simpl; naive_solver.
Qed.

Lemma Export_ImportRole p k :
  ImportRole p = Ok k → Role_Eq p (Export k) = Ok true ∧ Role_ExportToDB p = Ok (Typ k, Lev k).
Proof.
  intros (Hv & HT & Hm)%ImportRole_Ok. pose proof (rk_valid_level _ Hv).
  unfold Role_Eq, Role_ExportToDB, Export, GetT, Member. rewrite HT.
  destruct (Z.eqb_spec (Typ k) RoleType_MEMBER) as [Ht|Ht]; simpl.
  - rewrite Hm by done. simpl. rewrite Ht; simpl. rewrite Z.eqb_refl; done.
  - destruct (Z.eqb_spec (Typ k) RoleType_MEMBER); [done|]. simpl.
    rewrite Z.eqb_refl; simpl. destruct (Z.eqb_spec (Typ k) RoleType_MEMBER); [done|]; simpl.
    by rewrite H.
Qed.

Lemma GetT_imported p k : ImportRole p = Ok k → GetT p = Ok (Typ k).
Proof.
  intros (Hv & HT & Hm)%ImportRole_Ok. unfold GetT. rewrite HT.
  destruct (Z.eqb_spec (Typ k) RoleType_MEMBER); [by rewrite Hm|done].
Qed.

Lemma Member_imported p k :
  ImportRole p = Ok k → Typ k = RoleType_MEMBER → Member p = Ok (Lev k).
Proof.
  intros (Hv & HT & Hm)%ImportRole_Ok Ht. unfold Member. by rewrite Hm, HT, Ht.
Qed.

(** ** Theorems *)

(** The comparisons of role keys are one total order.  [Cmp] is zero exactly on equal
    keys, antisymmetric and transitive; [LessThan], [LessThanOrEqual] and [Eq] are the
    tests of its sign; and every key is at or below [OwnerRole] and above the empty
    role when it is valid. *)
Theorem rolekey_total_order :
  (∀ r r2, RoleKey_Cmp r2 r = (- RoleKey_Cmp r r2)%Z) ∧
  (∀ r r2, RoleKey_Cmp r r2 = 0%Z ↔ r = r2) ∧
  (∀ r1 r2 r3, (RoleKey_Cmp r1 r2 ≤ 0)%Z → (RoleKey_Cmp r2 r3 ≤ 0)%Z →
    (RoleKey_Cmp r1 r3 ≤ 0)%Z) ∧
  (∀ r r2, LessThan r r2 = (RoleKey_Cmp r r2 <? 0)%Z ∧
    LessThanOrEqual r r2 = (RoleKey_Cmp r r2 <=? 0)%Z ∧
    RoleKey_Eq r r2 = (RoleKey_Cmp r r2 =? 0)%Z) ∧
  (∀ r, is_ok (validate r) = true →
    LessThanOrEqual r OwnerRole = true ∧ LessThanOrEqual (mkRoleKey RoleType_NONE 0) r = true).
Proof.
  split_and!.
  - intros. unfold RoleKey_Cmp. z_cases; lia.
  - apply RoleKey_Cmp_eq.
  - intros r1 r2 r3. rewrite !RoleKey_Cmp_le. apply rk_le_preorder.
  - intros. unfold LessThan, LessThanOrEqual, RoleKey_Eq, RoleKey_Cmp.
    split_and!; z_cases; lia.
  - intros r. destruct (validate r) as [u|] eqn:Hv; [|done]. intros _.
    apply validate_spec in Hv. rewrite !LessThanOrEqual_spec. unfold rk_valid in Hv. rk_lia.
Qed.

(** Importing and exporting roles.  A key survives export to the wire and import
    exactly when [validate] accepts it; an imported wire role is equal, as a role, to the
    export of the key it gave; and the pair stored in the database reads back as the
    same key. *)
Theorem role_import_export :
  (∀ k, ImportRole (Export k) = Ok k ↔ is_ok (validate k) = true) ∧
  (∀ p k, ImportRole p = Ok k →
    Role_Eq p (Export k) = Ok true ∧
    ∃ t l, Role_ExportToDB p = Ok (t, l) ∧ ImportRoleKeyFromDB t l = Ok k).
Proof.
  split.
  - intros k. rewrite ImportRole_Export. destruct (validate k) as [u|] eqn:Hv; simpl.
    + apply validate_spec in Hv. done.
    + split; [|done]. intros Hk. apply (validate_spec k ()) in Hk. congruence.
  - intros p k Hp. pose proof (ImportRole_valid _ _ Hp).
    apply Export_ImportRole in Hp as [? ?]. split; [done|]. eexists _, _. split; [done|].
    apply ImportRoleKeyFromDB_Ok. destruct k; done.
Qed.

(** [Role.IsAtOrAbove] on the wire type is the order of the imported keys, and
    [Role.LessThan] is its strict part: neither fails on an importable role. *)
Theorem IsAtOrAbove_is_order p1 p2 k1 k2 :
  ImportRole p1 = Ok k1 → ImportRole p2 = Ok k2 →
  Role_IsAtOrAbove p1 p2 = Ok (LessThanOrEqual k2 k1) ∧
  Role_LessThan p1 p2 = Ok (LessThan k1 k2).
Proof.
  intros H1 H2. pose proof (rk_valid_level _ (ImportRole_valid _ _ H1)) as V1.
  pose proof (rk_valid_level _ (ImportRole_valid _ _ H2)) as V2.
  pose proof (Member_imported _ _ H1) as M1. pose proof (Member_imported _ _ H2) as M2.
  unfold Role_IsAtOrAbove, Role_LessThan, Role_Cmp, RoleType_Cmp, LessThanOrEqual, LessThan, nz.
  rewrite (GetT_imported _ _ H1), (GetT_imported _ _ H2); simpl.
  destruct (Z.eqb_spec (Typ k1) (Typ k2)) as [He|Hne]; simpl.
  - rewrite <- He in *. rewrite Z.ltb_irrefl.
    destruct (Z.eqb_spec (Typ k1) RoleType_MEMBER) as [Hm|Hm]; simpl.
    + rewrite M1, M2 by done; simpl. by destruct (Lev k1 <? Lev k2)%Z.
    + rewrite V1, V2 by done. done.
  - destruct (Z.ltb_spec (Typ k1) (Typ k2)); simpl; z_cases; try lia; done.
Qed.

Lemma IsAtOrAbove_is_order_witness :
  Role_IsAtOrAbove (NewRoleWithMember 5) (NewRoleWithMember 3) = Ok true ∧
  Role_LessThan (NewRoleWithMember 5) (NewRoleWithMember 3) = Ok false.
Proof.
  apply (IsAtOrAbove_is_order _ _ (mkRoleKey 1 5) (mkRoleKey 1 3)); reflexivity.
Defined.

(** [Role.Cmp] documents "1 if r > r2" but never returns 1 between two member roles:
    its second test of the levels repeats the first with the operands swapped, so of two
    different members one comparison gives -1 and the other 0.  [GreaterThan] is therefore
    false on every pair of members, while the key order separates them. *)
Theorem member_GreaterThan_never l1 l2 :
  Role_GreaterThan (NewRoleWithMember l1) (NewRoleWithMember l2) = Ok false ∧
  ((l2 < l1)%Z → Role_Cmp (NewRoleWithMember l1) (NewRoleWithMember l2) = Ok 0%Z ∧
    RoleKey_Cmp (mkRoleKey RoleType_MEMBER l1) (mkRoleKey RoleType_MEMBER l2) = 1%Z).
Proof.
  unfold Role_GreaterThan, Role_Cmp, RoleKey_Cmp; simpl. unfold RoleType_Cmp; simpl.
  split.
  - by destruct (Z.ltb_spec l1 l2).
  - intros. z_cases; try lia. done.
Qed.

Lemma member_GreaterThan_never_witness :
  Role_GreaterThan (NewRoleWithMember 7) (NewRoleWithMember 2) = Ok false ∧
  Role_Cmp (NewRoleWithMember 7) (NewRoleWithMember 2) = Ok 0%Z.
Proof.
  destruct (member_GreaterThan_never 7 2) as [H1 H2].
  split; [exact H1|apply H2; lia].
Defined.
