(* ===== verification/Roster.v ===== *)
(** * Team rosters ([lib/team/core.go], [lib/team/delegation.go])

    The roster of a team (who is a member, at which role, with which key
    generation), the change sets that edit it, the check of who may make which
    change, and the plan of key rotations a change set causes.  This file holds the
    data and the operations; [RosterAuth] proves what the check admits and
    [RosterKeys] what the plan does to the team's keys.

    A Go map that only ever holds [true] is a set here.  Loops over maps run over
    [map_to_list] or [elements]; no result depends on that order, because every
    slice built from one is sorted by a total order before it is returned. *)
From S2P Require Import Prelude Role.

(** ** Sorting

    [golang.org/x/exp/slices.SortFunc] is not part of the repository: the class states
    what its documentation promises, and [merge_sort_func] shows that it can be met. *)
Class SortLib := {
  SortFunc {A : Type} (cmp : A → A → Z) : list A → list A;
  SortFunc_perm {A} (cmp : A → A → Z) l : SortFunc cmp l ≡ₚ l;
  SortFunc_sorted {A} (cmp : A → A → Z) l :
    (∀ x y, (cmp x y ≤ 0 ∨ cmp y x ≤ 0)%Z) →
    (∀ x y z, (cmp x y ≤ 0 → cmp y z ≤ 0 → cmp x z ≤ 0)%Z) →
    StronglySorted (λ x y, (cmp x y ≤ 0)%Z) (SortFunc cmp l)
}.

#[refine] Definition merge_sort_func : SortLib := {|
  SortFunc A cmp l := @merge_sort A (λ x y, (cmp x y ≤ 0)%Z) (λ x y, decide (cmp x y ≤ 0)%Z) l
|}.
Proof.
  - intros. apply merge_sort_Permutation.
  - intros A cmp l Htot Htrans. apply StronglySorted_merge_sort.
    + intros x y z. apply Htrans.
    + intros x y. apply Htot.
Defined.

(** ** Identifiers *)
Abbreviation HostID := bytes.
Abbreviation FixedEntityID := bytes.
(** [len] of the arrays [HostID [33]byte] is the length of the type. *)
Definition HostID_len : Z := 33.

Fixpoint bytes_Compare (a b : bytes) : Z :=
  match a, b with
  | [], [] => 0
  | [], _ => -1
  | _, [] => 1
  | x :: a', y :: b' => if (x <? y)%Z then -1 else if (y <? x)%Z then 1 else bytes_Compare a' b'
  end.

Record FQEntityFixed := mkFQEntityFixed { Entity : FixedEntityID; Host : HostID }.

Definition HostID_Eq (h h2 : HostID) : bool :=
  (0 <? HostID_len)%Z && (0 <? HostID_len)%Z && bool_decide (h = h2).
Definition HostID_FastEq (h h2 : HostID) : bool :=
  (HostID_len =? HostID_len)%Z && (2 <? HostID_len)%Z && bool_decide (h = h2).

Definition FQEntityFixed_Eq (e e2 : FQEntityFixed) : bool :=
  bool_decide (Entity e = Entity e2) && HostID_Eq (Host e) (Host e2).
Definition FQEntityFixed_Cmp (e g : FQEntityFixed) : Z :=
  let x := bytes_Compare (Host e) (Host g) in
  if nz x then x else bytes_Compare (Entity e) (Entity g).

Record MemberID := mkMemberID { Fqe : FQEntityFixed; SrcRole : RoleKey }.

#[global] Instance FQEntityFixed_eq_dec : EqDecision FQEntityFixed.
Proof. solve_decision. Defined.
#[global] Instance FQEntityFixed_countable : Countable FQEntityFixed.
Proof.
  apply (inj_countable' (λ e, (Entity e, Host e)) (λ p, mkFQEntityFixed p.1 p.2)). by intros [].
Defined.
#[global] Instance MemberID_eq_dec : EqDecision MemberID.
Proof. solve_decision. Defined.
#[global] Instance MemberID_countable : Countable MemberID.
Proof.
  apply (inj_countable' (λ m, (Fqe m, SrcRole m)) (λ p, mkMemberID p.1 p.2)). by intros [].
Defined.

Definition MemberID_Eq (m m2 : MemberID) : bool :=
  FQEntityFixed_Eq (Fqe m) (Fqe m2) && RoleKey_Eq (SrcRole m) (SrcRole m2).
Definition MemberID_Cmp (m m2 : MemberID) : Z :=
  let c := FQEntityFixed_Cmp (Fqe m) (Fqe m2) in
  if nz c then c else RoleKey_Cmp (SrcRole m) (SrcRole m2).

(** ** Generations ([proto/lib/extras.go]) *)
Abbreviation Generation := Z.
Definition FirstGeneration : Generation := 1.
Definition Gen_IsFirst (g : Generation) : bool := (g =? FirstGeneration)%Z.
Definition Gen_IsVoid (g : Generation) : bool := (g =? 0)%Z.
Definition Gen_IsValid (g : Generation) : bool := (FirstGeneration <=? g)%Z.

(** ** Rosters *)
Record MemberInfo := mkMemberInfo { miRole : RoleKey; miGen : Generation; miSeqno : Z; miTime : Z }.

#[global] Instance MemberInfo_eq_dec : EqDecision MemberInfo.
Proof. solve_decision. Defined.

Definition MemberInfo_Eq (i i2 : MemberInfo) : bool :=
  RoleKey_Eq (miRole i) (miRole i2) && (miGen i =? miGen i2)%Z && (miSeqno i =? miSeqno i2)%Z.

Abbreviation MemberSet := (gset MemberID).

Record RosterCore := mkRosterCore {
  members : gmap MemberID MemberInfo;
  roleIndex : gmap RoleKey MemberSet
}.

#[global] Instance RosterCore_eq_dec : EqDecision RosterCore.
Proof. solve_decision. Defined.

Definition NewRosterCore : RosterCore := mkRosterCore ∅ ∅.
Definition Roster_Len (r : RosterCore) : Z := Z.of_nat (size (members r)).

Definition hasOwnerLocked (r : RosterCore) : bool :=
  existsb (λ p, (Typ (miRole p.2) =? RoleType_OWNER)%Z) (map_to_list (members r)).

Definition HasOwner (r : option RosterCore) : bool :=
  match r with None => false | Some r => hasOwnerLocked r end.

Definition Has (r : option RosterCore) (m : MemberID) : bool :=
  match r with None => false | Some r => bool_decide (is_Some (members r !! m)) end.

(** [ind, found := r.roleIndex[k]; ...; ind[m] = true] *)
Definition index_add (ix : gmap RoleKey MemberSet) (k : RoleKey) (m : MemberID) : gmap RoleKey MemberSet :=
  let ind := match ix !! k with Some ind => ind | None => ∅ end in
  <[k := {[m]} ∪ ind]> ix.
(** [if ind, found := r.roleIndex[k]; found { delete(ind, m) }] *)
Definition index_del (ix : gmap RoleKey MemberSet) (k : RoleKey) (m : MemberID) : gmap RoleKey MemberSet :=
  match ix !! k with Some ind => <[k := ind ∖ {[m]}]> ix | None => ix end.

Definition Roster_Add (r : RosterCore) (m : MemberID) (k : RoleKey) (g : Generation) (q t : Z) : RosterCore :=
  mkRosterCore (<[m := mkMemberInfo k g q t]> (members r)) (index_add (roleIndex r) k m).

(** A deep copy: the record is a value. *)
Definition Roster_Clone (r : option RosterCore) : RosterCore :=
  match r with None => NewRosterCore | Some r => mkRosterCore (members r) (roleIndex r) end.

Record Change := mkChange { chMember : MemberID; chInfo : MemberInfo }.
Abbreviation ChangeSet := (list Change).
Definition is_rm (c : Change) : bool := (Typ (miRole (chInfo c)) =? RoleType_NONE)%Z.

Definition apply_change (r : RosterCore) (chng : Change) : RosterCore :=
  let m := chMember chng in
  let ix := match members r !! m with
            | Some existing => index_del (roleIndex r) (miRole existing) m
            | None => roleIndex r
            end in
  if (Typ (miRole (chInfo chng)) =? RoleType_NONE)%Z
  then mkRosterCore (delete m (members r)) ix
  else mkRosterCore (<[m := chInfo chng]> (members r)) (index_add ix (miRole (chInfo chng)) m).
Definition Apply (r : RosterCore) (changes : ChangeSet) : RosterCore := foldl apply_change r changes.

Definition NewRosterCoreFromChanges (changes : ChangeSet) : RosterCore := Apply NewRosterCore changes.

(** ** Key generations and schedules *)
Abbreviation KeyGens := (gmap RoleKey Generation).

Record workingSchedule := mkWorkingSchedule {
  incrs : gset RoleKey;
  includes : gset RoleKey;
  rekeys : gset (RoleKey * MemberID);
  newMembs : gset MemberID;
  delMembs : gset MemberID
}.
Definition newWorkingSchedule : workingSchedule := mkWorkingSchedule ∅ ∅ ∅ ∅ ∅.

Definition add_incr (k : RoleKey) (w : workingSchedule) : workingSchedule :=
  mkWorkingSchedule ({[k]} ∪ incrs w) (includes w) (rekeys w) (newMembs w) (delMembs w).
Definition add_include (k : RoleKey) (w : workingSchedule) : workingSchedule :=
  mkWorkingSchedule (incrs w) ({[k]} ∪ includes w) (rekeys w) (newMembs w) (delMembs w).
Definition add_rekey (k : RoleKey) (m : MemberID) (w : workingSchedule) : workingSchedule :=
  mkWorkingSchedule (incrs w) (includes w) ({[(k, m)]} ∪ rekeys w) (newMembs w) (delMembs w).
Definition add_new (m : MemberID) (w : workingSchedule) : workingSchedule :=
  mkWorkingSchedule (incrs w) (includes w) (rekeys w) ({[m]} ∪ newMembs w) (delMembs w).
Definition add_del (m : MemberID) (w : workingSchedule) : workingSchedule :=
  mkWorkingSchedule (incrs w) (includes w) (rekeys w) (newMembs w) ({[m]} ∪ delMembs w).

Record KeyScheduleItem := mkKeyScheduleItem {
  ksRole : RoleKey; NewKeyGen : bool; ksGen : Generation; ksMembers : list MemberID
}.
Record KeySchedule := mkKeySchedule {
  Items : list KeyScheduleItem; Additions : list MemberID; Removals : list MemberID
}.

#[global] Instance KeyScheduleItem_eq_dec : EqDecision KeyScheduleItem.
Proof. solve_decision. Defined.
#[global] Instance KeySchedule_eq_dec : EqDecision KeySchedule.
Proof. solve_decision. Defined.

Definition HasNewAdminKey (k : KeySchedule) : bool :=
  existsb (λ item, NewKeyGen item && RoleKey_Eq (ksRole item) AdminRole) (Items k).

(** First loop of [export]: the new keys and the generations after the change. *)
Definition export_gen (w : workingSchedule) (keyGensPre : KeyGens)
    (s : gset RoleKey * KeyGens) (role : RoleKey) : gset RoleKey * KeyGens :=
  let '(newKeys, keyGensPost) := s in
  match keyGensPre !! role with
  | Some pre =>
      if bool_decide (role ∈ incrs w)
      then ({[role]} ∪ newKeys, <[role := wrap64 (pre + 1)]> keyGensPost)
      else (newKeys, <[role := pre]> keyGensPost)
  | None => ({[role]} ∪ newKeys, <[role := FirstGeneration]> keyGensPost)
  end.
Definition export_gens (w : workingSchedule) (keyGensPre : KeyGens) : gset RoleKey * KeyGens :=
  foldl (export_gen w keyGensPre) (∅, keyGensPre) (elements (includes w)).

(** Second loop: the recipients by role.  A Go map read without a key is the zero value. *)
Definition export_bucket (newKeys : gset RoleKey) (keyGensPost : KeyGens)
    (buckets : gmap RoleKey KeyScheduleItem) (x : RoleKey * MemberID) : gmap RoleKey KeyScheduleItem :=
  let ksr := match buckets !! x.1 with
             | Some ksr => ksr
             | None => mkKeyScheduleItem x.1 (bool_decide (x.1 ∈ newKeys))
                         (default 0%Z (keyGensPost !! x.1)) []
             end in
  <[x.1 := mkKeyScheduleItem (ksRole ksr) (NewKeyGen ksr) (ksGen ksr) (ksMembers ksr ++ [x.2])]> buckets.
Definition export_buckets (w : workingSchedule) (newKeys : gset RoleKey) (keyGensPost : KeyGens)
  : gmap RoleKey KeyScheduleItem :=
  foldl (export_bucket newKeys keyGensPost) ∅ (elements (rekeys w)).

Section plan.
Context `{SortLib}.

Definition sort_members (ksr : KeyScheduleItem) : KeyScheduleItem :=
  mkKeyScheduleItem (ksRole ksr) (NewKeyGen ksr) (ksGen ksr) (SortFunc MemberID_Cmp (ksMembers ksr)).

Definition export (w : workingSchedule) (keyGensPre : KeyGens) : KeySchedule * KeyGens :=
  let '(newKeys, keyGensPost) := export_gens w keyGensPre in
  let buckets := sort_members <$> export_buckets w newKeys keyGensPost in
  (mkKeySchedule
     (SortFunc (λ x y, RoleKey_Cmp (ksRole x) (ksRole y)) (map snd (map_to_list buckets)))
     (SortFunc MemberID_Cmp (elements (newMembs w)))
     (SortFunc MemberID_Cmp (elements (delMembs w))),
   keyGensPost).

(** The three local closures of [planChangesLocked]. *)
Definition keyAtLevel (newRoster : RosterCore) (k : RoleKey) (ws : workingSchedule) : workingSchedule :=
  foldl (λ ws (p : MemberID * MemberInfo), if LessThanOrEqual k (miRole p.2) then add_rekey k p.1 ws else ws)
    (add_include k ws) (map_to_list (members newRoster)).

Definition above_floor (floor : option RoleKey) (role : RoleKey) : bool :=
  match floor with None => true | Some f => LessThan f role end.

Definition keyFlood (newRoster : RosterCore) (allKeyRoles : gset RoleKey) (k : RoleKey)
    (floor : option RoleKey) (ws : workingSchedule) : workingSchedule :=
  foldl (λ ws (p : MemberID * MemberInfo),
    foldl (λ ws role,
      if LessThanOrEqual role (miRole p.2) && LessThanOrEqual role k && above_floor floor role
      then add_rekey role p.1 (add_include role (add_incr role ws))
      else ws) ws (elements allKeyRoles))
    ws (map_to_list (members newRoster)).

Definition keySingle (allKeyRoles : gset RoleKey) (m : MemberID) (k : RoleKey)
    (prev : option RoleKey) (ws : workingSchedule) : workingSchedule :=
  foldl (λ ws role,
    if LessThanOrEqual role k && above_floor prev role
    then add_rekey role m (add_include role ws)
    else ws) ws (elements allKeyRoles).

Definition plan_change (r : RosterCore) (keyGensPre : KeyGens) (newRoster : RosterCore)
    (allKeyRoles : gset RoleKey) (ws : workingSchedule) (chng : Change) : workingSchedule :=
  let existing := members r !! chMember chng in
  let role := miRole (chInfo chng) in
  let cmp := match existing with Some e => RoleKey_Cmp (miRole e) role | None => 0%Z end in
  let rm := (Typ role =? RoleType_NONE)%Z in
  let ws := if bool_decide (keyGensPre !! role = None) && negb rm
            then keyAtLevel newRoster role ws else ws in
  let ws := match existing with
            | Some e =>
                if (0 <? cmp)%Z || ((cmp =? 0)%Z && (miGen e <? miGen (chInfo chng))%Z)
                then keyFlood newRoster allKeyRoles (miRole e)
                       (if (miGen e =? miGen (chInfo chng))%Z then Some role else None) ws
                else ws
            | None => ws
            end in
  let ws := match existing with
            | None => keySingle allKeyRoles (chMember chng) role None ws
            | Some e => if (cmp <? 0)%Z
                        then keySingle allKeyRoles (chMember chng) role (Some (miRole e)) ws
                        else ws
            end in
  let ws := match existing with None => add_new (chMember chng) ws | Some _ => ws end in
  if rm then add_del (chMember chng) ws else ws.

Definition planChangesLocked (r : RosterCore) (changes : ChangeSet) (keyGensPre : KeyGens)
    (newRoster : RosterCore) (forceNewKeyGens : list RoleKey) : KeySchedule * KeyGens :=
  let allKeyRoles := dom keyGensPre ∪ list_to_set forceNewKeyGens in
  let ws := foldl (plan_change r keyGensPre newRoster allKeyRoles) newWorkingSchedule changes in
  export ws keyGensPre.

(** ** The check of a change set *)
Definition plainMemberCeiling : RoleKey := mkRoleKey RoleType_MEMBER 0.

Definition CheckRosterDelegationFloor (r : Role) : result () :=
  rk ← ImportRole r;
  if (Typ rk =? RoleType_NONE)%Z then Ok ()
  else if (Typ rk =? RoleType_MEMBER)%Z && (1 <=? Lev rk)%Z then Ok ()
  else Err (LinkError "roster delegation floor must be a member role at viz level >= 1, or none to turn delegation off").

Definition RosterDelegationFloorActive (r : option Role) : result (option RoleKey) :=
  match r with
  | None => Ok None
  | Some r =>
      rk ← ImportRole r;
      if (Typ rk =? RoleType_NONE)%Z then Ok None else Ok (Some rk)
  end.

Record GameplanOpts := mkGameplanOpts {
  TestingNoCheck : bool;
  RequireOwner : bool;
  DelegationFloor : option RoleKey;
  LinkHasAdminMetadata : bool
}.

Definition rosterErr (msg : string) : result () := Err (TeamRosterError msg).

Fixpoint delegated_changes (r : RosterCore) (doer : MemberID) (changes : ChangeSet) : result () :=
  match changes with
  | [] => Ok ()
  | chng :: rest =>
      _ ← guard_err (MemberID_Eq (chMember chng) doer)
            (TeamRosterError "a delegated change may not touch the doer");
      let existing := members r !! chMember chng in
      _ ← (if (Typ (miRole (chInfo chng)) =? RoleType_NONE)%Z then
             match existing with
             | None => rosterErr "can't remove non-existent member"
             | Some e => guard_err (LessThan plainMemberCeiling (miRole e))
                 (TeamRosterError "a delegated change may only remove members at m/0 or below")
             end
           else
             match existing with
             | Some _ => rosterErr "a delegated change may not change an existing member"
             | None => guard_err (LessThan plainMemberCeiling (miRole (chInfo chng)))
                 (TeamRosterError "a delegated change may only add members at m/0 or below")
             end);
      delegated_changes r doer rest
  end.

Definition delegatedChangesAllowedLocked (r : RosterCore) (opts : option GameplanOpts)
    (doerInfo : MemberInfo) (doer : MemberID) (changes : ChangeSet) : result () :=
  match opts with
  | None => rosterErr "doer doesn't have privileged role"
  | Some o =>
      match DelegationFloor o with
      | None => rosterErr "doer doesn't have privileged role"
      | Some floor =>
          let dr := miRole doerInfo in
          _ ← guard_err (negb (Typ dr =? RoleType_MEMBER)%Z || LessThan dr floor)
                (TeamRosterError "doer is below the team's roster delegation floor");
          _ ← guard_err (LinkHasAdminMetadata o)
                (TeamRosterError "a delegated change may not carry link metadata");
          _ ← guard_err (len changes =? 0)%Z
                (TeamRosterError "a delegated change must change the roster");
          delegated_changes r doer changes
      end
  end.

Fixpoint find (changes : ChangeSet) (m : MemberID) (r : RoleKey) : option MemberInfo :=
  match changes with
  | [] => None
  | chng :: rest =>
      if MemberID_Eq (chMember chng) m && RoleKey_Eq (miRole (chInfo chng)) r
      then Some (chInfo chng) else find rest m r
  end.

(** First pass: every member shows up once. *)
Fixpoint check_distinct (found : gset MemberID) (changes : ChangeSet) : result () :=
  match changes with
  | [] => Ok ()
  | chng :: rest =>
      _ ← guard_err (bool_decide (chMember chng ∈ found)) (TeamRosterError "duplicate member in change set");
      check_distinct ({[chMember chng]} ∪ found) rest
  end.

Fixpoint check_doer_role (r : RosterCore) (doerInfo : MemberInfo) (changes : ChangeSet) : result () :=
  match changes with
  | [] => Ok ()
  | chng :: rest =>
      _ ← guard_err (LessThan (miRole doerInfo) (miRole (chInfo chng)))
            (TeamRosterError "doer role insufficient for change");
      _ ← match members r !! chMember chng with
          | Some existing => guard_err (LessThan (miRole doerInfo) (miRole existing))
              (TeamRosterError "doer role insufficient for change")
          | None => Ok ()
          end;
      check_doer_role r doerInfo rest
  end.

Fixpoint check_local_admins (doer : MemberID) (changes : ChangeSet) : result () :=
  match changes with
  | [] => Ok ()
  | chng :: rest =>
      _ ← guard_err (RoleType_IsAdminOrAbove (Typ (miRole (chInfo chng))) &&
                     negb (HostID_FastEq (Host (Fqe doer)) (Host (Fqe (chMember chng)))))
            (TeamRosterError "only local members can be admins or above");
      check_local_admins doer rest
  end.

Fixpoint check_generations (r : RosterCore) (changes : ChangeSet) : result () :=
  match changes with
  | [] => Ok ()
  | chng :: rest =>
      let rm := (Typ (miRole (chInfo chng)) =? RoleType_NONE)%Z in
      let gen := miGen (chInfo chng) in
      let existing := members r !! chMember chng in
      _ ← guard_err (bool_decide (existing = None) && rm)
            (TeamRosterError "can't remove non-existent member");
      _ ← guard_err (rm && negb (Gen_IsVoid gen))
            (TeamRosterError "must supply 0-generation for removal");
      _ ← match existing with
          | None => Ok ()
          | Some e =>
              _ ← guard_err (MemberInfo_Eq e (chInfo chng)) (TeamRosterError "no change to member");
              _ ← guard_err (negb rm && (gen <? miGen e)%Z) (TeamRosterError "can't decrease generation");
              guard_err (negb rm && negb (Gen_IsValid gen))
                (TeamRosterError "must supply valid key generation (>= 1)")
          end;
      check_generations r rest
  end.

Definition check_doer (r : RosterCore) (doer : MemberID) (changes : ChangeSet) (create : bool)
    (opts : option GameplanOpts) : result MemberInfo :=
  if create then
    _ ← guard_err (nz (Roster_Len r)) (TeamRosterError "can't create roster with existing members");
    of_option (TeamRosterError "doer must be included as an owner") (find changes doer OwnerRole)
  else
    doerInfo ← of_option (TeamRosterError "doer not in roster") (members r !! doer);
    let doerRole := Typ (miRole doerInfo) in
    _ ← (if negb (doerRole =? RoleType_ADMIN)%Z && negb (doerRole =? RoleType_OWNER)%Z
         then delegatedChangesAllowedLocked r opts doerInfo doer changes
         else Ok ());
    Ok doerInfo.

Definition checkChangesLocked (r : RosterCore) (doer : MemberID) (changes : ChangeSet)
    (create : bool) (opts : option GameplanOpts) : result () :=
  _ ← check_distinct ∅ changes;
  doerInfo ← check_doer r doer changes create opts;
  _ ← check_doer_role r doerInfo changes;
  _ ← check_local_admins doer changes;
  check_generations r changes.

(** ** Applying a change set *)
Definition no_check (opts : option GameplanOpts) : bool :=
  match opts with Some o => TestingNoCheck o | None => false end.
Definition require_owner (opts : option GameplanOpts) : bool :=
  match opts with Some o => RequireOwner o | None => false end.

Definition Gameplan (d : ChangeSet) (doer : MemberID) (rPre : option RosterCore)
    (keysPre : option KeyGens) (opts : option GameplanOpts)
  : result (RosterCore * KeySchedule * KeyGens) :=
  _ ← guard_err (xorb (bool_decide (rPre = None)) (bool_decide (keysPre = None)))
        (TeamRosterError "must supply both roster and keys, or both nil for create");
  let '(create, forcedNewKeyGens, keys, r) :=
    match rPre with
    | None => (true, [AdminRole; MemberRole; KVMinRole], ∅, NewRosterCore)
    | Some r => (false, [], default ∅ keysPre, r)
    end in
  _ ← (if no_check opts then Ok () else checkChangesLocked r doer d create opts);
  let rPost := Apply (Roster_Clone (Some r)) d in
  _ ← guard_err (require_owner opts && hasOwnerLocked r && negb (hasOwnerLocked rPost))
        (TeamRosterError "change would leave team without an owner");
  let '(sched, keysPost) := planChangesLocked r d keys rPost forcedNewKeyGens in
  Ok (rPost, sched, keysPost).
End plan.
