(* ===== verification/RosterAuth.v ===== *)
(** * Who may change a roster

    [authorized] states the policy of [checkChangesLocked] and
    [delegatedChangesAllowedLocked] without loops or early returns; the check is
    shown to decide it.  The consequences are about whole edits ([Gameplan]): no
    one acts above their role, a delegated edit is confined to plain members, a
    team keeps an owner, and the index by role stays in step with the members. *)
From S2P Require Import Prelude Role Roster.

(** ** Identifiers *)
Lemma bytes_Compare_eq a b : bytes_Compare a b = 0%Z ↔ a = b.
Proof.
  revert b. induction a as [|x a IH]; intros [|y b]; simpl; try (split; [lia|done]); [done|].
  z_cases; [split; [lia|naive_solver lia]..|].
  rewrite IH. assert (x = y) as -> by lia. naive_solver.
Qed.

Lemma bytes_Compare_flip a b : bytes_Compare b a = (- bytes_Compare a b)%Z.
Proof.
  revert b. induction a as [|x a IH]; intros [|y b]; simpl; try lia. rewrite IH. z_cases; lia.
Qed.

Lemma bytes_Compare_trans a b c :
  (bytes_Compare a b ≤ 0 → bytes_Compare b c ≤ 0 → bytes_Compare a c ≤ 0)%Z.
Proof.
  revert b c. induction a as [|x a IH]; intros [|y b] [|z c]; simpl; try lia.
  z_cases; try lia. apply IH.
Qed.

Lemma bytes_Compare_lt_trans a b c :
  (bytes_Compare a b < 0 → bytes_Compare b c ≤ 0 → bytes_Compare a c < 0)%Z.
Proof.
  intros Hab Hbc. pose proof (bytes_Compare_trans a b c).
  destruct (decide (bytes_Compare a c = 0)%Z) as [Hz|]; [|lia].
  apply bytes_Compare_eq in Hz as ->. pose proof (bytes_Compare_flip c b). lia.
Qed.

Lemma bytes_Compare_le_lt_trans a b c :
  (bytes_Compare a b ≤ 0 → bytes_Compare b c < 0 → bytes_Compare a c < 0)%Z.
Proof.
  intros Hab Hbc. pose proof (bytes_Compare_trans a b c).
  destruct (decide (bytes_Compare a c = 0)%Z) as [Hz|]; [|lia].
  apply bytes_Compare_eq in Hz as ->. pose proof (bytes_Compare_flip c b). lia.
Qed.

Lemma HostID_Eq_spec h h2 : HostID_Eq h h2 = true ↔ h = h2.
Proof. unfold HostID_Eq; simpl. apply bool_decide_eq_true. Qed.
Lemma HostID_FastEq_spec h h2 : HostID_FastEq h h2 = true ↔ h = h2.
Proof. unfold HostID_FastEq; simpl. apply bool_decide_eq_true. Qed.

Lemma MemberID_Eq_spec m m2 : MemberID_Eq m m2 = true ↔ m = m2.
Proof.
  unfold MemberID_Eq, FQEntityFixed_Eq.
  rewrite !andb_true_iff, bool_decide_eq_true, HostID_Eq_spec, RoleKey_Eq_spec.
  destruct m as [[] ?], m2 as [[] ?]; naive_solver.
Qed.
Lemma MemberID_Eq_false m m2 : MemberID_Eq m m2 = false ↔ m ≠ m2.
Proof. rewrite <- MemberID_Eq_spec. by destruct (MemberID_Eq m m2). Qed.

(** [MemberID.Cmp] orders by host, then entity, then source role. *)
Lemma MemberID_Cmp_eq m m2 : MemberID_Cmp m m2 = 0%Z ↔ m = m2.
Proof.
  destruct m as [[e h] k], m2 as [[e2 h2] k2]. unfold MemberID_Cmp, FQEntityFixed_Cmp, nz; simpl.
  pose proof (bytes_Compare_eq h h2). pose proof (bytes_Compare_eq e e2).
  pose proof (RoleKey_Cmp_eq k k2). z_cases; simpl in *; naive_solver.
Qed.
Lemma MemberID_Cmp_flip m m2 : MemberID_Cmp m2 m = (- MemberID_Cmp m m2)%Z.
Proof.
  destruct m as [[e h] k], m2 as [[e2 h2] k2]. unfold MemberID_Cmp, FQEntityFixed_Cmp, nz; simpl.
  rewrite (bytes_Compare_flip h h2), (bytes_Compare_flip e e2).
  assert (RoleKey_Cmp k2 k = - RoleKey_Cmp k k2)%Z by (unfold RoleKey_Cmp; z_cases; lia).
  z_cases; simpl in *; lia.
Qed.
Lemma MemberID_Cmp_trans m1 m2 m3 :
  (MemberID_Cmp m1 m2 ≤ 0 → MemberID_Cmp m2 m3 ≤ 0 → MemberID_Cmp m1 m3 ≤ 0)%Z.
Proof.
  destruct m1 as [[e h] k], m2 as [[e2 h2] k2], m3 as [[e3 h3] k3].
  unfold MemberID_Cmp, FQEntityFixed_Cmp, nz; simpl.
  pose proof (bytes_Compare_lt_trans h h2 h3). pose proof (bytes_Compare_le_lt_trans h h2 h3).
  pose proof (bytes_Compare_lt_trans e e2 e3). pose proof (bytes_Compare_le_lt_trans e e2 e3).
  pose proof (bytes_Compare_eq h h2). pose proof (bytes_Compare_eq h2 h3).
  pose proof (bytes_Compare_eq e e2). pose proof (bytes_Compare_eq e2 e3).
  pose proof (bytes_Compare_eq h h3). pose proof (bytes_Compare_eq e e3).
  z_cases; simpl in *; intros; try lia.
  all: try (rewrite RoleKey_Cmp_le in *; etrans; eassumption).
  all: naive_solver lia.
Qed.

(** ** Applying changes *)
Fixpoint last_change (cs : ChangeSet) (m : MemberID) : option MemberInfo :=
  match cs with
  | [] => None
  | c :: cs' =>
      match last_change cs' m with
      | Some i => Some i
      | None => if bool_decide (chMember c = m) then Some (chInfo c) else None
      end
  end.

Definition live (i : MemberInfo) : bool := negb (Typ (miRole i) =? RoleType_NONE)%Z.

Lemma apply_change_lookup r c m :
  members (apply_change r c) !! m =
  if bool_decide (chMember c = m) then (if live (chInfo c) then Some (chInfo c) else None)
  else members r !! m.
Proof.
  unfold apply_change, live. case_bool_decide as Hm.
  - subst. destruct (Typ _ =? _)%Z; simpl; by simplify_map_eq.
  - destruct (Typ _ =? _)%Z; simpl; by simplify_map_eq.
Qed.

Lemma Apply_lookup r cs m :
  members (Apply r cs) !! m =
  match last_change cs m with
  | Some i => if live i then Some i else None
  | None => members r !! m
  end.
Proof.
  unfold Apply. revert r. induction cs as [|c cs IH]; intros r; simpl; [done|].
  rewrite IH, apply_change_lookup. destruct (last_change cs m); [done|].
  by case_bool_decide.
Qed.

Lemma last_change_Some cs m i :
  last_change cs m = Some i → ∃ c, c ∈ cs ∧ chMember c = m ∧ chInfo c = i.
Proof.
  induction cs as [|c cs IH]; simpl; [done|].
  destruct (last_change cs m) as [j|]; intros.
  - simplify_eq. destruct IH as (c' & ? & ? & ?); [done|]. exists c'. set_solver.
  - case_bool_decide; simplify_eq. exists c. set_solver.
Qed.

Lemma last_change_None cs m : last_change cs m = None ↔ m ∉ (chMember <$> cs).
Proof.
  induction cs as [|c cs IH]; simpl; [set_solver|]. rewrite not_elem_of_cons, <- IH.
  destruct (last_change cs m); [naive_solver|]. case_bool_decide; naive_solver.
Qed.

Lemma last_change_elem cs c :
  NoDup (chMember <$> cs) → c ∈ cs → last_change cs (chMember c) = Some (chInfo c).
Proof.
  induction cs as [|c' cs IH]; simpl; [set_solver|].
  intros [Hn Hnd]%NoDup_cons [->|Hc]%elem_of_cons.
  - apply last_change_None in Hn as ->. by rewrite bool_decide_true.
  - by rewrite IH.
Qed.

(** A change set with distinct members edits each of them once. *)
Lemma Apply_lookup_change r cs c :
  NoDup (chMember <$> cs) → c ∈ cs →
  members (Apply r cs) !! chMember c = if live (chInfo c) then Some (chInfo c) else None.
Proof. intros. by rewrite Apply_lookup, last_change_elem. Qed.

Lemma Apply_lookup_other r cs m :
  m ∉ (chMember <$> cs) → members (Apply r cs) !! m = members r !! m.
Proof. intros Hm. rewrite Apply_lookup. by apply last_change_None in Hm as ->. Qed.

(** ** The roster invariant *)
Definition role_members (r : RosterCore) (k : RoleKey) : MemberSet := default ∅ (roleIndex r !! k).

Record roster_ok (r : RosterCore) : Prop := {
  ro_live m i : members r !! m = Some i → live i = true;
  ro_index k m : m ∈ role_members r k ↔ ∃ i, members r !! m = Some i ∧ miRole i = k
}.

Lemma roster_ok_empty : roster_ok NewRosterCore.
Proof. split; [done|]. intros k m. unfold role_members; simpl. rewrite lookup_empty. set_solver. Qed.

Lemma elem_of_index_add ix k m k' m' :
  m' ∈ default ∅ (index_add ix k m !! k') ↔ (k' = k ∧ m' = m) ∨ m' ∈ (default ∅ (ix !! k') : MemberSet).
Proof.
  unfold index_add. destruct (decide (k' = k)) as [->|Hne].
  - rewrite lookup_insert_eq; simpl. destruct (ix !! k); simpl; set_solver.
  - rewrite lookup_insert_ne by done. naive_solver.
Qed.

Lemma elem_of_index_del ix k m k' m' :
  m' ∈ default ∅ (index_del ix k m !! k') ↔ ¬ (k' = k ∧ m' = m) ∧ m' ∈ (default ∅ (ix !! k') : MemberSet).
Proof.
  unfold index_del. destruct (ix !! k) as [s|] eqn:Hk.
  - destruct (decide (k' = k)) as [->|Hne].
    + rewrite lookup_insert_eq, Hk; simpl. set_solver.
    + rewrite lookup_insert_ne by done. naive_solver.
  - destruct (decide (k' = k)) as [->|Hne]; [rewrite Hk; simpl; set_solver|naive_solver].
Qed.

Lemma apply_change_ok r c : roster_ok r → roster_ok (apply_change r c).
Proof.
  intros [Hl Hi]. split.
  - intros m i. rewrite apply_change_lookup. case_bool_decide; [|apply Hl].
    destruct (live (chInfo c)) eqn:?; naive_solver.
  - intros k m.
    assert (m ∈ (default ∅ (match members r !! chMember c with
         | Some e => index_del (roleIndex r) (miRole e) (chMember c)
         | None => roleIndex r end !! k) : MemberSet) ↔
       m ≠ chMember c ∧ ∃ i, members r !! m = Some i ∧ miRole i = k) as Hix.
    { destruct (members r !! chMember c) as [e|] eqn:He.
      - rewrite elem_of_index_del. setoid_rewrite (Hi k m). naive_solver.
      - setoid_rewrite (Hi k m). naive_solver. }
    rewrite apply_change_lookup. unfold role_members, apply_change, live.
    destruct (Typ (miRole (chInfo c)) =? RoleType_NONE)%Z; simpl.
    + rewrite Hix. case_bool_decide; naive_solver.
    + rewrite elem_of_index_add, Hix. case_bool_decide; naive_solver.
Qed.

Lemma Apply_ok r cs : roster_ok r → roster_ok (Apply r cs).
Proof.
  unfold Apply. revert r. induction cs as [|c cs IH]; intros r Hr; simpl; [done|].
  by apply IH, apply_change_ok.
Qed.

Lemma Roster_Add_ok r m k g q t :
  roster_ok r → members r !! m = None → k ≠ mkRoleKey RoleType_NONE (Lev k) →
  roster_ok (Roster_Add r m k g q t).
Proof.
  intros [Hl Hi] Hm Hk. split.
  - intros m' i. simpl. intros [[<- <-]|[? ?]]%lookup_insert_Some; [|by eapply Hl].
    unfold live; simpl. destruct (Z.eqb_spec (Typ k) RoleType_NONE) as [He|]; [|done].
    destruct Hk. destruct k; simpl in *. by subst.
  - intros k' m'. unfold role_members, Roster_Add; simpl. rewrite elem_of_index_add.
    setoid_rewrite (Hi k' m'). destruct (decide (m' = m)) as [->|Hne].
    + rewrite Hm, lookup_insert_eq. naive_solver.
    + rewrite lookup_insert_ne by done. naive_solver.
Qed.

Lemma hasOwnerLocked_spec r :
  hasOwnerLocked r = true ↔ ∃ m i, members r !! m = Some i ∧ Typ (miRole i) = RoleType_OWNER.
Proof.
  unfold hasOwnerLocked. rewrite existsb_exists. split.
  - intros ([m i] & Hin & Ht). exists m, i. apply list_elem_of_In, elem_of_map_to_list in Hin.
    simpl in Ht. apply Z.eqb_eq in Ht. done.
  - intros (m & i & Hm & Ht). exists (m, i). split; [|by apply Z.eqb_eq].
    by apply list_elem_of_In, elem_of_map_to_list.
Qed.

(** ** The policy *)
Section policy.
Context (r : RosterCore) (doer : MemberID).

(** What a change may do for a doer at [di]. *)
Record change_ok (di : MemberInfo) (c : Change) : Prop := {
  co_grant : rk_le (miRole (chInfo c)) (miRole di);
  co_over e : members r !! chMember c = Some e → rk_le (miRole e) (miRole di);
  co_local : (RoleType_ADMIN ≤ Typ (miRole (chInfo c)))%Z →
    Host (Fqe (chMember c)) = Host (Fqe doer);
  co_removal : is_rm c = true → is_Some (members r !! chMember c) ∧ miGen (chInfo c) = 0%Z;
  co_changes e : members r !! chMember c = Some e →
    (miRole e, miGen e, miSeqno e) ≠ (miRole (chInfo c), miGen (chInfo c), miSeqno (chInfo c));
  co_gen e : members r !! chMember c = Some e → is_rm c = false →
    (1 ≤ miGen (chInfo c) ∧ miGen e ≤ miGen (chInfo c))%Z
}.

(** A change a non-admin may sign: a plain member comes or goes. *)
Definition plain_change (c : Change) : Prop :=
  chMember c ≠ doer ∧
  if is_rm c
  then ∃ e, members r !! chMember c = Some e ∧ rk_le (miRole e) plainMemberCeiling
  else members r !! chMember c = None ∧ rk_le (miRole (chInfo c)) plainMemberCeiling.

Definition delegated (di : MemberInfo) (cs : ChangeSet) (opts : option GameplanOpts) : Prop :=
  ∃ o floor, opts = Some o ∧ DelegationFloor o = Some floor ∧
    Typ (miRole di) = RoleType_MEMBER ∧ rk_le floor (miRole di) ∧
    LinkHasAdminMetadata o = false ∧ cs ≠ [] ∧ ∀ c, c ∈ cs → plain_change c.

Definition privileged (di : MemberInfo) : Prop :=
  Typ (miRole di) = RoleType_ADMIN ∨ Typ (miRole di) = RoleType_OWNER.

Definition standing (cs : ChangeSet) (create : bool) (opts : option GameplanOpts)
    (di : MemberInfo) : Prop :=
  if create
  then members r = ∅ ∧ mkChange doer di ∈ cs ∧ miRole di = OwnerRole
  else members r !! doer = Some di ∧ (privileged di ∨ ¬ privileged di ∧ delegated di cs opts).

Definition authorized (cs : ChangeSet) (create : bool) (opts : option GameplanOpts) : Prop :=
  NoDup (chMember <$> cs) ∧
  ∃ di, standing cs create opts di ∧ ∀ c, c ∈ cs → change_ok di c.

(** *** The loops *)
Lemma check_distinct_spec found cs :
  check_distinct found cs = Ok () ↔
  NoDup (chMember <$> cs) ∧ ∀ c, c ∈ cs → chMember c ∉ found.
Proof.
  revert found. induction cs as [|c cs IH]; intros found; simpl.
  - split; [intros _; split; [constructor|set_solver]|done].
  - rewrite bind_Ok, NoDup_cons. setoid_rewrite guard_err_Ok.
    setoid_rewrite bool_decide_eq_false. setoid_rewrite IH. split.
    + intros (_ & ? & ? & Hf). split; [split; [|done]|set_solver].
      intros (c' & He & Hc)%list_elem_of_fmap. specialize (Hf _ Hc). set_solver.
    + intros ((Hn & ?) & Hf). exists (). split_and!; [apply Hf; set_solver|done|].
      intros c' Hc'. assert (chMember c' ∈ chMember <$> cs) by (by apply list_elem_of_fmap_2).
      set_solver.
Qed.

Lemma unit_bind_Ok (x y : result ()) : (x ≫= λ _, y) = Ok () ↔ x = Ok () ∧ y = Ok ().
Proof. rewrite bind_Ok. split; [intros ([] & ? & ?)|intros []; exists ()]; done. Qed.

Lemma forall_cons (P : Change → Prop) c cs :
  (∀ c', c' ∈ c :: cs → P c') ↔ P c ∧ ∀ c', c' ∈ cs → P c'.
Proof. setoid_rewrite elem_of_cons. naive_solver. Qed.

(** A loop over the changes that returns at the first refusal. *)
Ltac loop_spec cs c IH :=
  induction cs as [|c cs IH]; [set_solver|];
  rewrite forall_cons, <- IH; simpl; rewrite ?unit_bind_Ok, ?guard_err_Ok.

Lemma delegated_changes_spec cs :
  delegated_changes r doer cs = Ok () ↔ ∀ c, c ∈ cs → plain_change c.
Proof.
  loop_spec cs c IH. unfold plain_change. rewrite MemberID_Eq_false. fold (is_rm c).
  destruct (is_rm c), (members r !! chMember c) as [e|];
    rewrite ?guard_err_Ok, ?LessThan_false; unfold rosterErr; naive_solver.
Qed.

Lemma check_doer_role_spec di cs :
  check_doer_role r di cs = Ok () ↔
  ∀ c, c ∈ cs → rk_le (miRole (chInfo c)) (miRole di) ∧
    ∀ e, members r !! chMember c = Some e → rk_le (miRole e) (miRole di).
Proof.
  loop_spec cs c IH. rewrite LessThan_false.
  destruct (members r !! chMember c) as [e|];
    rewrite ?guard_err_Ok, ?LessThan_false; naive_solver.
Qed.

Lemma check_local_admins_spec cs :
  check_local_admins doer cs = Ok () ↔
  ∀ c, c ∈ cs → (RoleType_ADMIN ≤ Typ (miRole (chInfo c)))%Z →
    Host (Fqe (chMember c)) = Host (Fqe doer).
Proof.
  loop_spec cs c IH. rewrite andb_false_iff, negb_false_iff, HostID_FastEq_spec.
  rewrite <- (not_true_iff_false (RoleType_IsAdminOrAbove _)), RoleType_IsAdminOrAbove_spec.
  unfold_role_types. destruct (decide (2 ≤ Typ (miRole (chInfo c)))%Z); naive_solver.
Qed.

Lemma MemberInfo_Eq_false i i2 :
  MemberInfo_Eq i i2 = false ↔
  (miRole i, miGen i, miSeqno i) ≠ (miRole i2, miGen i2, miSeqno i2).
Proof.
  rewrite <- not_true_iff_false. unfold MemberInfo_Eq.
  rewrite !andb_true_iff, RoleKey_Eq_spec, !Z.eqb_eq. split; intros Hn He; apply Hn.
  - by injection He.
  - destruct He as [[-> ->] ->]. done.
Qed.

Lemma forall_Some {A} (P : A → Prop) a : (∀ b, Some a = Some b → P b) ↔ P a.
Proof. naive_solver. Qed.
Lemma forall_None {A} (P : A → Prop) : (∀ b, None = Some b → P b) ↔ True.
Proof. naive_solver. Qed.

Lemma check_generations_spec cs :
  check_generations r cs = Ok () ↔
  ∀ c, c ∈ cs →
    (is_rm c = true → is_Some (members r !! chMember c) ∧ miGen (chInfo c) = 0%Z) ∧
    ∀ e, members r !! chMember c = Some e →
      (miRole e, miGen e, miSeqno e) ≠ (miRole (chInfo c), miGen (chInfo c), miSeqno (chInfo c)) ∧
      (is_rm c = false → 1 ≤ miGen (chInfo c) ∧ miGen e ≤ miGen (chInfo c))%Z.
Proof.
  loop_spec cs c IH. fold (is_rm c). unfold Gen_IsVoid, Gen_IsValid, FirstGeneration.
  destruct (members r !! chMember c) as [e|]; simpl.
  - rewrite !unit_bind_Ok, !guard_err_Ok, MemberInfo_Eq_false. unfold is_Some.
    rewrite forall_Some.
    assert (∃ e' : MemberInfo, Some e = Some e') by eauto.
    destruct (is_rm c); simpl; rewrite ?negb_false_iff, ?Z.eqb_eq, ?Z.ltb_ge, ?Z.leb_le;
      intuition congruence.
  - rewrite forall_None.
    assert (¬ ∃ e' : MemberInfo, None = Some e') by (by intros []).
    unfold is_Some. destruct (is_rm c); simpl; intuition congruence.
Qed.

Lemma find_Some cs m k i :
  find cs m k = Some i → mkChange m i ∈ cs ∧ miRole i = k.
Proof.
  induction cs as [|[m' i'] cs IH]; simpl; [done|].
  destruct (MemberID_Eq m' m) eqn:Hm; simpl; [|set_solver].
  destruct (RoleKey_Eq (miRole i') k) eqn:Hk; [|set_solver]. intros [= <-].
  apply MemberID_Eq_spec in Hm as ->. apply RoleKey_Eq_spec in Hk. set_solver.
Qed.

Lemma find_elem cs m i :
  NoDup (chMember <$> cs) → mkChange m i ∈ cs → find cs m (miRole i) = Some i.
Proof.
  induction cs as [|[m' i'] cs IH]; [set_solver|]. rewrite fmap_cons; simpl.
  intros [Hn Hnd]%NoDup_cons [He|Hc]%elem_of_cons.
  - simplify_eq. by rewrite (proj2 (MemberID_Eq_spec _ _)), (proj2 (RoleKey_Eq_spec _ _)).
  - rewrite (proj2 (MemberID_Eq_false m' m)); [by apply IH|].
    intros ->. apply Hn. apply list_elem_of_fmap. by exists (mkChange m i).
Qed.

Lemma delegatedChangesAllowed_spec opts di cs :
  delegatedChangesAllowedLocked r opts di doer cs = Ok () ↔ delegated di cs opts.
Proof.
  unfold delegatedChangesAllowedLocked, delegated, rosterErr.
  destruct opts as [o|]; [|naive_solver]. destruct (DelegationFloor o) as [floor|] eqn:Hf; [|naive_solver].
  rewrite !unit_bind_Ok, !guard_err_Ok, orb_false_iff, negb_false_iff, Z.eqb_eq, LessThan_false,
    delegated_changes_spec.
  assert ((len cs =? 0)%Z = false ↔ cs ≠ []) as ->.
  { rewrite Z.eqb_neq. unfold len. destruct cs; simpl; split; intros; done || lia. }
  naive_solver.
Qed.

Lemma check_doer_spec cs create opts di :
  NoDup (chMember <$> cs) →
  check_doer r doer cs create opts = Ok di ↔ standing cs create opts di.
Proof.
  intros Hnd. unfold check_doer, standing. destruct create.
  - rewrite bind_Ok. setoid_rewrite guard_err_Ok. setoid_rewrite of_option_Ok.
    assert (nz (Roster_Len r) = false ↔ members r = ∅) as Hz.
    { unfold nz, Roster_Len. rewrite negb_false_iff, Z.eqb_eq, <- map_size_empty_iff. lia. }
    rewrite <- Hz. split.
    + intros (_ & ? & [? ?]%find_Some). done.
    + intros (? & Hin & Hr). exists (). rewrite <- Hr. split; [done|]. by apply find_elem.
  - rewrite bind_Ok. setoid_rewrite of_option_Ok. setoid_rewrite bind_Ok. unfold privileged. split.
    + intros (di' & Hdi & [] & Hd & [= ->]). split; [done|]. revert Hd.
      z_cases; simpl; [by eauto..|]. rewrite delegatedChangesAllowed_spec. naive_solver.
    + intros (Hdi & Hd). exists di. split; [done|]. exists (). split; [|done].
      z_cases; simpl; [done..|]. rewrite delegatedChangesAllowed_spec. naive_solver.
Qed.

Lemma checkChangesLocked_spec cs create opts :
  checkChangesLocked r doer cs create opts = Ok () ↔ authorized cs create opts.
Proof.
  unfold checkChangesLocked, authorized. rewrite unit_bind_Ok, check_distinct_spec.
  split.
  - intros ((Hnd & _) & Hrest). split; [done|].
    apply bind_Ok in Hrest as (di & Hdi%check_doer_spec & Hc); [|done]. exists di. split; [done|].
    rewrite !unit_bind_Ok, check_doer_role_spec, check_local_admins_spec, check_generations_spec in Hc.
    destruct Hc as (H1 & H2 & H3). intros c Hc.
    specialize (H1 c Hc) as []. specialize (H2 c Hc). specialize (H3 c Hc) as [? H3].
    split; [done..| |]; intros e He; by apply (H3 e He).
  - intros (Hnd & di & Hdi & Hc). split; [split; [done|set_solver]|].
    apply bind_Ok. exists di. rewrite check_doer_spec by done. split; [done|].
    rewrite !unit_bind_Ok, check_doer_role_spec, check_local_admins_spec, check_generations_spec.
    split_and!; intros c Hin; destruct (Hc c Hin); eauto.
Qed.
End policy.

(** ** Whole edits *)
Section edits.
Context `{SortLib}.
Implicit Types (d : ChangeSet) (opts : option GameplanOpts).

Lemma checked_spec r doer d create opts :
  (if no_check opts then Ok () else checkChangesLocked r doer d create opts) = Ok () ↔
  (no_check opts = false → authorized r doer d create opts).
Proof.
  destruct (no_check opts); [naive_solver|]. rewrite checkChangesLocked_spec. naive_solver.
Qed.

Lemma Gameplan_edit d doer r ks opts rp s kp :
  Gameplan d doer (Some r) (Some ks) opts = Ok (rp, s, kp) ↔
  (no_check opts = false → authorized r doer d false opts) ∧
  rp = Apply r d ∧
  (require_owner opts = true → hasOwnerLocked r = true → hasOwnerLocked rp = true) ∧
  planChangesLocked r d ks rp [] = (s, kp).
Proof.
  unfold Gameplan. rewrite bool_decide_false, bool_decide_false by done. simpl.
  assert (mkRosterCore (members r) (roleIndex r) = r) as -> by by destruct r.
  rewrite <- checked_spec. rewrite bind_Ok. split.
  - intros ([] & ? & Hr). apply bind_Ok in Hr as ([] & Hg%guard_err_Ok & Hr).
    destruct (planChangesLocked _ _ _ _ _) eqn:Hp. simplify_eq. split_and!; try done.
    intros Hr1 Hr2. rewrite Hr1, Hr2 in Hg. by destruct (hasOwnerLocked (Apply r d)).
  - intros (? & -> & Ho & Hp). exists (). split; [done|]. apply bind_Ok. exists ().
    rewrite guard_err_Ok, Hp. split; [|done].
    destruct (require_owner opts), (hasOwnerLocked r); simpl; try done. by rewrite Ho.
Qed.

Lemma Gameplan_create d doer opts rp s kp :
  Gameplan d doer None None opts = Ok (rp, s, kp) ↔
  (no_check opts = false → authorized NewRosterCore doer d true opts) ∧
  rp = Apply NewRosterCore d ∧
  planChangesLocked NewRosterCore d ∅ rp [AdminRole; MemberRole; KVMinRole] = (s, kp).
Proof.
  unfold Gameplan. rewrite bool_decide_true by done.
  change (Roster_Clone (Some NewRosterCore)) with NewRosterCore. simpl.
  rewrite <- checked_spec. rewrite bind_Ok. split.
  - intros ([] & ? & Hr). apply bind_Ok in Hr as ([] & _ & Hr).
    destruct (planChangesLocked _ _ _ _ _) eqn:Hp. by simplify_eq.
  - intros (? & -> & Hp). exists (). split; [done|]. apply bind_Ok. exists ().
    rewrite guard_err_Ok, Hp. split; [|done].
    change (hasOwnerLocked NewRosterCore) with false. by rewrite andb_false_r.
Qed.

Lemma authorized_after r doer d create opts m i :
  authorized r doer d create opts → members (Apply r d) !! m = Some i →
  members r !! m = Some i ∨
  ∃ c, c ∈ d ∧ chMember c = m ∧ chInfo c = i ∧ is_rm c = false.
Proof.
  intros [Hnd _]. rewrite Apply_lookup. destruct (last_change d m) as [j|] eqn:Hl; [|by left].
  apply last_change_Some in Hl as (c & ? & ? & ?). unfold live, is_rm.
  intros. right. exists c. destruct (Typ (miRole j) =? RoleType_NONE)%Z eqn:Ht; simplify_eq/=. eauto.
Qed.

Lemma create_has_owner doer d opts :
  authorized NewRosterCore doer d true opts → hasOwnerLocked (Apply NewRosterCore d) = true.
Proof.
  intros (Hnd & di & (_ & Hin & Hr) & _). apply hasOwnerLocked_spec. exists doer, di.
  pose proof (Apply_lookup_change NewRosterCore d _ Hnd Hin) as Ha. simpl in Ha.
  rewrite Ha. unfold live. rewrite Hr. done.
Qed.

(** *** Theorems *)

(** C12: [checkChangesLocked] decides the policy: it accepts a change set exactly when every
    member occurs once, the doer has standing (the founding owner at creation; afterwards
    an admin or owner, or a member at or above the delegation floor whose edit only adds or
    removes plain members), and every single change is admissible for the doer's role.
    In particular every refused change set violates one of these clauses. *)
Theorem check_decides_policy r doer d create opts :
  checkChangesLocked r doer d create opts = Ok () ↔ authorized r doer d create opts.
Proof. apply checkChangesLocked_spec. Qed.

(** C30: no one acts above their role.  In an accepted edit the doer is in the roster, and the
    entry of each member either stays as it was, or both the role it had and the role it
    gets are at or below the doer's; entries above the doer are untouched, and whoever
    becomes an admin or owner is on the doer's host. *)
Theorem edit_no_escalation d doer r ks opts rp s kp :
  no_check opts = false →
  Gameplan d doer (Some r) (Some ks) opts = Ok (rp, s, kp) →
  ∃ di, members r !! doer = Some di ∧
    ∀ m, members rp !! m = members r !! m ∨
      (∀ e, members r !! m = Some e → LessThanOrEqual (miRole e) (miRole di) = true) ∧
      (∀ i, members rp !! m = Some i → LessThanOrEqual (miRole i) (miRole di) = true ∧
        (RoleType_IsAdminOrAbove (Typ (miRole i)) = true → Host (Fqe m) = Host (Fqe doer))).
Proof.
  intros Hn (Ha & -> & _)%Gameplan_edit. specialize (Ha Hn) as Ha'.
  destruct Ha' as (Hnd & di & (Hdi & _) & Hc). exists di. split; [done|]. intros m.
  destruct (last_change d m) as [j|] eqn:Hl; [right|left; by rewrite Apply_lookup, Hl].
  apply last_change_Some in Hl as (c & Hin & <- & <-). specialize (Hc c Hin) as [Hg Ho Hloc _ _ _].
  setoid_rewrite LessThanOrEqual_spec. setoid_rewrite RoleType_IsAdminOrAbove_spec.
  rewrite (Apply_lookup_change _ _ c) by done. split; [done|].
  intros i Hi. destruct (live (chInfo c)); simplify_eq. done.
Qed.

(** C31: a delegated edit is confined.  When the doer is below admin, an accepted edit leaves
    the entry of every member above m/0, and of the doer, as it was; it changes no role
    and no generation of a member who stays; and whoever joins does so at m/0 or below. *)
Theorem delegated_edit_confined d doer r ks opts rp s kp di :
  no_check opts = false →
  Gameplan d doer (Some r) (Some ks) opts = Ok (rp, s, kp) →
  members r !! doer = Some di → RoleType_IsAdminOrAbove (Typ (miRole di)) = false →
  members rp !! doer = Some di ∧
  ∀ m, match members r !! m with
       | Some e => members rp !! m = Some e ∨
                   members rp !! m = None ∧ LessThanOrEqual (miRole e) plainMemberCeiling = true
       | None => ∀ i, members rp !! m = Some i → LessThanOrEqual (miRole i) plainMemberCeiling = true
       end.
Proof.
  intros Hn (Ha & -> & _)%Gameplan_edit Hdi Hlow. specialize (Ha Hn) as (Hnd & di' & (Hdi' & Hst) & _).
  simplify_eq. rewrite <- not_true_iff_false, RoleType_IsAdminOrAbove_spec in Hlow.
  destruct Hst as [[Hp|Hp]|(_ & o & fl & _ & _ & _ & _ & _ & _ & Hpl)]; [unfold_role_types; lia..|].
  split.
  - rewrite Apply_lookup_other; [done|]. intros (c & -> & Hin)%list_elem_of_fmap.
    by destruct (Hpl c Hin).
  - intros m. destruct (last_change d m) as [j|] eqn:Hl.
    2:{ rewrite Apply_lookup, Hl. destruct (members r !! m); naive_solver. }
    apply last_change_Some in Hl as (c & Hin & <- & <-). specialize (Hpl c Hin) as [_ Hpl].
    rewrite (Apply_lookup_change _ _ c) by done. revert Hpl. unfold is_rm, live.
    destruct (Typ (miRole (chInfo c)) =? RoleType_NONE)%Z; simpl.
    + intros (e & -> & ?). rewrite LessThanOrEqual_spec. by right.
    + intros (-> & ?) i [= <-]. by rewrite LessThanOrEqual_spec.
Qed.

(** a team keeps an owner.  Creation puts the doer into the roster as an owner, and with
    [RequireOwner] an accepted edit of a team that has an owner leaves it with one. *)
Theorem team_keeps_owner d doer opts rPre keysPre rp s kp :
  Gameplan d doer rPre keysPre opts = Ok (rp, s, kp) →
  no_check opts = false → require_owner opts = true →
  HasOwner rPre = true ∨ rPre = None → HasOwner (Some rp) = true.
Proof.
  intros Hg Hn Hq Ho. destruct rPre as [r|], keysPre as [ks|]; try done.
  - apply Gameplan_edit in Hg as (_ & -> & Hown & _). destruct Ho as [Ho|Ho]; [|done].
    by apply Hown.
  - apply Gameplan_create in Hg as (Ha & -> & _). by eapply create_has_owner, Ha.
Qed.

(** The roster invariant.  [Apply], and so every edit, keeps the index by role equal to
    the members at that role and keeps members with the empty role out of the roster;
    the entry of a member after a change set is the last change for it, or the old entry. *)
Theorem edit_keeps_index d doer rPre keysPre opts rp s kp :
  Gameplan d doer rPre keysPre opts = Ok (rp, s, kp) →
  roster_ok (default NewRosterCore rPre) →
  roster_ok rp ∧
  ∀ m, members rp !! m = match last_change d m with
                         | Some i => if live i then Some i else None
                         | None => members (default NewRosterCore rPre) !! m
                         end.
Proof.
  intros Hg Hr. assert (rp = Apply (default NewRosterCore rPre) d) as ->.
  { destruct rPre, keysPre; try done.
    - by apply Gameplan_edit in Hg as (_ & -> & _).
    - by apply Gameplan_create in Hg as (_ & -> & _). }
  split; [by apply Apply_ok|intros; apply Apply_lookup].
Qed.
End edits.
