(* ===== verification/RosterKeys.v ===== *)
(** * What an edit does to the team's keys

    The plan of [planChangesLocked] in closed form: which keys get a new
    generation, and who is sent which key.  On top of it, the life of a team as a
    reachability relation over founding and edits, with the set of key boxes
    handed out so far, and the invariant that makes roles meaningful: the current
    key of a role has been boxed for exactly the members at or above the role. *)
From S2P Require Import Prelude Role Roster RosterAuth.

Section plan.
Context (r newRoster : RosterCore) (keyGensPre : KeyGens) (allKeyRoles : gset RoleKey).

Definition sees (nr : RosterCore) (m : MemberID) (role : RoleKey) : Prop :=
  ∃ i, members nr !! m = Some i ∧ rk_le role (miRole i).

(** The three reasons for a key to be sent on account of a change. *)
Definition at_level (c : Change) (role : RoleKey) : Prop :=
  role = miRole (chInfo c) ∧ keyGensPre !! role = None ∧ is_rm c = false.
Definition flooded (c : Change) (role : RoleKey) : Prop :=
  ∃ e, members r !! chMember c = Some e ∧
    (rk_lt (miRole (chInfo c)) (miRole e) ∨
     miRole e = miRole (chInfo c) ∧ (miGen e < miGen (chInfo c))%Z) ∧
    role ∈ allKeyRoles ∧ rk_le role (miRole e) ∧
    (miGen e = miGen (chInfo c) → rk_lt (miRole (chInfo c)) role).
Definition single (c : Change) (role : RoleKey) : Prop :=
  role ∈ allKeyRoles ∧ rk_le role (miRole (chInfo c)) ∧
  match members r !! chMember c with
  | None => True
  | Some e => rk_lt (miRole e) (miRole (chInfo c)) ∧ rk_lt (miRole e) role
  end.

(** *** The closures *)
Lemma keyAtLevel_incrs k ws x : x ∈ incrs (keyAtLevel newRoster k ws) ↔ x ∈ incrs ws.
Proof.
  unfold keyAtLevel. rewrite (foldl_grow (λ s x, x ∈ incrs s) (λ _ _, False)); [naive_solver|].
  intros s p e. case_match; simpl; naive_solver.
Qed.
Lemma keyAtLevel_includes k ws x :
  x ∈ includes (keyAtLevel newRoster k ws) ↔ x ∈ includes ws ∨ x = k.
Proof.
  unfold keyAtLevel. rewrite (foldl_grow (λ s x, x ∈ includes s) (λ _ _, False)); [set_solver|].
  intros s p e. case_match; simpl; naive_solver.
Qed.
Lemma keyAtLevel_rekeys k ws x m :
  (x, m) ∈ rekeys (keyAtLevel newRoster k ws) ↔
  (x, m) ∈ rekeys ws ∨ x = k ∧ sees newRoster m k.
Proof.
  unfold keyAtLevel, sees.
  rewrite (foldl_grow (λ s e, e ∈ rekeys s)
    (λ p e, e = (k, p.1) ∧ LessThanOrEqual k (miRole p.2) = true)).
  - simpl. setoid_rewrite LessThanOrEqual_spec. split; intros [?|Hx]; [by left| |by left|]; right.
    + destruct Hx as ([m' i] & Hin%elem_of_map_to_list & [= -> ->] & ?). eauto.
    + destruct Hx as (-> & i & Hin & ?). exists (m, i). by rewrite elem_of_map_to_list.
  - intros s p e. destruct (LessThanOrEqual k (miRole p.2)); simpl; set_solver.
Qed.

Definition flood_role (k : RoleKey) (floor : option RoleKey) (role : RoleKey) : Prop :=
  role ∈ allKeyRoles ∧ rk_le role k ∧ (∀ f, floor = Some f → rk_lt f role).

Lemma above_floor_spec floor role :
  above_floor floor role = true ↔ ∀ f, floor = Some f → rk_lt f role.
Proof. destruct floor; simpl; [rewrite LessThan_spec|]; naive_solver. Qed.

Lemma flood_test_spec k floor role i :
  LessThanOrEqual role (miRole i) && LessThanOrEqual role k && above_floor floor role = true ↔
  rk_le role (miRole i) ∧ rk_le role k ∧ (∀ f, floor = Some f → rk_lt f role).
Proof. rewrite !andb_true_iff, !LessThanOrEqual_spec, above_floor_spec. tauto. Qed.

(** A nested loop adds what its inner steps add. *)
Lemma keyFlood_grow {E} (mem : workingSchedule → E → Prop) (new : RoleKey → MemberID → E → Prop)
    k floor ws x :
  (∀ s role m e, mem (add_rekey role m (add_include role (add_incr role s))) e ↔
    mem s e ∨ new role m e) →
  mem (keyFlood newRoster allKeyRoles k floor ws) x ↔
  mem ws x ∨ ∃ role m, flood_role k floor role ∧ sees newRoster m role ∧ new role m x.
Proof.
  intros Hmem. unfold keyFlood.
  rewrite (foldl_grow mem (λ p e, ∃ role, role ∈ elements allKeyRoles ∧
    (LessThanOrEqual role (miRole p.2) && LessThanOrEqual role k && above_floor floor role = true ∧
     new role p.1 e))).
  - setoid_rewrite flood_test_spec. setoid_rewrite elem_of_elements. unfold flood_role, sees.
    split; intros [?|Hx]; [by left| |by left|]; right.
    + destruct Hx as ([m i] & Hin%elem_of_map_to_list & role & ? & ? & ?). naive_solver.
    + destruct Hx as (role & m & (? & ? & ?) & (i & ? & ?) & ?). exists (m, i).
      rewrite elem_of_map_to_list. naive_solver.
  - intros s p e. rewrite (foldl_grow mem (λ role e,
      LessThanOrEqual role (miRole p.2) && LessThanOrEqual role k && above_floor floor role = true ∧
      new role p.1 e)); [done|].
    intros s' role e'. destruct (_ && _ && _); [rewrite Hmem|]; naive_solver.
Qed.

Lemma keySingle_grow {E} (mem : workingSchedule → E → Prop) (new : RoleKey → E → Prop) m k prev ws x :
  (∀ s role e, mem (add_rekey role m (add_include role s)) e ↔ mem s e ∨ new role e) →
  mem (keySingle allKeyRoles m k prev ws) x ↔
  mem ws x ∨ ∃ role, flood_role k prev role ∧ new role x.
Proof.
  intros Hmem. unfold keySingle.
  rewrite (foldl_grow mem (λ role e,
    LessThanOrEqual role k && above_floor prev role = true ∧ new role e)).
  - unfold flood_role. setoid_rewrite andb_true_iff. setoid_rewrite LessThanOrEqual_spec.
    setoid_rewrite above_floor_spec. setoid_rewrite elem_of_elements. naive_solver.
  - intros s role e. destruct (_ && _); [rewrite Hmem|]; naive_solver.
Qed.

(** *** One change *)
Lemma flooded_spec c e role :
  members r !! chMember c = Some e →
  flooded c role ↔
  (0 <? RoleKey_Cmp (miRole e) (miRole (chInfo c)))%Z ||
    ((RoleKey_Cmp (miRole e) (miRole (chInfo c)) =? 0)%Z && (miGen e <? miGen (chInfo c))%Z) = true ∧
  flood_role (miRole e)
    (if (miGen e =? miGen (chInfo c))%Z then Some (miRole (chInfo c)) else None) role.
Proof.
  intros He. unfold flooded, flood_role. rewrite He, orb_true_iff, andb_true_iff.
  rewrite Z.ltb_lt, Z.eqb_eq, Z.ltb_lt, RoleKey_Cmp_gt, RoleKey_Cmp_eq.
  destruct (Z.eqb_spec (miGen e) (miGen (chInfo c))); naive_solver.
Qed.

Lemma single_spec c role :
  single c role ↔
  (members r !! chMember c = None ∧ flood_role (miRole (chInfo c)) None role) ∨
  ∃ e, members r !! chMember c = Some e ∧
    (RoleKey_Cmp (miRole e) (miRole (chInfo c)) <? 0)%Z = true ∧
    flood_role (miRole (chInfo c)) (Some (miRole e)) role.
Proof.
  unfold single, flood_role. setoid_rewrite Z.ltb_lt. setoid_rewrite RoleKey_Cmp_lt.
  destruct (members r !! chMember c) as [e|]; naive_solver.
Qed.

Section grow.
Context {E : Type} (mem : workingSchedule → E → Prop)
  (lev : RoleKey → E → Prop) (fl sg : RoleKey → MemberID → E → Prop)
  (HL : ∀ s k e, mem (keyAtLevel newRoster k s) e ↔ mem s e ∨ lev k e)
  (HF : ∀ s role m e, mem (add_rekey role m (add_include role (add_incr role s))) e ↔
    mem s e ∨ fl role m e)
  (HS : ∀ s role m e, mem (add_rekey role m (add_include role s)) e ↔ mem s e ∨ sg role m e)
  (HN : ∀ s m e, mem (add_new m s) e ↔ mem s e)
  (HD : ∀ s m e, mem (add_del m s) e ↔ mem s e).

Lemma plan_change_grow ws c x :
  mem (plan_change r keyGensPre newRoster allKeyRoles ws c) x ↔
  mem ws x ∨ (∃ role, at_level c role ∧ lev role x) ∨
  (∃ role m, flooded c role ∧ sees newRoster m role ∧ fl role m x) ∨
  (∃ role, single c role ∧ sg role (chMember c) x).
Proof.
  unfold plan_change. cbv zeta. fold (is_rm c).
  assert (∀ s, mem (if is_rm c then add_del (chMember c) s else s) x ↔ mem s x) as ->
    by (intros; destruct (is_rm c); [apply HD|done]).
  assert (∀ s, mem (match members r !! chMember c with
    | Some _ => s | None => add_new (chMember c) s end) x ↔ mem s x) as ->
    by (intros; destruct (members r !! chMember c); [done|apply HN]).
  assert (∀ s, mem (if bool_decide (keyGensPre !! miRole (chInfo c) = None) && negb (is_rm c)
    then keyAtLevel newRoster (miRole (chInfo c)) s else s) x ↔
    mem s x ∨ ∃ role, at_level c role ∧ lev role x) as Hlev.
  { intros s. unfold at_level. case_bool_decide; destruct (is_rm c); simpl; rewrite ?HL; naive_solver. }
  setoid_rewrite single_spec.
  destruct (members r !! chMember c) as [e|] eqn:He.
  - setoid_rewrite (flooded_spec c e); [|done].
    assert (∀ s, mem (if (RoleKey_Cmp (miRole e) (miRole (chInfo c)) <? 0)%Z
      then keySingle allKeyRoles (chMember c) (miRole (chInfo c)) (Some (miRole e)) s else s) x ↔
      mem s x ∨ ∃ role, ((RoleKey_Cmp (miRole e) (miRole (chInfo c)) <? 0)%Z = true ∧
        flood_role (miRole (chInfo c)) (Some (miRole e)) role) ∧ sg role (chMember c) x) as ->.
    { intros s. destruct (_ <? 0)%Z; [|naive_solver].
      rewrite (keySingle_grow mem (λ role e, sg role (chMember c) e)); [naive_solver|].
      intros; apply HS. }
    match goal with |- mem (if ?b then _ else _) x ∨ _ ↔ _ => destruct b end.
    + rewrite (keyFlood_grow mem fl) by apply HF. rewrite Hlev. naive_solver.
    + rewrite Hlev. naive_solver.
  - rewrite (keySingle_grow mem (λ role e, sg role (chMember c) e)) by (intros; apply HS).
    rewrite Hlev. unfold flooded. rewrite He. naive_solver.
Qed.

Lemma plan_grow cs x :
  (∀ e, ¬ mem newWorkingSchedule e) →
  mem (foldl (plan_change r keyGensPre newRoster allKeyRoles) newWorkingSchedule cs) x ↔
  ∃ c, c ∈ cs ∧ ((∃ role, at_level c role ∧ lev role x) ∨
    (∃ role m, flooded c role ∧ sees newRoster m role ∧ fl role m x) ∨
    (∃ role, single c role ∧ sg role (chMember c) x)).
Proof.
  intros H0. rewrite (foldl_grow mem _ _ plan_change_grow). specialize (H0 x). naive_solver.
Qed.
End grow.

(** *** The whole plan *)
Abbreviation plan cs := (foldl (plan_change r keyGensPre newRoster allKeyRoles) newWorkingSchedule cs).

Lemma plan_incrs cs x :
  x ∈ incrs (plan cs) ↔ ∃ c, c ∈ cs ∧ flooded c x ∧ ∃ m, sees newRoster m x.
Proof.
  rewrite (plan_grow (λ s e, e ∈ incrs s) (λ _ _, False) (λ role _ e, e = role) (λ _ _ _, False)).
  - naive_solver.
  - intros. rewrite keyAtLevel_incrs. naive_solver.
  - intros; simpl. set_solver.
  - intros; simpl. naive_solver.
  - done.
  - done.
  - intros e; simpl. set_solver.
Qed.

Lemma plan_includes cs x :
  x ∈ includes (plan cs) ↔
  ∃ c, c ∈ cs ∧ (at_level c x ∨ (flooded c x ∧ ∃ m, sees newRoster m x) ∨ single c x).
Proof.
  rewrite (plan_grow (λ s e, e ∈ includes s) (λ role e, e = role) (λ role _ e, e = role)
    (λ role _ e, e = role)).
  - naive_solver.
  - intros. apply keyAtLevel_includes.
  - intros; simpl. set_solver.
  - intros; simpl. set_solver.
  - done.
  - done.
  - intros e; simpl. set_solver.
Qed.

Lemma plan_rekeys cs x m :
  (x, m) ∈ rekeys (plan cs) ↔
  ∃ c, c ∈ cs ∧ ((at_level c x ∨ flooded c x) ∧ sees newRoster m x ∨
                 single c x ∧ m = chMember c).
Proof.
  rewrite (plan_grow (λ s e, e ∈ rekeys s) (λ role e, e.1 = role ∧ sees newRoster e.2 role)
    (λ role m e, e = (role, m)) (λ role m e, e = (role, m))).
  - split.
    + intros (c & ? & [(role & ? & ? & ?)|[(role & m' & ? & ? & [= -> ->])|(role & ? & [= -> ->])]]);
        simplify_eq/=; eauto 8.
    + intros (c & ? & [[[?|?] ?]|[? ->]]); exists c; split; eauto 10.
  - intros s k [x' m']. simpl. apply keyAtLevel_rekeys.
  - intros; simpl. set_solver.
  - intros; simpl. set_solver.
  - done.
  - done.
  - intros e; simpl. set_solver.
Qed.
End plan.

(** ** The exported schedule *)
Section export.
Context (w : workingSchedule) (pre : KeyGens).

Definition is_new (role : RoleKey) : Prop := pre !! role = None ∨ role ∈ incrs w.
Definition gen_after (role : RoleKey) : Generation :=
  match pre !! role with
  | Some g => if bool_decide (role ∈ incrs w) then wrap64 (g + 1) else g
  | None => FirstGeneration
  end.

Lemma export_gens_foldl l nk kp :
  (∀ role, role ∈ (foldl (export_gen w pre) (nk, kp) l).1 ↔ role ∈ nk ∨ role ∈ l ∧ is_new role) ∧
  (∀ role, (foldl (export_gen w pre) (nk, kp) l).2 !! role =
    if bool_decide (role ∈ l) then Some (gen_after role) else kp !! role).
Proof.
  revert nk kp. induction l as [|x l IH]; intros nk kp; cbn [foldl].
  - split; [set_solver|]. intros role. by rewrite bool_decide_false by set_solver.
  - destruct (export_gen w pre (nk, kp) x) as [nk' kp'] eqn:Hx.
    destruct (IH nk' kp') as [IH1 IH2]. split; intros role; [rewrite IH1|rewrite IH2].
    + assert (role ∈ nk' ↔ role ∈ nk ∨ role = x ∧ is_new role) as ->; [|set_solver].
      unfold is_new. revert Hx. unfold export_gen.
      destruct (pre !! x) eqn:Hp; [case_bool_decide|]; intros [= <- <-]; set_solver.
    + assert (kp' = <[x := gen_after x]> kp) as ->.
      { revert Hx. unfold export_gen, gen_after.
        destruct (pre !! x) eqn:Hp; [case_bool_decide|]; by intros [= <- <-]. }
      destruct (decide (role ∈ l)) as [Hl|Hl].
      { rewrite !bool_decide_true; [done|by right|done]. }
      rewrite (bool_decide_false (role ∈ l)) by done.
      destruct (decide (role = x)) as [->|Hne].
      * rewrite lookup_insert_eq, bool_decide_true; [done|by left].
      * rewrite lookup_insert_ne, bool_decide_false; [done| |done].
        by intros [?|?]%elem_of_cons.
Qed.

Lemma export_gens_spec nk kp :
  export_gens w pre = (nk, kp) →
  (∀ role, role ∈ nk ↔ role ∈ includes w ∧ is_new role) ∧
  (∀ role, kp !! role = if bool_decide (role ∈ includes w) then Some (gen_after role) else pre !! role).
Proof.
  unfold export_gens. intros Hx.
  destruct (export_gens_foldl (elements (includes w)) ∅ pre) as [H1 H2].
  rewrite Hx in H1, H2. simpl in H1, H2. split; intros role; [rewrite H1|rewrite H2].
  - set_solver.
  - by rewrite (bool_decide_ext _ _ (elem_of_elements (includes w) role)).
Qed.

Definition members_at (role : RoleKey) (l : list (RoleKey * MemberID)) : list MemberID :=
  (filter (λ x, x.1 = role) l).*2.

Lemma members_at_snoc role l x :
  members_at role (l ++ [x]) = members_at role l ++ if decide (x.1 = role) then [x.2] else [].
Proof.
  unfold members_at. rewrite filter_app, fmap_app. f_equal.
  destruct (decide (x.1 = role)); [rewrite filter_cons_True|rewrite filter_cons_False]; done.
Qed.

Lemma export_buckets_foldl nk kp l role :
  foldl (export_bucket nk kp) ∅ l !! role =
  match members_at role l with
  | [] => None
  | ms => Some (mkKeyScheduleItem role (bool_decide (role ∈ nk)) (default 0%Z (kp !! role)) ms)
  end.
Proof.
  induction l as [|x l IH] using rev_ind; [done|].
  rewrite foldl_app, members_at_snoc. simpl. unfold export_bucket at 1.
  destruct (decide (x.1 = role)) as [<-|Hne].
  - rewrite lookup_insert_eq, IH. by destruct (members_at x.1 l).
  - rewrite lookup_insert_ne, app_nil_r by done. apply IH.
Qed.

Lemma elem_of_members_at role m l : m ∈ members_at role l ↔ (role, m) ∈ l.
Proof.
  unfold members_at. rewrite list_elem_of_fmap. setoid_rewrite list_elem_of_filter. split.
  - intros ([? ?] & -> & <- & ?). done.
  - intros. by exists (role, m).
Qed.

Context `{SortLib}.

(** The key boxes a schedule asks for: a role, a generation and a recipient each. *)
Definition sched_boxes (s : KeySchedule) : gset (RoleKey * Generation * MemberID) :=
  list_to_set (item ← Items s; (λ m, (ksRole item, ksGen item, m)) <$> ksMembers item).

Lemma elem_of_items kp s item :
  export w pre = (s, kp) →
  item ∈ Items s ↔
  ∃ role, (∃ m, (role, m) ∈ rekeys w) ∧
    item = mkKeyScheduleItem role (bool_decide (role ∈ includes w ∧ is_new role))
             (default 0%Z (kp !! role))
             (SortFunc MemberID_Cmp (members_at role (elements (rekeys w)))).
Proof.
  unfold export. destruct (export_gens w pre) as [nk kp'] eqn:Hg. intros [= <- <-]. simpl.
  destruct (export_gens_spec _ _ Hg) as [Hnk _].
  rewrite SortFunc_perm, list_elem_of_fmap. split.
  - intros ([role it] & -> & Hin%elem_of_map_to_list). simpl. exists role.
    rewrite lookup_fmap in Hin. unfold export_buckets in Hin. rewrite export_buckets_foldl in Hin.
    destruct (members_at role (elements (rekeys w))) as [|m ms] eqn:Hms; [done|]. simplify_eq/=.
    split.
    + exists m. rewrite <- elem_of_elements, <- elem_of_members_at, Hms. set_solver.
    + unfold sort_members; simpl. f_equal. by apply bool_decide_ext.
  - intros (role & (m & Hm) & ->). eexists (role, _). split; [done|].
    rewrite elem_of_map_to_list, lookup_fmap. unfold export_buckets. rewrite export_buckets_foldl.
    rewrite <- elem_of_elements, <- elem_of_members_at in Hm.
    destruct (members_at role (elements (rekeys w))) as [|m' ms] eqn:Hms; [set_solver|].
    simpl. unfold sort_members; simpl. do 2 f_equal. by apply bool_decide_ext.
Qed.

Lemma export_boxes kp s role g m :
  export w pre = (s, kp) →
  (role, g, m) ∈ sched_boxes s ↔ (role, m) ∈ rekeys w ∧ g = default 0%Z (kp !! role).
Proof.
  intros Hx. unfold sched_boxes. rewrite elem_of_list_to_set, list_elem_of_bind.
  setoid_rewrite list_elem_of_fmap. setoid_rewrite (elem_of_items kp s); [|done]. split.
  - intros (item & (m' & [= -> -> ->] & Hm) & role' & _ & ->). simpl in *.
    rewrite SortFunc_perm, elem_of_members_at, elem_of_elements in Hm. done.
  - intros [Hm ->]. eexists. split; [|exists role; split; [eauto|done]]. simpl.
    exists m. split; [done|]. by rewrite SortFunc_perm, elem_of_members_at, elem_of_elements.
Qed.

Lemma export_keys kp s role :
  export w pre = (s, kp) →
  kp !! role = if bool_decide (role ∈ includes w) then Some (gen_after role) else pre !! role.
Proof.
  unfold export. destruct (export_gens w pre) as [nk kp'] eqn:Hg. intros [= _ <-].
  by apply (export_gens_spec nk kp').
Qed.
End export.

(** ** One edit *)
Section step.
Context `{SortLib} (r : RosterCore) (k : KeyGens) (d : ChangeSet) (forced : list RoleKey).
Context (Hnd : NoDup (chMember <$> d))
  (Hrm : ∀ c, c ∈ d → is_rm c = true → is_Some (members r !! chMember c))
  (Hval : ∀ c, c ∈ d → rk_valid (miRole (chInfo c)))
  (Hmem : ∀ m i, members r !! m = Some i → rk_valid (miRole i) ∧ live i = true)
  (Hkeys : ∀ role g, k !! role = Some g →
    rk_valid role ∧ Typ role ≠ RoleType_NONE ∧ (1 ≤ g ∧ g + 1 < 2 ^ 64)%Z)
  (Hforced : ∀ role, role ∈ forced →
    rk_valid role ∧ Typ role ≠ RoleType_NONE ∧ members r = ∅)
  (Howner : hasOwnerLocked (Apply r d) = true).

Let r' := Apply r d.
Let all : gset RoleKey := dom k ∪ list_to_set forced.
Let ws := foldl (plan_change r k r' all) newWorkingSchedule d.

Lemma all_valid role : role ∈ all → rk_valid role ∧ Typ role ≠ RoleType_NONE.
Proof.
  intros [[g Hg]%elem_of_dom|Hf%elem_of_list_to_set]%elem_of_union.
  - apply Hkeys in Hg. tauto.
  - apply Hforced in Hf. tauto.
Qed.

Lemma all_new role : role ∈ all → k !! role = None → members r = ∅.
Proof.
  intros [[g Hg]%elem_of_dom|Hf%elem_of_list_to_set]%elem_of_union Hk; [congruence|].
  by apply Hforced in Hf as (_ & _ & ?).
Qed.

Lemma key_in_all role g : k !! role = Some g → role ∈ all.
Proof. intros Hg. apply elem_of_union. left. by eapply elem_of_dom_2. Qed.

Lemma live_is_rm c : live (chInfo c) = negb (is_rm c).
Proof. done. Qed.

Lemma changed_entry c :
  c ∈ d → members r' !! chMember c = if is_rm c then None else Some (chInfo c).
Proof.
  intros Hc. unfold r'. rewrite (Apply_lookup_change _ _ c Hnd Hc), live_is_rm. by destruct (is_rm c).
Qed.

Lemma owner_sees role : rk_valid role → ∃ m, sees r' m role.
Proof.
  intros Hv. apply hasOwnerLocked_spec in Howner as (m & i & Hm & Ht). exists m, i.
  split; [done|]. unfold rk_valid in Hv. unfold_role_types. unfold rk_le.
  assert (rk_valid (miRole i)) as Hi.
  { rewrite Apply_lookup in Hm. destruct (last_change d m) as [j|] eqn:Hl.
    - apply last_change_Some in Hl as (c & Hc & _ & <-). destruct (live (chInfo c)); simplify_eq.
      by apply Hval.
    - by apply Hmem in Hm as [? _]. }
  unfold rk_valid in Hi. unfold_role_types. lia.
Qed.

Lemma none_below role i : Typ role = RoleType_NONE → rk_valid i → Typ i ≠ RoleType_NONE → rk_lt role i.
Proof. unfold rk_valid, rk_lt. unfold_role_types. lia. Qed.

Lemma is_rm_typ c : is_rm c = true ↔ Typ (miRole (chInfo c)) = RoleType_NONE.
Proof. apply Z.eqb_eq. Qed.

Lemma live_typ i : live i = true ↔ Typ (miRole i) ≠ RoleType_NONE.
Proof. unfold live. rewrite negb_true_iff. apply Z.eqb_neq. Qed.

(** Who is sent a key on their own account can see it afterwards. *)
Lemma single_sees c role : c ∈ d → single r all c role → sees r' (chMember c) role.
Proof.
  intros Hc (_ & Hle & He). exists (chInfo c). split; [|done].
  rewrite changed_entry by done. destruct (is_rm c) eqn:Hr; [|done]. exfalso.
  destruct (Hrm c Hc Hr) as [e Hem]. rewrite Hem in He. destruct He as [He _].
  destruct (Hmem _ _ Hem) as [Hv Hl%live_typ]. apply is_rm_typ in Hr.
  pose proof (none_below _ _ Hr Hv Hl). rk_lia.
Qed.

(** Whoever can no longer see a key causes it to be rotated. *)
Lemma lost_flooded c e role :
  c ∈ d → role ∈ all → members r !! chMember c = Some e → rk_le role (miRole e) →
  ¬ sees r' (chMember c) role → flooded r all c role.
Proof.
  intros Hc Ha He Hle Hns. exists e. split; [done|].
  destruct (all_valid _ Ha) as [Hv Ht].
  assert (rk_lt (miRole (chInfo c)) role) as Hlt.
  { destruct (is_rm c) eqn:Hr; [apply is_rm_typ in Hr; by apply none_below|].
    destruct (decide (rk_lt (miRole (chInfo c)) role)) as [|Hn]; [done|]. destruct Hns.
    exists (chInfo c). rewrite changed_entry, Hr by done. split; [done|]. by apply rk_le_not_lt. }
  split_and!; [left; by eapply rk_lt_le_trans|done..].
Qed.

(** Whoever newly sees a key is sent it. *)
Lemma gained_single m role :
  role ∈ all → sees r' m role → sees r m role ∨ ∃ c, c ∈ d ∧ single r all c role ∧ m = chMember c.
Proof.
  intros Ha (i & Hi & Hle). unfold r' in Hi. rewrite Apply_lookup in Hi.
  destruct (last_change d m) as [j|] eqn:Hl; [|by left; exists i].
  apply last_change_Some in Hl as (c & Hc & <- & <-). destruct (live (chInfo c)); [|done].
  injection Hi as <-. unfold single, sees. destruct (members r !! chMember c) as [e|] eqn:He.
  - destruct (decide (rk_le role (miRole e))) as [Hre|Hre]; [left; eauto|right].
    exists c. rewrite He. split_and!; [done|done|done| | |done].
    + rewrite rk_le_not_lt in Hre. eapply rk_lt_le_trans; [|done]. by apply dec_stable.
    + rewrite rk_le_not_lt in Hre. by apply dec_stable.
  - right. exists c. by rewrite He.
Qed.

Lemma kept_sees m role : m ∉ (chMember <$> d) → sees r' m role ↔ sees r m role.
Proof. intros Hm. unfold sees, r'. by rewrite Apply_lookup_other. Qed.

(** *** Recipients *)
Lemma rekeys_sees role m : (role, m) ∈ rekeys ws → sees r' m role.
Proof. intros (c & Hc & [[_ ?]|[? ->]])%plan_rekeys; [done|by apply single_sees]. Qed.

(** A key with a new generation goes to everyone who sees it. *)
Lemma new_key_to_all role m :
  role ∈ includes ws → is_new ws k role → sees r' m role → (role, m) ∈ rekeys ws.
Proof.
  intros Hi Hn Hs. apply plan_rekeys. destruct Hn as [Hk|(c & Hc & Hf & _)%plan_incrs].
  - apply plan_includes in Hi as (c & Hc & [?|[[(e & He & _ & Ha & _) _]|Hsg]]).
    + exists c. eauto.
    + apply all_new in Ha; [|done]. rewrite Ha in He. by rewrite lookup_empty in He.
    + destruct (gained_single m role) as [(i & Hi & _)|(c' & ? & ? & ?)]; [apply Hsg|done| |eauto].
      rewrite (all_new role), lookup_empty in Hi; [done|apply Hsg|done].
  - exists c. eauto.
Qed.

(** A key that keeps its generation: who holds it and may see it afterwards. *)
Lemma same_key_recipients role g m :
  k !! role = Some g → role ∉ incrs ws → sees r' m role ↔ sees r m role ∨ (role, m) ∈ rekeys ws.
Proof.
  intros Hk Hn. pose proof (key_in_all _ _ Hk) as Ha. split.
  - intros [?|(c & ? & ? & ->)]%gained_single; [by left| |done]. right. apply plan_rekeys. eauto.
  - intros [Hs|?]; [|by apply rekeys_sees].
    destruct (decide (m ∈ chMember <$> d)) as [(c & -> & Hc)%list_elem_of_fmap|Hm].
    + destruct Hs as (e & He & Hle).
      destruct (decide (rk_le role (miRole (chInfo c)) ∧ is_rm c = false)) as [[? Hr]|Hd].
      { exists (chInfo c). by rewrite changed_entry, Hr. }
      destruct Hn. apply plan_incrs. exists c. split; [done|]. split.
      * apply (lost_flooded c e role Hc Ha He Hle). intros (i & Hi & ?). rewrite changed_entry in Hi by done.
        destruct (is_rm c); naive_solver.
      * apply owner_sees. by apply Hkeys in Hk as [? _].
    + by apply kept_sees.
Qed.
End step.

(** ** The life of a team *)
Record team := mkTeam {
  t_roster : RosterCore;
  t_keys : KeyGens;
  t_boxes : gset (RoleKey * Generation * MemberID)
}.

Record team_base (t : team) : Prop := {
  tb_ok : roster_ok (t_roster t);
  tb_members m i : members (t_roster t) !! m = Some i → rk_valid (miRole i);
  tb_role m i : members (t_roster t) !! m = Some i → is_Some (t_keys t !! miRole i);
  tb_keys role g : t_keys t !! role = Some g →
    rk_valid role ∧ Typ role ≠ RoleType_NONE ∧ (1 ≤ g < 2 ^ 64)%Z;
  tb_current role g m : t_keys t !! role = Some g →
    (role, g, m) ∈ t_boxes t ↔ sees (t_roster t) m role;
  tb_old role g m : (role, g, m) ∈ t_boxes t → ∃ g', t_keys t !! role = Some g' ∧ (g ≤ g')%Z
}.

Definition team_inv (t : team) : Prop := team_base t ∧ hasOwnerLocked (t_roster t) = true.

Definition roles_valid (d : ChangeSet) : Prop := ∀ c, c ∈ d → rk_valid (miRole (chInfo c)).
(** No generation counter is about to wrap around. *)
Definition gens_room (k : KeyGens) : Prop := ∀ role g, k !! role = Some g → (g + 1 < 2 ^ 64)%Z.

Section life.
Context `{SortLib}.

(** Founding and editing a team as the client does ([RequireOwner], no test
    overrides), with roles as [ImportRole] delivers them; each schedule's boxes are
    handed out. *)
Inductive team_reach : team → Prop :=
  | team_found d doer opts r s k :
      no_check opts = false → roles_valid d →
      Gameplan d doer None None opts = Ok (r, s, k) →
      team_reach (mkTeam r k (sched_boxes s))
  | team_edit t d doer opts r s k :
      team_reach t → no_check opts = false → require_owner opts = true → roles_valid d →
      gens_room (t_keys t) →
      Gameplan d doer (Some (t_roster t)) (Some (t_keys t)) opts = Ok (r, s, k) →
      team_reach (mkTeam r k (t_boxes t ∪ sched_boxes s)).

Section one_step.
Context (t : team) (d : ChangeSet) (forced : list RoleKey) (s : KeySchedule) (k' : KeyGens).
Context (Hbase : team_base t) (Hroom : gens_room (t_keys t)) (Hval : roles_valid d)
  (Hnd : NoDup (chMember <$> d))
  (Hrm : ∀ c, c ∈ d → is_rm c = true → is_Some (members (t_roster t) !! chMember c))
  (Hforced : ∀ role, role ∈ forced →
    rk_valid role ∧ Typ role ≠ RoleType_NONE ∧ members (t_roster t) = ∅)
  (Howner : hasOwnerLocked (Apply (t_roster t) d) = true)
  (Hplan : planChangesLocked (t_roster t) d (t_keys t) (Apply (t_roster t) d) forced = (s, k')).

Let r := t_roster t.
Let k := t_keys t.
Let r' := Apply r d.
Let ws := foldl (plan_change r k r' (dom k ∪ list_to_set forced)) newWorkingSchedule d.

Lemma plan_members m i : members r !! m = Some i → rk_valid (miRole i) ∧ live i = true.
Proof. intros Hm. split; [by eapply tb_members|by eapply ro_live, Hm; apply Hbase]. Qed.

Lemma plan_keys role g : k !! role = Some g →
  rk_valid role ∧ Typ role ≠ RoleType_NONE ∧ (1 ≤ g ∧ g + 1 < 2 ^ 64)%Z.
Proof. intros Hg. pose proof (Hroom _ _ Hg). apply (tb_keys _ Hbase) in Hg. naive_solver lia. Qed.

Lemma plan_export : export ws k = (s, k').
Proof. exact Hplan. Qed.

Lemma includes_valid role : role ∈ includes ws → rk_valid role ∧ Typ role ≠ RoleType_NONE.
Proof.
  intros (c & Hc & Hi)%plan_includes.
  assert (role ∈ dom k ∪ list_to_set forced → rk_valid role ∧ Typ role ≠ RoleType_NONE) as Hall
    by (eapply all_valid; [apply plan_keys|done]).
  destruct Hi as [(-> & _ & Hr)|[[(e & _ & _ & Ha & _) _]|(Ha & _)]]; [|by apply Hall..].
  split; [by apply Hval|]. intros Ht%Z.eqb_eq. unfold is_rm in Hr. congruence.
Qed.

Lemma keys_after role g' : k' !! role = Some g' →
  (role ∈ includes ws ∧ is_new ws k role ∧
    (k !! role = None ∧ g' = 1 ∨ ∃ g, k !! role = Some g ∧ g' = g + 1)%Z) ∨
  (role ∉ incrs ws ∧ k !! role = Some g').
Proof.
  rewrite (export_keys ws k k' s role plan_export). unfold gen_after, is_new.
  case_bool_decide as Hi.
  - destruct (k !! role) as [g|] eqn:Hk; [|intros [= <-]; left; split_and!; [done|by left|by left]].
    case_bool_decide as Hn; intros [= <-]; [left|by right]. split_and!; [done|by right|right].
    exists g. split; [done|]. apply plan_keys in Hk. unfold wrap64. apply Z.mod_small. lia.
  - intros Hk. right. split; [|done]. intros (c & Hc & Hf)%plan_incrs. apply Hi, plan_includes. eauto.
Qed.

Lemma keys_grow role g : k !! role = Some g → ∃ g', k' !! role = Some g' ∧ (g ≤ g')%Z.
Proof.
  intros Hk. rewrite (export_keys ws k k' s role plan_export). unfold gen_after. rewrite Hk.
  repeat case_bool_decide; eexists; split; try done.
  apply plan_keys in Hk. unfold wrap64. rewrite Z.mod_small by lia. lia.
Qed.

Lemma includes_key role : role ∈ includes ws → is_Some (k' !! role).
Proof.
  intros Hi. rewrite (export_keys ws k k' s role plan_export), bool_decide_true by done. eauto.
Qed.

Lemma rekeys_includes role m : (role, m) ∈ rekeys ws → role ∈ includes ws.
Proof.
  intros (c & Hc & Hr)%plan_rekeys. apply plan_includes. exists c. split; [done|].
  destruct Hr as [[[?|?] ?]|[? _]]; eauto.
Qed.

Lemma plan_current role g m :
  k' !! role = Some g → (role, g, m) ∈ t_boxes t ∪ sched_boxes s ↔ sees r' m role.
Proof.
  intros Hg. rewrite elem_of_union, (export_boxes _ _ _ _ _ _ _ plan_export), Hg. simpl.
  assert ((role, m) ∈ rekeys ws → sees r' m role) as Hsound
    by (apply rekeys_sees; [done|done|apply plan_members]).
  destruct (keys_after _ _ Hg) as [(Hi & Hn & Hcase)|[Hn Hk]].
  - assert ((role, g, m) ∉ t_boxes t) as Hfresh.
    { intros (g0 & Hg0 & ?)%(tb_old _ Hbase). fold k in Hg0.
      destruct Hcase as [[? ?]|(g1 & ? & ?)]; [congruence|]. simplify_eq. lia. }
    split; [naive_solver|]. intros Hs. right. split; [|done].
    by apply new_key_to_all.
  - rewrite (tb_current _ Hbase role g m) by done. fold r.
    assert (sees r' m role ↔ sees r m role ∨ (role, m) ∈ rekeys ws) as ->; [|naive_solver].
    apply same_key_recipients with g; try done; [apply plan_members|apply plan_keys].
Qed.

Lemma step_base : team_base (mkTeam r' k' (t_boxes t ∪ sched_boxes s)).
Proof.
  split; simpl.
  - apply Apply_ok, Hbase.
  - intros m i. unfold r'. rewrite Apply_lookup. destruct (last_change d m) as [j|] eqn:Hl.
    + apply last_change_Some in Hl as (c & Hc & _ & <-). destruct (live (chInfo c)); [|done].
      intros [= <-]. by apply Hval.
    + intros. by eapply tb_members.
  - intros m i. unfold r'. rewrite Apply_lookup. destruct (last_change d m) as [j|] eqn:Hl.
    + apply last_change_Some in Hl as (c & Hc & _ & <-). destruct (live (chInfo c)) eqn:Hlv; [|done].
      intros [= <-]. destruct (k !! miRole (chInfo c)) as [g|] eqn:Hk.
      * destruct (keys_grow _ _ Hk) as (g' & -> & _). eauto.
      * apply includes_key, plan_includes. exists c. split; [done|]. left. split_and!; [done..|].
        rewrite live_is_rm in Hlv. by destruct (is_rm c).
    + intros Hm. destruct (tb_role _ Hbase m i Hm) as [g Hk].
      destruct (keys_grow _ _ Hk) as (g' & -> & _). eauto.
  - intros role g Hg. destruct (keys_after _ _ Hg) as [(Hi & _ & Hc)|[_ Hk]].
    + destruct (includes_valid _ Hi). split; [done|split; [done|]].
      destruct Hc as [[_ ->]|(g0 & Hk & ->)]; [lia|]. apply plan_keys in Hk. lia.
    + by apply (tb_keys _ Hbase).
  - apply plan_current.
  - intros role g m [Hb|Hb]%elem_of_union.
    + destruct (tb_old _ Hbase _ _ _ Hb) as (g0 & Hg0 & ?).
      destruct (keys_grow _ _ Hg0) as (g' & -> & ?). exists g'. split; [done|lia].
    + apply (export_boxes _ _ _ _ _ _ _ plan_export) in Hb as [Hr ->].
      destruct (includes_key role) as [g' Hg']; [by eapply rekeys_includes|]. rewrite Hg'. by exists g'.
Qed.
End one_step.

Lemma team_base_empty : team_base (mkTeam NewRosterCore ∅ ∅).
Proof. split; simpl; try done. apply roster_ok_empty. Qed.

Lemma founding_roles role :
  role ∈ [AdminRole; MemberRole; KVMinRole] → rk_valid role ∧ Typ role ≠ RoleType_NONE ∧
  members NewRosterCore = ∅.
Proof.
  rewrite !elem_of_cons, elem_of_nil. unfold rk_valid. intros [->|[->|[->|[]]]]; simpl;
    unfold_role_types; unfold VizLevelMin, VizLevelMax, VizLevelKvMin; repeat split; lia || done.
Qed.

Lemma authorized_plan r doer d create opts :
  authorized r doer d create opts →
  NoDup (chMember <$> d) ∧
  ∀ c, c ∈ d → is_rm c = true → is_Some (members r !! chMember c).
Proof.
  intros (Hnd & di & _ & Hc). split; [done|]. intros c Hin Hr. by destruct (co_removal _ _ _ _ (Hc c Hin) Hr).
Qed.

Lemma team_reach_inv t : team_reach t → team_inv t.
Proof.
  induction 1 as [d doer opts r s k Hn Hv (Ha & -> & Hp)%Gameplan_create
                 |t d doer opts r s k _ [IH Ho] Hn Hq Hv Hroom (Ha & -> & Hown & Hp)%Gameplan_edit];
    specialize (Ha Hn); destruct (authorized_plan _ _ _ _ _ Ha) as [Hnd Hrm].
  - pose proof (create_has_owner _ _ _ Ha) as Ho. split; [|done].
    pose proof (step_base (mkTeam NewRosterCore ∅ ∅) d [AdminRole; MemberRole; KVMinRole] s k) as Hs.
    simpl in Hs. rewrite union_empty_l_L in Hs.
    apply Hs; [apply team_base_empty|done|done|done|done|apply founding_roles|done|done].
  - specialize (Hown Hq Ho). split; [|done].
    apply step_base with []; try done. intros role Hr. by apply elem_of_nil in Hr.
Qed.

(** *** Theorems *)

(** C13: roles and keys agree, always.  In every team that founding and edits can produce, the
    current key of each role has been handed out to exactly the members at or above the
    role: nobody who was removed or demoted holds it, nobody entitled to it lacks it, and
    every member's role has a key. *)
Theorem team_keys_match_roles t role g m :
  team_reach t → t_keys t !! role = Some g →
  ((role, g, m) ∈ t_boxes t ↔
   ∃ i, members (t_roster t) !! m = Some i ∧ LessThanOrEqual role (miRole i) = true) ∧
  (∀ m' i, members (t_roster t) !! m' = Some i → is_Some (t_keys t !! miRole i)).
Proof.
  intros [Hb _]%team_reach_inv Hk. split; [|apply Hb].
  rewrite (tb_current _ Hb _ _ _ Hk). unfold sees. by setoid_rewrite LessThanOrEqual_spec.
Qed.

(** The schedule of one edit.  Generations never go back and move by at most one; new roles
    start at the first generation; an item announces a new key exactly when the generation
    moved or the role is new; and what it sends goes only to members of the new roster at
    or above the role, to all of them if the key is new. *)
Theorem edit_schedule t d doer opts r s k :
  team_reach t → no_check opts = false → require_owner opts = true → roles_valid d →
  gens_room (t_keys t) →
  Gameplan d doer (Some (t_roster t)) (Some (t_keys t)) opts = Ok (r, s, k) →
  (∀ role g, t_keys t !! role = Some g → k !! role = Some g ∨ k !! role = Some (g + 1)%Z) ∧
  (∀ role g, t_keys t !! role = None → k !! role = Some g → g = FirstGeneration) ∧
  ∀ item, item ∈ Items s →
    k !! ksRole item = Some (ksGen item) ∧
    (NewKeyGen item = true ↔ t_keys t !! ksRole item ≠ Some (ksGen item)) ∧
    (∀ m, m ∈ ksMembers item → sees r m (ksRole item)) ∧
    (NewKeyGen item = true → ∀ m, sees r m (ksRole item) → m ∈ ksMembers item).
Proof.
  intros [Hb Ho]%team_reach_inv Hn Hq Hv Hroom (Ha & -> & Hown & Hp)%Gameplan_edit.
  specialize (Ha Hn). destruct (authorized_plan _ _ _ _ _ Ha) as [Hnd Hrm]. specialize (Hown Hq Ho).
  assert (∀ role, role ∈ [] → rk_valid role ∧ Typ role ≠ RoleType_NONE ∧ members (t_roster t) = ∅)
    as Hf by (intros role Hr; by apply elem_of_nil in Hr).
  set (ws := foldl (plan_change (t_roster t) (t_keys t) (Apply (t_roster t) d)
    (dom (t_keys t) ∪ list_to_set [])) newWorkingSchedule d).
  assert (export ws (t_keys t) = (s, k)) as He by exact Hp.
  pose proof (keys_after t d [] s k Hb Hroom Hf Hp) as Hka. fold ws in Hka.
  split_and!.
  - intros role g Hg. destruct (keys_grow t d [] s k Hb Hroom Hf Hp _ _ Hg) as (g' & Hg' & _).
    destruct (Hka _ _ Hg') as [(_ & _ & [[? _]|(g0 & ? & ->)])|[_ ?]]; [congruence| |]; simplify_eq; eauto.
  - intros role g Hg Hg'. destruct (Hka _ _ Hg') as [(_ & _ & [[_ ->]|(g0 & ? & _)])|[_ ?]]; done || congruence.
  - intros item (role & (m0 & Hm0) & ->)%(elem_of_items ws _ _ _ _ He). simpl.
    destruct (includes_key t d [] s k Hp role) as [g Hg]; [by eapply rekeys_includes|]. rewrite Hg. simpl.
    setoid_rewrite SortFunc_perm. setoid_rewrite elem_of_members_at. setoid_rewrite elem_of_elements.
    split; [done|]. rewrite bool_decide_eq_true. split; [|split].
    + destruct (Hka _ _ Hg) as [(Hi & Hw & Hc)|[Hw Hk]].
      * split; [|done]. intros _. destruct Hc as [[-> _]|(g0 & -> & ->)]; [done|].
        intros [= ?]. lia.
      * rewrite Hk. split; [|done]. intros [_ [?|?]]; congruence.
    + intros m Hm. eapply rekeys_sees; [done|done|by apply plan_members|done].
    + intros [Hi Hw] m Hs. by apply new_key_to_all.
Qed.

(** C21: losing access rotates the key.  When an accepted edit removes or demotes a member below
    a role whose key they held, that key moves to the next generation and no box of the new
    generation is addressed to them. *)
Theorem lost_access_rotates_key t d doer opts r s k m role g :
  team_reach t → no_check opts = false → require_owner opts = true → roles_valid d →
  gens_room (t_keys t) →
  Gameplan d doer (Some (t_roster t)) (Some (t_keys t)) opts = Ok (r, s, k) →
  t_keys t !! role = Some g → sees (t_roster t) m role → ¬ sees r m role →
  k !! role = Some (g + 1)%Z ∧ (role, (g + 1)%Z, m) ∉ t_boxes t ∪ sched_boxes s.
Proof.
  intros Ht Hn Hq Hv Hroom Hgp Hk Hs Hns.
  assert (team_inv (mkTeam r k (t_boxes t ∪ sched_boxes s))) as [Hb' _]
    by (apply team_reach_inv; by eapply team_edit).
  apply team_reach_inv in Ht as [Hb _].
  assert (k !! role = Some (g + 1)%Z) as Hk'.
  { destruct (tb_old _ Hb' role g m) as (g' & Hg' & _).
    { apply elem_of_union_l. by apply (tb_current _ Hb). }
    simpl in Hg'. apply Gameplan_edit in Hgp as (_ & -> & _ & Hp).
    assert (∀ role, role ∈ [] → rk_valid role ∧ Typ role ≠ RoleType_NONE ∧ members (t_roster t) = ∅)
      as Hf by (intros ? Hr; by apply elem_of_nil in Hr).
    destruct (keys_after t d [] s k Hb Hroom Hf Hp _ _ Hg')
      as [(_ & _ & [[? _]|(g0 & ? & ->)])|[_ ?]]; simplify_eq; [done|].
    destruct Hns. apply (tb_current _ Hb' role _ m Hg'). simpl.
    apply elem_of_union_l. by apply (tb_current _ Hb). }
  split; [done|]. intros Hin. by apply Hns, (tb_current _ Hb' role (g + 1)%Z m Hk').
Qed.

(** An upgrade ignores the member's key generation.  When the only change raises a member's
    role, no existing team key is rotated, also when the change carries a newer generation
    of the member's own key; and no key at or below the old role is sent again.  (At an
    equal or lower role a newer generation rotates every key the member could see.) *)
Theorem upgrade_keeps_keys c doer r k opts r' s k' e :
  Gameplan [c] doer (Some r) (Some k) opts = Ok (r', s, k') →
  members r !! chMember c = Some e → LessThan (miRole e) (miRole (chInfo c)) = true →
  (∀ role g, k !! role = Some g → k' !! role = Some g) ∧
  (∀ item, item ∈ Items s → LessThan (miRole e) (ksRole item) = true).
Proof.
  intros (_ & -> & _ & Hp)%Gameplan_edit He Hlt%LessThan_spec.
  set (ws := foldl (plan_change r k (Apply r [c]) (dom k ∪ list_to_set [])) newWorkingSchedule [c]).
  assert (export ws k = (s, k')) as Hx by exact Hp.
  assert (∀ c' role, c' ∈ [c] → ¬ flooded r (dom k ∪ list_to_set []) c' role) as Hnf.
  { intros c' role ->%list_elem_of_singleton (e' & He' & Hor & _). simplify_eq.
    destruct Hor as [?|[Heq _]]; [|rewrite Heq in Hlt]; rk_lia. }
  split.
  - intros role g Hk. rewrite (export_keys ws k k' s role Hx). unfold gen_after. rewrite Hk.
    rewrite (bool_decide_false (role ∈ incrs ws)); [by case_bool_decide|].
    intros (c' & Hc' & Hf & _)%plan_incrs. by eapply Hnf.
  - intros item (role & (m & Hm) & ->)%(elem_of_items ws _ _ _ _ Hx). simpl. apply LessThan_spec.
    apply plan_rekeys in Hm as (c' & Hc' & [[[(-> & _)|Hf] _]|[(_ & _ & Hs) _]]).
    + by apply list_elem_of_singleton in Hc' as ->.
    + by destruct (Hnf c' role).
    + apply list_elem_of_singleton in Hc' as ->. rewrite He in Hs. by destruct Hs.
Qed.
End life.
