(* ===== verification/RosterExamples.v ===== *)
(** * A team in use

    A founding, an edit by an admin and a delegated edit, evaluated on concrete
    members with [merge_sort] as the sorting routine; they show that the
    hypotheses of the theorems of [RosterAuth] and [RosterKeys] can be met. *)
From S2P Require Import Prelude Role Roster RosterAuth RosterKeys.

#[local] Existing Instance merge_sort_func.

Definition ex_member (n : Z) : MemberID := mkMemberID (mkFQEntityFixed [n] [7%Z]) OwnerRole.
Definition alice : MemberID := ex_member 1.
Definition bob : MemberID := ex_member 2.
Definition carol : MemberID := ex_member 3.
Definition dave : MemberID := ex_member 4.
Definition erin : MemberID := ex_member 5.

Definition ex_info (k : RoleKey) (g : Z) : MemberInfo := mkMemberInfo k g 1 0.
Definition ex_change (m : MemberID) (k : RoleKey) (g : Z) : Change := mkChange m (ex_info k g).
Definition no_role : RoleKey := mkRoleKey RoleType_NONE 0.
Definition reader (l : Z) : RoleKey := mkRoleKey RoleType_MEMBER l.

Definition ex_found : ChangeSet :=
  [ex_change alice OwnerRole 1; ex_change bob AdminRole 1; ex_change carol (reader 2) 1;
   ex_change dave MemberRole 1].
Definition ex_opts : option GameplanOpts := Some (mkGameplanOpts false true (Some (reader 2)) false).

Definition ex_state : Type := RosterCore * KeySchedule * KeyGens.
Definition run_plan (r : result ex_state) : ex_state :=
  match r with Ok s => s | Err _ => (NewRosterCore, mkKeySchedule [] [] [], ∅) end.

Definition ex_s0 : ex_state := run_plan (Gameplan ex_found alice None None ex_opts).
Definition ex_edit (d : ChangeSet) (doer : MemberID) (s : ex_state) : result ex_state :=
  Gameplan d doer (Some s.1.1) (Some s.2) ex_opts.

Lemma run_plan_Ok r :
  is_ok r = true → r = Ok ((run_plan r).1.1, (run_plan r).1.2, (run_plan r).2).
Proof. by destruct r as [[[] ]|]. Qed.

(** Bob, an admin, removes dave; carol, at the delegation floor, adds erin. *)
Definition ex_d1 : ChangeSet := [ex_change dave no_role 0; ex_change carol (reader 3) 1].
Definition ex_d2 : ChangeSet := [ex_change erin MemberRole 1].
Definition ex_s1 : ex_state := run_plan (ex_edit ex_d1 bob ex_s0).
Definition ex_s2 : ex_state := run_plan (ex_edit ex_d2 carol ex_s0).

Lemma ex_s0_ok :
  Gameplan ex_found alice None None ex_opts = Ok (ex_s0.1.1, ex_s0.1.2, ex_s0.2).
Proof. apply run_plan_Ok. by vm_compute. Qed.
Lemma ex_s1_ok : ex_edit ex_d1 bob ex_s0 = Ok (ex_s1.1.1, ex_s1.1.2, ex_s1.2).
Proof. apply run_plan_Ok. by vm_compute. Qed.
Lemma ex_s2_ok : ex_edit ex_d2 carol ex_s0 = Ok (ex_s2.1.1, ex_s2.1.2, ex_s2.2).
Proof. apply run_plan_Ok. by vm_compute. Qed.

Lemma edit_no_escalation_witness :
  ∃ di, members ex_s0.1.1 !! bob = Some di ∧
    ∀ m, members ex_s1.1.1 !! m = members ex_s0.1.1 !! m ∨
      (∀ e, members ex_s0.1.1 !! m = Some e → LessThanOrEqual (miRole e) (miRole di) = true) ∧
      (∀ i, members ex_s1.1.1 !! m = Some i → LessThanOrEqual (miRole i) (miRole di) = true ∧
        (RoleType_IsAdminOrAbove (Typ (miRole i)) = true → Host (Fqe m) = Host (Fqe bob))).
Proof.
  apply (edit_no_escalation ex_d1 bob ex_s0.1.1 ex_s0.2 ex_opts ex_s1.1.1 ex_s1.1.2 ex_s1.2).
  - reflexivity.
  - apply ex_s1_ok.
Defined.

Lemma delegated_edit_confined_witness :
  members ex_s2.1.1 !! carol = Some (ex_info (reader 2) 1).
Proof.
  refine (proj1 (delegated_edit_confined ex_d2 carol ex_s0.1.1 ex_s0.2 ex_opts
    ex_s2.1.1 ex_s2.1.2 ex_s2.2 _ _ _ _ _)).
  - reflexivity.
  - apply ex_s2_ok.
  - apply (bool_decide_unpack _). vm_compute. exact I.
  - reflexivity.
Defined.

Lemma team_keeps_owner_witness : HasOwner (Some ex_s1.1.1) = true.
Proof.
  apply (team_keeps_owner ex_d1 bob ex_opts (Some ex_s0.1.1) (Some ex_s0.2)
    ex_s1.1.1 ex_s1.1.2 ex_s1.2).
  - apply ex_s1_ok.
  - reflexivity.
  - reflexivity.
  - left. vm_compute. reflexivity.
Defined.

Lemma edit_keeps_index_witness : roster_ok ex_s0.1.1.
Proof.
  refine (proj1 (edit_keeps_index ex_found alice None None ex_opts
    ex_s0.1.1 ex_s0.1.2 ex_s0.2 _ _)).
  - apply ex_s0_ok.
  - apply roster_ok_empty.
Defined.

(** ** The keys of the example team *)
Definition ex_team0 : team := mkTeam ex_s0.1.1 ex_s0.2 (sched_boxes ex_s0.1.2).

Definition valid_changes (d : ChangeSet) : bool :=
  forallb (λ c, bool_decide (rk_valid (miRole (chInfo c)))) d.
Lemma valid_changes_sound d : valid_changes d = true → roles_valid d.
Proof.
  intros Hf c Hc. unfold valid_changes in Hf. rewrite forallb_forall in Hf.
  by apply list_elem_of_In, Hf, bool_decide_eq_true in Hc.
Qed.

Definition small_gens (k : KeyGens) : bool :=
  forallb (λ p, (p.2 + 1 <? 2 ^ 64)%Z) (map_to_list k).
Lemma small_gens_sound k : small_gens k = true → gens_room k.
Proof.
  intros Hf role g Hg. unfold small_gens in Hf. rewrite forallb_forall in Hf.
  apply elem_of_map_to_list, list_elem_of_In, Hf in Hg. simpl in Hg. lia.
Qed.

Lemma ex_reach_team0 : team_reach ex_team0.
Proof.
  apply (team_found ex_found alice ex_opts); [done|by apply valid_changes_sound|apply ex_s0_ok].
Qed.

Lemma ex_room0 : gens_room ex_s0.2.
Proof. apply small_gens_sound. by vm_compute. Qed.

Lemma ex_d1_valid : roles_valid ex_d1.
Proof. by apply valid_changes_sound. Qed.

(** Dave holds the key of m/0, and no one below it does. *)
Lemma team_keys_match_roles_witness : (MemberRole, 1%Z, dave) ∈ t_boxes ex_team0.
Proof.
  apply (proj1 (team_keys_match_roles ex_team0 MemberRole 1 dave ex_reach_team0
    ltac:(apply (bool_decide_unpack _); vm_compute; exact I))).
  exists (ex_info MemberRole 1). split; [|reflexivity].
  apply (bool_decide_unpack _). vm_compute. exact I.
Defined.

Lemma edit_schedule_witness :
  ex_s1.2 !! MemberRole = Some 1%Z ∨ ex_s1.2 !! MemberRole = Some 2%Z.
Proof.
  apply (proj1 (edit_schedule ex_team0 ex_d1 bob ex_opts ex_s1.1.1 ex_s1.1.2 ex_s1.2
    ex_reach_team0 eq_refl eq_refl ex_d1_valid ex_room0 ex_s1_ok)).
  apply (bool_decide_unpack _). vm_compute. exact I.
Defined.

Lemma ex_dave_out : ¬ sees ex_s1.1.1 dave MemberRole.
Proof.
  intros (i & Hi & _). assert (members ex_s1.1.1 !! dave = None) as Hn
    by (apply (bool_decide_unpack _); vm_compute; exact I). congruence.
Qed.

(** Removing dave moves the key of m/0 to its second generation. *)
Lemma lost_access_rotates_key_witness : ex_s1.2 !! MemberRole = Some 2%Z.
Proof.
  refine (proj1 (lost_access_rotates_key ex_team0 ex_d1 bob ex_opts ex_s1.1.1 ex_s1.1.2 ex_s1.2
    dave MemberRole 1 ex_reach_team0 eq_refl eq_refl ex_d1_valid ex_room0 ex_s1_ok _ _ ex_dave_out)).
  - apply (bool_decide_unpack _). vm_compute. exact I.
  - exists (ex_info MemberRole 1). split.
    + apply (bool_decide_unpack _). vm_compute. exact I.
    + apply LessThanOrEqual_spec. reflexivity.
Defined.

(** Bob promotes dave to m/2 and records that dave's own key was rotated. *)
Definition ex_up : Change := ex_change dave (reader 2) 2.
Definition ex_s3 : ex_state := run_plan (ex_edit [ex_up] bob ex_s0).
Lemma ex_s3_ok : ex_edit [ex_up] bob ex_s0 = Ok (ex_s3.1.1, ex_s3.1.2, ex_s3.2).
Proof. apply run_plan_Ok. by vm_compute. Qed.

Lemma upgrade_keeps_keys_witness : ex_s3.2 !! MemberRole = Some 1%Z.
Proof.
  refine (proj1 (upgrade_keeps_keys ex_up bob ex_s0.1.1 ex_s0.2 ex_opts
    ex_s3.1.1 ex_s3.1.2 ex_s3.2 (ex_info MemberRole 1) ex_s3_ok _ _) MemberRole 1%Z _).
  - apply (bool_decide_unpack _). vm_compute. exact I.
  - reflexivity.
  - apply (bool_decide_unpack _). vm_compute. exact I.
Defined.
