(* ===== verification/Rational.v ===== *)
(** * Rational indices ([lib/core/rational.go])

    A team has an index range, a pair of numbers of the form
    [Base * 256 ^ Exp] with the digits of [Base] most significant first, or
    infinity.  The ranges order the teams, so that teams can be members of teams
    without cycles ([TeamIndex]).

    [Cmp] compares digit by digit in Go's [int], whose wrap-around is kept.  On
    numbers of moderate size it is the order of the rationals, and the shifts double
    and halve; at the upper end of the exponents the comparison goes wrong. *)
From Stdlib Require Import QArith.QArith Qpower.
From S2P Require Import Prelude.
Local Open Scope Z_scope.

Record proto_Rational := mkRational { Infinity : bool; Base : bytes; Exp : Z }.
Record proto_RationalRange := mkRationalRange { Low : proto_Rational; High : proto_Rational }.

#[global] Instance proto_Rational_eq_dec : EqDecision proto_Rational.
Proof. solve_decision. Defined.
#[global] Instance proto_RationalRange_eq_dec : EqDecision proto_RationalRange.
Proof. solve_decision. Defined.

Definition NewRational (b : bytes) (exp : Z) : proto_Rational := mkRational false b exp.
Definition NewRationalInfinity : proto_Rational := mkRational true [] 0.

(** ** Comparison *)
Definition MaxPow (r : proto_Rational) : Z :=
  if Infinity r then 0 else wrapS64 (len (Base r) + Exp r).
Definition MinPow (r : proto_Rational) : Z := if Infinity r then 0 else Exp r.

(** [Base] at a position that was checked to be in range. *)
Definition digit_at (b : bytes) (pos : Z) : Z := default 0 (b !! Z.to_nat pos).

Definition PlaceValue (r : proto_Rational) (i : Z) : Z :=
  if Infinity r then 0
  else
    let pos := wrapS64 (MaxPow r - i) in
    if pos <? 0 then 0
    else if len (Base r) <=? pos then 0
    else digit_at (Base r) pos.

(** One round of [for i := max; i >= min; i--]. *)
Definition cmp_round (r1 r2 : proto_Rational) (min i : Z) : Z + Z :=
  if min <=? i then
    let v1 := PlaceValue r1 i in
    let v2 := PlaceValue r2 i in
    if v2 <? v1 then inr 1
    else if v1 <? v2 then inr (-1)
    else inl (wrapS64 (i - 1))
  else inr 0.

(** An index of 64 bits that has not left the loop after [2 ^ 65] rounds never does. *)
Definition int_rounds : positive := 2 ^ 65.

Definition Cmp (r1 r2 : proto_Rational) : result Z :=
  if Infinity r1 && Infinity r2 then Ok 0
  else if Infinity r1 then Ok 1
  else if Infinity r2 then Ok (-1)
  else
    let min := Z.min (MinPow r1) (MinPow r2) in
    let max := Z.max (MaxPow r1) (MaxPow r2) in
    match loop_pos (cmp_round r1 r2 min) int_rounds max with
    | inr c => Ok c
    | inl _ => Err OutOfFuel
    end.

(** ** Shifts *)
Fixpoint rsh_bytes (carry : bool) (l : bytes) : bytes * bool :=
  match l with
  | [] => ([], carry)
  | b :: l =>
      let newCarry := nz (Z.land b 0x01) in
      let b := Z.shiftr b 1 in
      let b := if carry then Z.lor b 0x80 else b in
      let '(rest, c) := rsh_bytes newCarry l in
      (b :: rest, c)
  end.

Definition drop_zero_head (l : bytes) : bytes :=
  match l with b :: l' => if b =? 0 then l' else l | [] => [] end.

Definition Rsh (r : proto_Rational) : result proto_Rational :=
  if Infinity r then Err (BadArgsError "∞ cannot be shifted")
  else
    let '(newBase, carry) := rsh_bytes false (Base r) in
    let newBase' := if carry then newBase ++ [0x80] else newBase in
    let newExp := if carry then wrapS64 (Exp r - 1) else Exp r in
    Ok (mkRational false (drop_zero_head newBase') newExp).

(** The loop runs from the last byte to the first. *)
Fixpoint lsh_bytes (l : bytes) : bytes * bool :=
  match l with
  | [] => ([], false)
  | b :: l =>
      let '(rest, carry) := lsh_bytes l in
      let newCarry := nz (Z.land b 0x80) in
      let b := wrap8 (Z.shiftl b 1) in
      let b := if carry then Z.lor b 0x01 else b in
      (b :: rest, newCarry)
  end.

Definition Lsh (r : proto_Rational) : result proto_Rational :=
  if Infinity r then Err (BadArgsError "∞ cannot be raised")
  else
    let '(newBase, carry) := lsh_bytes (Base r) in
    let newBase := if carry then 0x01 :: newBase else newBase in
    match last newBase with
    | Some 0 => Ok (mkRational false (take (length newBase - 1) newBase) (wrapS64 (Exp r + 1)))
    | _ => Ok (mkRational false newBase (Exp r))
    end.

(** ** Ranges *)
Definition Rational_Validate (r : proto_Rational) : result () :=
  let isZero := (len (Base r) =? 0) && (Exp r =? 0) in
  guard_err (Infinity r && negb isZero) (DataError "bad rational").

Definition Range_Validate (r : proto_RationalRange) : result () :=
  _ ← Rational_Validate (Low r);
  _ ← Rational_Validate (High r);
  c ← Cmp (Low r) (High r);
  guard_err (0 <? c) BadRangeError.

Definition SetHigh (r : proto_RationalRange) (r2 : proto_Rational) : proto_RationalRange :=
  mkRationalRange (Low r) r2.
Definition SetLow (r : proto_RationalRange) (r2 : proto_Rational) : proto_RationalRange :=
  mkRationalRange r2 (High r).

Definition Range_LessThan (r1 r2 : proto_RationalRange) : result bool :=
  c ← Cmp (High r1) (Low r2); Ok (c <? 0).
Definition Range_Eq (r1 r2 : proto_RationalRange) : result bool :=
  c ← Cmp (Low r1) (Low r2);
  if c =? 0 then c ← Cmp (High r1) (High r2); Ok (c =? 0) else Ok false.
Definition Range_Includes (r1 r2 : proto_RationalRange) : result bool :=
  c ← Cmp (Low r1) (Low r2);
  if c <=? 0 then c ← Cmp (High r1) (High r2); Ok (0 <=? c) else Ok false.

Definition Range_Rsh (r : proto_RationalRange) : result proto_RationalRange :=
  high ← Rsh (High r); Ok (mkRationalRange (Low r) high).
Definition Range_Lsh (r : proto_RationalRange) : result proto_RationalRange :=
  low ← Lsh (Low r); Ok (mkRationalRange low (High r)).

Definition NewDefaultRange : proto_RationalRange :=
  mkRationalRange (NewRational [0x01] 0) NewRationalInfinity.

(** ** The number a [Rational] stands for *)
Fixpoint be_val (l : bytes) : Z :=
  match l with [] => 0 | b :: l => b * 256 ^ len l + be_val l end.

Definition value (r : proto_Rational) : Q := (inject_Z (be_val (Base r)) * (256 # 1) ^ Exp r)%Q.

(** [None] is infinity. *)
Definition rat_val (r : proto_Rational) : option Q := if Infinity r then None else Some (value r).
Definition val_compare (v1 v2 : option Q) : comparison :=
  match v1, v2 with
  | None, None => Eq
  | None, Some _ => Gt
  | Some _, None => Lt
  | Some q1, Some q2 => (q1 ?= q2)%Q
  end.
Definition sign (c : comparison) : Z := match c with Lt => -1 | Eq => 0 | Gt => 1 end.

(** Moderate size: far from the ends of [int64]. *)
Definition rational_ok (r : proto_Rational) : Prop :=
  bytes_ok (Base r) ∧ len (Base r) < 2 ^ 60 ∧ - 2 ^ 60 < Exp r < 2 ^ 60.

(** ** Digit sums *)
Lemma wrapS64_id z : - 2 ^ 63 <= z < 2 ^ 63 → wrapS64 z = z.
Proof. intros. unfold wrapS64. rewrite Z.mod_small; lia. Qed.

(** [n] digits of [d] from place [i] down. *)
Fixpoint dsum (d : Z → Z) (n : nat) (i : Z) : Z :=
  match n with O => 0 | S n => d i * 256 ^ Z.of_nat n + dsum d n (i - 1) end.

Definition digits (d : Z → Z) : Prop := ∀ i, 0 <= d i < 256.

Lemma dsum_bound d n i : digits d → 0 <= dsum d n i < 256 ^ Z.of_nat n.
Proof.
  intros Hd. revert i. induction n as [|n IH]; intros i; cbn [dsum]; [lia|].
  specialize (IH (i - 1)). specialize (Hd i). rewrite Nat2Z.inj_succ, Z.pow_succ_r by lia. nia.
Qed.

Lemma dsum_ext d d' n i :
  (∀ j, i - Z.of_nat n < j <= i → d j = d' j) → dsum d n i = dsum d' n i.
Proof.
  revert i. induction n as [|n IH]; intros i Hd; cbn [dsum]; [done|].
  rewrite Hd by lia. rewrite IH; [done|]. intros j Hj. apply Hd. lia.
Qed.

Lemma dsum_zero d n i : (∀ j, i - Z.of_nat n < j <= i → d j = 0) → dsum d n i = 0.
Proof.
  intros Hd. rewrite (dsum_ext d (λ _, 0)) by done. clear Hd.
  revert i. induction n as [|n IH]; intros i; cbn [dsum]; [done|]. by rewrite IH.
Qed.

(** Leading digits decide a comparison. *)
Lemma lead_digit_lt a b s t p : a < b → 0 <= s < p → 0 <= t < p → a * p + s < b * p + t.
Proof. nia. Qed.

Lemma cmp_loop_spec r1 r2 min n fuel i :
  (∀ j, min <= j <= i → 0 <= PlaceValue r1 j < 256 ∧ 0 <= PlaceValue r2 j < 256) →
  - 2 ^ 62 < min → i < 2 ^ 62 → i = min + Z.of_nat n - 1 → (n < fuel)%nat →
  loop_nat (cmp_round r1 r2 min) fuel i =
  inr (Z.sgn (dsum (PlaceValue r1) n i - dsum (PlaceValue r2) n i)).
Proof.
  intros Hd Hmin. revert fuel i Hd. induction n as [|n IH]; intros fuel i Hd Hi Hn Hf.
  { destruct fuel as [|fuel]; [lia|]. cbn [loop_nat]. unfold cmp_round.
    destruct (Z.leb_spec min i); [lia|]. done. }
  destruct fuel as [|fuel]; [lia|]. cbn [loop_nat dsum]. unfold cmp_round at 1.
  destruct (Z.leb_spec min i); [|lia].
  set (e1 := λ j, if (min <=? j) && (j <=? i) then PlaceValue r1 j else 0).
  set (e2 := λ j, if (min <=? j) && (j <=? i) then PlaceValue r2 j else 0).
  assert (digits e1 ∧ digits e2) as [He1 He2].
  { split; intros j; unfold e1, e2; destruct (Z.leb_spec min j), (Z.leb_spec j i); simpl; try lia;
      apply Hd; lia. }
  assert (∀ j, min <= j <= i → e1 j = PlaceValue r1 j ∧ e2 j = PlaceValue r2 j) as He.
  { intros j Hj. unfold e1, e2. destruct (Z.leb_spec min j), (Z.leb_spec j i); simpl; lia. }
  assert (dsum (PlaceValue r1) n (i - 1) = dsum e1 n (i - 1)) as Hs1.
  { apply dsum_ext. intros j Hj. symmetry. apply He. lia. }
  assert (dsum (PlaceValue r2) n (i - 1) = dsum e2 n (i - 1)) as Hs2.
  { apply dsum_ext. intros j Hj. symmetry. apply He. lia. }
  pose proof (dsum_bound e1 n (i - 1) He1). pose proof (dsum_bound e2 n (i - 1) He2).
  destruct (Hd i) as [Hv1 Hv2]; [lia|].
  destruct (Z.ltb_spec (PlaceValue r2 i) (PlaceValue r1 i)) as [Hlt|Hge].
  { rewrite Z.sgn_pos; [done|]. rewrite Hs1, Hs2.
    pose proof (lead_digit_lt _ _ (dsum e2 n (i - 1)) (dsum e1 n (i - 1)) (256 ^ Z.of_nat n) Hlt). lia. }
  destruct (Z.ltb_spec (PlaceValue r1 i) (PlaceValue r2 i)) as [Hlt|Hge'].
  { rewrite Z.sgn_neg; [done|]. rewrite Hs1, Hs2.
    pose proof (lead_digit_lt _ _ (dsum e1 n (i - 1)) (dsum e2 n (i - 1)) (256 ^ Z.of_nat n) Hlt). lia. }
  rewrite wrapS64_id by lia. rewrite IH; [|intros; apply Hd; lia|lia..].
  replace (PlaceValue r2 i) with (PlaceValue r1 i) by lia. do 2 f_equal. lia.
Qed.

(** The digits of [b], the first one at place [top], read over any window that holds
    them all, give its value. *)
Definition digit_of (b : bytes) (top j : Z) : Z :=
  if (0 <=? top - j) && (top - j <? len b) then digit_at b (top - j) else 0.

Lemma digit_of_cons a b top j :
  digit_of (a :: b) top j = if j =? top then a else digit_of b (top - 1) j.
Proof.
  unfold digit_of, digit_at, len. cbn [length]. rewrite Nat2Z.inj_succ.
  destruct (Z.eqb_spec j top) as [->|Hne].
  - rewrite Z.sub_diag. simpl. destruct (Z.ltb_spec 0 (Z.succ (Z.of_nat (length b)))); [done|lia].
  - destruct (Z.leb_spec 0 (top - j)), (Z.leb_spec 0 (top - 1 - j)); simpl; try lia.
    destruct (Z.ltb_spec (top - j) (Z.succ (Z.of_nat (length b)))),
      (Z.ltb_spec (top - 1 - j) (Z.of_nat (length b))); try lia.
    replace (Z.to_nat (top - j)) with (S (Z.to_nat (top - 1 - j))) by lia. done.
Qed.

Lemma dsum_base b k top : dsum (digit_of b top) (length b + k) top = be_val b * 256 ^ Z.of_nat k.
Proof.
  revert top. induction b as [|a b IH]; intros top; cbn [length Nat.add dsum be_val].
  - rewrite dsum_zero; [done|]. intros j _. unfold digit_of, digit_at.
    rewrite lookup_nil. by destruct (_ && _).
  - rewrite digit_of_cons, Z.eqb_refl.
    rewrite (dsum_ext _ (digit_of b (top - 1))).
    2:{ intros j Hj. rewrite digit_of_cons. destruct (Z.eqb_spec j top); [lia|done]. }
    rewrite IH. unfold len. rewrite Nat2Z.inj_add, Z.pow_add_r by lia. ring.
Qed.

Lemma dsum_lead b top m k :
  dsum (digit_of b top) (m + (length b + k)) (top + Z.of_nat m) = be_val b * 256 ^ Z.of_nat k.
Proof.
  induction m as [|m IH]; cbn [Nat.add dsum].
  - rewrite Z.add_0_r. apply dsum_base.
  - replace (top + Z.of_nat (S m) - 1) with (top + Z.of_nat m) by lia. rewrite IH.
    replace (digit_of b top (top + Z.of_nat (S m))) with 0; [lia|].
    unfold digit_of. destruct (Z.leb_spec 0 (top - (top + Z.of_nat (S m)))); [lia|done].
Qed.

Lemma digit_at_byte b pos : bytes_ok b → 0 <= digit_at b pos < 256.
Proof.
  intros Hb. unfold digit_at. destruct (b !! Z.to_nat pos) as [x|] eqn:Hx; simpl; [|lia].
  eapply Forall_lookup_1 in Hx; [|exact Hb]. unfold byte_ok in Hx. lia.
Qed.

Lemma PlaceValue_digit r i :
  rational_ok r → Infinity r = false → - 2 ^ 62 < i < 2 ^ 62 →
  PlaceValue r i = digit_of (Base r) (len (Base r) + Exp r) i.
Proof.
  intros (_ & Hl & He) Hi Hb. assert (0 <= len (Base r)) by (unfold len; lia).
  unfold PlaceValue, MaxPow, digit_of. rewrite Hi. cbv zeta.
  rewrite (wrapS64_id (len (Base r) + Exp r)) by lia. rewrite wrapS64_id by lia.
  destruct (Z.ltb_spec (len (Base r) + Exp r - i) 0), (Z.leb_spec 0 (len (Base r) + Exp r - i));
    simpl; try lia.
  destruct (Z.leb_spec (len (Base r)) (len (Base r) + Exp r - i)),
    (Z.ltb_spec (len (Base r) + Exp r - i) (len (Base r))); lia.
Qed.

Lemma digit_of_byte b top j : bytes_ok b → 0 <= digit_of b top j < 256.
Proof. intros Hb. unfold digit_of. destruct (_ && _); [by apply digit_at_byte|lia]. Qed.

(** The digits of a number from [max] down to [min], as one integer. *)
Lemma dsum_number r min max :
  rational_ok r → Infinity r = false → - 2 ^ 62 < min → max < 2 ^ 62 →
  min <= Exp r → len (Base r) + Exp r <= max →
  dsum (PlaceValue r) (Z.to_nat (max - min + 1)) max = be_val (Base r) * 256 ^ (Exp r - min + 1).
Proof.
  intros Hr Hi Hmin Hmax Hlo Hhi. assert (0 <= len (Base r)) as Hl by (unfold len; lia).
  rewrite (dsum_ext _ (digit_of (Base r) (len (Base r) + Exp r))).
  2:{ intros j Hj. apply PlaceValue_digit; [done..|]. lia. }
  set (m := Z.to_nat (max - (len (Base r) + Exp r))). set (k := Z.to_nat (Exp r - min + 1)).
  replace (Z.to_nat (max - min + 1)) with (m + (length (Base r) + k))%nat
    by (unfold m, k, len in *; lia).
  replace max with (len (Base r) + Exp r + Z.of_nat m) by (unfold m; lia).
  rewrite dsum_lead. unfold k. by rewrite Z2Nat.id by lia.
Qed.

Lemma Cmp_finite r1 r2 :
  rational_ok r1 → rational_ok r2 → Infinity r1 = false → Infinity r2 = false →
  let m := Z.min (Exp r1) (Exp r2) in
  Cmp r1 r2 = Ok (Z.sgn (be_val (Base r1) * 256 ^ (Exp r1 - m + 1) -
                         be_val (Base r2) * 256 ^ (Exp r2 - m + 1))).
Proof.
  intros H1 H2 I1 I2 m. pose proof H1 as (Hb1 & Hl1 & He1). pose proof H2 as (Hb2 & Hl2 & He2).
  assert (0 <= len (Base r1) ∧ 0 <= len (Base r2)) as [? ?] by (unfold len; lia).
  unfold Cmp, MinPow, MaxPow. rewrite I1, I2. simpl andb. cbv iota zeta.
  rewrite !wrapS64_id by lia. fold m.
  set (mx := Z.max (len (Base r1) + Exp r1) (len (Base r2) + Exp r2)).
  rewrite loop_pos_nat.
  rewrite (cmp_loop_spec r1 r2 m (Z.to_nat (mx - m + 1))).
  - rewrite !dsum_number by (done || lia). done.
  - intros j Hj. rewrite !PlaceValue_digit by (done || lia). split; by apply digit_of_byte.
  - lia.
  - lia.
  - lia.
  - apply Nat2Z.inj_lt. rewrite Z2Nat.id, positive_nat_Z by lia. unfold int_rounds. lia.
Qed.

(** ** Comparison is the order of the rationals *)
Lemma pow256_pos e : (0 < (256 # 1) ^ e)%Q.
Proof. by apply Qpower_0_lt. Qed.

Lemma value_scaled r m :
  m <= Exp r →
  (value r == inject_Z (be_val (Base r) * 256 ^ (Exp r - m + 1)) * (256 # 1) ^ (m - 1))%Q.
Proof.
  intros Hm. unfold value. rewrite inject_Z_mult, <- Qmult_assoc, Zpower_Qpower by lia.
  rewrite <- Qpower_plus by done. replace (Exp r - m + 1 + (m - 1)) with (Exp r) by lia.
  change (inject_Z 256) with (256 # 1)%Q. reflexivity.
Qed.

Lemma scaled_compare (a b : Z) (s : Q) :
  (0 < s)%Q → (inject_Z a * s ?= inject_Z b * s)%Q = (a ?= b).
Proof.
  intros Hs. destruct (Z.compare_spec a b) as [->|Hlt|Hlt].
  - by apply Qeq_alt.
  - apply Qlt_alt, Qmult_lt_compat_r; [done|]. by rewrite <- Zlt_Qlt.
  - apply Qgt_alt, Qmult_lt_compat_r; [done|]. by rewrite <- Zlt_Qlt.
Qed.

Lemma sgn_compare a b : Z.sgn (a - b) = sign (a ?= b).
Proof.
  destruct (Z.compare_spec a b) as [->|?|?]; simpl;
    [by rewrite Z.sub_diag|apply Z.sgn_neg; lia|apply Z.sgn_pos; lia].
Qed.

Lemma Cmp_val r1 r2 :
  rational_ok r1 → rational_ok r2 → Cmp r1 r2 = Ok (sign (val_compare (rat_val r1) (rat_val r2))).
Proof.
  intros H1 H2. unfold rat_val. destruct (Infinity r1) eqn:I1, (Infinity r2) eqn:I2;
    try (unfold Cmp; rewrite I1, I2; done).
  rewrite Cmp_finite by done. cbn [val_compare].
  rewrite (value_scaled r1 (Z.min (Exp r1) (Exp r2))), (value_scaled r2 (Z.min (Exp r1) (Exp r2))) by lia.
  rewrite scaled_compare by apply pow256_pos. by rewrite sgn_compare.
Qed.

(** [Cmp] is the order of the numbers.  On numbers of moderate size the digit-wise
    comparison returns, with -1, 0 or 1 as the number of the first argument is below, equal
    to or above that of the second; infinity is above every number and equal to itself. *)
Theorem Cmp_is_value_order r1 r2 :
  rational_ok r1 → rational_ok r2 → Cmp r1 r2 = Ok (sign (val_compare (rat_val r1) (rat_val r2))).
Proof. apply Cmp_val. Qed.

Lemma Cmp_is_value_order_witness :
  Cmp (NewRational [1; 0] (-1)) (NewRational [2] 0) = Ok (-1).
Proof.
  exact (Cmp_is_value_order (NewRational [1; 0] (-1)) (NewRational [2] 0)
    ltac:(apply (bool_decide_unpack _); vm_compute; exact I)
    ltac:(apply (bool_decide_unpack _); vm_compute; exact I)).
Defined.

(** ** The order on values *)
Definition val_le (v1 v2 : option Q) : Prop := val_compare v1 v2 ≠ Gt.
Definition val_lt (v1 v2 : option Q) : Prop := val_compare v1 v2 = Lt.

Lemma val_compare_opp v1 v2 : val_compare v1 v2 = CompOpp (val_compare v2 v1).
Proof. destruct v1 as [q1|], v2 as [q2|]; simpl; try done. by rewrite Qcompare_antisym. Qed.

Lemma val_lt_le_trans a b c : val_lt a b → val_le b c → val_lt a c.
Proof.
  unfold val_lt, val_le. destruct a as [a|], b as [b|], c as [c|]; simpl; try done.
  rewrite <- Qlt_alt, <- Qle_alt, <- Qlt_alt. apply Qlt_le_trans.
Qed.
Lemma val_le_lt_trans a b c : val_le a b → val_lt b c → val_lt a c.
Proof.
  unfold val_lt, val_le. destruct a as [a|], b as [b|], c as [c|]; simpl; try done.
  rewrite <- Qlt_alt, <- Qle_alt, <- Qlt_alt. apply Qle_lt_trans.
Qed.
#[global] Instance val_le_preorder : PreOrder val_le.
Proof.
  split; unfold val_le.
  - intros [a|]; simpl; [|done]. apply Qle_alt, Qle_refl.
  - intros [a|] [b|] [c|]; simpl; try done. rewrite <- !Qle_alt. apply Qle_trans.
Qed.
Lemma val_lt_irrefl a : ¬ val_lt a a.
Proof.
  unfold val_lt. destruct a as [a|]; simpl; [|done]. rewrite <- Qlt_alt. apply Qlt_irrefl.
Qed.
Lemma val_lt_le a b : val_lt a b → val_le a b.
Proof. unfold val_lt, val_le. by intros ->. Qed.

(** ** Ranges by value *)
Definition range_ok (r : proto_RationalRange) : Prop := rational_ok (Low r) ∧ rational_ok (High r).
Definition range_valid (r : proto_RationalRange) : Prop := val_le (rat_val (Low r)) (rat_val (High r)).
Definition range_lt (r1 r2 : proto_RationalRange) : Prop := val_lt (rat_val (High r1)) (rat_val (Low r2)).
Definition range_sub (r1 r2 : proto_RationalRange) : Prop :=
  val_le (rat_val (Low r2)) (rat_val (Low r1)) ∧ val_le (rat_val (High r1)) (rat_val (High r2)).

#[global] Instance range_sub_preorder : PreOrder range_sub.
Proof.
  split; [by split|]. intros a b c [? ?] [? ?]. split; by etrans.
Qed.

Lemma range_lt_shrink a a' b b' : range_lt a b → range_sub a' a → range_sub b' b → range_lt a' b'.
Proof.
  unfold range_lt. intros Hlt [_ Hh] [Hl _].
  eapply val_le_lt_trans; [done|]. by eapply val_lt_le_trans.
Qed.

Lemma range_lt_trans a b c : range_lt a b → range_valid b → range_lt b c → range_lt a c.
Proof. intros Hab Hb Hbc. eapply val_lt_le_trans; [done|]. etrans; [done|]. by apply val_lt_le. Qed.
Lemma range_lt_irrefl a : range_valid a → ¬ range_lt a a.
Proof. intros Hv Hlt. eapply val_lt_irrefl. by eapply val_lt_le_trans. Qed.

Lemma Range_Validate_Ok r : range_ok r → Range_Validate r = Ok () → range_valid r.
Proof.
  intros [Hl Hh] Hv. unfold Range_Validate in Hv. inv_ok.
  match goal with H : Cmp _ _ = Ok _ |- _ => rewrite Cmp_val in H by done; injection H as <- end.
  unfold range_valid, val_le. by destruct (val_compare _ _).
Qed.

Lemma Range_LessThan_spec r1 r2 b :
  range_ok r1 → range_ok r2 → Range_LessThan r1 r2 = Ok b → b = true ↔ range_lt r1 r2.
Proof.
  intros [_ Hh] [Hl _] Hc. unfold Range_LessThan in Hc. rewrite Cmp_val in Hc by done.
  injection Hc as <-. unfold range_lt, val_lt. by destruct (val_compare _ _).
Qed.

Lemma Range_Includes_spec r1 r2 b :
  range_ok r1 → range_ok r2 → Range_Includes r1 r2 = Ok b → b = true ↔ range_sub r2 r1.
Proof.
  intros [Hl1 Hh1] [Hl2 Hh2] Hc. unfold Range_Includes in Hc. rewrite !Cmp_val in Hc by done.
  cbn [mbind result_bind] in Hc. unfold range_sub, val_le.
  rewrite (val_compare_opp (rat_val (High r2))).
  destruct (val_compare (rat_val (Low r1)) (rat_val (Low r2))) eqn:E1; simpl in Hc; simplify_eq;
    destruct (val_compare (rat_val (High r1)) (rat_val (High r2))) eqn:E2; simpl; naive_solver.
Qed.

Lemma Range_Eq_sub r1 r2 :
  range_ok r1 → range_ok r2 → Range_Eq r1 r2 = Ok true → range_sub r1 r2.
Proof.
  intros [Hl1 Hh1] [Hl2 Hh2] Hc. unfold Range_Eq in Hc. rewrite !Cmp_val in Hc by done.
  cbn [mbind result_bind] in Hc. unfold range_sub, val_le.
  rewrite (val_compare_opp (rat_val (Low r2))).
  destruct (val_compare (rat_val (Low r1)) (rat_val (Low r2))) eqn:E1; simpl in Hc; simplify_eq;
    destruct (val_compare (rat_val (High r1)) (rat_val (High r2))) eqn:E2; simpl in *; done.
Qed.

(** ** Shifts double and halve *)
Lemma byte_forall (P : Z → bool) :
  forallb P (seqZ 0 256) = true → ∀ b, byte_ok b → P b = true.
Proof.
  intros Hf b Hb. rewrite forallb_forall in Hf. apply Hf, list_elem_of_In, elem_of_seqZ.
  unfold byte_ok in Hb. lia.
Qed.

Lemma rsh_byte (carry : bool) b :
  byte_ok b →
  let b' := if carry then Z.lor (Z.shiftr b 1) 0x80 else Z.shiftr b 1 in
  2 * b' + Z.b2z (nz (Z.land b 0x01)) = 256 * Z.b2z carry + b ∧ byte_ok b'.
Proof.
  intros Hb. apply (byte_forall (λ b,
    let b' := if carry then Z.lor (Z.shiftr b 1) 0x80 else Z.shiftr b 1 in
    (2 * b' + Z.b2z (nz (Z.land b 0x01)) =? 256 * Z.b2z carry + b) && bool_decide (byte_ok b'))) in Hb.
  - by apply andb_true_iff in Hb as [?%Z.eqb_eq ?%bool_decide_eq_true].
  - by destruct carry; vm_compute.
Qed.

Lemma lsh_byte (carry : bool) b :
  byte_ok b →
  let b' := if carry then Z.lor (wrap8 (Z.shiftl b 1)) 0x01 else wrap8 (Z.shiftl b 1) in
  256 * Z.b2z (nz (Z.land b 0x80)) + b' = 2 * b + Z.b2z carry ∧ byte_ok b'.
Proof.
  intros Hb. apply (byte_forall (λ b,
    let b' := if carry then Z.lor (wrap8 (Z.shiftl b 1)) 0x01 else wrap8 (Z.shiftl b 1) in
    (256 * Z.b2z (nz (Z.land b 0x80)) + b' =? 2 * b + Z.b2z carry) && bool_decide (byte_ok b'))) in Hb.
  - by apply andb_true_iff in Hb as [?%Z.eqb_eq ?%bool_decide_eq_true].
  - by destruct carry; vm_compute.
Qed.

Lemma len_cons (b : Z) (l : bytes) : len (b :: l) = len l + 1.
Proof. unfold len. simpl. lia. Qed.

Lemma rsh_bytes_val carry l l' c :
  bytes_ok l → rsh_bytes carry l = (l', c) →
  len l' = len l ∧ 2 * be_val l' + Z.b2z c = Z.b2z carry * 256 ^ len l + be_val l.
Proof.
  revert carry l' c. induction l as [|b l IH]; intros carry l' c Hl Hr; cbn [rsh_bytes] in Hr.
  { injection Hr as <- <-. split; [done|]. cbn [be_val]. change (len (@nil Z)) with 0.
    rewrite Z.pow_0_r. lia. }
  apply Forall_cons in Hl as [Hb Hl].
  destruct (rsh_bytes (nz (Z.land b 1)) l) as [rest c'] eqn:Hrec. simplify_eq.
  destruct (IH _ _ _ Hl Hrec) as [Hlen Hval]. destruct (rsh_byte carry b Hb) as [Hbyte _].
  rewrite !len_cons. split; [lia|]. cbn [be_val]. rewrite Hlen.
  rewrite Z.pow_add_r by (unfold len; lia). nia.
Qed.

Lemma lsh_bytes_val l l' c :
  bytes_ok l → lsh_bytes l = (l', c) →
  len l' = len l ∧ Z.b2z c * 256 ^ len l + be_val l' = 2 * be_val l.
Proof.
  revert l' c. induction l as [|b l IH]; intros l' c Hl Hr; cbn [lsh_bytes] in Hr.
  { injection Hr as <- <-. done. }
  apply Forall_cons in Hl as [Hb Hl].
  destruct (lsh_bytes l) as [rest c'] eqn:Hrec. simplify_eq.
  destruct (IH _ _ Hl eq_refl) as [Hlen Hval]. destruct (lsh_byte c' b Hb) as [Hbyte _].
  rewrite !len_cons. split; [lia|]. cbn [be_val]. rewrite Hlen.
  rewrite Z.pow_add_r by (unfold len; lia). nia.
Qed.

Lemma be_val_app l1 l2 : be_val (l1 ++ l2) = be_val l1 * 256 ^ len l2 + be_val l2.
Proof.
  induction l1 as [|b l1 IH]; cbn [app be_val]; [lia|]. rewrite IH.
  replace (len (l1 ++ l2)) with (len l1 + len l2) by (unfold len; rewrite length_app; lia).
  rewrite Z.pow_add_r by (unfold len; lia). ring.
Qed.

Lemma be_val_drop_zero l : be_val (drop_zero_head l) = be_val l.
Proof. destruct l as [|b l]; [done|]. simpl. destruct (Z.eqb_spec b 0) as [->|]; [lia|done]. Qed.

Lemma value_scale a (n e : Z) :
  0 <= n → (inject_Z (a * 256 ^ n) * (256 # 1) ^ e == inject_Z a * (256 # 1) ^ (e + n))%Q.
Proof.
  intros Hn. rewrite inject_Z_mult, <- Qmult_assoc, Zpower_Qpower by lia.
  change (inject_Z 256) with (256 # 1)%Q. rewrite <- Qpower_plus by done.
  by rewrite (Z.add_comm n e).
Qed.

Lemma double_half (a b : Z) (s : Q) : (2 * a = b)%Z → (inject_Z a * s == inject_Z b * s / 2)%Q.
Proof. intros <-. rewrite inject_Z_mult. field. Qed.

Lemma Rsh_value r :
  rational_ok r → Infinity r = false →
  ∃ r', Rsh r = Ok r' ∧ Infinity r' = false ∧ (value r' == value r / 2)%Q.
Proof.
  intros (Hb & _ & He) Hi. unfold Rsh. rewrite Hi.
  destruct (rsh_bytes false (Base r)) as [l' c] eqn:Hr.
  destruct (rsh_bytes_val _ _ _ _ Hb Hr) as [Hlen Hval]. cbn [Z.b2z] in Hval.
  eexists. split; [done|]. split; [done|]. unfold value. cbn [Base Exp]. rewrite be_val_drop_zero.
  destruct c; cbn [Z.b2z] in Hval.
  - rewrite wrapS64_id by lia. rewrite be_val_app. change (be_val [128]) with 128. change (len [128]) with 1.
    rewrite (double_half _ (be_val (Base r) * 256 ^ 1)) by lia.
    rewrite value_scale by lia. by replace (Exp r - 1 + 1) with (Exp r) by lia.
  - apply double_half. lia.
Qed.

Lemma Lsh_value r :
  rational_ok r → Infinity r = false →
  ∃ r', Lsh r = Ok r' ∧ Infinity r' = false ∧ (value r' == 2 * value r)%Q.
Proof.
  intros (Hb & _ & He) Hi. unfold Lsh. rewrite Hi.
  destruct (lsh_bytes (Base r)) as [l' c] eqn:Hr.
  destruct (lsh_bytes_val _ _ _ Hb Hr) as [Hlen Hval].
  set (nb := if c then 1 :: l' else l').
  assert (be_val nb = 2 * be_val (Base r)) as Hnb.
  { unfold nb. destruct c; cbn [be_val Z.b2z] in *; rewrite ?Hlen; lia. }
  assert ((inject_Z (be_val nb) * (256 # 1) ^ Exp r == 2 * value r)%Q) as Hv.
  { unfold value. rewrite Hnb, inject_Z_mult, Qmult_assoc. reflexivity. }
  destruct (last nb) as [[| |]|] eqn:Hlast; try (eexists; split; [done|]; split; [done|]; exact Hv).
  eexists. split; [done|]. split; [done|]. rewrite <- Hv. unfold value. cbn [Base Exp].
  apply last_Some in Hlast as [l Hl]. rewrite Hl, length_app, Nat.add_sub, take_app_length.
  rewrite be_val_app. change (be_val [0]) with 0. change (len [0]) with 1.
  rewrite Z.add_0_r, value_scale by lia. by rewrite wrapS64_id by lia.
Qed.

Lemma be_val_nonneg l : bytes_ok l → 0 <= be_val l.
Proof.
  intros Hl. induction Hl as [|b l Hb _ IH]; cbn [be_val]; [lia|]. unfold byte_ok in Hb.
  pose proof (Z.pow_nonneg 256 (len l)). nia.
Qed.
Lemma value_nonneg r : rational_ok r → (0 <= value r)%Q.
Proof.
  intros (Hb & _). unfold value. apply Qmult_le_0_compat; [|apply Qlt_le_weak, pow256_pos].
  change 0%Q with (inject_Z 0). rewrite <- Zle_Qle. by apply be_val_nonneg.
Qed.

(** Halving the upper end, doubling the lower end. *)
Lemma Range_Rsh_sub r r' : range_ok r → Range_Rsh r = Ok r' → range_sub r' r.
Proof.
  intros [_ Hh] (h & Hr & [= <-])%bind_Ok. split; [done|]. cbn [High].
  destruct (Infinity (High r)) eqn:Hi; [by unfold Rsh in Hr; rewrite Hi in Hr|].
  destruct (Rsh_value _ Hh Hi) as (h' & Hr' & Hi' & Hv). rewrite Hr in Hr'. injection Hr' as <-.
  unfold rat_val, val_le. rewrite Hi, Hi'. simpl. apply Qle_alt. rewrite Hv.
  apply Qle_shift_div_r; [done|]. pose proof (value_nonneg _ Hh) as Hn.
  rewrite <- (Qmult_1_r (value (High r))) at 1. rewrite !(Qmult_comm (value (High r))).
  by apply Qmult_le_compat_r.
Qed.
Lemma Range_Lsh_sub r r' : range_ok r → Range_Lsh r = Ok r' → range_sub r' r.
Proof.
  intros [Hl _] (l & Hr & [= <-])%bind_Ok. split; [|done]. cbn [Low].
  destruct (Infinity (Low r)) eqn:Hi; [by unfold Lsh in Hr; rewrite Hi in Hr|].
  destruct (Lsh_value _ Hl Hi) as (l' & Hr' & Hi' & Hv). rewrite Hr in Hr'. injection Hr' as <-.
  unfold rat_val, val_le. rewrite Hi, Hi'. simpl. apply Qle_alt. rewrite Hv.
  pose proof (value_nonneg _ Hl) as Hn. rewrite <- (Qmult_1_l (value (Low r))) at 1.
  by apply Qmult_le_compat_r.
Qed.

(** The shifts are exact.  Shifting a finite number of moderate size right halves it, and
    shifting it left doubles it, whatever carries run through its bytes. *)
Theorem shifts_scale_value r :
  rational_ok r → Infinity r = false →
  (∃ r', Rsh r = Ok r' ∧ Infinity r' = false ∧ (value r' == value r / 2)%Q) ∧
  (∃ r', Lsh r = Ok r' ∧ Infinity r' = false ∧ (value r' == 2 * value r)%Q).
Proof. intros. split; [by apply Rsh_value|by apply Lsh_value]. Qed.

Definition ex_257 : proto_Rational := NewRational [1; 1] 0.
Lemma shifts_scale_value_witness :
  ∃ r', Rsh ex_257 = Ok r' ∧ Infinity r' = false ∧ (value r' == value ex_257 / 2)%Q.
Proof.
  apply (proj1 (shifts_scale_value ex_257
    ltac:(apply (bool_decide_unpack _); vm_compute; exact I) eq_refl)).
Defined.
