(* ===== verification/TeamRoster.v ===== *)
(** * Rosters with member keys ([lib/team/hilev.go])

    The roster a client replays from a team chain and a server loads from its
    database: the roster core of [Roster] together with the key generations and the
    public keys of every member.  Change sets are made from wire records, the
    signer of an edit is matched against the recorded key, and a roster is exported
    back to wire records.

    A Go pointer that may be nil is an [option].  [FQEntity.Fixed] swallows its
    error and returns a nil pointer, so its callers dereference nil: they get
    [GoPanic]. *)
From S2P Require Import Prelude Rational Role Roster RosterAuth.

(** ** Entity identifiers ([proto/lib/extras.go]) *)
Abbreviation EntityID := bytes.
Abbreviation EntityType := Z.
Definition EntityType_User : EntityType := 1.
Definition EntityType_NamedTeam : EntityType := 3.
Definition EntityType_Yubi : EntityType := 8.
Definition EntityType_Name : EntityType := 9.
Definition EntityType_PUKVerify : EntityType := 14.
Definition EntityType_PTKVerify : EntityType := 15.
Definition EntityType_PKIXCert : EntityType := 18.
Definition EntityType_AdHocTeam : EntityType := 20.

Definition IsEd25519 (t : EntityType) : bool :=
  bool_decide (t ∈ [1; 2; 4; 5; 6; 7; 10; 12; 11; 13; 3; 15; 14; 16; 17; 19; 20]%Z).

Definition EntityType_Len (t : EntityType) : Z :=
  if IsEd25519 t then 33
  else if (t =? EntityType_Name)%Z then 33
  else if (t =? EntityType_Yubi)%Z then 34
  else if (t =? EntityType_PKIXCert)%Z then 33
  else -1.

Definition MakeEntityID (t : EntityType) (b : bytes) : result EntityID :=
  _ ← guard_err (EntityType_Len t <? 0)%Z (EntityError "unknown entity type");
  let ret := wrap8 t :: b in
  _ ← guard_err (negb (len ret =? EntityType_Len t)%Z) (EntityError "input raw was wrong size");
  Ok ret.

Definition EntityID_Type (e : EntityID) : result EntityType := Prelude.index e 0.
(** [len] of the array [UID [33]byte]. *)
Definition ToUID (e : EntityID) : result bytes :=
  _ ← guard_err (negb (len e =? 33)%Z) (EntityError "wrong length for UID");
  t ← EntityID_Type e;
  _ ← guard_err (negb (t =? EntityType_User)%Z) (EntityError "wrong leading byte for UID");
  Ok e.
Definition EntityID_Eq (e e2 : EntityID) : bool :=
  (0 <? len e)%Z && (0 <? len e2)%Z && bool_decide (e = e2).

Definition RollingType (t : EntityType) : EntityType :=
  if (t =? EntityType_User)%Z then EntityType_PUKVerify
  else if (t =? EntityType_NamedTeam)%Z || (t =? EntityType_AdHocTeam)%Z then EntityType_PTKVerify
  else t.

Definition ToRollingEntityID (e : EntityID) : result EntityID :=
  _ ← guard_err (len e <? 2)%Z (DataError "entity ID too short");
  t ← EntityID_Type e;
  if (RollingType t =? t)%Z then Ok e else MakeEntityID (RollingType t) (drop 1 e).

Definition EntityID_Fixed (e : EntityID) : result FixedEntityID :=
  _ ← guard_err (34 <? len e)%Z (EntityError "entity ID exceeds expected length");
  Ok (e ++ replicate (34 - length e) 0%Z).

Definition Unfix (f : FixedEntityID) : result EntityID :=
  t ← Prelude.index f 0;
  slice_go f 0 (EntityType_Len t).

Record FQEntity := mkFQEntity { fqEntity : EntityID; fqHost : HostID }.
(** [return nil, nil] on error: a nil pointer with no error. *)
Definition FQEntity_Fixed (f : FQEntity) : option FQEntityFixed :=
  match EntityID_Fixed (fqEntity f) with
  | Err _ => None
  | Ok fid => Some (mkFQEntityFixed fid (fqHost f))
  end.

Record FQEntityInHostScope := mkFQEntityInHostScope { hsEntity : EntityID; hsHost : option HostID }.
Definition WithHost (f : FQEntityInHostScope) (h : HostID) : FQEntity :=
  mkFQEntity (hsEntity f) (match hsHost f with None => h | Some h' => h' end).
Definition HostScope_Fixed (f : FQEntityInHostScope) (h : HostID) : result FQEntityFixed :=
  fid ← EntityID_Fixed (hsEntity f);
  Ok (mkFQEntityFixed fid (match hsHost f with None => h | Some h' => h' end)).

(** ** Wire records ([proto/lib/chains.go]) *)
Record TeamMemberKeys := mkTeamMemberKeys {
  VerifyKey : EntityID;
  HepkFp : bytes;
  tmkGen : Generation;
  Trkc : option bytes;
  Tir : option proto_RationalRange
}.
Record UserMemberKeys := mkUserMemberKeys { umkHepkFp : bytes; umkSubKey : option EntityID }.

Abbreviation MemberKeysType := Z.
Definition MemberKeysType_None : MemberKeysType := 0.
Definition MemberKeysType_User : MemberKeysType := 1.
Definition MemberKeysType_Team : MemberKeysType := 2.
Record MemberKeys := mkMemberKeys {
  mk_T : MemberKeysType; mk_F1 : option UserMemberKeys; mk_F2 : option TeamMemberKeys
}.
Definition MemberKeys_GetT (m : MemberKeys) : result MemberKeysType :=
  _ ← guard_err ((mk_T m =? MemberKeysType_User)%Z && match mk_F1 m with None => true | _ => false end)
        (DataError "unexpected nil case for F_1__");
  _ ← guard_err ((mk_T m =? MemberKeysType_Team)%Z && match mk_F2 m with None => true | _ => false end)
        (DataError "unexpected nil case for F_2__");
  Ok (mk_T m).
Definition MemberKeys_Team (m : MemberKeys) : result TeamMemberKeys :=
  match mk_F2 m with
  | None => Err GoPanic
  | Some v => if (mk_T m =? MemberKeysType_Team)%Z then Ok v else Err GoPanic
  end.
Definition NewMemberKeysWithTeam (v : TeamMemberKeys) : MemberKeys :=
  mkMemberKeys MemberKeysType_Team None (Some v).
Definition zero_MemberKeys : MemberKeys := mkMemberKeys MemberKeysType_None None None.

Record proto_Member := mkMember { mId : FQEntityInHostScope; mSrcRole : Role; mKeys : MemberKeys }.
Record proto_MemberRole := mkMemberRole { DstRole : Role; mrMember : proto_Member }.
Record MemberRoleSeqno := mkMemberRoleSeqno { Mr : proto_MemberRole; mrqSeqno : Z; mrqTime : Z }.
Record KeyOwner := mkKeyOwner { koParty : EntityID; koSrcRole : Role }.

#[global] Instance TeamMemberKeys_eq_dec : EqDecision TeamMemberKeys.
Proof. solve_decision. Defined.

(** ** The keys of the members *)
Abbreviation VerifyKeyIndex := (FixedEntityID * HostID)%type.
Record MemberKeysSet := mkMemberKeysSet {
  mksMembers : gmap MemberID (option TeamMemberKeys);
  Vki : gmap VerifyKeyIndex MemberID
}.
Definition NewMemberKeysSet : MemberKeysSet := mkMemberKeysSet ∅ ∅.
(** A copy of both maps; nil stays nil. *)
Definition MemberKeysSet_Clone (a : option MemberKeysSet) : option MemberKeysSet :=
  match a with
  | None => None
  | Some a => Some (mkMemberKeysSet (mksMembers a ∪ mksMembers NewMemberKeysSet) (Vki a ∪ Vki NewMemberKeysSet))
  end.

(** Overwriting keeps the original removal key commitment. *)
Definition keep_trkc (existing : option (option TeamMemberKeys)) (v : option TeamMemberKeys)
  : option TeamMemberKeys :=
  match v, existing with
  | Some v', Some (Some e) =>
      if bool_decide (Trkc e ≠ None) && bool_decide (Trkc v' = None)
      then Some (mkTeamMemberKeys (VerifyKey v') (HepkFp v') (tmkGen v') (Trkc e) (Tir v'))
      else Some v'
  | _, _ => v
  end.

Definition CloneAndOverwriteWith (a : option MemberKeysSet) (b : MemberKeysSet) : MemberKeysSet :=
  match a with
  | None => b
  | Some a =>
      mkMemberKeysSet (map_imap (λ k v, Some (keep_trkc (mksMembers a !! k) v)) (mksMembers b) ∪ mksMembers a)
        (Vki b ∪ Vki a)
  end.

Definition verifyKeyToIndex (v : EntityID) (host : HostID) : result VerifyKeyIndex :=
  vk ← ToRollingEntityID v;
  vkf ← EntityID_Fixed vk;
  Ok (vkf, host).

Definition AddTeamMemberKeys (a : MemberKeysSet) (m : MemberID) (d : option TeamMemberKeys)
  : result MemberKeysSet :=
  let prev := mksMembers a !! m in
  let members' := <[m := d]> (mksMembers a) in
  match d with
  | Some d =>
      vkidx ← verifyKeyToIndex (VerifyKey d) (Host (Fqe m));
      Ok (mkMemberKeysSet members' (<[vkidx := m]> (Vki a)))
  | None =>
      match prev with
      | None => Ok (mkMemberKeysSet members' (Vki a))
      | Some p =>
          p' ← of_option GoPanic p;
          vkix ← verifyKeyToIndex (VerifyKey p') (Host (Fqe m));
          Ok (mkMemberKeysSet members' (delete vkix (Vki a)))
      end
  end.

(** ** Change sets from the wire *)
Definition MakeChange (mrq : MemberRoleSeqno) (mh : HostID) : result (Change * option TeamMemberKeys) :=
  let mr := Mr mrq in
  dstRole ← ImportRole (DstRole mr);
  _ ← guard_err (match hsHost (mId (mrMember mr)) with Some h => HostID_Eq h mh | None => false end)
        (LinkError "for teams, can only specify hostID if different from home host");
  let fqef := FQEntity_Fixed (WithHost (mId (mrMember mr)) mh) in
  let keys := mKeys (mrMember mr) in
  typ ← MemberKeys_GetT keys;
  srcRole ← ImportRole (mSrcRole (mrMember mr));
  _ ← guard_err (RoleKey_IsNone srcRole) TeamNoSrcRoleError;
  fqe ← of_option GoPanic fqef;
  let mid := mkMemberID fqe srcRole in
  if (Typ dstRole =? RoleType_NONE)%Z then
    _ ← guard_err (negb (typ =? MemberKeysType_None)%Z) (TeamError "cannot add keys to NONE role");
    Ok (mkChange mid (mkMemberInfo dstRole 0 (mrqSeqno mrq) (mrqTime mrq)), None)
  else
    _ ← guard_err (negb (typ =? MemberKeysType_Team)%Z) (TeamError "need member keys type");
    tk ← MemberKeys_Team keys;
    Ok (mkChange mid (mkMemberInfo dstRole (tmkGen tk) (mrqSeqno mrq) (mrqTime mrq)), Some tk).

Fixpoint make_changes (v : list MemberRoleSeqno) (mh : HostID) (ads : MemberKeysSet)
  : result (ChangeSet * MemberKeysSet) :=
  match v with
  | [] => Ok ([], ads)
  | mr :: v' =>
      '(chng, auxData) ← MakeChange mr mh;
      ads ← AddTeamMemberKeys ads (chMember chng) auxData;
      '(rest, ads) ← make_changes v' mh ads;
      Ok (chng :: rest, ads)
  end.
Definition MakeChangeSet (v : list MemberRoleSeqno) (mh : HostID) : result (ChangeSet * MemberKeysSet) :=
  make_changes v mh NewMemberKeysSet.

(** ** The roster *)
Record TRoster := mkRoster {
  rCore : option RosterCore;
  rKeyGens : option KeyGens;
  rMks : option MemberKeysSet
}.
Definition NewRoster (r : option RosterCore) (kg : option KeyGens) (a : option MemberKeysSet) : TRoster :=
  mkRoster r kg a.
Definition NewEmptyRoster : TRoster := mkRoster None None None.
Definition NewRosterWithKeyGens (kg : KeyGens) : TRoster := mkRoster None (Some kg) None.

(** [maps.Copy] into a fresh map: a nil map becomes an empty one, a nil core an empty core. *)
Definition TRoster_Clone (r : TRoster) : TRoster :=
  mkRoster (Some (Roster_Clone (rCore r))) (Some (default ∅ (rKeyGens r)))
    (MemberKeysSet_Clone (rMks r)).

Definition Roster_Load (r : TRoster) (mr : list MemberRoleSeqno) (host : HostID) : result TRoster :=
  '(changes, ad) ← MakeChangeSet mr host;
  Ok (mkRoster (Some (NewRosterCoreFromChanges changes)) (rKeyGens r) (Some ad)).

Definition matchSigningKey (m : option MemberKeysSet) (membID : MemberID) (vk : option EntityID)
  : result () :=
  match m with
  | None => Ok ()
  | Some m =>
      vk ← of_option (TeamError "need to check verify key for an update") vk;
      memb ← of_option (TeamError "member not found") (mksMembers m !! membID);
      memb ← of_option GoPanic memb;
      guard_err (negb (EntityID_Eq vk (VerifyKey memb))) (TeamError "member verify key mismatch")
  end.

Section gameplan.
Context `{SortLib}.

Definition GameplanWithChanges (r : option TRoster) (doerKO : KeyOwner) (host : HostID)
    (changes : ChangeSet) (mks : MemberKeysSet) (verifyKey : option EntityID)
    (opts : option GameplanOpts) : result (TRoster * KeySchedule) :=
  let r := default NewEmptyRoster r in
  let doer := FQEntity_Fixed (mkFQEntity (koParty doerKO) host) in
  doerSrcRole ← ImportRole (koSrcRole doerKO);
  doer ← of_option GoPanic doer;
  let membID := mkMemberID doer doerSrcRole in
  _ ← matchSigningKey (rMks r) membID verifyKey;
  '(rPost, sched, keysPost) ← Gameplan changes membID (rCore r) (rKeyGens r) opts;
  Ok (mkRoster (Some rPost) (Some keysPost) (Some (CloneAndOverwriteWith (rMks r) mks)), sched).

Definition Roster_Gameplan (r : option TRoster) (doerKO : KeyOwner) (host : HostID)
    (v : list MemberRoleSeqno) (verifyKey : option EntityID) (opts : option GameplanOpts)
  : result (TRoster * KeySchedule) :=
  '(changes, mks) ← MakeChangeSet v host;
  GameplanWithChanges r doerKO host changes mks verifyKey opts.

(** [Export]: one record per member, sorted by role and then by member. *)
Record tmpMember := mkTmpMember { tmId : MemberID; tmInfo : MemberInfo; tmTmk : option TeamMemberKeys }.

Definition tmp_cmp (a b : tmpMember) : Z :=
  let rcmp := RoleKey_Cmp (miRole (tmInfo a)) (miRole (tmInfo b)) in
  if nz rcmp then rcmp else MemberID_Cmp (tmId a) (tmId b).

Definition export_member (host : HostID) (v : tmpMember) : result MemberRoleSeqno :=
  ent ← Unfix (Entity (Fqe (tmId v)));
  let id := mkFQEntityInHostScope ent
              (if HostID_Eq (Host (Fqe (tmId v))) host then None else Some (Host (Fqe (tmId v)))) in
  let keys := match tmTmk v with Some tmk => NewMemberKeysWithTeam tmk | None => zero_MemberKeys end in
  Ok (mkMemberRoleSeqno
        (mkMemberRole (Role.Export (miRole (tmInfo v)))
           (mkMember id (Role.Export (SrcRole (tmId v))) keys))
        (miSeqno (tmInfo v)) (miTime (tmInfo v))).

Definition tmp_members (core : RosterCore) (mks : option MemberKeysSet) : list tmpMember :=
  map (λ p, mkTmpMember p.1 p.2
              (match mks with
               | Some mks => match mksMembers mks !! p.1 with Some tmk => tmk | None => None end
               | None => None
               end)) (map_to_list (members core)).

(** [r.members] of a roster without a core dereferences nil. *)
Definition Roster_Export (r : TRoster) (host : HostID) : result (list MemberRoleSeqno) :=
  core ← of_option GoPanic (rCore r);
  mapM_r (export_member host) (SortFunc tmp_cmp (tmp_members core (rMks r))).
End gameplan.

(** ** Lookups *)
Definition LookupMemberByVerifyKey (m : MemberKeysSet) (vk : EntityID) (h : HostID)
  : result (MemberID * option TeamMemberKeys) :=
  vkidx ← verifyKeyToIndex vk h;
  memb ← of_option (TeamRosterError "member not found") (Vki m !! vkidx);
  keys ← of_option (TeamRosterError "member keys not found") (mksMembers m !! memb);
  Ok (memb, keys).

Definition Roster_LookupMemberByVerifyKey (r : TRoster) (vk : EntityID) (h : HostID)
  : result (MemberID * option TeamMemberKeys) :=
  match rMks r with
  | Some m => LookupMemberByVerifyKey m vk h
  | None => _ ← verifyKeyToIndex vk h; Err GoPanic
  end.

Definition HasMemberRole (r : option RosterCore) (mr : proto_MemberRole) (mh : HostID) : result bool :=
  let fqef := FQEntity_Fixed (WithHost (mId (mrMember mr)) mh) in
  srcRole ← ImportRole (mSrcRole (mrMember mr));
  fqe ← of_option GoPanic fqef;
  Ok (Has r (mkMemberID fqe srcRole)).

Definition MemberRoleToMemberID (mr : proto_MemberRole) (host : HostID) : result MemberID :=
  let mem := FQEntity_Fixed (WithHost (mId (mrMember mr)) host) in
  rk ← ImportRole (mSrcRole (mrMember mr));
  fqe ← of_option GoPanic mem;
  Ok (mkMemberID fqe rk).

Definition ImportFromMember (m : proto_Member) (h : HostID) : result MemberID :=
  fqe ← HostScope_Fixed (mId m) h;
  srcRole ← ImportRole (mSrcRole m);
  Ok (mkMemberID fqe srcRole).

Definition ImportFromFQPartyAndRole (p : FQEntity) (r : Role) : result MemberID :=
  let fqe := FQEntity_Fixed p in
  fqe ← of_option GoPanic fqe;
  srcRole ← ImportRole r;
  Ok (mkMemberID fqe srcRole).

Definition MemberInfoFor (r : TRoster) (mid : MemberID) : result (option MemberInfo) :=
  core ← of_option GoPanic (rCore r);
  Ok (members core !! mid).

Definition RoleOfSigner (r : TRoster) (ko : KeyOwner) (host : HostID) : result (option RoleKey) :=
  let fqe := FQEntity_Fixed (mkFQEntity (koParty ko) host) in
  srcRole ← ImportRole (koSrcRole ko);
  fqe ← of_option GoPanic fqe;
  mi ← MemberInfoFor r (mkMemberID fqe srcRole);
  Ok (option_map miRole mi).

Definition LookupRoleForMember (r : TRoster) (p : FQEntity) (idRole : Role) : result (option RoleKey) :=
  let fqef := FQEntity_Fixed p in
  rk ← ImportRole idRole;
  fqe ← of_option GoPanic fqef;
  mi ← MemberInfoFor r (mkMemberID fqe rk);
  Ok (option_map miRole mi).
