(* ===== verification/TeamRosterFacts.v ===== *)
(** * Rosters with member keys: what replaying a chain maintains

    A change set from the wire carries, for every member it names, the keys that go
    with the new entry; the roster keeps one key record per member, at the
    generation of the roster entry.  The file shows that every accepted edit
    maintains this, that an edit is signed with the recorded key of its doer, that
    export and load are inverse, and two ways in which input from the network makes
    the code dereference nil. *)
From S2P Require Import Prelude Role Roster RosterAuth TeamRoster.

(** ** Change sets from the wire *)
(** The keys recorded with an entry: none for a removal, else keys of its generation. *)
Definition aux_ok (i : MemberInfo) (a : option TeamMemberKeys) : Prop :=
  if live i then ∃ tk, a = Some tk ∧ tmkGen tk = miGen i else a = None.

Lemma MakeChange_aux mrq mh c a : MakeChange mrq mh = Ok (c, a) → aux_ok (chInfo c) a.
Proof.
  unfold MakeChange. intros Hm. inv_ok. unfold aux_ok, live.
  match goal with H : (if ?b then _ else _) = _ |- _ => destruct b eqn:Hb end; inv_ok; simpl;
    rewrite Hb; [done|]; simpl. eauto.
Qed.

Lemma AddTeamMemberKeys_members a m d a' :
  AddTeamMemberKeys a m d = Ok a' → mksMembers a' = <[m := d]> (mksMembers a).
Proof.
  unfold AddTeamMemberKeys. intros Ha. destruct d; inv_ok; [done|].
  destruct (mksMembers a !! m); by inv_ok.
Qed.

Lemma make_changes_spec v mh ads cs ads' :
  make_changes v mh ads = Ok (cs, ads') →
  ∀ m, match last_change cs m with
       | None => mksMembers ads' !! m = mksMembers ads !! m
       | Some i => ∃ a, mksMembers ads' !! m = Some a ∧ aux_ok i a
       end.
Proof.
  revert ads cs ads'. induction v as [|mr v IH]; intros ads cs ads' Hm m; cbn [make_changes] in Hm.
  { inv_ok. done. }
  apply bind_Ok in Hm as ([c a] & Hc & Hm). apply bind_Ok in Hm as (ads1 & Ha & Hm).
  apply bind_Ok in Hm as ([rest ads2] & Hr & [= <- <-]).
  specialize (IH _ _ _ Hr m). apply AddTeamMemberKeys_members in Ha. cbn [last_change].
  destruct (last_change rest m); [done|]. rewrite IH, Ha.
  case_bool_decide as Hcm; simplify_map_eq; [|done]. eauto using MakeChange_aux.
Qed.

Lemma MakeChangeSet_spec v mh cs mks :
  MakeChangeSet v mh = Ok (cs, mks) →
  ∀ m, match last_change cs m with
       | None => mksMembers mks !! m = None
       | Some i => ∃ a, mksMembers mks !! m = Some a ∧ aux_ok i a
       end.
Proof. intros Hm m. by apply (make_changes_spec _ _ _ _ _ Hm m). Qed.

(** ** Keys in step with the roster *)
Definition keys_ok (core : RosterCore) (mks : MemberKeysSet) : Prop :=
  ∀ m, match members core !! m with
       | Some i => ∃ tk, mksMembers mks !! m = Some (Some tk) ∧ tmkGen tk = miGen i
       | None => mksMembers mks !! m = None ∨ mksMembers mks !! m = Some None
       end.

Lemma keep_trkc_aux ex i a : aux_ok i a → aux_ok i (keep_trkc ex a).
Proof.
  unfold aux_ok, keep_trkc. destruct (live i); [|by intros ->].
  intros (tk & -> & Hg). destruct ex as [[e|]|]; [|by eauto..].
  destruct (_ && _); eauto.
Qed.

Lemma CloneAndOverwriteWith_lookup a b m :
  mksMembers (CloneAndOverwriteWith (Some a) b) !! m =
  match mksMembers b !! m with
  | Some v => Some (keep_trkc (mksMembers a !! m) v)
  | None => mksMembers a !! m
  end.
Proof.
  simpl. destruct (mksMembers b !! m) as [v|] eqn:Hb.
  - apply lookup_union_Some_l. by rewrite map_lookup_imap, Hb.
  - apply lookup_union_r. by rewrite map_lookup_imap, Hb.
Qed.

Lemma aux_entry i a :
  aux_ok i a →
  match (if live i then Some i else None) with
  | Some i => ∃ tk, Some a = Some (Some tk) ∧ tmkGen tk = miGen i
  | None => Some a = None ∨ Some a = Some None
  end.
Proof. unfold aux_ok. destruct (live i); naive_solver. Qed.

Lemma keys_ok_load cs mks v mh :
  MakeChangeSet v mh = Ok (cs, mks) → keys_ok (NewRosterCoreFromChanges cs) mks.
Proof.
  intros Hm m. pose proof (MakeChangeSet_spec _ _ _ _ Hm m) as Hs.
  unfold NewRosterCoreFromChanges. rewrite Apply_lookup.
  destruct (last_change cs m) as [i|]; [|simpl; rewrite lookup_empty; by left].
  destruct Hs as (a & -> & Ha). by apply aux_entry.
Qed.

Lemma keys_ok_edit core mks cs mks' v mh :
  keys_ok core mks → MakeChangeSet v mh = Ok (cs, mks') →
  keys_ok (Apply core cs) (CloneAndOverwriteWith (Some mks) mks').
Proof.
  intros Hk Hm m. pose proof (MakeChangeSet_spec _ _ _ _ Hm m) as Hs. specialize (Hk m).
  rewrite Apply_lookup, CloneAndOverwriteWith_lookup.
  destruct (last_change cs m) as [i|]; [|by rewrite Hs].
  destruct Hs as (a & -> & Ha). by apply aux_entry, keep_trkc_aux.
Qed.

(** ** The gameplan of a roster *)
Section facts.
Context `{SortLib}.

Definition doer_id (ko : KeyOwner) (host : HostID) (doer : MemberID) : Prop :=
  ∃ fqe rk, FQEntity_Fixed (mkFQEntity (koParty ko) host) = Some fqe ∧
    ImportRole (koSrcRole ko) = Ok rk ∧ doer = mkMemberID fqe rk.

Lemma GameplanWithChanges_run r ko host cs mks vk opts doer :
  doer_id ko host doer →
  GameplanWithChanges (Some r) ko host cs mks vk opts =
  (_ ← matchSigningKey (rMks r) doer vk;
   '(rPost, sched, keysPost) ← Gameplan cs doer (rCore r) (rKeyGens r) opts;
   Ok (mkRoster (Some rPost) (Some keysPost) (Some (CloneAndOverwriteWith (rMks r) mks)), sched)).
Proof. intros (fqe & rk & Hf & Hr & ->). unfold GameplanWithChanges. by rewrite Hr, Hf. Qed.

Lemma GameplanWithChanges_Ok r ko host cs mks vk opts r' s :
  GameplanWithChanges r ko host cs mks vk opts = Ok (r', s) →
  ∃ doer core' kg', doer_id ko host doer ∧
    matchSigningKey (rMks (default NewEmptyRoster r)) doer vk = Ok () ∧
    Gameplan cs doer (rCore (default NewEmptyRoster r)) (rKeyGens (default NewEmptyRoster r)) opts
      = Ok (core', s, kg') ∧
    r' = mkRoster (Some core') (Some kg')
           (Some (CloneAndOverwriteWith (rMks (default NewEmptyRoster r)) mks)).
Proof.
  unfold GameplanWithChanges. intros Hg.
  apply bind_Ok in Hg as (rk & Hrk & Hg). apply bind_Ok in Hg as (fqe & Hf & Hg).
  apply bind_Ok in Hg as ([] & Hs & Hg). apply bind_Ok in Hg as ([[core' s'] kg'] & Hp & [= <- <-]).
  apply of_option_Ok in Hf. exists (mkMemberID fqe rk), core', kg'. split_and!; try done.
  exists fqe, rk. done.
Qed.

Lemma Gameplan_apply d doer rPre keysPre opts rp s kp :
  Gameplan d doer rPre keysPre opts = Ok (rp, s, kp) → rp = Apply (default NewRosterCore rPre) d.
Proof.
  intros Hg. destruct rPre, keysPre; try done.
  - by apply Gameplan_edit in Hg as (_ & -> & _).
  - by apply Gameplan_create in Hg as (_ & -> & _).
Qed.

(** every accepted edit keeps the recorded keys in step with the roster.  After it each
    member has a key record of the generation in its roster entry, and no one outside the
    roster has one; the same holds for a roster that was just founded or loaded. *)
Theorem edit_keeps_member_keys r ko host v vk opts r' s :
  Roster_Gameplan r ko host v vk opts = Ok (r', s) →
  (match rMks (default NewEmptyRoster r) with
   | Some mks => ∃ core, rCore (default NewEmptyRoster r) = Some core ∧ keys_ok core mks
   | None => rCore (default NewEmptyRoster r) = None
   end) →
  ∃ core' mks', rCore r' = Some core' ∧ rMks r' = Some mks' ∧ keys_ok core' mks'.
Proof.
  unfold Roster_Gameplan. intros ([cs mks'] & Hm & Hg)%bind_Ok Hpre.
  apply GameplanWithChanges_Ok in Hg as (doer & core' & kg' & _ & _ & Hp & ->).
  apply Gameplan_apply in Hp as ->. eexists _, _. split_and!; [done..|]. simpl.
  destruct (rMks (default NewEmptyRoster r)) as [mks|].
  - destruct Hpre as (core & -> & Hk). simpl. by eapply keys_ok_edit.
  - rewrite Hpre. by eapply keys_ok_load.
Qed.

(** an edit is signed by its doer.  When a roster that records keys accepts an edit, the
    presented verify key is the key recorded for the doer, and the doer is in the roster
    unless the checks were turned off. *)
Theorem edit_signed_by_doer r ko host v vk opts r' s core mks :
  Roster_Gameplan (Some r) ko host v vk opts = Ok (r', s) →
  rCore r = Some core → rMks r = Some mks → no_check opts = false →
  ∃ doer tk i, doer_id ko host doer ∧ mksMembers mks !! doer = Some (Some tk) ∧
    vk = Some (VerifyKey tk) ∧ members core !! doer = Some i.
Proof.
  unfold Roster_Gameplan. intros ([cs mks'] & Hm & Hg)%bind_Ok Hc Hk Hn.
  apply GameplanWithChanges_Ok in Hg as (doer & core' & kg' & Hd & Hs & Hp & ->).
  simpl in *. rewrite Hk in Hs. rewrite Hc in Hp. unfold matchSigningKey in Hs.
  apply bind_Ok in Hs as (vk' & Hvk%of_option_Ok & Hs). apply bind_Ok in Hs as (memb & Hmb%of_option_Ok & Hs).
  apply bind_Ok in Hs as (tk & Htk%of_option_Ok & Hs). apply guard_err_Ok, negb_false_iff in Hs.
  unfold EntityID_Eq in Hs. apply andb_true_iff in Hs as [_ He%bool_decide_eq_true]. subst.
  destruct (rKeyGens r) as [kg|]; [|done].
  apply Gameplan_edit in Hp as (Ha & _). destruct (Ha Hn) as (_ & di & [Hdi _] & _).
  exists doer, tk, di. done.
Qed.

(** A signature of a removed member crashes the replay.  Once an accepted edit has removed a
    member, every later edit signed in that member's name, with any key, ends in a nil
    dereference instead of a refusal, because the removed member keeps an entry without
    keys. *)
Theorem removed_signer_panics r ko host v vk opts r' s mks doer core core' ko2 v2 k2 opts2 cs2 :
  Roster_Gameplan (Some r) ko host v vk opts = Ok (r', s) →
  rCore r = Some core → rMks r = Some mks → keys_ok core mks → rCore r' = Some core' →
  is_Some (members core !! doer) → members core' !! doer = None →
  doer_id ko2 host doer → MakeChangeSet v2 host = Ok cs2 →
  Roster_Gameplan (Some r') ko2 host v2 (Some k2) opts2 = Err GoPanic.
Proof.
  unfold Roster_Gameplan at 1. intros ([cs mks'] & Hm & Hg)%bind_Ok Hc Hk Hok Hc' [i Hi] Hout Hd Hm2.
  apply GameplanWithChanges_Ok in Hg as (d0 & core1 & kg' & _ & _ & Hp & ->).
  simpl in *. rewrite Hk, Hc in *. simplify_eq. apply Gameplan_apply in Hp as ->. simpl in Hout.
  pose proof (keys_ok_edit _ _ _ _ _ _ Hok Hm doer) as Hd'. rewrite Hout in Hd'.
  assert (mksMembers (CloneAndOverwriteWith (Some mks) mks') !! doer = Some None) as Hnil.
  { destruct Hd' as [Hd'|]; [|done]. exfalso. rewrite CloneAndOverwriteWith_lookup in Hd'.
    destruct (mksMembers mks' !! doer); [done|]. specialize (Hok doer). rewrite Hi in Hok.
    destruct Hok as (tk & Htk & _). congruence. }
  unfold Roster_Gameplan. rewrite Hm2. destruct cs2 as [cs2 mks2]. cbn [mbind result_bind].
  rewrite (GameplanWithChanges_run _ _ _ _ _ _ _ doer) by done. unfold matchSigningKey.
  cbn [rMks of_option mbind result_bind]. by rewrite Hnil.
Qed.

(** An over-long identifier crashes the parser.  A member record that is otherwise in order
    but names an entity of more than 34 bytes makes [MakeChange] dereference nil: the
    length error of [EntityID.Fixed] is dropped by [FQEntity.Fixed]. *)
Theorem oversized_member_panics mrq mh dst src typ :
  (34 < len (hsEntity (mId (mrMember (Mr mrq)))))%Z →
  ImportRole (DstRole (Mr mrq)) = Ok dst →
  (∀ h, hsHost (mId (mrMember (Mr mrq))) = Some h → h ≠ mh) →
  MemberKeys_GetT (mKeys (mrMember (Mr mrq))) = Ok typ →
  ImportRole (mSrcRole (mrMember (Mr mrq))) = Ok src → RoleKey_IsNone src = false →
  MakeChange mrq mh = Err GoPanic.
Proof.
  intros Hlen Hd Hh Ht Hs Hn. unfold MakeChange. rewrite Hd. cbn [mbind result_bind].
  replace (match hsHost _ with Some h => HostID_Eq h mh | None => false end) with false.
  2:{ destruct (hsHost _) as [h|]; [|done]. symmetry. apply not_true_iff_false.
      rewrite HostID_Eq_spec. by apply Hh. }
  cbn [guard_err mbind result_bind]. rewrite Ht. cbn [mbind result_bind]. rewrite Hs.
  cbn [mbind result_bind]. rewrite Hn. cbn [guard_err mbind result_bind].
  unfold FQEntity_Fixed, EntityID_Fixed. cbn [fqEntity WithHost].
  apply Z.ltb_lt in Hlen as ->. done.
Qed.

(** ** Export and load *)
(** A member identifier that survives the trip: a source role other than NONE, and an
    entity whose padding [Unfix] takes off and [Fixed] puts back. *)
Definition member_id_ok (m : MemberID) : Prop :=
  rk_valid (SrcRole m) ∧ RoleKey_IsNone (SrcRole m) = false ∧
  ∃ e, Unfix (Entity (Fqe m)) = Ok e ∧ EntityID_Fixed e = Ok (Entity (Fqe m)).

Definition tmp_change (v : tmpMember) : Change := mkChange (tmId v) (tmInfo v).

(** What one exported record needs to come back. *)
Definition tmp_ok (v : tmpMember) : Prop :=
  member_id_ok (tmId v) ∧ rk_valid (miRole (tmInfo v)) ∧ live (tmInfo v) = true ∧
  ∃ tk, tmTmk v = Some tk ∧ tmkGen tk = miGen (tmInfo v) ∧
    is_ok (verifyKeyToIndex (VerifyKey tk) (Host (Fqe (tmId v)))) = true.

Lemma export_member_back host v :
  tmp_ok v → ∃ mrq, export_member host v = Ok mrq ∧
    MakeChange mrq host = Ok (tmp_change v, tmTmk v).
Proof.
  destruct v as [[[ent h] src] [role gen sq tm] tmk]. unfold tmp_ok, member_id_ok, tmp_change; simpl.
  intros ((Hsv & Hsn & e & Hu & Hf) & Hv & Hl & tk & -> & Hg & _).
  unfold export_member; simpl. rewrite Hu. simpl. eexists. split; [done|].
  unfold MakeChange; simpl. rewrite (proj2 (ImportRole_Export role)) by done. simpl.
  replace (match (if HostID_Eq h host then None else Some h) with
    | Some h0 => HostID_Eq h0 host | None => false end) with false by (by destruct (HostID_Eq h host) eqn:?).
  simpl. rewrite (proj2 (ImportRole_Export src)) by done. simpl. rewrite Hsn. simpl.
  unfold FQEntity_Fixed; simpl. rewrite Hf. simpl.
  unfold live in Hl. simpl in Hl. apply negb_true_iff in Hl. rewrite Hl. simpl. rewrite Hg.
  destruct (HostID_Eq h host) eqn:Hh; [|done]. apply HostID_Eq_spec in Hh as ->. done.
Qed.

Lemma export_load_run host l ads :
  (∀ v, v ∈ l → tmp_ok v) → NoDup (tmId <$> l) →
  ∃ mrs ads', mapM_r (export_member host) l = Ok mrs ∧
    make_changes mrs host ads = Ok (tmp_change <$> l, ads') ∧
    (∀ v, v ∈ l → mksMembers ads' !! tmId v = Some (tmTmk v)) ∧
    (∀ m, m ∉ (tmId <$> l) → mksMembers ads' !! m = mksMembers ads !! m).
Proof.
  revert ads. induction l as [|v l IH]; intros ads Hok Hnd.
  { exists [], ads. split_and!; [done..|set_solver|done]. }
  rewrite fmap_cons in Hnd. apply NoDup_cons in Hnd as [Hv Hnd].
  assert (tmp_ok v) as Htv by (apply Hok; by left).
  destruct (export_member_back host v Htv) as (mrq & He & Hmc).
  destruct Htv as (_ & _ & _ & tk & Htk & _ & Hix).
  destruct (verifyKeyToIndex (VerifyKey tk) (Host (Fqe (tmId v)))) as [ix|] eqn:Hvi; [|done].
  set (ads1 := mkMemberKeysSet (<[tmId v := tmTmk v]> (mksMembers ads)) (<[ix := tmId v]> (Vki ads))).
  assert (AddTeamMemberKeys ads (tmId v) (tmTmk v) = Ok ads1) as Hadd.
  { unfold AddTeamMemberKeys, ads1. rewrite Htk. by rewrite Hvi. }
  destruct (IH ads1) as (mrs & ads' & Hm & Hc & Hin & Hout); [intros; apply Hok; by right|done|].
  exists (mrq :: mrs), ads'. split_and!.
  - cbn [mapM_r]. rewrite He. cbn [mbind result_bind]. by rewrite Hm.
  - cbn [make_changes]. rewrite Hmc. cbn [mbind result_bind tmp_change chMember].
    rewrite Hadd. cbn [mbind result_bind]. by rewrite Hc.
  - intros v' [->|Hv']%elem_of_cons; [|by apply Hin]. rewrite Hout by done.
    unfold ads1. simpl. by rewrite lookup_insert_eq.
  - intros m [Hne Hm']%not_elem_of_cons. rewrite Hout by done. unfold ads1. simpl.
    by rewrite lookup_insert_ne.
Qed.

Lemma tmp_members_ids core mks : (tmId <$> tmp_members core mks) = (map_to_list (members core)).*1.
Proof. unfold tmp_members. rewrite <- list_fmap_compose. done. Qed.

Lemma elem_of_tmp_members core mks v :
  v ∈ tmp_members core (Some mks) ↔
  members core !! tmId v = Some (tmInfo v) ∧
  tmTmk v = match mksMembers mks !! tmId v with Some tmk => tmk | None => None end.
Proof.
  unfold tmp_members. rewrite list_elem_of_fmap. split.
  - intros ([m i] & -> & Hin%elem_of_map_to_list). done.
  - destruct v as [m i t]. simpl. intros [Hm ->]. exists (m, i). by rewrite elem_of_map_to_list.
Qed.

(** export and load are inverse.  A roster whose entries and keys are in order exports, the
    records load, and the loaded roster has the same members with the same entries (role,
    generation, sequence number, time) and the same keys, in every order of the maps. *)
Theorem roster_export_load r host core mks :
  rCore r = Some core → rMks r = Some mks → keys_ok core mks →
  (∀ m i, members core !! m = Some i → member_id_ok m ∧ rk_valid (miRole i) ∧ live i = true) →
  (∀ m tk, mksMembers mks !! m = Some (Some tk) →
    is_ok (verifyKeyToIndex (VerifyKey tk) (Host (Fqe m))) = true) →
  ∃ mrs core' mks', Roster_Export r host = Ok mrs ∧
    Roster_Load r mrs host = Ok (mkRoster (Some core') (rKeyGens r) (Some mks')) ∧
    members core' = members core ∧ keys_ok core' mks' ∧
    ∀ m i, members core !! m = Some i → mksMembers mks' !! m = mksMembers mks !! m.
Proof.
  intros Hc Hk Hok Hids Hvk. set (l := SortFunc tmp_cmp (tmp_members core (Some mks))).
  assert (∀ v, v ∈ l ↔ members core !! tmId v = Some (tmInfo v) ∧
    tmTmk v = match mksMembers mks !! tmId v with Some tmk => tmk | None => None end) as Hl.
  { intros v. unfold l. by rewrite SortFunc_perm, elem_of_tmp_members. }
  assert (NoDup (tmId <$> l)) as Hnd.
  { unfold l. rewrite SortFunc_perm, tmp_members_ids. apply NoDup_fst_map_to_list. }
  assert (∀ v, v ∈ l → tmp_ok v) as Htmp.
  { intros v [Hm Ht]%Hl. destruct (Hids _ _ Hm) as (? & ? & ?). specialize (Hok (tmId v)).
    rewrite Hm in Hok. destruct Hok as (tk & Htk & Hg). rewrite Htk in Ht.
    split_and!; try done. exists tk. split_and!; [done..|]. by apply Hvk. }
  destruct (export_load_run host l NewMemberKeysSet Htmp Hnd) as (mrs & ads' & He & Hmc & Hin & Hout).
  assert (NoDup (chMember <$> (tmp_change <$> l))) as Hnd' by (by rewrite <- list_fmap_compose).
  assert (members (NewRosterCoreFromChanges (tmp_change <$> l)) = members core) as Hmem.
  { apply map_eq. intros m. unfold NewRosterCoreFromChanges.
    destruct (members core !! m) as [i|] eqn:Hm.
    - set (v := mkTmpMember m i (match mksMembers mks !! m with Some tmk => tmk | None => None end)).
      assert (v ∈ l) as Hv by (by apply Hl).
      pose proof (Apply_lookup_change NewRosterCore _ (tmp_change v) Hnd' (list_elem_of_fmap_2 _ _ _ Hv)) as Ha.
      simpl in Ha. rewrite Ha. by destruct (Hids _ _ Hm) as (_ & _ & ->).
    - rewrite Apply_lookup_other; [done|]. rewrite <- list_fmap_compose.
      intros (v & -> & [Hv _]%Hl)%list_elem_of_fmap. simpl in *. congruence. }
  exists mrs, (NewRosterCoreFromChanges (tmp_change <$> l)), ads'. split_and!; [..|done| |].
  - unfold Roster_Export. rewrite Hc, Hk. exact He.
  - unfold Roster_Load, MakeChangeSet. rewrite Hmc. done.
  - apply keys_ok_load with mrs host. exact Hmc.
  - intros m i Hm. set (v := mkTmpMember m i (match mksMembers mks !! m with Some tmk => tmk | None => None end)).
    assert (v ∈ l) as Hv by (by apply Hl). specialize (Hin v Hv). simpl in Hin. rewrite Hin.
    specialize (Hok m). rewrite Hm in Hok. destruct Hok as (tk & -> & _). done.
Qed.
End facts.
