(* ===== verification/TeamBoxes.v ===== *)
(** * Matching posted keys against the schedule ([lib/team/validate.go])

    With an edit the client posts the boxes of the team keys, the new public keys
    and the seed chain boxes; the server compares each list with the schedule that
    it computed itself.  The iterator [nxt] of the source is the list of entries not
    yet consumed.  The theorems give the exact lists the three checks accept. *)
From S2P Require Import Prelude Role Roster RosterAuth RosterKeys TeamRoster.

(** ** Wire records ([proto/lib/keys.go], [proto/lib/chains.go]); ciphertexts are bytes *)
Record SharedKeyBoxTarget := mkTarget {
  Eid : EntityID; tgHost : option HostID; tgRole : Role; tgGen : Generation
}.
Record SharedKeyBox := mkSharedKeyBox {
  skbGen : Generation; skbRole : Role; skbBox : bytes; Targ : SharedKeyBoxTarget
}.
Record SharedKey := mkSharedKey { skGen : Generation; skRole : Role; skVerifyKey : EntityID; skHepkFp : bytes }.
Record SeedChainBox := mkSeedChainBox { scbGen : Generation; scbRole : Role; scbBox : bytes }.

(** ** The checks *)
Definition match_box (item : KeyScheduleItem) (m : MemberID) (skb : SharedKeyBox) : result () :=
  _ ← Role_AssertEq (Role.Export (ksRole item)) (skbRole skb) (TeamError "shared key box role mismatch");
  _ ← guard_err (negb (skbGen skb =? ksGen item)%Z) (TeamError "shared key box gen mismatch");
  _ ← guard_err (match tgHost (Targ skb) with
                 | Some h => negb (HostID_Eq h (Host (Fqe m)))
                 | None => false
                 end) (TeamError "mismatched Host in MatchBoxes");
  eid ← Unfix (Entity (Fqe m));
  _ ← guard_err (negb (EntityID_Eq (Eid (Targ skb)) eid)) (TeamError "mismatched EntityID in MatchBoxes");
  Role_AssertEq (tgRole (Targ skb)) (Role.Export (SrcRole m)) (TeamError "shared key box srcRole mismatch").

Fixpoint match_members (item : KeyScheduleItem) (ms : list MemberID) (boxes : list SharedKeyBox)
  : result (list SharedKeyBox) :=
  match ms with
  | [] => Ok boxes
  | m :: ms' =>
      match boxes with
      | [] => Err (TeamError "ran out of shared key boxes")
      | skb :: boxes' => _ ← match_box item m skb; match_members item ms' boxes'
      end
  end.

Fixpoint match_items (items : list KeyScheduleItem) (boxes : list SharedKeyBox)
  : result (list SharedKeyBox) :=
  match items with
  | [] => Ok boxes
  | item :: items' =>
      boxes ← match_members item (ksMembers item) boxes;
      match_items items' boxes
  end.

Definition MatchBoxes (s : KeySchedule) (boxes : list SharedKeyBox) : result () :=
  rest ← match_items (Items s) boxes;
  guard_err (match rest with [] => false | _ => true end) (TeamError "too many shared key boxes").

Fixpoint match_public_keys (items : list KeyScheduleItem) (sk : list SharedKey) : result (list SharedKey) :=
  match items with
  | [] => Ok sk
  | item :: items' =>
      if negb (NewKeyGen item) then match_public_keys items' sk
      else match sk with
           | [] => Err (TeamError "ran out of shared keys")
           | k :: sk' =>
               _ ← guard_err (negb (skGen k =? ksGen item)%Z) (TeamError "shared key gen mismatch");
               _ ← Role_AssertEq (skRole k) (Role.Export (ksRole item)) (TeamError "shared key role mismatch");
               match_public_keys items' sk'
           end
  end.

Definition MatchPublicKeys (s : KeySchedule) (sk : list SharedKey) : result () :=
  rest ← match_public_keys (Items s) sk;
  guard_err (match rest with [] => false | _ => true end) (TeamError "too many shared keys").

Fixpoint match_seed_chain (items : list KeyScheduleItem) (ch : list SeedChainBox) : result (list SeedChainBox) :=
  match items with
  | [] => Ok ch
  | item :: items' =>
      if negb (NewKeyGen item) || Gen_IsFirst (ksGen item) then match_seed_chain items' ch
      else match ch with
           | [] => Err (TeamError "ran out of seed chain boxes")
           | b :: ch' =>
               _ ← guard_err (negb (scbGen b =? wrap64 (ksGen item - 1))%Z) (TeamError "seed chain box gen mismatch");
               _ ← Role_AssertEq (scbRole b) (Role.Export (ksRole item)) (TeamError "seed chain box role mismatch");
               match_seed_chain items' ch'
           end
  end.

Definition MatchSeedChain (s : KeySchedule) (ch : list SeedChainBox) : result () :=
  rest ← match_seed_chain (Items s) ch;
  guard_err (match rest with [] => false | _ => true end) (TeamError "too many seed chain boxes").

(** ** What a matching entry is *)
Definition is_role (p : Role) (k : RoleKey) : Prop :=
  role_T p = Typ k ∧ (Typ k = RoleType_MEMBER → role_F0 p = Some (Lev k)).

Definition box_for (item : KeyScheduleItem) (m : MemberID) (skb : SharedKeyBox) : Prop :=
  is_role (skbRole skb) (ksRole item) ∧ skbGen skb = ksGen item ∧
  (tgHost (Targ skb) = None ∨ tgHost (Targ skb) = Some (Host (Fqe m))) ∧
  (Unfix (Entity (Fqe m)) = Ok (Eid (Targ skb)) ∧ Eid (Targ skb) ≠ []) ∧
  is_role (tgRole (Targ skb)) (SrcRole m).

(** The recipients of a schedule, in the order of its items. *)
Definition recipients (items : list KeyScheduleItem) : list (KeyScheduleItem * MemberID) :=
  item ← items; (λ m, (item, m)) <$> ksMembers item.

Lemma GetT_Export k : GetT (Role.Export k) = Ok (Typ k).
Proof.
  unfold GetT, Role.Export. destruct (Z.eqb_spec (Typ k) RoleType_MEMBER) as [->|Hne]; simpl; [done|].
  by destruct (Z.eqb_spec (Typ k) RoleType_MEMBER).
Qed.

Lemma Member_Export k : Typ k = RoleType_MEMBER → Member (Role.Export k) = Ok (Lev k).
Proof. intros Ht. unfold Member, Role.Export. rewrite Ht. done. Qed.

Lemma GetT_Ok p t : GetT p = Ok t ↔ role_T p = t ∧ (t = RoleType_MEMBER → is_Some (role_F0 p)).
Proof.
  unfold GetT. destruct p as [t' [v|]]; simpl.
  - rewrite andb_false_r. simpl. split; [intros [= ->]; eauto|by intros [-> _]].
  - rewrite andb_true_r. destruct (Z.eqb_spec t' RoleType_MEMBER) as [->|Hne]; simpl.
    + split; [done|]. intros [<- Hs]. destruct Hs; done.
    + split; [intros [= ->]; done|by intros [-> _]].
Qed.

Lemma Role_Eq_Export p k : Role_Eq p (Role.Export k) = Ok true ↔ is_role p k.
Proof.
  unfold Role_Eq, is_role. rewrite bind_Ok. setoid_rewrite GetT_Ok. rewrite GetT_Export.
  cbn [mbind result_bind]. split.
  - intros (t & [<- Hs] & Hr). destruct (Z.eqb_spec (role_T p) (Typ k)) as [He|]; [|done]. simpl in Hr.
    split; [done|]. intros Hm. rewrite He, Hm in Hr. simpl in Hr. rewrite Member_Export in Hr by done.
    unfold Member in Hr. destruct (role_F0 p) as [v|]; [|done]. rewrite He, Hm in Hr. simpl in Hr.
    injection Hr as Hr%Z.eqb_eq. by subst.
  - intros [He Hm]. exists (role_T p). split.
    { split; [done|]. intros Ht. rewrite Hm by congruence. eauto. }
    rewrite He, Z.eqb_refl. simpl. destruct (Z.eqb_spec (Typ k) RoleType_MEMBER) as [Ht|]; [|done].
    simpl. rewrite Member_Export by done. unfold Member. rewrite Hm, He, Ht by done. simpl.
    by rewrite Z.eqb_refl.
Qed.

Lemma Role_Eq_comm_true p q : Role_Eq p q = Ok true → Role_Eq q p = Ok true.
Proof.
  unfold Role_Eq. intros (t1 & H1 & H)%bind_Ok. apply bind_Ok in H as (t2 & H2 & H).
  rewrite H1, H2. cbn [mbind result_bind]. rewrite Z.eqb_sym.
  destruct (Z.eqb_spec t1 t2) as [->|]; [|done]. simpl in *.
  destruct (t2 =? RoleType_MEMBER)%Z; [|done]. simpl in *.
  apply bind_Ok in H as (v1 & -> & H). apply bind_Ok in H as (v2 & -> & H).
  cbn [mbind result_bind]. by rewrite Z.eqb_sym.
Qed.

Lemma AssertEq_Ok p q e : Role_AssertEq p q e = Ok () ↔ Role_Eq p q = Ok true.
Proof.
  unfold Role_AssertEq. destruct (Role_Eq p q) as [[]|]; simpl; naive_solver.
Qed.

Lemma match_box_spec item m skb : match_box item m skb = Ok () ↔ box_for item m skb.
Proof.
  unfold match_box, box_for. rewrite unit_bind_Ok, AssertEq_Ok.
  assert (Role_Eq (Role.Export (ksRole item)) (skbRole skb) = Ok true ↔ is_role (skbRole skb) (ksRole item)) as ->.
  { rewrite <- Role_Eq_Export. split; apply Role_Eq_comm_true. }
  rewrite !unit_bind_Ok, !guard_err_Ok, negb_false_iff, Z.eqb_eq.
  assert (match tgHost (Targ skb) with Some h => negb (HostID_Eq h (Host (Fqe m))) | None => false end = false
    ↔ tgHost (Targ skb) = None ∨ tgHost (Targ skb) = Some (Host (Fqe m))) as ->.
  { destruct (tgHost (Targ skb)) as [h|]; [|naive_solver].
    rewrite negb_false_iff, HostID_Eq_spec. naive_solver. }
  do 3 f_equiv. rewrite bind_Ok. split.
  - intros (eid & Hu & Hr). rewrite unit_bind_Ok, guard_err_Ok, negb_false_iff, AssertEq_Ok, Role_Eq_Export in Hr.
    destruct Hr as [He Hr]. unfold EntityID_Eq in He.
    apply andb_true_iff in He as [[Hl _]%andb_true_iff He%bool_decide_eq_true]. subst eid.
    split_and!; [done| |done..]. intros Hnil. by rewrite Hnil in Hl.
  - intros ((Hu & Hne) & Hr). exists (Eid (Targ skb)). split; [done|].
    rewrite unit_bind_Ok, guard_err_Ok, negb_false_iff, AssertEq_Ok, Role_Eq_Export. split; [|done].
    unfold EntityID_Eq. rewrite bool_decide_true by done.
    assert ((0 <? len (Eid (Targ skb)))%Z = true) as ->; [|done].
    unfold len. destruct (Eid (Targ skb)); [done|simpl; lia].
Qed.

Lemma match_members_spec item ms boxes rest :
  match_members item ms boxes = Ok rest ↔
  ∃ used, boxes = used ++ rest ∧ Forall2 (box_for item) ms used.
Proof.
  revert boxes. induction ms as [|m ms IH]; intros boxes; simpl.
  - split; [intros [= ->]; by exists []|]. intros (u & -> & Hu%Forall2_nil_inv_l). by subst.
  - destruct boxes as [|skb boxes].
    + split; [done|]. intros (u & Hb & (b & u' & _ & _ & ->)%Forall2_cons_inv_l). done.
    + rewrite bind_Ok. split.
      * intros ([] & Hb%match_box_spec & (u & -> & Hu)%IH). exists (skb :: u). eauto using Forall2_cons_2.
      * intros (u & Hb & (b & u' & Hm & Hu & ->)%Forall2_cons_inv_l). simplify_eq/=. exists ().
        rewrite match_box_spec. split; [done|]. apply IH. eauto.
Qed.

Lemma match_items_spec items boxes rest :
  match_items items boxes = Ok rest ↔
  ∃ used, boxes = used ++ rest ∧ Forall2 (λ p, box_for p.1 p.2) (recipients items) used.
Proof.
  revert boxes. induction items as [|item items IH]; intros boxes; cbn [match_items recipients mbind list_bind].
  - split; [intros [= ->]; by exists []|]. intros (u & -> & Hu%Forall2_nil_inv_l). by subst.
  - rewrite bind_Ok. split.
    + intros (b1 & (u1 & -> & H1)%match_members_spec & (u2 & -> & H2)%IH). exists (u1 ++ u2).
      split; [by rewrite app_assoc|]. apply Forall2_app; [|done]. by apply Forall2_fmap_l.
    + intros (u & -> & Hu). apply Forall2_app_inv_l in Hu as (u1 & u2 & H1 & H2 & ->).
      exists (u2 ++ rest). split; [|apply IH; eauto]. apply match_members_spec. exists u1.
      rewrite app_assoc. split; [done|]. by apply Forall2_fmap_l in H1.
Qed.

Lemma rest_nil {A} (rest : list A) e :
  guard_err (match rest with [] => false | _ => true end) e = Ok () ↔ rest = [].
Proof. rewrite guard_err_Ok. by destruct rest. Qed.

(** C36: the posted boxes are the scheduled boxes.  [MatchBoxes] accepts a list of boxes exactly
    when it has one box per item and recipient of the schedule, in that order, each for the
    role and generation of the item and addressed to the recipient's entity and source
    role; the host of the address is the recipient's or left out. *)
Theorem MatchBoxes_exact s boxes :
  MatchBoxes s boxes = Ok () ↔ Forall2 (λ p, box_for p.1 p.2) (recipients (Items s)) boxes.
Proof.
  unfold MatchBoxes. rewrite bind_Ok. setoid_rewrite rest_nil. split.
  - intros (rest & (u & -> & Hu)%match_items_spec & ->). by rewrite app_nil_r.
  - intros Hu. exists []. split; [|done]. apply match_items_spec. exists boxes. by rewrite app_nil_r.
Qed.

(** ** Public keys and seed chain boxes *)
Definition new_items (items : list KeyScheduleItem) : list KeyScheduleItem :=
  filter (λ i, NewKeyGen i = true) items.
Definition rotated_items (items : list KeyScheduleItem) : list KeyScheduleItem :=
  filter (λ i, NewKeyGen i = true ∧ ksGen i ≠ FirstGeneration) items.

Definition key_for (item : KeyScheduleItem) (k : SharedKey) : Prop :=
  skGen k = ksGen item ∧ is_role (skRole k) (ksRole item).
Definition link_for (item : KeyScheduleItem) (b : SeedChainBox) : Prop :=
  scbGen b = wrap64 (ksGen item - 1) ∧ is_role (scbRole b) (ksRole item).

Lemma match_public_keys_spec items sk rest :
  match_public_keys items sk = Ok rest ↔
  ∃ used, sk = used ++ rest ∧ Forall2 key_for (new_items items) used.
Proof.
  revert sk. induction items as [|item items IH]; intros sk; cbn [match_public_keys].
  - split; [intros [= ->]; by exists []|]. intros (u & -> & Hu%Forall2_nil_inv_l). by subst.
  - unfold new_items. destruct (NewKeyGen item) eqn:Hn; simpl.
    + rewrite filter_cons_True by done. fold (new_items items). destruct sk as [|k sk].
      * split; [done|]. intros (u & Hb & (b & u' & _ & _ & ->)%Forall2_cons_inv_l). done.
      * rewrite bind_Ok. setoid_rewrite guard_err_Ok. setoid_rewrite negb_false_iff. setoid_rewrite Z.eqb_eq.
        setoid_rewrite bind_Ok. split.
        -- intros (_ & Hg & [] & Hr%AssertEq_Ok%Role_Eq_Export & (u & -> & Hu)%IH). exists (k :: u).
           split; [done|]. by constructor.
        -- intros (u & Hb & (b & u' & [? ?] & Hu & ->)%Forall2_cons_inv_l). simplify_eq/=. exists ().
           split; [done|]. exists (). rewrite AssertEq_Ok, Role_Eq_Export, IH. eauto.
    + rewrite filter_cons_False by (by rewrite Hn). apply IH.
Qed.

Lemma match_seed_chain_spec items ch rest :
  match_seed_chain items ch = Ok rest ↔
  ∃ used, ch = used ++ rest ∧ Forall2 link_for (rotated_items items) used.
Proof.
  revert ch. induction items as [|item items IH]; intros ch; cbn [match_seed_chain].
  - split; [intros [= ->]; by exists []|]. intros (u & -> & Hu%Forall2_nil_inv_l). by subst.
  - unfold rotated_items, Gen_IsFirst. destruct (negb (NewKeyGen item) || _) eqn:Hn.
    + rewrite filter_cons_False; [apply IH|]. rewrite orb_true_iff, negb_true_iff, Z.eqb_eq in Hn.
      intros [? ?]. destruct Hn; congruence.
    + rewrite orb_false_iff, negb_false_iff, Z.eqb_neq in Hn.
      rewrite filter_cons_True by done. fold (rotated_items items). destruct ch as [|k ch].
      * split; [done|]. intros (u & Hb & (b & u' & _ & _ & ->)%Forall2_cons_inv_l). done.
      * rewrite bind_Ok. setoid_rewrite guard_err_Ok. setoid_rewrite negb_false_iff. setoid_rewrite Z.eqb_eq.
        setoid_rewrite bind_Ok. split.
        -- intros (_ & Hg & [] & Hr%AssertEq_Ok%Role_Eq_Export & (u & -> & Hu)%IH). exists (k :: u).
           split; [done|]. by constructor.
        -- intros (u & Hb & (b & u' & [? ?] & Hu & ->)%Forall2_cons_inv_l). simplify_eq/=. exists ().
           split; [done|]. exists (). rewrite AssertEq_Ok, Role_Eq_Export, IH. eauto.
Qed.

(** The posted public keys are one per item with a new key, and the posted seed chain boxes
    one per item whose key was rotated, linking the preceding generation; nothing else is
    accepted. *)
Theorem MatchKeys_exact s sk ch :
  (MatchPublicKeys s sk = Ok () ↔ Forall2 key_for (new_items (Items s)) sk) ∧
  (MatchSeedChain s ch = Ok () ↔ Forall2 link_for (rotated_items (Items s)) ch).
Proof.
  unfold MatchPublicKeys, MatchSeedChain. rewrite !bind_Ok. setoid_rewrite rest_nil. split; split.
  - intros (rest & (u & -> & Hu)%match_public_keys_spec & ->). by rewrite app_nil_r.
  - intros Hu. exists []. split; [|done]. apply match_public_keys_spec. exists sk. by rewrite app_nil_r.
  - intros (rest & (u & -> & Hu)%match_seed_chain_spec & ->). by rewrite app_nil_r.
  - intros Hu. exists []. split; [|done]. apply match_seed_chain_spec. exists ch. by rewrite app_nil_r.
Qed.
