(* ===== verification/TeamExamples.v ===== *)
(** * A roster with keys in use

    A founding from wire records, an edit that removes a member, and the removed
    member's next link, evaluated with [merge_sort] as the sorting routine. *)
From S2P Require Import Prelude Role Roster RosterAuth RosterKeys TeamRoster TeamRosterFacts.

#[local] Existing Instance merge_sort_func.

Definition tx_host : HostID := [7%Z].
Definition tx_user (n : Z) : EntityID := EntityType_User :: replicate 32 n.
Definition tx_key (n : Z) : EntityID := EntityType_PUKVerify :: replicate 32 n.
Definition tx_id (n : Z) : MemberID :=
  mkMemberID (mkFQEntityFixed (tx_user n ++ [0%Z]) tx_host) OwnerRole.
Definition tx_record (n : Z) (role : RoleKey) (keys : MemberKeys) : MemberRoleSeqno :=
  mkMemberRoleSeqno (mkMemberRole (Role.Export role)
    (mkMember (mkFQEntityInHostScope (tx_user n) None) (Role.Export OwnerRole) keys)) 1 0.
Definition tx_add (n : Z) (role : RoleKey) : MemberRoleSeqno :=
  tx_record n role (NewMemberKeysWithTeam (mkTeamMemberKeys (tx_key n) [] 1 None None)).
Definition tx_remove (n : Z) : MemberRoleSeqno :=
  tx_record n (mkRoleKey RoleType_NONE 0) zero_MemberKeys.
Definition tx_signer (n : Z) : KeyOwner := mkKeyOwner (tx_user n) (Role.Export OwnerRole).

Definition tx_opts : option GameplanOpts := Some (mkGameplanOpts false true None false).
Definition tx_found : list MemberRoleSeqno := [tx_add 1 OwnerRole; tx_add 2 AdminRole; tx_add 4 MemberRole].
Definition tx_run (r : result (TRoster * KeySchedule)) : TRoster * KeySchedule :=
  match r with Ok s => s | Err _ => (NewEmptyRoster, mkKeySchedule [] [] []) end.
Lemma tx_run_Ok r : is_ok r = true → r = Ok ((tx_run r).1, (tx_run r).2).
Proof. by destruct r as [[] |]. Qed.

Definition tx_s0 := tx_run (Roster_Gameplan None (tx_signer 1) tx_host tx_found None tx_opts).
Definition tx_s1 :=
  tx_run (Roster_Gameplan (Some tx_s0.1) (tx_signer 2) tx_host [tx_remove 4] (Some (tx_key 2)) tx_opts).
Lemma tx_s0_ok :
  Roster_Gameplan None (tx_signer 1) tx_host tx_found None tx_opts = Ok (tx_s0.1, tx_s0.2).
Proof. apply tx_run_Ok. by vm_compute. Qed.
Lemma tx_s1_ok :
  Roster_Gameplan (Some tx_s0.1) (tx_signer 2) tx_host [tx_remove 4] (Some (tx_key 2)) tx_opts
  = Ok (tx_s1.1, tx_s1.2).
Proof. apply tx_run_Ok. by vm_compute. Qed.

Definition the_core (r : TRoster) : RosterCore := default NewRosterCore (rCore r).
Definition the_mks (r : TRoster) : MemberKeysSet := default NewMemberKeysSet (rMks r).

(** The keys of the founded roster are in step with its entries. *)
Lemma tx_s0_fields :
  rCore tx_s0.1 = Some (the_core tx_s0.1) ∧ rMks tx_s0.1 = Some (the_mks tx_s0.1) ∧
  keys_ok (the_core tx_s0.1) (the_mks tx_s0.1).
Proof.
  pose proof tx_s0_ok as Hg. unfold Roster_Gameplan in Hg. apply bind_Ok in Hg as ([cs mks] & Hm & Hg).
  apply GameplanWithChanges_Ok in Hg as (doer & core & kg & _ & _ & Hp & ->).
  apply Gameplan_apply in Hp as ->. split_and!; [done..|]. by apply keys_ok_load in Hm.
Qed.
Definition tx_s0_core := proj1 tx_s0_fields.
Definition tx_s0_mks := proj1 (proj2 tx_s0_fields).
Definition tx_s0_keys := proj2 (proj2 tx_s0_fields).
Lemma tx_s1_core : rCore tx_s1.1 = Some (the_core tx_s1.1).
Proof.
  pose proof tx_s1_ok as Hg. unfold Roster_Gameplan in Hg. apply bind_Ok in Hg as ([cs mks] & Hm & Hg).
  by apply GameplanWithChanges_Ok in Hg as (doer & core & kg & _ & _ & Hp & ->).
Qed.

Lemma edit_keeps_member_keys_witness :
  ∃ core' mks', rCore tx_s1.1 = Some core' ∧ rMks tx_s1.1 = Some mks' ∧ keys_ok core' mks'.
Proof.
  apply (edit_keeps_member_keys (Some tx_s0.1) (tx_signer 2) tx_host [tx_remove 4] (Some (tx_key 2))
    tx_opts tx_s1.1 tx_s1.2).
  - exact tx_s1_ok.
  - destruct tx_s0_fields as (Hc & Hm & Hk). simpl. rewrite Hm. eauto.
Defined.

Lemma tx_doer n : doer_id (tx_signer n) tx_host (tx_id n).
Proof. exists (Fqe (tx_id n)), OwnerRole. done. Qed.

Lemma edit_signed_by_doer_witness :
  ∃ doer tk i, doer_id (tx_signer 2) tx_host doer ∧
    mksMembers (the_mks tx_s0.1) !! doer = Some (Some tk) ∧
    Some (tx_key 2) = Some (VerifyKey tk) ∧ members (the_core tx_s0.1) !! doer = Some i.
Proof.
  apply (edit_signed_by_doer tx_s0.1 (tx_signer 2) tx_host [tx_remove 4] (Some (tx_key 2)) tx_opts
    tx_s1.1 tx_s1.2 (the_core tx_s0.1) (the_mks tx_s0.1)).
  - exact tx_s1_ok.
  - exact tx_s0_core.
  - exact tx_s0_mks.
  - reflexivity.
Defined.

(** The removed member 4 signs the next link. *)
Lemma removed_signer_panics_witness :
  Roster_Gameplan (Some tx_s1.1) (tx_signer 4) tx_host [tx_add 5 MemberRole] (Some (tx_key 4)) tx_opts
  = Err GoPanic.
Proof.
  eapply (removed_signer_panics tx_s0.1 (tx_signer 2) tx_host [tx_remove 4] (Some (tx_key 2)) tx_opts
    tx_s1.1 tx_s1.2 (the_mks tx_s0.1) (tx_id 4) (the_core tx_s0.1) (the_core tx_s1.1)).
  - exact tx_s1_ok.
  - exact tx_s0_core.
  - exact tx_s0_mks.
  - exact tx_s0_keys.
  - exact tx_s1_core.
  - exists (mkMemberInfo MemberRole 1 1 0). apply (bool_decide_unpack _). vm_compute. exact I.
  - apply (bool_decide_unpack _). vm_compute. exact I.
  - apply tx_doer.
  - reflexivity.
Defined.

Definition tx_long : MemberRoleSeqno :=
  mkMemberRoleSeqno (mkMemberRole (Role.Export MemberRole)
    (mkMember (mkFQEntityInHostScope (EntityType_User :: replicate 34 9%Z) None)
       (Role.Export OwnerRole) zero_MemberKeys)) 1 0.
Lemma oversized_member_panics_witness : MakeChange tx_long tx_host = Err GoPanic.
Proof.
  apply (oversized_member_panics tx_long tx_host MemberRole OwnerRole MemberKeysType_None); by vm_compute.
Defined.

(** ** Exporting the founded roster and loading it again *)
Definition tx_entry_ok (p : MemberID * MemberInfo) : bool :=
  bool_decide (rk_valid (SrcRole p.1)) && negb (RoleKey_IsNone (SrcRole p.1)) &&
  match Unfix (Entity (Fqe p.1)) with
  | Ok e => match EntityID_Fixed e with Ok f => bool_decide (f = Entity (Fqe p.1)) | Err _ => false end
  | Err _ => false
  end && bool_decide (rk_valid (miRole p.2)) && live p.2.
Lemma tx_entry_sound p :
  tx_entry_ok p = true → member_id_ok p.1 ∧ rk_valid (miRole p.2) ∧ live p.2 = true.
Proof.
  unfold tx_entry_ok, member_id_ok. rewrite !andb_true_iff, !bool_decide_eq_true, negb_true_iff.
  intros [[[[? ?] Hu] ?] ?]. split_and!; try done.
  destruct (Unfix _) as [e|]; [|done]. exists e. split; [done|].
  destruct (EntityID_Fixed e) as [f|]; [|done]. by apply bool_decide_eq_true in Hu as ->.
Qed.

Definition tx_key_ok (p : MemberID * option TeamMemberKeys) : bool :=
  match p.2 with
  | Some tk => is_ok (verifyKeyToIndex (VerifyKey tk) (Host (Fqe p.1)))
  | None => true
  end.

Lemma forallb_lookup {A} (f : MemberID * A → bool) (m : gmap MemberID A) k v :
  forallb f (map_to_list m) = true → m !! k = Some v → f (k, v) = true.
Proof. rewrite forallb_forall. intros Hf Hm%elem_of_map_to_list%list_elem_of_In. by apply Hf. Qed.

Lemma roster_export_load_witness :
  ∃ mrs core' mks', Roster_Export tx_s0.1 tx_host = Ok mrs ∧
    Roster_Load tx_s0.1 mrs tx_host = Ok (mkRoster (Some core') (rKeyGens tx_s0.1) (Some mks')) ∧
    members core' = members (the_core tx_s0.1) ∧ keys_ok core' mks' ∧
    ∀ m i, members (the_core tx_s0.1) !! m = Some i → mksMembers mks' !! m = mksMembers (the_mks tx_s0.1) !! m.
Proof.
  apply (roster_export_load tx_s0.1 tx_host (the_core tx_s0.1) (the_mks tx_s0.1)).
  - exact tx_s0_core.
  - exact tx_s0_mks.
  - exact tx_s0_keys.
  - intros m i Hm. apply (tx_entry_sound (m, i)).
    refine (forallb_lookup _ _ _ _ _ Hm). by vm_compute.
  - intros m tk Hm. change (tx_key_ok (m, Some tk) = true).
    refine (forallb_lookup _ _ _ _ _ Hm). by vm_compute.
Defined.
