(* ===== verification/TeamIndex.v ===== *)
(** * Teams inside teams ([server/shared/team.go], [client/libclient/team_minder_index_range.go])

    A team can be a member of a team.  To keep the membership graph free of
    cycles every team has an index range that only ever shrinks, and a team may
    join another only if its range lies below the other's.  The file models the
    tables [team_index_ranges], [team_members], [shared_keys], [hepks] and
    [user_membership_vers] of one host, the checks and writes that a team edit runs on them,
    the client's commands that change a range, and shows that the graph stays acyclic,
    also when edits of several teams interleave; and that the wrap-around of [int] in
    [Rational.Cmp] breaks this for exponents at the end of their type.

    The columns [low], [high] and [tir] hold the encoding of the values given here.  The
    rows of [teams] that foreign keys point to, and the link itself, are not modelled. *)
From Stdlib Require Import QArith.QArith.
From S2P Require Import Prelude Rational Role Roster RosterAuth RosterKeys TeamRoster TeamBoxes.

(** ** Tables *)
Abbreviation TeamID := bytes.
Record IndexRow := mkIndexRow { irTeam : TeamID; irSeqno : Z; irRange : proto_RationalRange }.
Record MemberRow := mkMemberRow {
  rwTeam : TeamID; rwMember : EntityID; rwHost : option HostID; rwSrc : RoleKey; rwSeqno : Z;
  rwActive : bool; rwEpno : Z; rwGen : Generation; rwVerifyKey : bytes; rwHepkFp : bytes;
  rwDst : RoleKey; rwTir : option proto_RationalRange; rwRemoval : option Z
}.
Record SharedKeyRow := mkSharedKeyRow {
  skrEntity : EntityID; skrRole : RoleKey; skrGen : Generation; skrHepkFp : bytes; skrVerifyKey : bytes
}.
Record TeamDb := mkTeamDb {
  team_index_ranges : list IndexRow;
  team_members : list MemberRow;
  shared_keys : list SharedKeyRow;
  hepks : gmap bytes bytes;
  user_membership_vers : gmap bytes Z
}.

(** A Postgres INTEGER. *)
Definition pg_int (z : Z) : result () :=
  guard_err ((z <? - 2 ^ 31) || (2 ^ 31 <=? z))%Z (SqlError "integer out of range").

(** ** Index ranges *)
Fixpoint max_row (rows : list IndexRow) : option IndexRow :=
  match rows with
  | [] => None
  | r :: rest =>
      match max_row rest with
      | Some r' => if (irSeqno r <? irSeqno r')%Z then Some r' else Some r
      | None => Some r
      end
  end.
Definition latest_row (db : TeamDb) (teamID : TeamID) : option IndexRow :=
  max_row (filter (λ r, irTeam r = teamID) (team_index_ranges db)).

Definition GetLatestTeamIndexRange (db : TeamDb) (teamID : TeamID)
  : result (option (proto_RationalRange * Z)) :=
  match latest_row db teamID with
  | None => Ok None
  | Some row => _ ← Range_Validate (irRange row); Ok (Some (irRange row, irSeqno row))
  end.

Definition Seqno_IsEldest (s : Z) : bool := (s =? 1)%Z.

Definition InsertTeamIndexRange (db : TeamDb) (teamID : TeamID) (seqno : Z) (ir : proto_RationalRange)
  : result TeamDb :=
  prev ← GetLatestTeamIndexRange db teamID;
  let first := Seqno_IsEldest seqno in
  _ ← match prev with
      | None => guard_err (negb first) (BadServerDataError "no previous index range")
      | Some (prev, prevSeqno) =>
          _ ← guard_err first (BadServerDataError "previous index range exists");
          _ ← guard_err (seqno <=? prevSeqno)%Z (BadServerDataError "seqno not greater than previous");
          eq ← Range_Eq ir prev;
          _ ← guard_err eq (TeamError "index range is the same as the previous");
          inc ← Range_Includes prev ir;
          guard_err (negb inc) (TeamError "previous range does not include new range")
      end;
  _ ← pg_int seqno;
  _ ← guard_err (existsb (λ r, bool_decide (irTeam r = teamID) && (irSeqno r =? seqno)%Z)
                   (team_index_ranges db)) (SqlError "duplicate key");
  Ok (mkTeamDb (mkIndexRow teamID seqno ir :: team_index_ranges db) (team_members db)
        (shared_keys db) (hepks db) (user_membership_vers db)).

Definition CheckTeamIndexRanges (db : TeamDb) (joiner joinee : TeamID) : result () :=
  left ← GetLatestTeamIndexRange db joiner;
  left ← of_option (TeamError "no index range") left;
  right ← GetLatestTeamIndexRange db joinee;
  right ← of_option (TeamError "no index range") right;
  lt ← Range_LessThan left.1 right.1;
  guard_err (negb lt) TeamCycleError.

(** ** Checks on the changes of a link *)
Fixpoint forAllTeamChanges (changes : list proto_MemberRole)
    (f : proto_MemberRole → TeamMemberKeys → result ()) : result () :=
  match changes with
  | [] => Ok ()
  | chng :: rest =>
      rtyp ← GetT (DstRole chng);
      if (rtyp =? RoleType_NONE)%Z then forAllTeamChanges rest f
      else
        typ ← MemberKeys_GetT (mKeys (mrMember chng));
        _ ← guard_err (negb (typ =? MemberKeysType_Team)%Z) (LinkError "bad member keys type");
        keys ← MemberKeys_Team (mKeys (mrMember chng));
        _ ← f chng keys;
        forAllTeamChanges rest f
  end.

Definition EntityType_IsTeam (t : EntityType) : bool :=
  (t =? EntityType_NamedTeam)%Z || (t =? EntityType_AdHocTeam)%Z.
Definition EntityType_IsUser (t : EntityType) : bool := (t =? EntityType_User)%Z.

Definition ToTeamID (e : EntityID) : result TeamID :=
  _ ← guard_err (negb (len e =? 33)%Z) (EntityError "wrong length for team ID");
  t ← EntityID_Type e;
  _ ← guard_err (negb (EntityType_IsTeam t)) (EntityError "wrong leading byte for team ID");
  Ok e.

Definition ImportEntityIDFromBytes (b : bytes) : result EntityID :=
  _ ← guard_err (len b <? 33)%Z (EntityError "input bytes are too short");
  t ← Prelude.index b 0;
  _ ← guard_err (negb (len b =? EntityType_Len t)%Z) (EntityError "wrong length");
  Ok b.
Definition HEPKFingerprint_ImportFromDB (b : bytes) : result bytes :=
  _ ← guard_err (negb (len b =? 32)%Z) (DataError "bad HEPK fingerprint; wrong length");
  Ok b.

Fixpoint max_key (rows : list SharedKeyRow) : option SharedKeyRow :=
  match rows with
  | [] => None
  | r :: rest =>
      match max_key rest with
      | Some r' => if (skrGen r <? skrGen r')%Z then Some r' else Some r
      | None => Some r
      end
  end.

Definition ReadLatestSharedKey (db : TeamDb) (eid : EntityID) (role : Role) : result SharedKey :=
  rk ← ImportRole role;
  row ← of_option (KeyNotFoundError "shared key")
          (max_key (filter (λ r, skrEntity r = eid ∧ skrRole r = rk) (shared_keys db)));
  vke ← ImportEntityIDFromBytes (skrVerifyKey row);
  hepkFp ← HEPKFingerprint_ImportFromDB (skrHepkFp row);
  Ok (mkSharedKey (skrGen row) role vke hepkFp).

(** A team without a row is a nil pointer, which [tir.Eq] dereferences. *)
Definition checkTeamIndexRange (db : TeamDb) (chng : proto_MemberRole) (keys : TeamMemberKeys) : result () :=
  let eid := hsEntity (mId (mrMember chng)) in
  t ← EntityID_Type eid;
  if negb (EntityType_IsTeam t) then Ok ()
  else
    tid ← ToTeamID eid;
    tir ← GetLatestTeamIndexRange db tid;
    tmp ← of_option (LinkError "no team index range for added team") (Tir keys);
    tir ← of_option GoPanic tir;
    eq ← Range_Eq tir.1 tmp;
    guard_err (negb eq) (TeamRaceError "bad team index range for member").

Definition check_local_member (db : TeamDb) (chng : proto_MemberRole) (keys : TeamMemberKeys) : result () :=
  match hsHost (mId (mrMember chng)) with
  | Some _ => Ok ()
  | None =>
      ktyp ← MemberKeys_GetT (mKeys (mrMember chng));
      _ ← guard_err (negb (ktyp =? MemberKeysType_Team)%Z) (LinkError "bad member keys type");
      lsk ← ReadLatestSharedKey db (hsEntity (mId (mrMember chng))) (mSrcRole (mrMember chng));
      _ ← guard_err (negb (skGen lsk =? tmkGen keys)%Z) (TeamRaceError "bad/stale generation for member");
      _ ← guard_err (negb (EntityID_Eq (skVerifyKey lsk) (VerifyKey keys)))
            (TeamRaceError "bad verify key for member");
      _ ← guard_err (negb (bool_decide (skHepkFp lsk = HepkFp keys))) (TeamRaceError "bad dh key for member");
      checkTeamIndexRange db chng keys
  end.
Definition CheckLocalMembers (db : TeamDb) (changes : list proto_MemberRole) : result () :=
  forAllTeamChanges changes (check_local_member db).

(** [high] is dereferenced when a team is added, and only then. *)
Definition check_member_range (high : option (proto_RationalRange * Z)) (chng : proto_MemberRole)
    (tmk : TeamMemberKeys) : result () :=
  t ← EntityID_Type (hsEntity (mId (mrMember chng)));
  if negb (EntityType_IsTeam t) then Ok ()
  else
    tmp ← of_option (TeamError "missing team index range in addition") (Tir tmk);
    high ← of_option GoPanic high;
    lt ← Range_LessThan tmp high.1;
    guard_err (negb lt) TeamCycleError.
Definition CheckMemberIndexRangesAgainstTeam (db : TeamDb) (teamID : TeamID)
    (changes : list proto_MemberRole) : result () :=
  high ← GetLatestTeamIndexRange db teamID;
  forAllTeamChanges changes (check_member_range high).

(** ** Writing the members *)
Definition set_members (db : TeamDb) (rows : list MemberRow) : TeamDb :=
  mkTeamDb (team_index_ranges db) rows (shared_keys db) (hepks db) (user_membership_vers db).
Definition set_hepks (db : TeamDb) (h : gmap bytes bytes) : TeamDb :=
  mkTeamDb (team_index_ranges db) (team_members db) (shared_keys db) h (user_membership_vers db).
Definition set_vers (db : TeamDb) (v : gmap bytes Z) : TeamDb :=
  mkTeamDb (team_index_ranges db) (team_members db) (shared_keys db) (hepks db) v.

(** The rows of one member at one source role. *)
Definition same_member (team : TeamID) (id : FQEntityInHostScope) (srk : RoleKey) (r : MemberRow) : bool :=
  bool_decide (rwTeam r = team) && bool_decide (rwMember r = hsEntity id) &&
  bool_decide (rwHost r = hsHost id) && bool_decide (rwSrc r = srk).

Definition remove_row (seqno : Z) (r : MemberRow) : MemberRow :=
  mkMemberRow (rwTeam r) (rwMember r) (rwHost r) (rwSrc r) (rwSeqno r) false (rwEpno r) (rwGen r)
    (rwVerifyKey r) (rwHepkFp r) (rwDst r) (rwTir r) (Some seqno).
Definition deactivate_row (r : MemberRow) : MemberRow :=
  mkMemberRow (rwTeam r) (rwMember r) (rwHost r) (rwSrc r) (rwSeqno r) false (rwEpno r) (rwGen r)
    (rwVerifyKey r) (rwHepkFp r) (rwDst r) (rwTir r) (rwRemoval r).

(** [INSERT INTO hepks ... ON CONFLICT DO NOTHING]. *)
Definition InsertHEPK (db : TeamDb) (fp : bytes) (given : gmap bytes bytes) : result TeamDb :=
  hepk ← of_option (KeyNotFoundError "hepk") (given !! fp);
  Ok (set_hepks db (match hepks db !! fp with Some _ => hepks db | None => <[fp := hepk]> (hepks db) end)).

Definition EditMember (db : TeamDb) (team : TeamID) (seqno epno : Z) (mr : proto_MemberRole)
    (given : gmap bytes bytes) : result TeamDb :=
  rk ← ImportRole (DstRole mr);
  srk ← ImportRole (mSrcRole (mrMember mr));
  let id := mId (mrMember mr) in
  let same := same_member team id srk in
  _ ← pg_int seqno;
  db ← (if (Typ rk =? RoleType_NONE)%Z then
          let hit := λ r, same r && bool_decide (rwRemoval r = None) in
          _ ← guard_err (negb (existsb hit (team_members db)))
                (UpdateError "team_members set removal_seqno");
          Ok (set_members db (map (λ r, if hit r then remove_row seqno r else r) (team_members db)))
        else
          let keys := mKeys (mrMember mr) in
          typ ← MemberKeys_GetT keys;
          _ ← guard_err (negb (typ =? MemberKeysType_Team)%Z) (InsertError "need member keys type");
          tmk ← MemberKeys_Team keys;
          _ ← pg_int epno;
          _ ← pg_int (tmkGen tmk);
          _ ← guard_err (existsb (λ r, same r && (rwSeqno r =? seqno)%Z) (team_members db))
                (SqlError "duplicate key");
          let row := mkMemberRow team (hsEntity id) (hsHost id) srk seqno true epno (tmkGen tmk)
                       (VerifyKey tmk) (HepkFp tmk) rk (Tir tmk) None in
          let db := set_members db (row :: team_members db) in
          match hsHost id with
          | Some _ => InsertHEPK db (HepkFp tmk) given
          | None => Ok db
          end);
  Ok (set_members db (map (λ r, if same r && (rwSeqno r <? seqno)%Z then deactivate_row r else r)
                        (team_members db))).

Fixpoint edit_members (db : TeamDb) (team : TeamID) (seqno epno : Z) (changes : list proto_MemberRole)
    (given : gmap bytes bytes) : result TeamDb :=
  match changes with
  | [] => Ok db
  | chng :: rest =>
      db ← EditMember db team seqno epno chng given;
      edit_members db team seqno epno rest given
  end.

(** The local users among the changes. *)
Fixpoint changed_uids (self : HostID) (changes : list proto_MemberRole) : result (list bytes) :=
  match changes with
  | [] => Ok []
  | chng :: rest =>
      let id := mId (mrMember chng) in
      t ← EntityID_Type (hsEntity id);
      if negb (EntityType_IsUser t) then changed_uids self rest
      else if match hsHost id with Some h => negb (HostID_Eq h self) | None => false end
      then changed_uids self rest
      else
        uid ← ToUID (hsEntity id);
        uids ← changed_uids self rest;
        Ok (uid :: uids)
  end.

Section edits.
Context `{SortLib}.

Definition bumpUserMembershipVers (db : TeamDb) (self : HostID) (changes : list proto_MemberRole)
  : result TeamDb :=
  uids ← changed_uids self changes;
  Ok (set_vers db (foldl (λ v uid, <[uid := match v !! uid with Some n => n + 1 | None => 1 end]> v)%Z
                     (user_membership_vers db) (SortFunc bytes_Compare uids))).

Definition EditMembers (db : TeamDb) (self : HostID) (team : TeamID) (seqno epno : Z)
    (changes : list proto_MemberRole) (given : gmap bytes bytes) : result TeamDb :=
  db ← edit_members db team seqno epno changes given;
  bumpUserMembershipVers db self changes.

(** What a team edit does to these tables after [checkLocalMembers], in the order of
    [runEditCommon]: [editMembers], [insertTeamIndexRange] and
    [checkMemberIndexRangesAgainstTeam].  The calls in between ([insertPTKs],
    [insertRosterDelegationFloor], [insertLocalViewPermission]) write other tables; an error
    rolls the transaction back. *)
Definition write_edit (db : TeamDb) (self : HostID) (team : TeamID) (seqno epno : Z)
    (rng : option proto_RationalRange) (changes : list proto_MemberRole) (given : gmap bytes bytes)
  : result TeamDb :=
  db ← EditMembers db self team seqno epno changes given;
  db ← match rng with Some rng => InsertTeamIndexRange db team seqno rng | None => Ok db end;
  _ ← CheckMemberIndexRangesAgainstTeam db team changes;
  Ok db.
End edits.

(** ** The client

    The functions that [setIndexRangeCommon] applies to the current range; the result is
    posted in a link. *)
Definition SetIndexRangeHigh (high : proto_Rational) (r : proto_RationalRange) : result proto_RationalRange :=
  cmp ← Cmp high (High r);
  _ ← guard_err (cmp =? 0)%Z (TeamIndexRangeError "index high already set");
  _ ← guard_err (0 <? cmp)%Z (TeamIndexRangeError "index high must be less than current high");
  Ok (SetHigh r high).
Definition SetIndexRange (newRange r : proto_RationalRange) : result proto_RationalRange :=
  eq ← Range_Eq newRange r;
  _ ← guard_err eq (TeamIndexRangeError "index range already set");
  inc ← Range_Includes r newRange;
  _ ← guard_err (negb inc) (TeamIndexRangeError "old range does not include new range");
  Ok newRange.
Definition SetIndexRangeLow (low : proto_Rational) (r : proto_RationalRange) : result proto_RationalRange :=
  cmp ← Cmp low (Low r);
  _ ← guard_err (cmp =? 0)%Z (TeamIndexRangeError "index low already set");
  _ ← guard_err (cmp <? 0)%Z (TeamIndexRangeError "index low must be greater than current high");
  Ok (SetLow r low).
Definition LowerIndexRange (r : proto_RationalRange) : result proto_RationalRange :=
  eq ← Range_Eq r NewDefaultRange;
  if eq : bool then Ok (mkRationalRange (Low r) (NewRational [0x20%Z] 0)) else Range_Rsh r.
Definition RaiseIndexRange (r : proto_RationalRange) : result proto_RationalRange :=
  eq ← Range_Eq r NewDefaultRange;
  if eq : bool then Ok (mkRationalRange (NewRational [0x80%Z] 0) (High r)) else Range_Lsh r.

(** A joining team is checked by the client that admits it, with the range it showed in its
    request, and by its own client before it asks. *)
Definition CheckTeamIndexRange (current targetTeam : proto_RationalRange)
    (tirInJoinReq : option proto_RationalRange) : result () :=
  low ← of_option (TeamIndexRangeError "missing team index range for joining team") tirInJoinReq;
  inc ← Range_Includes low current;
  _ ← guard_err (negb inc) (TeamIndexRangeError "joining team's index weirdly grew");
  lt ← Range_LessThan low targetTeam;
  guard_err (negb lt) TeamCycleError.
Definition cycleCheck (joiner joinee : proto_RationalRange) : result () :=
  lt ← Range_LessThan joiner joinee;
  guard_err (negb lt) TeamCycleError.

(** ** What the operations do *)
Lemma max_row_front r rows :
  (∀ r', max_row rows = Some r' → (irSeqno r' < irSeqno r)%Z) → max_row (r :: rows) = Some r.
Proof.
  intros Hr. simpl. destruct (max_row rows) as [r'|]; [|done].
  specialize (Hr r' eq_refl). destruct (Z.ltb_spec (irSeqno r) (irSeqno r')); [lia|done].
Qed.

Lemma GetLatest_Some db t r q :
  GetLatestTeamIndexRange db t = Ok (Some (r, q)) →
  ∃ row, latest_row db t = Some row ∧ irRange row = r ∧ irSeqno row = q ∧ Range_Validate r = Ok ().
Proof.
  unfold GetLatestTeamIndexRange. destruct (latest_row db t) as [row|]; [|done].
  intros ([] & Hv & [= <- <-])%bind_Ok. eauto.
Qed.
Lemma GetLatest_None db t : GetLatestTeamIndexRange db t = Ok None → latest_row db t = None.
Proof.
  unfold GetLatestTeamIndexRange. destruct (latest_row db t); [|done].
  by intros ([] & _ & ?)%bind_Ok.
Qed.

(** An accepted range is the latest from then on, and lies inside the previous one. *)
Lemma InsertTeamIndexRange_spec db team seqno ir db' :
  InsertTeamIndexRange db team seqno ir = Ok db' →
  team_members db' = team_members db ∧
  (∀ t, t ≠ team → latest_row db' t = latest_row db t) ∧
  latest_row db' team = Some (mkIndexRow team seqno ir) ∧
  (∀ row, latest_row db team = Some row → Range_Includes (irRange row) ir = Ok true).
Proof.
  unfold InsertTeamIndexRange. intros (prev & Hprev & Hi)%bind_Ok.
  apply bind_Ok in Hi as ([] & Hp & Hi). inv_ok.
  assert ((∀ row, latest_row db team = Some row → (irSeqno row < seqno)%Z ∧
    Range_Includes (irRange row) ir = Ok true)) as Hrow.
  { intros row Hrow. destruct prev as [[p q]|].
    - apply GetLatest_Some in Hprev as (row' & Hl & <- & <- & _). simplify_eq. inv_ok.
      match goal with H : Range_Includes _ _ = Ok ?x |- _ =>
        destruct x; [|done] end. split; [lia|done].
    - apply GetLatest_None in Hprev. congruence. }
  split_and!; [done|..].
  - intros t Ht. unfold latest_row. simpl. by rewrite filter_cons_False.
  - unfold latest_row. simpl. rewrite filter_cons_True by done. apply max_row_front.
    intros r' Hr'. by apply Hrow in Hr' as [? _].
  - intros row Hr. by apply Hrow in Hr as [_ ?].
Qed.

Lemma forAllTeamChanges_Ok changes f chng t :
  forAllTeamChanges changes f = Ok () → chng ∈ changes → GetT (DstRole chng) = Ok t →
  t ≠ RoleType_NONE →
  ∃ keys, MemberKeys_Team (mKeys (mrMember chng)) = Ok keys ∧ f chng keys = Ok ().
Proof.
  intros Hf Hin Ht Hne. induction changes as [|c changes IH]; [by apply elem_of_nil in Hin|].
  cbn [forAllTeamChanges] in Hf. apply bind_Ok in Hf as (t' & Ht' & Hf).
  destruct (Z.eqb_spec t' RoleType_NONE) as [->|Hn].
  { apply elem_of_cons in Hin as [->|Hin]; [congruence|by apply IH]. }
  apply bind_Ok in Hf as (typ & _ & Hf). apply bind_Ok in Hf as (_ & _ & Hf).
  apply bind_Ok in Hf as (keys & Hk & Hf). apply bind_Ok in Hf as ([] & Hc & Hf).
  apply elem_of_cons in Hin as [->|Hin]; [by exists keys|by apply IH].
Qed.

(** Where a member row comes from: an earlier row of the same member, or a change that
    adds the member. *)
Definition row_origin (old : list MemberRow) (team : TeamID) (changes : list proto_MemberRole)
    (r : MemberRow) : Prop :=
  (∃ r0, r0 ∈ old ∧ rwTeam r0 = rwTeam r ∧ rwMember r0 = rwMember r ∧ rwHost r0 = rwHost r) ∨
  (rwTeam r = team ∧ ∃ chng rk, chng ∈ changes ∧ ImportRole (DstRole chng) = Ok rk ∧
    Typ rk ≠ RoleType_NONE ∧ rwMember r = hsEntity (mId (mrMember chng)) ∧
    rwHost r = hsHost (mId (mrMember chng))).

Lemma row_origin_map old team changes (f : MemberRow → MemberRow) rows :
  (∀ r, rwTeam (f r) = rwTeam r ∧ rwMember (f r) = rwMember r ∧ rwHost (f r) = rwHost r) →
  (∀ r, r ∈ rows → row_origin old team changes r) →
  ∀ r, r ∈ map f rows → row_origin old team changes r.
Proof.
  intros Hf Hr r (r1 & -> & Hin)%list_elem_of_fmap. destruct (Hf r1) as (Ht & Hm & Hh).
  unfold row_origin. rewrite Ht, Hm, Hh. by apply Hr.
Qed.

Lemma EditMember_spec db team seqno epno mr given db' :
  EditMember db team seqno epno mr given = Ok db' →
  team_index_ranges db' = team_index_ranges db ∧
  ∀ r, r ∈ team_members db' → row_origin (team_members db) team [mr] r.
Proof.
  unfold EditMember. intros (rk & Hrk & He)%bind_Ok. apply bind_Ok in He as (srk & _ & He).
  apply bind_Ok in He as ([] & _ & He). apply bind_Ok in He as (db1 & H1 & [= <-]).
  assert (team_index_ranges db1 = team_index_ranges db ∧
    ∀ r, r ∈ team_members db1 → row_origin (team_members db) team [mr] r) as [Hir Hrows].
  { assert (∀ r, r ∈ team_members db → row_origin (team_members db) team [mr] r) as Hold
      by (intros r Hr; left; eauto).
    destruct (Z.eqb_spec (Typ rk) RoleType_NONE) as [_|Hn].
    - apply bind_Ok in H1 as ([] & _ & [= <-]). split; [done|]. simpl. apply row_origin_map; [|done].
      intros r. by destruct (_ && _).
    - apply bind_Ok in H1 as (typ & _ & H1). apply bind_Ok in H1 as ([] & _ & H1).
      apply bind_Ok in H1 as (tmk & _ & H1). apply bind_Ok in H1 as ([] & _ & H1).
      apply bind_Ok in H1 as ([] & _ & H1). apply bind_Ok in H1 as ([] & _ & H1).
      set (row := mkMemberRow _ _ _ _ _ _ _ _ _ _ _ _ _) in H1.
      assert (team_index_ranges db1 = team_index_ranges db ∧
        team_members db1 = row :: team_members db) as [Hi Hm].
      { destruct (hsHost (mId (mrMember mr))); [|by inv_ok]. unfold InsertHEPK in H1. by inv_ok. }
      split; [done|]. rewrite Hm. intros r [->|Hr]%elem_of_cons; [|by apply Hold].
      right. split; [done|]. exists mr, rk. split_and!; try done. by left. }
  split; [done|]. simpl. apply row_origin_map; [|done]. intros r. by destruct (_ && _).
Qed.

Lemma edit_members_spec db team seqno epno changes given db' :
  edit_members db team seqno epno changes given = Ok db' →
  team_index_ranges db' = team_index_ranges db ∧
  ∀ r, r ∈ team_members db' → row_origin (team_members db) team changes r.
Proof.
  revert db. induction changes as [|c changes IH]; intros db He; cbn [edit_members] in He.
  { injection He as <-. split; [done|]. intros r Hr. left. eauto. }
  apply bind_Ok in He as (db1 & H1 & He). apply EditMember_spec in H1 as [Hi1 Hr1].
  apply IH in He as [Hi Hr]. split; [congruence|]. intros r Hin.
  destruct (Hr r Hin) as [(r0 & H0 & Ht & Hm & Hh)|(Ht & ch & rk & Hc & ?)].
  - destruct (Hr1 r0 H0) as [(r1 & ? & ? & ? & ?)|(? & ch & rk & Hc & ? & ? & ? & ?)].
    + left. exists r1. split_and!; congruence.
    + right. split; [congruence|]. exists ch, rk. apply list_elem_of_singleton in Hc as ->.
      split_and!; [by left|done|done|congruence|congruence].
  - right. split; [done|]. exists ch, rk. split; [by right|done].
Qed.

(** ** Histories of a host's tables

    The most recent state comes first.  An edit holds the lock of its own team only, so
    what [CheckLocalMembers] read of other teams may come from an earlier state.  [ok] is
    a condition on the ranges that links carry.  Other transactions write the remaining
    tables. *)
Definition keys_tir (chng : proto_MemberRole) : option proto_RationalRange :=
  match MemberKeys_Team (mKeys (mrMember chng)) with Ok tk => Tir tk | Err _ => None end.
Definition link_ranges (rng : option proto_RationalRange) (changes : list proto_MemberRole)
  : list proto_RationalRange :=
  option_list rng ++ omap keys_tir changes.

Section history.
Context `{SortLib} (self : HostID) (ok : proto_RationalRange → Prop).

Inductive history : list TeamDb → Prop :=
  | hist_start db :
      team_index_ranges db = [] → team_members db = [] → history [db]
  | hist_edit db0 db hist team seqno epno rng changes given db' :
      history (db :: hist) → db0 ∈ db :: hist →
      (∀ r, r ∈ link_ranges rng changes → ok r) →
      CheckLocalMembers db0 changes = Ok () →
      write_edit db self team seqno epno rng changes given = Ok db' →
      history (db' :: db :: hist)
  | hist_other db hist db' :
      history (db :: hist) → team_index_ranges db' = team_index_ranges db →
      team_members db' = team_members db → history (db' :: db :: hist).
End history.

(** A local team [x] that is, or once was, a member of [y]. *)
Definition is_team (e : EntityID) : Prop :=
  ∃ t, EntityID_Type e = Ok t ∧ EntityType_IsTeam t = true.
Definition team_edge (db : TeamDb) (x y : TeamID) : Prop :=
  ∃ r, r ∈ team_members db ∧ rwHost r = None ∧ rwMember r = x ∧ rwTeam r = y ∧ is_team x.

Definition latest_ok (db : TeamDb) : Prop :=
  ∀ t row, latest_row db t = Some row → range_ok (irRange row) ∧ range_valid (irRange row).
Definition shrunk (db0 db : TeamDb) : Prop :=
  ∀ t row0, latest_row db0 t = Some row0 →
    ∃ row, latest_row db t = Some row ∧ range_sub (irRange row) (irRange row0).
Definition edges_ordered (db : TeamDb) : Prop :=
  ∀ x y, team_edge db x y → ∃ a b, latest_row db x = Some a ∧ latest_row db y = Some b ∧
    range_lt (irRange a) (irRange b).

#[global] Instance shrunk_preorder : PreOrder shrunk.
Proof.
  split.
  - intros db t row Hr. by exists row.
  - intros a b c Hab Hbc t row Hr. apply Hab in Hr as (r1 & H1 & S1). apply Hbc in H1 as (r2 & H2 & S2).
    exists r2. split; [done|]. by etrans.
Qed.

Lemma edges_ordered_shrunk db0 db x y a b :
  shrunk db0 db → latest_row db0 x = Some a → latest_row db0 y = Some b →
  range_lt (irRange a) (irRange b) →
  ∃ a b, latest_row db x = Some a ∧ latest_row db y = Some b ∧ range_lt (irRange a) (irRange b).
Proof.
  intros Hs Ha Hb Hlt. apply Hs in Ha as (a' & Ha & Sa). apply Hs in Hb as (b' & Hb & Sb).
  exists a', b'. split_and!; [done..|]. by eapply range_lt_shrink.
Qed.

Lemma edges_acyclic db : latest_ok db → edges_ordered db → ∀ t, ¬ tc (team_edge db) t t.
Proof.
  intros Hok Hed.
  assert (∀ x y, tc (team_edge db) x y → ∃ a b, latest_row db x = Some a ∧
    latest_row db y = Some b ∧ range_lt (irRange a) (irRange b)) as Htc.
  { induction 1 as [x y Hxy|x y z Hxy _ IH]; [by apply Hed|].
    apply Hed in Hxy as (a & b & Ha & Hb & Hab). destruct IH as (b' & c & Hb' & Hc & Hbc). simplify_eq.
    exists a, c. split_and!; [done..|]. eapply range_lt_trans; [done| |done]. by apply (Hok y). }
  intros t (a & b & Ha & Hb & Hlt)%Htc. simplify_eq. eapply range_lt_irrefl; [|done]. by apply (Hok t).
Qed.

(** ** One edit *)
Section step.
Context `{SortLib} (self : HostID).

Lemma write_edit_Ok db team seqno epno rng changes given db' :
  write_edit db self team seqno epno rng changes given = Ok db' →
  ∃ db1, team_index_ranges db1 = team_index_ranges db ∧
    (∀ r, r ∈ team_members db1 → row_origin (team_members db) team changes r) ∧
    match rng with Some r => InsertTeamIndexRange db1 team seqno r = Ok db' | None => db' = db1 end ∧
    CheckMemberIndexRangesAgainstTeam db' team changes = Ok ().
Proof.
  unfold write_edit, EditMembers. intros (db1 & He & Hw)%bind_Ok.
  apply bind_Ok in He as (db2 & He & Hb). apply edit_members_spec in He as [Hi Hr].
  unfold bumpUserMembershipVers in Hb. apply bind_Ok in Hb as (uids & _ & [= <-]).
  apply bind_Ok in Hw as (db3 & Hins & Hw). apply bind_Ok in Hw as ([] & Hc & [= <-]).
  eexists. split; [|split; [|split; [|exact Hc]]]; [| |by destruct rng; [exact Hins|inv_ok]]; done.
Qed.

Lemma latest_row_same db db' t :
  team_index_ranges db' = team_index_ranges db → latest_row db' t = latest_row db t.
Proof. unfold latest_row. by intros ->. Qed.

(** Ranges shrink and stay valid. *)
Lemma write_edit_ranges db team seqno epno rng changes given db' :
  latest_ok db → (∀ r, r ∈ link_ranges rng changes → range_ok r) →
  write_edit db self team seqno epno rng changes given = Ok db' → latest_ok db' ∧ shrunk db db'.
Proof.
  intros Hok Hlink (db1 & Hi & _ & Hins & Hc)%write_edit_Ok.
  destruct rng as [ir|].
  2:{ subst. split.
    - intros t row. rewrite (latest_row_same db) by done. apply Hok.
    - intros t row Hrow. exists row. by rewrite (latest_row_same db). }
  assert (range_ok ir) as Hir by (apply Hlink; by left).
  apply InsertTeamIndexRange_spec in Hins as (_ & Hother & Hteam & Hinc).
  assert (range_valid ir) as Hv.
  { unfold CheckMemberIndexRangesAgainstTeam, GetLatestTeamIndexRange in Hc. rewrite Hteam in Hc.
    apply bind_Ok in Hc as (h & Hc & _). apply bind_Ok in Hc as ([] & Hc & _).
    by apply Range_Validate_Ok. }
  split.
  - intros t row. destruct (decide (t = team)) as [->|Hne].
    + rewrite Hteam. by intros [= <-].
    + rewrite Hother, (latest_row_same db) by done. apply Hok.
  - intros t row Hrow. destruct (decide (t = team)) as [->|Hne].
    + eexists. split; [exact Hteam|]. simpl. rewrite (latest_row_same db) in Hinc by done.
      specialize (Hinc row Hrow). eapply Range_Includes_spec in Hinc; [by apply Hinc| |done].
      by apply (Hok team).
    + exists row. rewrite Hother, (latest_row_same db) by done. done.
Qed.

(** What the two checks establish of a local team that a link adds. *)
Lemma check_local_member_team db chng keys :
  check_local_member db chng keys = Ok () → hsHost (mId (mrMember chng)) = None →
  is_team (hsEntity (mId (mrMember chng))) →
  ∃ row tir, latest_row db (hsEntity (mId (mrMember chng))) = Some row ∧ Tir keys = Some tir ∧
    Range_Eq (irRange row) tir = Ok true.
Proof.
  intros Hl Hhost (t & Ht & Hteam). unfold check_local_member in Hl. rewrite Hhost in Hl.
  apply bind_Ok in Hl as (ktyp & _ & Hl). apply bind_Ok in Hl as ([] & _ & Hl).
  apply bind_Ok in Hl as (lsk & _ & Hl). apply bind_Ok in Hl as ([] & _ & Hl).
  apply bind_Ok in Hl as ([] & _ & Hl). apply bind_Ok in Hl as ([] & _ & Hl).
  unfold checkTeamIndexRange in Hl. rewrite Ht in Hl. cbn [mbind result_bind] in Hl. rewrite Hteam in Hl.
  cbn [negb] in Hl. apply bind_Ok in Hl as (tid & Htid & Hl).
  assert (tid = hsEntity (mId (mrMember chng))) as -> by (unfold ToTeamID in Htid; by inv_ok).
  apply bind_Ok in Hl as (o & Ho & Hl). apply bind_Ok in Hl as (tir & Htir%of_option_Ok & Hl).
  apply bind_Ok in Hl as ([rx qx] & ->%of_option_Ok & Hl). apply bind_Ok in Hl as (eq & Heq & Hl%guard_err_Ok).
  destruct eq; [|done]. apply GetLatest_Some in Ho as (row & Hrow & <- & _). eauto.
Qed.

Lemma check_member_range_team high chng keys :
  check_member_range high chng keys = Ok () → is_team (hsEntity (mId (mrMember chng))) →
  ∃ tir h, Tir keys = Some tir ∧ high = Some h ∧ Range_LessThan tir h.1 = Ok true.
Proof.
  intros Hm (t & Ht & Hteam). unfold check_member_range in Hm. rewrite Ht in Hm.
  cbn [mbind result_bind] in Hm. rewrite Hteam in Hm. cbn [negb] in Hm.
  apply bind_Ok in Hm as (tir & Htir%of_option_Ok & Hm). apply bind_Ok in Hm as (h & Hh%of_option_Ok & Hm).
  apply bind_Ok in Hm as (lt & Hlt & Hm%guard_err_Ok). destruct lt; [|done]. eauto 6.
Qed.

(** A team that an accepted link adds lies below the team it joins. *)
Lemma added_team_below db0 db' team changes chng rk :
  CheckLocalMembers db0 changes = Ok () → CheckMemberIndexRangesAgainstTeam db' team changes = Ok () →
  latest_ok db0 → latest_ok db' → (∀ r, r ∈ omap keys_tir changes → range_ok r) →
  chng ∈ changes → ImportRole (DstRole chng) = Ok rk → Typ rk ≠ RoleType_NONE →
  hsHost (mId (mrMember chng)) = None → is_team (hsEntity (mId (mrMember chng))) →
  ∃ a b, latest_row db0 (hsEntity (mId (mrMember chng))) = Some a ∧ latest_row db' team = Some b ∧
    range_lt (irRange a) (irRange b).
Proof.
  intros Hloc Hmem Hok0 Hok' Hlink Hin Hrk%GetT_imported Hne Hhost Hteam.
  destruct (forAllTeamChanges_Ok _ _ _ _ Hloc Hin Hrk Hne) as (keys & Hkeys & Hl).
  unfold CheckMemberIndexRangesAgainstTeam in Hmem. apply bind_Ok in Hmem as (high & Hhigh & Hmem).
  destruct (forAllTeamChanges_Ok _ _ _ _ Hmem Hin Hrk Hne) as (keys' & Hkeys' & Hm).
  rewrite Hkeys in Hkeys'. injection Hkeys' as <-.
  destruct (check_local_member_team _ _ _ Hl Hhost Hteam) as (a & tir & Ha & Htir & Heq).
  destruct (check_member_range_team _ _ _ Hm Hteam) as (tir' & [h q] & Htir' & -> & Hlt). simplify_eq.
  apply GetLatest_Some in Hhigh as (b & Hb & <- & <- & _).
  assert (range_ok tir) as Hz.
  { apply Hlink, list_elem_of_omap. exists chng. unfold keys_tir. by rewrite Hkeys. }
  destruct (Hok0 _ _ Ha) as [Hoa _]. destruct (Hok' _ _ Hb) as [Hob _].
  exists a, b. split_and!; [done..|]. simpl in *. apply Range_Eq_sub in Heq; [|done..].
  apply Range_LessThan_spec in Hlt as [Hlt _]; [|done..].
  eapply range_lt_shrink; [by apply Hlt|done|done].
Qed.

Lemma write_edit_edges db0 db team seqno epno rng changes given db' :
  latest_ok db0 → latest_ok db → edges_ordered db → shrunk db0 db →
  (∀ r, r ∈ link_ranges rng changes → range_ok r) → CheckLocalMembers db0 changes = Ok () →
  write_edit db self team seqno epno rng changes given = Ok db' → edges_ordered db'.
Proof.
  intros Hok0 Hok Hed Hs0 Hlink Hloc Hw.
  destruct (write_edit_ranges _ _ _ _ _ _ _ _ Hok Hlink Hw) as [Hok' Hs].
  apply write_edit_Ok in Hw as (db1 & _ & Hrows & Hins & Hmem).
  assert (team_members db' = team_members db1) as Htm.
  { destruct rng; [|by subst]. by apply InsertTeamIndexRange_spec in Hins as [? _]. }
  intros x y (r & Hr & Hhost & <- & <- & Hteam). rewrite Htm in Hr.
  destruct (Hrows r Hr) as [(r0 & Hr0 & Ht & Hm & Hh)|(-> & chng & rk & Hc & Hrk & Hne & Hm & Hh)].
  - destruct (Hed (rwMember r) (rwTeam r)) as (a & b & Ha & Hb & Hlt).
    { exists r0. split_and!; congruence. }
    by eapply edges_ordered_shrunk.
  - rewrite Hm in *. rewrite Hh in Hhost.
    destruct (added_team_below db0 db' team changes chng rk) as (a & b & Ha & Hb & Hlt); try done.
    { intros r' Hr'. apply Hlink, elem_of_app. by right. }
    apply Hs0 in Ha as (a1 & Ha1 & S1). apply Hs in Ha1 as (a2 & Ha2 & S2).
    exists a2, b. split_and!; [done..|]. eapply range_lt_shrink; [done| |done]. by etrans.
Qed.
End step.

(** ** The membership graph *)
Section graph.
Context `{SortLib} (self : HostID).

Lemma history_inv hist :
  history self range_ok hist →
  match hist with
  | [] => False
  | db :: _ => edges_ordered db ∧ ∀ db0, db0 ∈ hist → latest_ok db0 ∧ shrunk db0 db
  end.
Proof.
  induction 1 as [db Hi Hm|db0 db hist team seqno epno rng changes given db' _ [Hed Hall] H0 Hlink Hloc Hw
    |db hist db' _ [Hed Hall] Hi Hm].
  - split.
    + intros x y (r & Hr & _). rewrite Hm in Hr. by apply elem_of_nil in Hr.
    + intros db0 ->%list_elem_of_singleton. split; [|done]. intros t row. unfold latest_row.
      by rewrite Hi.
  - destruct (Hall db0 H0) as [Hok0 Hs0]. destruct (Hall db) as [Hok _]; [by left|].
    destruct (write_edit_ranges self _ _ _ _ _ _ _ _ Hok Hlink Hw) as [Hok' Hs].
    split; [by eapply (write_edit_edges self db0 db)|].
    intros d [->|Hd]%elem_of_cons; [done|]. destruct (Hall d Hd) as [? ?]. split; [done|]. by etrans.
  - assert (∀ t, latest_row db' t = latest_row db t) as Hl by (intros; by apply latest_row_same).
    destruct (Hall db) as [Hok _]; [by left|].
    assert (shrunk db db') as Hs by (intros t row Hrow; exists row; by rewrite Hl).
    split.
    + intros x y (r & Hr & Hh & Hrm & Ht & Hx). rewrite Hm in Hr.
      destruct (Hed x y) as (a & b & Ha & Hb & Hlt); [by exists r|]. by eapply edges_ordered_shrunk.
    + intros d [->|Hd]%elem_of_cons.
      * split; [|done]. intros t row. rewrite Hl. apply Hok.
      * destruct (Hall d Hd). split; [done|]. by etrans.
Qed.

(** C35: teams inside teams have no cycles.  In every state of a host's tables that edits
    produce, in any interleaving, no team is reachable from itself along memberships of
    local teams, present or past, as long as the index ranges in the links are of moderate
    size. *)
Theorem team_graph_acyclic db hist t :
  history self range_ok (db :: hist) → ¬ tc (team_edge db) t t.
Proof.
  intros [Hed Hall]%history_inv. apply edges_acyclic; [|done]. apply Hall. by left.
Qed.
End graph.

(** ** The client's commands *)
Lemma default_low_finite r : Range_Eq r NewDefaultRange = Ok true → range_ok r →
  Infinity (Low r) = false ∧ Infinity (High r) = true ∧ (value (Low r) == 1)%Q.
Proof.
  intros He [Hl Hh]. unfold Range_Eq in He.
  rewrite !Cmp_val in He by (done || (apply (bool_decide_unpack _); vm_compute; exact I)).
  cbn [mbind result_bind] in He. unfold rat_val in He. change (Infinity (Low NewDefaultRange)) with false in He.
  change (Infinity (High NewDefaultRange)) with true in He.
  destruct (Infinity (Low r)); simpl in He; [done|].
  destruct (value (Low r) ?= value (NewRational [1%Z] 0))%Q eqn:Hc; simpl in He; try done.
  apply Qeq_alt in Hc. destruct (Infinity (High r)); [|done]. split_and!; [done..|]. by rewrite Hc.
Qed.

(** The client only shrinks ranges.  Every command that changes a team's index range, when
    it computes a new range, computes one inside the current range, so that the server's
    test of inclusion does not refuse it. *)
Theorem index_commands_shrink r r' :
  range_ok r →
  (∃ high, rational_ok high ∧ SetIndexRangeHigh high r = Ok r') ∨
  (∃ low, rational_ok low ∧ SetIndexRangeLow low r = Ok r') ∨
  (∃ rng, range_ok rng ∧ SetIndexRange rng r = Ok r') ∨
  LowerIndexRange r = Ok r' ∨ RaiseIndexRange r = Ok r' →
  range_sub r' r.
Proof.
  intros [Hl Hh] [(high & Hok & Hc)|[(low & Hok & Hc)|[(rng & Hok & Hc)|[Hc|Hc]]]].
  - unfold SetIndexRangeHigh in Hc. rewrite Cmp_val in Hc by done. inv_ok. split; [done|].
    unfold val_le. by destruct (val_compare _ _).
  - unfold SetIndexRangeLow in Hc. rewrite Cmp_val in Hc by done. inv_ok. split; [|done].
    unfold val_le. simpl. rewrite val_compare_opp. by destruct (val_compare _ _).
  - unfold SetIndexRange in Hc. inv_ok.
    match goal with H : Range_Includes _ _ = Ok ?b |- _ => destruct b; [|done];
      apply Range_Includes_spec in H as [H _]; [by apply H|by split|done] end.
  - unfold LowerIndexRange in Hc. apply bind_Ok in Hc as ([] & He & Hc); [|by apply Range_Rsh_sub].
    injection Hc as <-. destruct (default_low_finite r He) as (Hi & Hi' & Hv); [by split|].
    split; [done|]. unfold rat_val, val_le. rewrite Hi'. done.
  - unfold RaiseIndexRange in Hc. apply bind_Ok in Hc as ([] & He & Hc); [|by apply Range_Lsh_sub].
    injection Hc as <-. destruct (default_low_finite r He) as (Hi & Hi' & Hv); [by split|].
    split; [|done]. unfold rat_val, val_le. rewrite Hi. simpl. apply Qle_alt. by rewrite Hv.
Qed.

Lemma index_commands_shrink_witness :
  range_sub (mkRationalRange (NewRational [1%Z] 0) (NewRational [32%Z] 0)) NewDefaultRange.
Proof.
  apply (index_commands_shrink NewDefaultRange).
  - apply (bool_decide_unpack _). vm_compute. exact I.
  - right. right. right. left. vm_compute. reflexivity.
Defined.
