(* ===== verification/TeamIndexExamples.v ===== *)
(** * Teams inside teams: concrete runs

    A host with two teams, one of which joins the other; and a run in which the two
    teams join each other, with index ranges whose exponents make [Rational.Cmp]
    overflow. *)
From Stdlib Require Import QArith.QArith.
From S2P Require Import Prelude Rational Role Roster RosterAuth RosterKeys TeamRoster TeamBoxes TeamIndex.

#[local] Existing Instance merge_sort_func.

Definition tm_host : HostID := [7%Z].
Definition tm_user : EntityID := EntityType_User :: replicate 32 1%Z.
Definition tm_team (n : Z) : TeamID := EntityType_NamedTeam :: replicate 32 n.
Definition tm_key (n : Z) : bytes := EntityType_PTKVerify :: replicate 32 n.
Definition tm_fp : bytes := replicate 32 0%Z.

Definition tm_keys (n : Z) (tir : option proto_RationalRange) : MemberKeys :=
  NewMemberKeysWithTeam (mkTeamMemberKeys (tm_key n) tm_fp 1 None tir).
Definition tm_change (e : EntityID) (dst : RoleKey) (keys : MemberKeys) : proto_MemberRole :=
  mkMemberRole (Role.Export dst) (mkMember (mkFQEntityInHostScope e None) (Role.Export OwnerRole) keys).
Definition tm_owner : proto_MemberRole := tm_change tm_user OwnerRole (tm_keys 1 None).
Definition tm_join (n : Z) (tir : proto_RationalRange) : proto_MemberRole :=
  tm_change (tm_team n) MemberRole (tm_keys n (Some tir)).

Definition tm_row (e : EntityID) (n : Z) : SharedKeyRow := mkSharedKeyRow e OwnerRole 1 tm_fp (tm_key n).
Definition tm_db0 : TeamDb :=
  mkTeamDb [] [] [tm_row tm_user 1; tm_row (tm_team 2) 2; tm_row (tm_team 3) 3] ∅ ∅.

Definition tm_run (r : result TeamDb) : TeamDb := match r with Ok db => db | Err _ => tm_db0 end.
Lemma tm_run_Ok r : is_ok r = true → r = Ok (tm_run r).
Proof. by destruct r. Qed.

(** Team [n] is founded with a range; team [m] joins team [n]. *)
Definition tm_found (db : TeamDb) (n : Z) (rng : proto_RationalRange) : result TeamDb :=
  write_edit db tm_host (tm_team n) 1 1 (Some rng) [tm_owner] ∅.
Definition tm_add (db : TeamDb) (m n : Z) (tir : proto_RationalRange) : result TeamDb :=
  write_edit db tm_host (tm_team n) 2 1 None [tm_join m tir] ∅.

Section run.
Context (ok : proto_RationalRange → Prop) (r2 r3 : proto_RationalRange) (Hok2 : ok r2) (Hok3 : ok r3).

Lemma tm_found_step db hist n rng db' :
  history tm_host ok (db :: hist) → ok rng → CheckLocalMembers db [tm_owner] = Ok () →
  tm_found db n rng = Ok db' → history tm_host ok (db' :: db :: hist).
Proof.
  intros Hh Hr Hl Hf. apply (hist_edit _ _ db db hist (tm_team n) 1 1 (Some rng) [tm_owner] ∅); try done;
    [by left|].
  intros r. unfold link_ranges. simpl. by intros ->%list_elem_of_singleton.
Qed.

Lemma tm_add_step db hist m n tir db' :
  history tm_host ok (db :: hist) → ok tir → CheckLocalMembers db [tm_join m tir] = Ok () →
  tm_add db m n tir = Ok db' → history tm_host ok (db' :: db :: hist).
Proof.
  intros Hh Hr Hl Hf. apply (hist_edit _ _ db db hist (tm_team n) 2 1 None [tm_join m tir] ∅); try done;
    [by left|].
  intros r. unfold link_ranges. simpl. by intros ->%list_elem_of_singleton.
Qed.

Definition tm_db1 : TeamDb := tm_run (tm_found tm_db0 2 r2).
Definition tm_db2 : TeamDb := tm_run (tm_found tm_db1 3 r3).
Definition tm_db3 : TeamDb := tm_run (tm_add tm_db2 2 3 r2).

(** The run succeeds when these evaluations do. *)
Definition tm_run_ok : bool :=
  is_ok (CheckLocalMembers tm_db0 [tm_owner]) && is_ok (tm_found tm_db0 2 r2) &&
  is_ok (CheckLocalMembers tm_db1 [tm_owner]) && is_ok (tm_found tm_db1 3 r3) &&
  is_ok (CheckLocalMembers tm_db2 [tm_join 2 r2]) && is_ok (tm_add tm_db2 2 3 r2).

Lemma unit_Ok (r : result ()) : is_ok r = true → r = Ok ().
Proof. by destruct r as [[]|]. Qed.

Lemma tm_history : tm_run_ok = true → history tm_host ok [tm_db3; tm_db2; tm_db1; tm_db0].
Proof.
  unfold tm_run_ok. rewrite !andb_true_iff. intros [[[[[H1 H2] H3] H4] H5] H6].
  apply (tm_add_step tm_db2 [tm_db1; tm_db0] 2 3 r2 tm_db3); [|exact Hok2|exact (unit_Ok _ H5)|exact (tm_run_Ok _ H6)].
  apply (tm_found_step tm_db1 [tm_db0] 3 r3 tm_db2); [|exact Hok3|exact (unit_Ok _ H3)|exact (tm_run_Ok _ H4)].
  apply (tm_found_step tm_db0 [] 2 r2 tm_db1); [|exact Hok2|exact (unit_Ok _ H1)|exact (tm_run_Ok _ H2)].
  by apply hist_start.
Qed.
End run.

(** ** A run within bounds *)
Definition tm_low : proto_RationalRange := mkRationalRange (NewRational [1%Z] 0) (NewRational [2%Z] 0).
Definition tm_high : proto_RationalRange := mkRationalRange (NewRational [3%Z] 0) NewRationalInfinity.

Lemma team_graph_acyclic_witness :
  ¬ tc (team_edge (tm_db3 tm_low tm_high)) (tm_team 2) (tm_team 2).
Proof.
  eapply (team_graph_acyclic tm_host). apply (tm_history range_ok).
  - apply (bool_decide_unpack _). vm_compute. exact I.
  - apply (bool_decide_unpack _). vm_compute. exact I.
  - vm_compute. reflexivity.
Defined.

(** ** Overflow

    [big] is [256 ^ (2 ^ 63 - 2)]; [wrapped], with two bytes at the same exponent, has a
    [MaxPow] of [2 ^ 63], which wraps around to the least [int]. *)
Definition big : proto_Rational := NewRational [1%Z] (2 ^ 63 - 2).
Definition wrapped : proto_Rational := NewRational [5%Z; 9%Z] (2 ^ 63 - 2).
Definition one : proto_Rational := NewRational [1%Z] 0.
Definition range_big : proto_RationalRange := mkRationalRange big big.
Definition range_wrapped : proto_RationalRange := mkRationalRange wrapped one.

Definition tm_db4 : TeamDb :=
  tm_run (tm_add (tm_db3 range_big range_wrapped) 3 2 range_wrapped).

Lemma tm_edge m n db :
  existsb (λ r, bool_decide (rwHost r = None) && bool_decide (rwMember r = tm_team m) &&
                bool_decide (rwTeam r = tm_team n) && rwActive r) (team_members db) = true →
  team_edge db (tm_team m) (tm_team n).
Proof.
  intros (r & Hr%list_elem_of_In & Hb)%existsb_exists. rewrite !andb_true_iff, !bool_decide_eq_true in Hb.
  destruct Hb as [[[Hh Hm] Hn] _]. exists r. split_and!; try done. by exists EntityType_NamedTeam.
Qed.

(** C40: overflow breaks the order.  At the end of the exponents [Cmp] is no order, it puts
    [big] below [wrapped], [wrapped] below 1 and 1 below [big]; and with these numbers in their ranges
    two teams can become members of each other, every check of the server passing. *)
Theorem index_overflow_admits_cycle :
  (Cmp big wrapped = Ok (-1)%Z ∧ Cmp wrapped one = Ok (-1)%Z ∧ Cmp one big = Ok (-1)%Z) ∧
  ∃ db hist, history tm_host (λ _, True) (db :: hist) ∧
    team_edge db (tm_team 2) (tm_team 3) ∧ team_edge db (tm_team 3) (tm_team 2).
Proof.
  split; [split_and!; vm_compute; reflexivity|].
  exists tm_db4, [tm_db3 range_big range_wrapped; tm_db2 range_big range_wrapped;
                  tm_db1 range_big; tm_db0].
  split_and!.
  - apply (tm_add_step _ (tm_db3 range_big range_wrapped) [tm_db2 range_big range_wrapped;
      tm_db1 range_big; tm_db0] 3 2 range_wrapped tm_db4); [|exact I| |].
    + apply (tm_history (λ _, True) range_big range_wrapped I I). vm_compute. reflexivity.
    + apply unit_Ok. vm_compute. reflexivity.
    + apply tm_run_Ok. vm_compute. reflexivity.
  - apply tm_edge. vm_compute. reflexivity.
  - apply tm_edge. vm_compute. reflexivity.
Qed.
