(* ===== verification/Sigs.v ===== *)
(** * Signatures ([lib/core/sigs.go], [lib/core/sigs2.go])

    Public keys of entities, signatures over encoded objects, and stacked
    signatures: each signature of a stack covers the object together with the
    signatures before it.

    Ed25519, ECDSA, ASN.1 and the MessagePack encoder are third-party code: the
    fields of the classes [Crypto] and [Verifiable].  What is signed is an
    encoding that [Snowp.AssertCanonicalMsgpack] has accepted. *)
From S2P Require Import Prelude Snowp MerkleTypes Role Roster TeamRoster.

(** ** Signatures ([proto/lib/common.go]) *)
Abbreviation SignatureType := Z.
Definition SignatureType_EDDSA : SignatureType := 0.
Definition SignatureType_ECDSA : SignatureType := 1.
Record Signature := mkSignature { sig_T : SignatureType; sig_F0 : option bytes; sig_F1 : option bytes }.

#[global] Instance Signature_eq_dec : EqDecision Signature.
Proof. solve_decision. Defined.

Definition is_nil {A} (o : option A) : bool := match o with None => true | Some _ => false end.

Definition Signature_GetT (s : Signature) : result SignatureType :=
  _ ← guard_err ((sig_T s =? SignatureType_EDDSA)%Z && is_nil (sig_F0 s))
        (GoError "unexpected nil case for F_0__");
  _ ← guard_err ((sig_T s =? SignatureType_ECDSA)%Z && is_nil (sig_F1 s))
        (GoError "unexpected nil case for F_1__");
  Ok (sig_T s).
Definition Eddsa (s : Signature) : result bytes :=
  v ← of_option GoPanic (sig_F0 s);
  _ ← guard_err (negb (sig_T s =? SignatureType_EDDSA)%Z) GoPanic; Ok v.
Definition Ecdsa (s : Signature) : result bytes :=
  v ← of_option GoPanic (sig_F1 s);
  _ ← guard_err (negb (sig_T s =? SignatureType_ECDSA)%Z) GoPanic; Ok v.
Definition NewSignatureWithEddsa (v : bytes) : Signature := mkSignature SignatureType_EDDSA (Some v) None.
Definition NewSignatureWithEcdsa (v : bytes) : Signature := mkSignature SignatureType_ECDSA None (Some v).

(** ** What is third-party *)
Class Crypto := {
  ed25519_verify : bytes → bytes → bytes → bool; (* a 32-byte key, a message, a signature *)
  ed25519_Sign : bytes → bytes → bytes;          (* a private key, a message *)
  ed25519_Public : bytes → bytes;                (* the public half of a private key *)
  EcdsaKey : Type;
  UnmarshalCompressed : bytes → option EcdsaKey; (* a P-256 point *)
  ecdsa_Verify : EcdsaKey → bytes → Z * Z → bool;
  asn1_Unmarshal : bytes → result (Z * Z);
  Sum512_256 : bytes → bytes;
  TypeUniqueID_Encode : Z → result bytes
}.

(** An object that is encoded to be signed: its type's unique id, and what the
    MessagePack encoder makes of it. *)
Class Verifiable (T : Type) := {
  GetTypeUniqueID : T → Z;
  Encode : T → result bytes
}.

(** An object that carries its own signatures. *)
Class StackedVerifiable (T : Type) `{Verifiable T} := {
  GetSignatures : T → list Signature;
  SetSignatures : T → list Signature → T
}.

(** What verifies a signature: a public key, or a suite that holds one. *)
Class Verifier (K : Type) := Verifier_Verify : ∀ T (HT : Verifiable T), K → Signature → T → result ().
Arguments Verifier_Verify {K _ T HT} _ _ _.

(** What is hashed is a canonical encoding ([lib/core/crypto.go]). *)
Definition encodeAndCheck (enc : result bytes) : result bytes :=
  b ← enc; _ ← AssertCanonicalMsgpack b; Ok b.

(** ** Public keys *)
Inductive EntityPublic :=
  | EntityPublicEd25519 (e : EntityID)
  | EntityPublicECDSA (e : EntityID).

#[global] Instance EntityPublic_eq_dec : EqDecision EntityPublic.
Proof. solve_decision. Defined.

Definition GetEntityID (e : EntityPublic) : EntityID :=
  match e with EntityPublicEd25519 e | EntityPublicECDSA e => e end.

Definition ImportEntityPublic (e : EntityID) : result EntityPublic :=
  _ ← guard_err (len e =? 0)%Z (PublicKeyError "empty entity id");
  typ ← EntityID_Type e;
  if IsEd25519 typ then Ok (EntityPublicEd25519 e)
  else if (typ =? EntityType_Yubi)%Z then Ok (EntityPublicECDSA e)
  else Err (PublicKeyError "entity type not supported").

(** [None] is the nil key. *)
Definition PublicKeyEd25519 (e : EntityID) : result (option bytes) :=
  t ← EntityID_Type e;
  if IsEd25519 t then Ok (Some (drop 1 e)) else Ok None.

Section crypto.
Context `{Crypto}.

(** [ed25519.Verify] panics on a key that has not 32 bytes. *)
Definition ed25519_Verify (key msg sig : bytes) : result bool :=
  if (len key =? 32)%Z then Ok (ed25519_verify key msg sig) else Err GoPanic.

Definition EncodeVerifiableToBytes `{Verifiable T} (obj : T) : result bytes :=
  prfx ← TypeUniqueID_Encode (GetTypeUniqueID obj);
  sffx ← Encode obj;
  _ ← AssertCanonicalMsgpack sffx;
  Ok (prfx ++ sffx).

Definition VerifyWithEd25519Public `{Verifiable T} (key : bytes) (s : Signature) (obj : T) : result () :=
  typ ← Signature_GetT s;
  _ ← guard_err (negb (typ =? SignatureType_EDDSA)%Z) (VerifyError "wrong signature type");
  msg ← EncodeVerifiableToBytes obj;
  sig ← Eddsa s;
  ok ← ed25519_Verify key msg sig;
  guard_err (negb ok) (VerifyError "signature verification failed").

Definition ECDSASigPayload `{Verifiable T} (obj : T) : result bytes :=
  msg ← EncodeVerifiableToBytes obj;
  Ok (Sum512_256 msg).

Definition VerifyWithECDSAPublic `{Verifiable T} (key : EcdsaKey) (s : Signature) (obj : T) : result () :=
  t ← Signature_GetT s;
  _ ← guard_err (negb (t =? SignatureType_ECDSA)%Z) (VerifyError "wrong type of signature; wanted ECDSA");
  rawSig ← Ecdsa s;
  sig ← asn1_Unmarshal rawSig;
  data ← ECDSASigPayload obj;
  guard_err (negb (ecdsa_Verify key data sig)) (VerifyError "sig check failed").

Definition ExportToECDSA (y : EntityID) : result EcdsaKey :=
  t ← EntityID_Type y;
  _ ← guard_err (negb (t =? EntityType_Yubi)%Z) (EntityError "wrong key type");
  of_option (EntityError "cannot decode compressed public key") (UnmarshalCompressed (drop 1 y)).

(** [crypto.PublicKey]: an Ed25519 or an ECDSA key. *)
Definition ExportToPublicKey (d : EntityID) : result (bytes + EcdsaKey) :=
  t ← EntityID_Type d;
  _ ← guard_err (negb (len d =? EntityType_Len t)%Z) (EntityError "wrong key length");
  if IsEd25519 t then Ok (inl (drop 1 d))
  else if (t =? EntityType_Yubi)%Z then k ← ExportToECDSA d; Ok (inr k)
  else Err (EntityError "cannot export unknown type to public key").

Definition Verify `{Verifiable T} (e : EntityPublic) (s : Signature) (obj : T) : result () :=
  match e with
  | EntityPublicEd25519 e =>
      key ← PublicKeyEd25519 e;
      key ← of_option (VerifyError "cannot get public verification key") key;
      VerifyWithEd25519Public key s obj
  | EntityPublicECDSA e =>
      pk ← ExportToPublicKey e;
      match pk with
      | inr k => VerifyWithECDSAPublic k s obj
      | inl _ => Err (VerifyError "cannot verify with given public key")
      end
  end.

(** ** Private keys *)
Record EntityPrivateEd25519 := mkEntityPrivateEd25519 { pk_typ : EntityType; pk_priv : bytes; pk_pub : bytes }.

Definition NewEntityPrivateEd25519 (typ : EntityType) (priv : bytes) : EntityPrivateEd25519 :=
  mkEntityPrivateEd25519 typ priv (ed25519_Public priv).

Definition EntityPrivate_EntityPublic (e : EntityPrivateEd25519) : result EntityPublic :=
  id ← MakeEntityID (pk_typ e) (pk_pub e);
  Ok (EntityPublicEd25519 id).

Definition Sign `{Verifiable T} (e : EntityPrivateEd25519) (obj : T) : result Signature :=
  msg ← EncodeVerifiableToBytes obj;
  let rawSig := ed25519_Sign (pk_priv e) msg in
  _ ← guard_err (negb (len rawSig =? 64)%Z) (SignatureError "wrong size signature output");
  Ok (NewSignatureWithEddsa rawSig).

#[global] Instance EntityPublic_Verifier : Verifier EntityPublic := @Verify.

(** ** Stacked signatures

    The object is changed in place while its signatures are made or checked: the
    functions return what the object is in the end.  The deferred
    [SetSignatures] puts its signatures back. *)
Section stacked.
Context `{StackedVerifiable T}.

Section verify.
Context `{Verifier K}.

Fixpoint verify_stack (s : T) (stack : list Signature) (todo : list (Signature * K)) : T * result () :=
  match todo with
  | [] => (s, Ok ())
  | (sig, key) :: todo =>
      let s := SetSignatures s stack in
      match Verifier_Verify key sig s with
      | Err e => (s, Err e)
      | Ok _ => verify_stack s (stack ++ [sig]) todo
      end
  end.

Definition VerifyStackedSignature (s : T) (keys : list K) : T * result () :=
  let sigs := GetSignatures s in
  let '(s, res) :=
    if (len keys =? 0)%Z then (s, Err (VerifyError "cannot verify with 0 keys"))
    else if negb (len sigs =? len keys)%Z then (s, Err (VerifyError "wrong number of keys"))
    else verify_stack s [] (zip sigs keys) in
  (SetSignatures s sigs, res).
End verify.

Fixpoint sign_stack (s : T) (stack : list Signature) (keys : list EntityPrivateEd25519) : T * result () :=
  match keys with
  | [] => (s, Ok ())
  | key :: keys =>
      match Sign key s with
      | Err e => (s, Err e)
      | Ok sig =>
          let stack := stack ++ [sig] in
          sign_stack (SetSignatures s stack) stack keys
      end
  end.

Definition SignStacked (s : T) (keys : list EntityPrivateEd25519) : T * result () :=
  sign_stack (SetSignatures s []) [] keys.

(** The laws of the accessors. *)
Class StackedLaws := {
  get_set : ∀ s l, GetSignatures (SetSignatures s l) = l;
  set_set : ∀ s l l', SetSignatures (SetSignatures s l) l' = SetSignatures s l';
  set_get : ∀ s, SetSignatures s (GetSignatures s) = s
}.

(** ** Facts *)
Section verify_facts.
Context `{Verifier K}.

(** The signatures of a stack, each over the object with those before it. *)
Inductive stack_verified (s : T) : list Signature → list (Signature * K) → Prop :=
  | stack_nil stack : stack_verified s stack []
  | stack_cons stack sig key todo :
      Verifier_Verify key sig (SetSignatures s stack) = Ok () →
      stack_verified s (stack ++ [sig]) todo → stack_verified s stack ((sig, key) :: todo).

Context `{!StackedLaws}.

Lemma verify_stack_ok s stack todo :
  (verify_stack s stack todo).2 = Ok () ↔ stack_verified s stack todo.
Proof.
  assert (∀ s' l, (∀ l', SetSignatures s' l' = SetSignatures s l') →
    (verify_stack s' l todo).2 = Ok () ↔ stack_verified s l todo) as G; [|by apply G].
  induction todo as [|[sig key] todo IH]; intros s' l Hs; simpl.
  { split; [constructor|done]. }
  rewrite Hs. destruct (Verifier_Verify key sig (SetSignatures s l)) as [[]|e] eqn:E; simpl.
  - rewrite IH by (intros; apply set_set). split; [by constructor|]. by inversion 1.
  - split; [done|]. inversion 1. congruence.
Qed.

Lemma verify_stacked_ok s keys :
  (VerifyStackedSignature s keys).2 = Ok () ↔
  keys ≠ [] ∧ length (GetSignatures s) = length keys ∧ stack_verified s [] (zip (GetSignatures s) keys).
Proof.
  unfold VerifyStackedSignature, len.
  destruct (Z.eqb_spec (Z.of_nat (length keys)) 0) as [E|E]; simpl.
  { assert (keys = []) as -> by (by apply nil_length_inv; lia). naive_solver. }
  assert (keys ≠ []) by (intros ->; simpl in E; lia).
  destruct (Z.eqb_spec (Z.of_nat (length (GetSignatures s))) (Z.of_nat (length keys))) as [E'|E']; simpl.
  - rewrite <- verify_stack_ok. destruct (verify_stack _ _ _) as [s' r]; simpl.
    split; [intros ->|tauto]. repeat split; try done. lia.
  - split; [done|]. intros (_ & ? & _). lia.
Qed.

Lemma verify_stack_restored s stack todo l :
  SetSignatures (verify_stack s stack todo).1 l = SetSignatures s l.
Proof.
  revert s stack. induction todo as [|[sig key] todo IH]; intros s stack; simpl; [done|].
  destruct (Verifier_Verify _ _ _); simpl; [|apply set_set]. by rewrite IH, set_set.
Qed.

(** Checking the signatures leaves the object as it was. *)
Lemma VerifyStackedSignature_restores s keys : (VerifyStackedSignature s keys).1 = s.
Proof.
  unfold VerifyStackedSignature.
  destruct (len keys =? 0)%Z; [apply set_get|]. destruct (negb _); [apply set_get|].
  pose proof (verify_stack_restored s [] (zip (GetSignatures s) keys) (GetSignatures s)) as R.
  destruct (verify_stack _ _ _) as [s' r]; simpl in *. by rewrite R, set_get.
Qed.

Lemma stack_verified_set s l stack todo :
  stack_verified s stack todo → stack_verified (SetSignatures s l) stack todo.
Proof. induction 1; constructor; [by rewrite set_set|done]. Qed.
End verify_facts.

Context `{!StackedLaws}.

(** What Ed25519 promises: the key pair's signature verifies, and has 64 bytes. *)
Class SignLaws := {
  sign_verifies : ∀ priv msg, ed25519_verify (ed25519_Public priv) msg (ed25519_Sign priv msg) = true;
  length_Public : ∀ priv, length (ed25519_Public priv) = 32%nat
}.

Lemma Sign_Verify `{!SignLaws} typ priv ep sig (obj : T) :
  IsEd25519 typ = true → EntityPrivate_EntityPublic (NewEntityPrivateEd25519 typ priv) = Ok ep →
  Sign (NewEntityPrivateEd25519 typ priv) obj = Ok sig → Verify ep sig obj = Ok ().
Proof.
  intros Ht Hep Hs. unfold EntityPrivate_EntityPublic, MakeEntityID in Hep. inv_ok.
  unfold Sign in Hs. apply bind_Ok in Hs as (msg & Em & Hs).
  assert (wrap8 typ = typ) as Hw.
  { unfold IsEd25519 in Ht. apply bool_decide_eq_true in Ht.
    repeat (apply elem_of_cons in Ht as [->|Ht]; [reflexivity|]). by apply elem_of_nil in Ht. }
  inv_ok. unfold PublicKeyEd25519, EntityID_Type, index, len. simpl.
  rewrite Hw, Ht. simpl. unfold VerifyWithEd25519Public. simpl. rewrite Em. simpl.
  unfold ed25519_Verify, len. rewrite drop_0, length_Public. simpl. by rewrite sign_verifies.
Qed.

(** What a private key signs, the verifier accepts. *)
Definition signs_for `{Verifier K} (k : EntityPrivateEd25519) (v : K) : Prop :=
  ∀ (obj : T) sig, Sign k obj = Ok sig → Verifier_Verify v sig obj = Ok ().

Lemma sign_stack_for `{Verifier K} s stack keys (vs : list K) s' :
  Forall2 signs_for keys vs →
  sign_stack (SetSignatures s stack) stack keys = (s', Ok ()) →
  ∃ new, s' = SetSignatures s (stack ++ new) ∧ length new = length keys ∧
         stack_verified s stack (zip new vs).
Proof.
  intros Hk. revert stack. induction Hk as [|k v keys vs Hk Hks IH]; intros stack Hs; simpl in Hs.
  { simplify_eq. exists []. rewrite app_nil_r. repeat split; constructor. }
  destruct (Sign k _) as [sig|e] eqn:E; [|done]. rewrite set_set in Hs.
  apply IH in Hs as (new & -> & Hl & Hv). exists (sig :: new).
  rewrite <- app_assoc. split; [done|]. split; [by simpl; f_equal|]. simpl. constructor; [by apply Hk|done].
Qed.

(** A key pair of a type whose keys are Ed25519 keys. *)
Definition signer_ok (k : EntityPrivateEd25519) (ep : EntityPublic) : Prop :=
  ∃ typ priv, k = NewEntityPrivateEd25519 typ priv ∧ IsEd25519 typ = true ∧
              EntityPrivate_EntityPublic k = Ok ep.

Lemma signer_ok_signs `{!SignLaws} k ep : signer_ok k ep → signs_for k ep.
Proof. intros (typ & priv & -> & Ht & Hep) obj sig. by apply Sign_Verify. Qed.

Lemma sign_stack_verified `{!SignLaws} s stack keys eps s' :
  Forall2 signer_ok keys eps →
  sign_stack (SetSignatures s stack) stack keys = (s', Ok ()) →
  ∃ new, s' = SetSignatures s (stack ++ new) ∧ length new = length keys ∧
         stack_verified s stack (zip new eps).
Proof. intros Hk. apply sign_stack_for. eapply Forall2_impl; [done|apply signer_ok_signs]. Qed.

Lemma sign_stacked_for `{Verifier K} s keys (vs : list K) s' :
  keys ≠ [] → Forall2 signs_for keys vs →
  SignStacked s keys = (s', Ok ()) → VerifyStackedSignature s' vs = (s', Ok ()).
Proof.
  intros Hne Hk Hs. unfold SignStacked in Hs.
  destruct (sign_stack_for s [] keys vs s' Hk Hs) as (new & -> & Hl & Hv).
  rewrite (surjective_pairing (VerifyStackedSignature _ _)), VerifyStackedSignature_restores.
  f_equal. pose proof (Forall2_length _ _ _ Hk). apply verify_stacked_ok. rewrite get_set. cbn [app].
  split; [intros ->; by destruct keys|]. split; [lia|].
  by apply stack_verified_set.
Qed.

(** A stack of signatures made with one or more Ed25519 keys is accepted when it is
    checked with their public keys in the same order, and checking it leaves the object unchanged. *)
Theorem stacked_sign_verify `{!SignLaws} s keys eps s' :
  keys ≠ [] → Forall2 signer_ok keys eps →
  SignStacked s keys = (s', Ok ()) → VerifyStackedSignature s' eps = (s', Ok ()).
Proof. intros Hne Hk. apply sign_stacked_for; [done|]. eapply Forall2_impl; [done|apply signer_ok_signs]. Qed.
End stacked.
End crypto.
