(* ===== verification/HostChain.v ===== *)
(** * Host chains ([lib/core/hostchain.go])

    A host's sigchain sets up and revokes the keys of the host: the host keys
    that sign the chain, the signers of its Merkle roots and of its public zone,
    and its TLS CAs.  A client plays the chain's links from the first one, and
    compares the chain with the one it saw before.

    The decoder of a link's inner part, the encoders, X.509 parsing and the
    sorting of [sort.Slice] are third-party code, the fields of [HostchainLib].
    The two maps of a [Hostchain] are finite maps; [Play] writes only to maps
    that its copy has made, so a nil map and an empty one do not differ. *)
From S2P Require Import Prelude Snowp MerkleTypes Role Roster TeamRoster Sigs.

(** ** Protocol records ([proto/lib/hostchain.go], [proto/lib/chains.go]) *)
Record BaseChainer := mkBaseChainer {
  bcSeqno : Z; bcPrev : option bytes; bcRoot : TreeRoot; bcTime : Z
}.
Record HostTLSCA := mkHostTLSCA { caId : EntityID; caCert : bytes }.

Abbreviation HostchainChangeType := Z.
Definition HostchainChangeType_None : HostchainChangeType := 0.
Definition HostchainChangeType_Revoke : HostchainChangeType := 1.
Definition HostchainChangeType_Key : HostchainChangeType := 2.
Definition HostchainChangeType_TLSCA : HostchainChangeType := 3.
Record HostchainChangeItem := mkHostchainChangeItem {
  ci_T : HostchainChangeType;
  ci_F1 : option EntityID;
  ci_F2 : option EntityID;
  ci_F3 : option HostTLSCA
}.
Definition ChangeItem_GetT (h : HostchainChangeItem) : result HostchainChangeType :=
  _ ← guard_err ((ci_T h =? HostchainChangeType_Revoke)%Z && is_nil (ci_F1 h))
        (GoError "unexpected nil case for F_1__");
  _ ← guard_err ((ci_T h =? HostchainChangeType_Key)%Z && is_nil (ci_F2 h))
        (GoError "unexpected nil case for F_2__");
  _ ← guard_err ((ci_T h =? HostchainChangeType_TLSCA)%Z && is_nil (ci_F3 h))
        (GoError "unexpected nil case for F_3__");
  Ok (ci_T h).
Definition Revoke (h : HostchainChangeItem) : result EntityID :=
  v ← of_option GoPanic (ci_F1 h);
  _ ← guard_err (negb (ci_T h =? HostchainChangeType_Revoke)%Z) GoPanic; Ok v.
Definition ItemKey (h : HostchainChangeItem) : result EntityID :=
  v ← of_option GoPanic (ci_F2 h);
  _ ← guard_err (negb (ci_T h =? HostchainChangeType_Key)%Z) GoPanic; Ok v.
Definition Tlsca (h : HostchainChangeItem) : result HostTLSCA :=
  v ← of_option GoPanic (ci_F3 h);
  _ ← guard_err (negb (ci_T h =? HostchainChangeType_TLSCA)%Z) GoPanic; Ok v.
Definition NewHostchainChangeItemWithRevoke (v : EntityID) : HostchainChangeItem :=
  mkHostchainChangeItem HostchainChangeType_Revoke (Some v) None None.
Definition NewHostchainChangeItemWithKey (v : EntityID) : HostchainChangeItem :=
  mkHostchainChangeItem HostchainChangeType_Key None (Some v) None.
Definition NewHostchainChangeItemWithTlsca (v : HostTLSCA) : HostchainChangeItem :=
  mkHostchainChangeItem HostchainChangeType_TLSCA None None (Some v).

Record HostchainChange := mkHostchainChange {
  hcChainer : BaseChainer; hcHost : HostID; hcSigner : HostID; hcChanges : list HostchainChangeItem
}.

Definition HostchainLinkType_Change : Z := 1.
Record HostchainLinkInner := mkHostchainLinkInner { hli_T : Z; hli_F1 : option HostchainChange }.
Definition HostchainLinkInner_GetT (h : HostchainLinkInner) : result Z :=
  _ ← guard_err ((hli_T h =? HostchainLinkType_Change)%Z && is_nil (hli_F1 h))
        (GoError "unexpected nil case for F_1__");
  Ok (hli_T h).
Definition HostchainLinkInner_Change (h : HostchainLinkInner) : result HostchainChange :=
  v ← of_option GoPanic (hli_F1 h);
  _ ← guard_err (negb (hli_T h =? HostchainLinkType_Change)%Z) GoPanic; Ok v.

Record HostchainLinkOuterV1 := mkHostchainLinkOuterV1 { ho1Inner : bytes; ho1Signatures : list Signature }.
Definition HostchainLinkVersion_V1 : Z := 1.
Record HostchainLinkOuter := mkHostchainLinkOuter { ho_V : Z; ho_F1 : option HostchainLinkOuterV1 }.
Definition HostchainLinkOuter_GetV (h : HostchainLinkOuter) : result Z :=
  _ ← guard_err ((ho_V h =? HostchainLinkVersion_V1)%Z && is_nil (ho_F1 h))
        (GoError "unexpected nil case for F_1__");
  Ok (ho_V h).
Definition HostchainLinkOuter_V1 (h : HostchainLinkOuter) : result HostchainLinkOuterV1 :=
  v ← of_option GoPanic (ho_F1 h);
  _ ← guard_err (negb (ho_V h =? HostchainLinkVersion_V1)%Z) GoPanic; Ok v.
Definition NewHostchainLinkOuterWithV1 (v : HostchainLinkOuterV1) : HostchainLinkOuter :=
  mkHostchainLinkOuter HostchainLinkVersion_V1 (Some v).

Record KeyAtSeqno := mkKeyAtSeqno { kaSeqno : Z; kaEid : EntityID }.
Record HostTLSCAAtSeqno := mkHostTLSCAAtSeqno { haSeqno : Z; haCa : HostTLSCA }.
Record HostchainState := mkHostchainState {
  stSeqno : Z; stHost : HostID; stTime : Z; stTail : bytes;
  stKeys : list KeyAtSeqno; stCas : list HostTLSCAAtSeqno; stAddr : bytes
}.
(** Go's zero value. *)
Definition zero_HostID : HostID := replicate 33 0%Z.
Definition zero_HostchainState : HostchainState :=
  mkHostchainState 0 zero_HostID 0 zero_hash [] [] [].

Definition EntityType_Host : EntityType := 2.
Definition EntityType_HostMerkleSigner : EntityType := 10.
Definition EntityType_HostTLSCA : EntityType := 11.
Definition EntityType_HostMetadataSigner : EntityType := 12.
Definition HostchainEldestSeqno : Z := 1.
Definition Seqno_IsValid (s : Z) : bool := (s >=? 1)%Z.
Definition LinkHash_Eq (h h2 : bytes) : bool := bool_decide (h = h2).
Definition HostID_IsZero (h : HostID) : bool := forallb (λ b, (b =? 0)%Z) h.

(** ** What is third-party *)
Inductive CertKey := CertNil | CertOther | CertEd25519 (k : bytes).

Class HostchainLib := {
  enc_HostchainLinkOuterV1 : HostchainLinkOuterV1 → result bytes;
  enc_HostchainLinkOuter : HostchainLinkOuter → result bytes;
  dec_HostchainLinkInner : bytes → result HostchainLinkInner;
  ParseCertificate : bytes → result CertKey; (* the certificate's public key *)
  sort_Slice {A : Type} : (A → A → bool) → list A → list A;
  sort_Slice_perm {A} (less : A → A → bool) l : sort_Slice less l ≡ₚ l
}.

(** ** Removing elements in place

    [append(slice[:i], slice[i+1:]...)] moves the elements after [i] one place
    down in the slice's array; a slice is its array and its length, and an older
    slice of the same array sees the moved elements. *)
Record go_slice (A : Type) := mkSlice { sl_array : list A; sl_len : nat }.
Arguments mkSlice {A}.
Arguments sl_array {A}.
Arguments sl_len {A}.
Definition slice_elems {A} (s : go_slice A) : list A := take (sl_len s) (sl_array s).
Definition slice_of {A} (l : list A) : go_slice A := mkSlice l (length l).

Definition remove_at {A} (s : go_slice A) (i : nat) : go_slice A :=
  let a := sl_array s in let n := sl_len s in
  mkSlice (take i a ++ drop (S i) (take n a) ++ drop (n - 1) a) (n - 1).

Definition descending (a b : nat) : Prop := b ≤ a.
#[global] Instance descending_dec : RelDecision descending.
Proof. unfold descending, RelDecision. apply _. Defined.
#[global] Instance descending_total : Total descending.
Proof. intros a b. unfold descending. lia. Qed.
#[global] Instance descending_trans : Transitive descending.
Proof. intros a b c. unfold descending. lia. Qed.
#[global] Instance descending_antisymm : AntiSymm eq descending.
Proof. intros a b. unfold descending. lia. Qed.

(** The indices in descending order, so that each removal leaves the next index valid. *)
Definition removeIndices {A} (s : go_slice A) (indices : list nat) : go_slice A :=
  foldl remove_at s (merge_sort descending indices).

Fixpoint indices_from {A} (p : A → bool) (i : nat) (l : list A) : list nat :=
  match l with
  | [] => []
  | x :: l => (if p x then [i] else []) ++ indices_from p (S i) l
  end.

(** ** The chain *)
Record Hostchain := mkHostchain {
  hKeys : gmap EntityType (list KeyAtSeqno);
  raw : HostchainState;
  tails : list HostchainTail;
  revoked : gmap FixedEntityID bool
}.

Definition keys_of (h : Hostchain) (t : EntityType) : list KeyAtSeqno := default [] (hKeys h !! t).
Definition is_revoked (h : Hostchain) (f : FixedEntityID) : bool := default false (revoked h !! f).

Definition with_keys (h : Hostchain) (k : gmap EntityType (list KeyAtSeqno)) : Hostchain :=
  mkHostchain k (raw h) (tails h) (revoked h).
Definition with_raw (h : Hostchain) (r : HostchainState) : Hostchain :=
  mkHostchain (hKeys h) r (tails h) (revoked h).
Definition with_Cas (r : HostchainState) (c : list HostTLSCAAtSeqno) : HostchainState :=
  mkHostchainState (stSeqno r) (stHost r) (stTime r) (stTail r) (stKeys r) c (stAddr r).
Definition with_Keys (r : HostchainState) (k : list KeyAtSeqno) : HostchainState :=
  mkHostchainState (stSeqno r) (stHost r) (stTime r) (stTail r) k (stCas r) (stAddr r).

Definition NewHostchain : Hostchain := mkHostchain ∅ zero_HostchainState [] ∅.
Definition NewHostchainWithAddr (a : bytes) : Hostchain :=
  let r := raw NewHostchain in
  with_raw NewHostchain
    (mkHostchainState (stSeqno r) (stHost r) (stTime r) (stTail r) (stKeys r) (stCas r) a).
Definition NewHostchainSkeleton (h : HostID) (l : bytes) (s : Z) : Hostchain :=
  mkHostchain ∅ (mkHostchainState s h 0 l [] [] []) [{| Seqno := s; htHash := l |}] ∅.

Definition Keys (h : Hostchain) (t : EntityType) : list EntityID := rev (map kaEid (keys_of h t)).
Definition Tail (h : Hostchain) : HostchainTail := {| Seqno := stSeqno (raw h); htHash := stTail (raw h) |}.
Definition Hostchain_HostID (h : Hostchain) : HostID := stHost (raw h).

Definition CheckIsSuperChainOf (h other : Hostchain) : result () :=
  _ ← guard_err (negb (bool_decide (Hostchain_HostID h = Hostchain_HostID other)))
        (HostchainError "hostchain host mismatch");
  _ ← guard_err (stSeqno (raw h) <? stSeqno (raw other))%Z
        (HostchainError "new hostchain was from the past");
  if (stSeqno (raw h) =? stSeqno (raw other))%Z then
    guard_err (negb (LinkHash_Eq (stTail (raw h)) (stTail (raw other))))
      (HostchainError "hostchains were same length but had different hashes")
  else
    found ← of_option (HostchainError "hostchain was not a superchain; seqno not found")
              (List.find (λ t, Seqno t =? stSeqno (raw other))%Z (tails h));
    guard_err (negb (LinkHash_Eq (htHash found) (stTail (raw other))))
      (HostchainError "hostchain was not a superchain; hash mismatch").

(** The copies of the maps are new; [tails] is left out. *)
Definition copy (h : Hostchain) : Hostchain := mkHostchain (hKeys h) (raw h) [] (revoked h).

Definition AllHostKeyTypes : list EntityType :=
  [EntityType_Host; EntityType_HostTLSCA; EntityType_HostMerkleSigner; EntityType_HostMetadataSigner].

(** [append] to the list of a map entry. *)
Definition map_append {A} (m : gmap EntityType (list A)) (t : EntityType) (k : A) : gmap EntityType (list A) :=
  <[t := default [] (m !! t) ++ [k]]> m.

Fixpoint import_keys (keys : gmap EntityType (list KeyAtSeqno)) (l : list KeyAtSeqno)
  : result (gmap EntityType (list KeyAtSeqno)) :=
  match l with
  | [] => Ok keys
  | k :: l => typ ← EntityID_Type (kaEid k); import_keys (map_append keys typ k) l
  end.

Definition Hostchain_Import `{HostchainLib} (h : Hostchain) (x : HostchainState) : result Hostchain :=
  keys ← import_keys ∅ (stKeys x);
  let keys := sort_Slice (λ a b, kaSeqno a <? kaSeqno b)%Z <$> keys in
  Ok (mkHostchain keys (with_Keys x []) (tails h) (revoked h)).

Definition Hostchain_Export (h : Hostchain) : HostchainState :=
  with_Keys (raw h) (concat (map (keys_of h) AllHostKeyTypes)).

(** ** Revocation *)
Definition revokeTLSCA (h : Hostchain) (e : EntityID) : Hostchain :=
  let indices := indices_from (λ k, EntityID_Eq (caId (haCa k)) e) 0 (stCas (raw h)) in
  with_raw h (with_Cas (raw h) (slice_elems (removeIndices (slice_of (stCas (raw h))) indices))).

Definition revokeKey (h : Hostchain) (e : EntityID) : result Hostchain :=
  typ ← EntityID_Type e;
  let lst := keys_of h typ in
  let indices := indices_from (λ k, EntityID_Eq (kaEid k) e) 0 lst in
  let keys := <[typ := slice_elems (removeIndices (slice_of lst) indices)]> (hKeys h) in
  feid ← EntityID_Fixed e;
  Ok (mkHostchain keys (raw h) (tails h) (<[feid := true]> (revoked h))).

Definition revoke (h : Hostchain) (e : EntityID) : result Hostchain :=
  typ ← EntityID_Type e;
  if (typ =? EntityType_HostTLSCA)%Z then Ok (revokeTLSCA h e) else revokeKey h e.

(** ** Playing a link *)
Definition checkChainer (h : Hostchain) (c : BaseChainer) : result () :=
  _ ← guard_err (negb (Seqno_IsValid (bcSeqno c))) (HostchainError "seqno 0 not allowed");
  _ ← guard_err (negb (bcSeqno c =? wrap64 (stSeqno (raw h) + 1))%Z)
        (HostchainError "seqno must be exactly 1 greater than previous");
  if (bcSeqno c =? HostchainEldestSeqno)%Z then
    guard_err (negb (is_nil (bcPrev c))) (HostchainError "eldest seqno must not have prev")
  else
    prev ← of_option (HostchainError "prev must not be nil") (bcPrev c);
    guard_err (negb (LinkHash_Eq prev (stTail (raw h)))) (HostchainError "prev did not match tail").

Definition checkHostAndSigner (h : Hostchain) (q : Z) (host signer : HostID) : result () :=
  _ ← guard_err ((q =? HostchainEldestSeqno)%Z && negb (HostID_Eq host signer))
        (HostchainError "hostkey must sign first change");
  guard_err ((q >? HostchainEldestSeqno)%Z && negb (HostID_Eq (stHost (raw h)) host))
    (HostchainError "cannot change hostID once established").

Definition addKey (h : Hostchain) (eid : EntityID) : result Hostchain :=
  typ ← EntityID_Type eid;
  Ok (with_keys h (map_append (hKeys h) typ (mkKeyAtSeqno (stSeqno (raw h)) eid))).

Section play.
Context `{Codec} `{Crypto} `{HostchainLib}.

#[global] Instance HostchainLinkOuterV1_Verifiable : Verifiable HostchainLinkOuterV1 := {
  GetTypeUniqueID _ := 0xa23ba3620d758f7a%Z;
  Encode := enc_HostchainLinkOuterV1
}.
#[global] Instance HostchainLinkOuterV1_Stacked : StackedVerifiable HostchainLinkOuterV1 := {
  GetSignatures := ho1Signatures;
  SetSignatures l s := mkHostchainLinkOuterV1 (ho1Inner l) s
}.

Definition HostchainLinkOuterTypeUniqueID : Z := 0x8d87ac224920355c.
Definition HostchainLinkHash (l : HostchainLinkOuter) : result bytes :=
  PrefixedHashInto HostchainLinkOuterTypeUniqueID (encodeAndCheck (enc_HostchainLinkOuter l)).

Definition playChange (h : Hostchain) (c : HostchainChangeItem) (keys : list EntityPublic)
  : result (Hostchain * list EntityPublic) :=
  typ ← ChangeItem_GetT c;
  if (typ =? HostchainChangeType_Revoke)%Z then
    e ← Revoke c; h ← revoke h e; Ok (h, keys)
  else if (typ =? HostchainChangeType_Key)%Z then
    eid ← ItemKey c; h ← addKey h eid; Ok (h, keys ++ [EntityPublicEd25519 eid])
  else if (typ =? HostchainChangeType_TLSCA)%Z then
    ca ← Tlsca c;
    pk ← ParseCertificate (caCert ca);
    _ ← guard_err (match pk with CertNil => true | _ => false end)
          (HostchainError "could not cast public key from cert");
    let eid := caId ca in
    eidPk ← PublicKeyEd25519 eid;
    _ ← guard_err (negb (match pk with CertEd25519 k => bool_decide (default [] eidPk = k) | _ => false end))
          (HostchainError "certificate does not match entity ID");
    let r := raw h in
    Ok (with_raw h (with_Cas r (stCas r ++ [mkHostTLSCAAtSeqno (stSeqno r) ca])),
        keys ++ [EntityPublicEd25519 eid])
  else Ok (h, keys).

Fixpoint play_items (h : Hostchain) (l : list HostchainChangeItem) (keys : list EntityPublic)
  : result (Hostchain * list EntityPublic) :=
  match l with
  | [] => Ok (h, keys)
  | c :: l => '(h, keys) ← playChange h c keys; play_items h l keys
  end.

Definition playChanges (h : Hostchain) (c : HostchainChange) (hsh : bytes)
  : result (Hostchain * list EntityPublic) :=
  let ret := copy h in
  let ch := hcChainer c in
  _ ← checkChainer h ch;
  _ ← checkHostAndSigner h (bcSeqno ch) (hcHost c) (hcSigner c);
  let ret := with_raw ret
    (mkHostchainState (bcSeqno ch) (hcHost c) (bcTime ch) hsh
       (stKeys (raw ret)) (stCas (raw ret)) (stAddr (raw ret))) in
  '(ret, keys) ← play_items ret (hcChanges c) [];
  let keys := keys ++ [EntityPublicEd25519 (hcSigner c)] in
  ret ← (if (bcSeqno ch =? HostchainEldestSeqno)%Z then addKey ret (hcSigner c) else Ok ret);
  Ok (ret, keys).

Definition findHostKey (h : Hostchain) (e : EntityID) : bool :=
  existsb (λ k, EntityID_Eq (kaEid k) e) (keys_of h EntityType_Host).

Record OpenHostchainChangeLinkRes := mkOpenRes {
  orChange : HostchainChange; orHash : bytes; orL1 : HostchainLinkOuterV1
}.

Definition OpenHostchainChangeLink (l : HostchainLinkOuter) : result OpenHostchainChangeLinkRes :=
  v ← HostchainLinkOuter_GetV l;
  _ ← guard_err (negb (v =? HostchainLinkVersion_V1)%Z) (VersionNotSupportedError "hostchain link");
  l1 ← HostchainLinkOuter_V1 l;
  inner ← dec_HostchainLinkInner (ho1Inner l1);
  hsh ← HostchainLinkHash l;
  typ ← HostchainLinkInner_GetT inner;
  if (typ =? HostchainLinkType_Change)%Z then
    c ← HostchainLinkInner_Change inner; Ok (mkOpenRes c hsh l1)
  else Err (VersionNotSupportedError "hostchain link type unknown").

(** [core.Last], which panics on an empty slice. *)
Definition Last {A} (l : list A) : result A := of_option GoPanic (last l).

Definition Play (h : Hostchain) (l : HostchainLinkOuter) : result Hostchain :=
  chng ← OpenHostchainChangeLink l;
  '(ret, verifyEntities) ← playChanges h (orChange chng) (orHash chng);
  _ ← (VerifyStackedSignature (orL1 chng) verifyEntities).2;
  if negb (stSeqno (raw ret) =? HostchainEldestSeqno)%Z then
    lst ← Last verifyEntities;
    let lst := GetEntityID lst in
    flst ← EntityID_Fixed lst;
    _ ← guard_err (is_revoked h flst) (HostchainError "revoked key used");
    _ ← guard_err (negb (findHostKey h lst)) (HostchainError "existing host signing key not found");
    let lastTail := {| Seqno := stSeqno (raw h); htHash := stTail (raw h) |} in
    Ok (mkHostchain (hKeys ret) (raw ret) (tails h ++ [lastTail]) (revoked ret))
  else Ok ret.

Fixpoint MultiPlay (r : Hostchain) (v : list HostchainLinkOuter) : result Hostchain :=
  match v with
  | [] => Ok r
  | i :: v => r ← Play r i; MultiPlay r v
  end.

Definition PlayChain (addr : bytes) (links : list HostchainLinkOuter) (hostID : option HostID)
  : result Hostchain :=
  ch ← MultiPlay (NewHostchainWithAddr addr) links;
  let tmp := Hostchain_HostID ch in
  _ ← guard_err (HostID_IsZero tmp) (BadServerDataError "empty hostID in hostchain reply");
  _ ← guard_err (match hostID with Some hid => negb (HostID_Eq hid tmp) | None => false end)
        (HostMismatchError "hostID");
  Ok ch.

Definition CheckChainAgainstPriorChains (this : Hostchain) (prior : option Hostchain) : result () :=
  match prior with None => Ok () | Some p => CheckIsSuperChainOf this p end.
End play.
