(* ===== verification/HostChainFacts.v ===== *)
(** * Host chains: what playing a chain guarantees

    The keys of a played chain are what a list of additions and revocations
    leaves, every link after the first is signed by a host key that was current
    and not revoked before it, the tails a chain records make the comparison with
    an earlier chain sound, and a link that is well made is accepted. *)
From S2P Require Import Prelude Snowp MerkleTypes Role Roster TeamRoster Sigs HostChain.

(** ** Removal in place *)
Lemma indices_from_app {A} (p : A → bool) i l l' :
  indices_from p i (l ++ l') = indices_from p i l ++ indices_from p (length l + i) l'.
Proof.
  revert i. induction l as [|x l IH]; intros i; [done|]. simpl.
  rewrite IH, <- app_assoc. repeat f_equal. lia.
Qed.

Lemma indices_from_ge {A} (p : A → bool) i l j : j ∈ indices_from p i l → i ≤ j.
Proof.
  revert i. induction l as [|x l IH]; intros i; simpl; [by rewrite elem_of_nil|].
  rewrite elem_of_app. intros [H|H%IH]; [|lia]. destruct (p x); [|by apply elem_of_nil in H].
  apply list_elem_of_singleton in H. lia.
Qed.

Lemma indices_sorted {A} (p : A → bool) i l : StronglySorted (flip descending) (indices_from p i l).
Proof.
  revert i. induction l as [|x l IH]; intros i; simpl; [constructor|].
  destruct (p x); simpl; [|apply IH]. constructor; [apply IH|].
  apply Forall_forall. intros j Hj%indices_from_ge. unfold flip, descending. lia.
Qed.

Lemma rev_StronglySorted {A} (R : relation A) l : StronglySorted (flip R) l → StronglySorted R (rev l).
Proof.
  induction 1 as [|x l Hs IH Hx]; simpl; [constructor|].
  apply StronglySorted_app_2; [|done|repeat constructor].
  intros y z Hy Hz. apply list_elem_of_singleton in Hz as ->.
  rewrite <- Permutation_rev in Hy. rewrite Forall_forall in Hx. by apply Hx.
Qed.

Lemma sort_indices {A} (p : A → bool) i l :
  merge_sort descending (indices_from p i l) = rev (indices_from p i l).
Proof.
  apply (StronglySorted_unique descending).
  - apply StronglySorted_merge_sort; apply _.
  - apply rev_StronglySorted, indices_sorted.
  - rewrite merge_sort_Permutation. apply Permutation_rev.
Qed.

Lemma remove_at_middle {A} (x : A) l r g :
  remove_at (mkSlice (l ++ x :: r ++ g) (length l + S (length r))) (length l)
  = mkSlice (l ++ r ++ drop (length l + length r) (l ++ x :: r ++ g)) (length l + length r).
Proof.
  unfold remove_at. cbn [sl_array sl_len].
  replace (length l + S (length r) - 1) with (length l + length r) by lia. f_equal.
  rewrite take_app_length. f_equal. f_equal. rewrite take_app_add. cbn [take].
  rewrite take_app_length. change (S (length l)) with (1 + length l).
  rewrite Nat.add_comm, <- drop_drop, drop_app_length. done.
Qed.

(** The array keeps the elements that stay in front; what is after them is left over. *)
Lemma removeIndices_array {A} (p : A → bool) l r g :
  ∃ g', foldl remove_at (mkSlice (l ++ r ++ g) (length l + length r)) (rev (indices_from p 0 l))
      = mkSlice (filter (λ x, p x = false) l ++ r ++ g') (length (filter (λ x, p x = false) l) + length r).
Proof.
  revert r g. induction l as [|x l IH] using rev_ind; intros r g; simpl; [by exists g|].
  rewrite indices_from_app, rev_app_distr, filter_app, length_app, <- app_assoc. simpl.
  replace (length l + 1 + length r) with (length l + S (length r)) by lia.
  destruct (p x) eqn:Hp; simpl.
  - rewrite filter_cons_False by (by rewrite Hp). rewrite filter_nil, app_nil_r.
    rewrite Nat.add_0_r, remove_at_middle. apply IH.
  - rewrite filter_cons_True by (by rewrite Hp). rewrite filter_nil.
    destruct (IH (x :: r) g) as [g' E]. exists g'. simpl in E.
    rewrite E, length_app, <- app_assoc. simpl. f_equal. lia.
Qed.

Lemma removeIndices_filter {A} (p : A → bool) l :
  slice_elems (removeIndices (slice_of l) (indices_from p 0 l)) = filter (λ x, p x = false) l.
Proof.
  unfold removeIndices, slice_of. rewrite sort_indices.
  destruct (removeIndices_array p l [] []) as [g' E]. simpl in E.
  rewrite app_nil_r, Nat.add_0_r in E. rewrite E. unfold slice_elems. simpl.
  rewrite Nat.add_0_r. apply take_app_length.
Qed.

(** ** The chain as a history of changes

    What a list of opened links says about the keys of the host: a key is current
    once a link adds it, until a link revokes it; the first link adds its signer. *)
Definition has_type (t : EntityType) (e : EntityID) : Prop := head e = Some t.
#[global] Instance has_type_dec t e : Decision (has_type t e).
Proof. unfold has_type. apply _. Defined.

Definition fixed (e : EntityID) : FixedEntityID := e ++ replicate (34 - length e) 0%Z.

(** The key or TLS CA that an item revokes, the key it adds and the CA it adds. *)
Definition revokes (c : HostchainChangeItem) : option EntityID :=
  if (ci_T c =? HostchainChangeType_Revoke)%Z then ci_F1 c else None.
Definition adds (c : HostchainChangeItem) : option EntityID :=
  if (ci_T c =? HostchainChangeType_Key)%Z then ci_F2 c else None.
Definition adds_ca (c : HostchainChangeItem) : option HostTLSCA :=
  if (ci_T c =? HostchainChangeType_TLSCA)%Z then ci_F3 c else None.
(** The new keys that must sign the link themselves. *)
Definition item_signers (c : HostchainChangeItem) : list EntityPublic :=
  if (ci_T c =? HostchainChangeType_Key)%Z then
    match ci_F2 c with Some e => [EntityPublicEd25519 e] | None => [] end
  else if (ci_T c =? HostchainChangeType_TLSCA)%Z then
    match ci_F3 c with Some ca => [EntityPublicEd25519 (caId ca)] | None => [] end
  else [].

Definition item_keys (ks : list EntityID) (c : HostchainChangeItem) : list EntityID :=
  match revokes c, adds c with
  | Some e, _ => filter (λ k, k ≠ e) ks
  | _, Some e => ks ++ [e]
  | None, None => ks
  end.
Definition item_cas (cs : list HostTLSCA) (c : HostchainChangeItem) : list HostTLSCA :=
  match revokes c, adds_ca c with
  | Some e, _ => filter (λ ca, caId ca ≠ e) cs
  | _, Some ca => cs ++ [ca]
  | None, None => cs
  end.
Definition item_revoked (rs : gset FixedEntityID) (c : HostchainChangeItem) : gset FixedEntityID :=
  match revokes c with Some e => {[fixed e]} ∪ rs | None => rs end.

Definition is_eldest (o : OpenHostchainChangeLinkRes) : bool :=
  (bcSeqno (hcChainer (orChange o)) =? HostchainEldestSeqno)%Z.
Definition link_keys (ks : list EntityID) (o : OpenHostchainChangeLinkRes) : list EntityID :=
  foldl item_keys ks (hcChanges (orChange o)) ++
  (if is_eldest o then [hcSigner (orChange o)] else []).
Definition link_revoked (rs : gset FixedEntityID) (o : OpenHostchainChangeLinkRes) : gset FixedEntityID :=
  foldl item_revoked rs (hcChanges (orChange o)).

Definition current_cas (os : list OpenHostchainChangeLinkRes) : list HostTLSCA :=
  foldl (λ cs o, foldl item_cas cs (hcChanges (orChange o))) [] os.
Definition current_keys (os : list OpenHostchainChangeLinkRes) : list EntityID := foldl link_keys [] os.
Definition revoked_keys (os : list OpenHostchainChangeLinkRes) : gset FixedEntityID := foldl link_revoked ∅ os.
Definition link_signers (o : OpenHostchainChangeLinkRes) : list EntityPublic :=
  concat (map item_signers (hcChanges (orChange o))) ++ [EntityPublicEd25519 (hcSigner (orChange o))].
Definition last_hash (os : list OpenHostchainChangeLinkRes) : bytes :=
  match last os with Some o => orHash o | None => zero_hash end.
Definition host_of (os : list OpenHostchainChangeLinkRes) : HostID :=
  match head os with Some o => hcSigner (orChange o) | None => zero_HostID end.
Definition recorded_tails (os : list OpenHostchainChangeLinkRes) : list HostchainTail :=
  imap (λ i o, {| Seqno := Z.of_nat i + 1; htHash := orHash o |}) (take (length os - 1) os).

Lemma fixed_type t e : has_type t e → head (fixed e) = Some t.
Proof. by destruct e. Qed.

Section facts.
Context `{Codec} `{Crypto} `{HostchainLib}.

(** The items that can be played: no nil case, no empty or oversized entity, and a certificate
    for the CA's own key. *)
Definition item_ok (c : HostchainChangeItem) : bool :=
  if (ci_T c =? HostchainChangeType_Revoke)%Z then
    match ci_F1 c with
    | Some e => (0 <? len e)%Z &&
                (bool_decide (has_type EntityType_HostTLSCA e) || (len e <=? 34)%Z)
    | None => false
    end
  else if (ci_T c =? HostchainChangeType_Key)%Z then
    match ci_F2 c with Some e => (0 <? len e)%Z | None => false end
  else if (ci_T c =? HostchainChangeType_TLSCA)%Z then
    match ci_F3 c with
    | Some ca =>
        match ParseCertificate (caCert ca), PublicKeyEd25519 (caId ca) with
        | Ok (CertEd25519 k), Ok pk => bool_decide (default [] pk = k)
        | _, _ => false
        end
    | None => false
    end
  else true.

(** What a next link must be, after the links [os]. *)
Record good_next (os : list OpenHostchainChangeLinkRes) (o : OpenHostchainChangeLinkRes) : Prop := {
  gn_seqno : bcSeqno (hcChainer (orChange o)) = (len os + 1)%Z;
  gn_room : (len os + 1 < 2 ^ 64)%Z;
  gn_prev : bcPrev (hcChainer (orChange o)) =
            (if decide (os = []) then None else Some (last_hash os));
  gn_host : hcHost (orChange o) =
            (if decide (os = []) then hcSigner (orChange o) else host_of os);
  gn_items : forallb item_ok (hcChanges (orChange o)) = true;
  gn_signer_some : hcSigner (orChange o) ≠ [];
  gn_sigs : (VerifyStackedSignature (orL1 o) (link_signers o)).2 = Ok ();
  gn_signer : os ≠ [] →
    (length (hcSigner (orChange o)) ≤ 34)%nat ∧
    has_type EntityType_Host (hcSigner (orChange o)) ∧
    hcSigner (orChange o) ∈ current_keys os ∧
    fixed (hcSigner (orChange o)) ∉ revoked_keys os
}.

(** For every type but that of the TLS CAs, which are kept elsewhere. *)
Definition keys_rep (h : Hostchain) (ks : list EntityID) (rs : gset FixedEntityID) : Prop :=
  (∀ t, t ≠ EntityType_HostTLSCA → map kaEid (keys_of h t) = filter (has_type t) ks) ∧
  (∀ f, head f ≠ Some EntityType_HostTLSCA → is_revoked h f = bool_decide (f ∈ rs)).

(** The state [h] is what the history [os] describes. *)
Record represents (os : list OpenHostchainChangeLinkRes) (h : Hostchain) : Prop := {
  rep_room : (len os < 2 ^ 64)%Z;
  rep_seqno : stSeqno (raw h) = len os;
  rep_tail : stTail (raw h) = last_hash os;
  rep_host : stHost (raw h) = host_of os;
  rep_tails : tails h = recorded_tails os;
  rep_keys : keys_rep h (current_keys os) (revoked_keys os)
}.

Lemma EntityID_Type_head e : EntityID_Type e = of_option GoPanic (head e).
Proof. by destruct e. Qed.

Lemma EntityID_Type_Ok e t : EntityID_Type e = Ok t ↔ has_type t e.
Proof. rewrite EntityID_Type_head. apply of_option_Ok. Qed.

Lemma EntityID_Fixed_fixed e : (length e ≤ 34)%nat → EntityID_Fixed e = Ok (fixed e).
Proof. intros. unfold EntityID_Fixed, len. replace (34 <? _)%Z with false by lia. done. Qed.

Lemma EntityID_Eq_spec t k e : has_type t k → EntityID_Eq k e = bool_decide (k = e).
Proof.
  intros Hk. unfold EntityID_Eq, len. destruct k as [|b k]; [done|]. clear Hk.
  destruct e as [|b' e]; [by rewrite bool_decide_eq_false_2|].
  replace (0 <? Z.of_nat (length (b :: k)))%Z with true by (simpl; lia).
  by replace (0 <? Z.of_nat (length (b' :: e)))%Z with true by (simpl; lia).
Qed.

Lemma map_filter_keys t e (l : list KeyAtSeqno) ks :
  map kaEid l = filter (has_type t) ks →
  map kaEid (filter (λ k, EntityID_Eq (kaEid k) e = false) l) = filter (λ k, k ≠ e) (filter (has_type t) ks).
Proof.
  intros E. assert (Forall (has_type t) (map kaEid l)) as Ht.
  { rewrite E. apply Forall_forall. intros x Hx. by apply list_elem_of_filter in Hx as [? _]. }
  rewrite <- E. clear E ks. induction l as [|k l IH]; [done|]. simpl in Ht.
  apply Forall_cons in Ht as [Hk Ht]. specialize (IH Ht).
  pose proof (EntityID_Eq_spec t (kaEid k) e Hk) as Eq. cbn [map].
  destruct (decide (kaEid k = e)) as [He|He].
  - rewrite bool_decide_eq_true_2 in Eq by done.
    rewrite filter_cons_False by (by rewrite Eq). by rewrite filter_cons_False by (intros []; done).
  - rewrite bool_decide_eq_false_2 in Eq by done.
    rewrite filter_cons_True by done. rewrite filter_cons_True by done. cbn [map]. by f_equal.
Qed.

Lemma filter_other_type t t' e (ks : list EntityID) :
  has_type t e → t' ≠ t → filter (has_type t') (filter (λ k, k ≠ e) ks) = filter (has_type t') ks.
Proof.
  intros He Ht. rewrite list_filter_filter. apply list_filter_iff. intros k. unfold has_type in *.
  split; [by intros [? ?]|]. intros Hk. split; [done|]. intros ->. congruence.
Qed.

Lemma filter_same_type t e (ks : list EntityID) :
  filter (λ k, k ≠ e) (filter (has_type t) ks) = filter (has_type t) (filter (λ k, k ≠ e) ks).
Proof. rewrite !list_filter_filter. apply list_filter_iff. naive_solver. Qed.

Lemma addKey_rep h e t ks rs :
  has_type t e → keys_rep h ks rs →
  ∃ h', addKey h e = Ok h' ∧ raw h' = raw h ∧ tails h' = tails h ∧ keys_rep h' (ks ++ [e]) rs.
Proof.
  intros He [Hk Hr]. unfold addKey. rewrite (proj2 (EntityID_Type_Ok e t) He). simpl.
  eexists. split; [done|]. split; [done|]. split; [done|]. split; [|done]. intros t' Ht'.
  unfold keys_of, with_keys, map_append. cbn [hKeys]. rewrite filter_app.
  destruct (decide (t' = t)) as [->|Hne].
  - rewrite lookup_insert. rewrite decide_True by done. simpl.
    rewrite map_app. unfold keys_of in Hk. rewrite Hk by done. simpl. by rewrite filter_cons_True.
  - rewrite lookup_insert_ne by done. unfold keys_of in Hk. rewrite Hk by done.
    rewrite filter_cons_False, filter_nil, app_nil_r; [done|]. unfold has_type in *. congruence.
Qed.

Lemma revokeKey_rep h e t ks rs :
  has_type t e → (length e ≤ 34)%nat → keys_rep h ks rs →
  ∃ h', revokeKey h e = Ok h' ∧ raw h' = raw h ∧ tails h' = tails h ∧
        keys_rep h' (filter (λ k, k ≠ e) ks) ({[fixed e]} ∪ rs).
Proof.
  intros He Hl [Hk Hr]. unfold revokeKey. rewrite (proj2 (EntityID_Type_Ok e t) He). simpl.
  rewrite EntityID_Fixed_fixed by done. simpl.
  eexists. split; [done|]. split; [done|]. split; [done|]. split.
  - intros t' Ht'. unfold keys_of. cbn [hKeys]. rewrite removeIndices_filter.
    destruct (decide (t' = t)) as [->|Hne].
    + rewrite lookup_insert, decide_True by done. simpl.
      rewrite (map_filter_keys t e _ ks) by by apply Hk. apply filter_same_type.
    + rewrite lookup_insert_ne by done. rewrite (filter_other_type t) by done. by apply Hk.
  - intros f Hf. unfold is_revoked. cbn [revoked]. destruct (decide (f = fixed e)) as [->|Hne].
    + rewrite lookup_insert, decide_True by done. simpl. by rewrite bool_decide_eq_true_2 by set_solver.
    + rewrite lookup_insert_ne by done. specialize (Hr f Hf). unfold is_revoked in Hr. rewrite Hr.
      apply bool_decide_ext. set_solver.
Qed.

Record same_head (h h' : Hostchain) : Prop := {
  sh_seqno : stSeqno (raw h') = stSeqno (raw h);
  sh_host : stHost (raw h') = stHost (raw h);
  sh_tail : stTail (raw h') = stTail (raw h);
  sh_tails : tails h' = tails h
}.
Lemma same_head_refl h : same_head h h.
Proof. done. Qed.
Lemma same_head_trans h1 h2 h3 : same_head h1 h2 → same_head h2 h3 → same_head h1 h3.
Proof. intros [? ? ? ?] [? ? ? ?]. split; congruence. Qed.
Lemma same_head_raw h h' : raw h' = raw h → tails h' = tails h → same_head h h'.
Proof. intros E ?. split; by rewrite ?E. Qed.

(** An item is played as it says, and one that is not [item_ok] stops the play. *)
Definition plays_item (h : Hostchain) (keys : list EntityPublic) (ks : list EntityID)
    (rs : gset FixedEntityID) (c : HostchainChangeItem) : Prop :=
  if item_ok c
  then ∃ h', playChange h c keys = Ok (h', keys ++ item_signers c) ∧ same_head h h' ∧
             keys_rep h' (item_keys ks c) (item_revoked rs c)
  else is_ok (playChange h c keys) = false.

(** Revoking a CA says nothing about keys of other types. *)
Lemma keys_rep_tlsca h h' ks rs e :
  has_type EntityType_HostTLSCA e → hKeys h' = hKeys h → revoked h' = revoked h → keys_rep h ks rs →
  keys_rep h' (filter (λ k, k ≠ e) ks) ({[fixed e]} ∪ rs).
Proof.
  intros He Ek Er [Hk Hr]. split.
  - intros t Ht. rewrite (filter_other_type EntityType_HostTLSCA) by done. rewrite <- Hk by done. unfold keys_of. by rewrite Ek.
  - intros f Hf. transitivity (is_revoked h f); [unfold is_revoked; by rewrite Er|]. rewrite Hr by done. apply bool_decide_ext.
    assert (f ≠ fixed e) by (intros ->; destruct e; [done|]; apply Hf; exact He). set_solver.
Qed.

Lemma plays_revoke h keys ks rs e f2 f3 :
  keys_rep h ks rs →
  plays_item h keys ks rs (mkHostchainChangeItem HostchainChangeType_Revoke (Some e) f2 f3).
Proof.
  intros Hr. unfold plays_item, item_ok, playChange, item_keys, item_revoked, revokes, adds, item_signers.
  cbn. rewrite app_nil_r. unfold revoke. destruct e as [|t e]; [done|].
  rewrite (proj2 (EntityID_Type_Ok (t :: e) t) eq_refl).
  replace (0 <? len (t :: e))%Z with true by (unfold len; simpl; lia). cbn.
  destruct (decide (has_type EntityType_HostTLSCA (t :: e))) as [Ht|Ht].
  - rewrite bool_decide_eq_true_2 by done. pose proof Ht as Ht'. injection Ht' as ->. simpl.
    eexists. split; [done|]. split; [by split|]. by eapply keys_rep_tlsca.
  - rewrite bool_decide_eq_false_2 by done. simpl.
    destruct (Z.eqb_spec t EntityType_HostTLSCA) as [->|Hne]; [by destruct Ht|].
    destruct (Z.leb_spec (len (t :: e)) 34) as [Hl|Hl]; unfold len in Hl.
    + destruct (revokeKey_rep h (t :: e) t ks rs) as (h' & E & ? & ? & ?); [done|lia|done|].
      exists h'. rewrite E. split; [done|]. split; [by apply same_head_raw|done].
    + unfold revokeKey. rewrite (proj2 (EntityID_Type_Ok (t :: e) t) eq_refl). cbn [mbind result_bind].
      unfold EntityID_Fixed, len. by replace (34 <? _)%Z with true by lia.
Qed.

Lemma plays_key h keys ks rs e f1 f3 :
  keys_rep h ks rs →
  plays_item h keys ks rs (mkHostchainChangeItem HostchainChangeType_Key f1 (Some e) f3).
Proof.
  intros Hr. unfold plays_item, item_ok, playChange, item_keys, item_revoked, revokes, adds, item_signers.
  cbn. destruct e as [|t e]; [done|].
  replace (0 <? len (t :: e))%Z with true by (unfold len; simpl; lia).
  destruct (addKey_rep h (t :: e) t ks rs) as (h' & E & ? & ? & ?); [done..|].
  rewrite E. exists h'. split; [done|]. split; [by apply same_head_raw|done].
Qed.

Lemma plays_tlsca h keys ks rs ca f1 f2 :
  keys_rep h ks rs →
  plays_item h keys ks rs (mkHostchainChangeItem HostchainChangeType_TLSCA f1 f2 (Some ca)).
Proof.
  intros Hr. unfold plays_item, item_ok, playChange, item_keys, item_revoked, revokes, adds, item_signers.
  cbn. destruct (ParseCertificate (caCert ca)) as [[| |k]|]; cbn; [done| | |done].
  - by destruct (PublicKeyEd25519 (caId ca)).
  - destruct (PublicKeyEd25519 (caId ca)) as [pk|]; cbn; [|done].
    case_bool_decide; cbn; [|done]. eexists. split; [done|]. by split.
Qed.

Lemma playChange_plays h c keys ks rs : keys_rep h ks rs → plays_item h keys ks rs c.
Proof.
  intros Hr. destruct c as [t f1 f2 f3].
  destruct (decide (t = HostchainChangeType_Revoke)) as [->|].
  { destruct f1; [by apply plays_revoke|done]. }
  destruct (decide (t = HostchainChangeType_Key)) as [->|].
  { destruct f2; [by apply plays_key|done]. }
  destruct (decide (t = HostchainChangeType_TLSCA)) as [->|].
  { destruct f3; [by apply plays_tlsca|done]. }
  unfold plays_item, item_ok, playChange, item_keys, item_revoked, revokes, adds, item_signers, ChangeItem_GetT.
  cbn [ci_T ci_F1 ci_F2 ci_F3]. repeat (rewrite (proj2 (Z.eqb_neq t _)) by done). cbn.
  repeat (rewrite (proj2 (Z.eqb_neq t _)) by done). rewrite app_nil_r. by exists h.
Qed.

Lemma play_items_rep l : ∀ h keys ks rs, keys_rep h ks rs →
  if forallb item_ok l
  then ∃ h', play_items h l keys = Ok (h', keys ++ concat (map item_signers l)) ∧ same_head h h' ∧
             keys_rep h' (foldl item_keys ks l) (foldl item_revoked rs l)
  else is_ok (play_items h l keys) = false.
Proof.
  induction l as [|c l IH]; intros h keys ks rs Hr; cbn [forallb play_items foldl map concat].
  { exists h. by rewrite app_nil_r. }
  pose proof (playChange_plays h c keys ks rs Hr) as Hc. unfold plays_item in Hc.
  destruct (item_ok c); cbn [andb].
  - destruct Hc as (h1 & -> & Hs & Hr1). cbn [mbind result_bind].
    specialize (IH h1 (keys ++ item_signers c) _ _ Hr1). rewrite <- app_assoc in IH.
    destruct (forallb item_ok l); [|done]. destruct IH as (h2 & E & Hs2 & Hr2).
    exists h2. split; [done|]. split; [by eapply same_head_trans|done].
  - by destruct (playChange h c keys).
Qed.

Lemma len_pos {A} (os : list A) : (0 ≤ len os)%Z ∧ ((len os + 1 =? 1)%Z = bool_decide (os = [])).
Proof.
  unfold len. split; [lia|]. destruct os; [done|].
  rewrite bool_decide_eq_false_2 by done. apply Z.eqb_neq. cbn [length]. lia.
Qed.

Lemma checkChainer_rep os h c :
  represents os h →
  checkChainer h c = Ok () ↔
  bcSeqno c = (len os + 1)%Z ∧ (len os + 1 < 2 ^ 64)%Z ∧
  bcPrev c = (if decide (os = []) then None else Some (last_hash os)).
Proof.
  intros [Hroom Hs Ht _ _ _]. destruct (len_pos os) as [Hl He].
  unfold checkChainer, Seqno_IsValid, HostchainEldestSeqno. rewrite Hs, Ht. unfold wrap64.
  destruct (decide (len os + 1 = 2 ^ 64)%Z) as [E|E].
  { rewrite E, Z.mod_same by lia. split; [|lia]. intros (? & Hv & Hr)%bind_Ok.
    apply bind_Ok in Hr as (? & Hr & _). apply guard_err_Ok in Hv, Hr. lia. }
  rewrite Z.mod_small by lia.
  destruct (Z.eqb_spec (bcSeqno c) (len os + 1)) as [Eq|Eq]; [rewrite Eq, He|].
  - replace (len os + 1 >=? 1)%Z with true by lia. cbn [negb guard_err mbind result_bind].
    destruct (decide (os = [])) as [->|Hne].
    + rewrite bool_decide_eq_true_2 by done. rewrite guard_err_Ok.
      destruct (bcPrev c); simpl; split; [done|by intros (_ & _ & ?)|by repeat split; try lia|done].
    + rewrite bool_decide_eq_false_2 by done. destruct (bcPrev c) as [prev|]; simpl; [|naive_solver].
      rewrite guard_err_Ok, negb_false_iff. unfold LinkHash_Eq. rewrite bool_decide_eq_true.
      split; [intros ->; repeat split; lia|]. by intros (_ & _ & [= ->]).
  - cbn [negb]. split; [|by intros [? _]]. intros (? & _ & (? & ? & _)%bind_Ok)%bind_Ok. by inv_ok.
Qed.

Lemma checkHost_rep os h host signer :
  represents os h →
  checkHostAndSigner h (len os + 1) host signer = Ok () ↔
  host = (if decide (os = []) then signer else host_of os).
Proof.
  intros [_ _ _ Hh _ _]. destruct (len_pos os) as [Hl He].
  unfold checkHostAndSigner, HostchainEldestSeqno, HostID_Eq, HostID_len. rewrite Hh.
  destruct (decide (os = [])) as [Hos|Hne].
  - rewrite bool_decide_eq_true_2 in He by done. rewrite He. apply Z.eqb_eq in He. rewrite He. simpl.
    case_bool_decide; simpl; naive_solver.
  - rewrite bool_decide_eq_false_2 in He by done. rewrite He.
    replace (len os + 1 >? 1)%Z with true by lia. simpl. case_bool_decide; simpl; naive_solver.
Qed.

(** The conditions on a link other than its signatures and its signer. *)
Definition shape_ok (os : list OpenHostchainChangeLinkRes) (c : HostchainChange) : Prop :=
  (bcSeqno (hcChainer c) = len os + 1)%Z ∧ (len os + 1 < 2 ^ 64)%Z ∧
  bcPrev (hcChainer c) = (if decide (os = []) then None else Some (last_hash os)) ∧
  hcHost c = (if decide (os = []) then hcSigner c else host_of os) ∧
  forallb item_ok (hcChanges c) = true ∧ (os = [] → hcSigner c ≠ []).

Lemma nonempty_type (e : EntityID) : e ≠ [] ↔ ∃ t, has_type t e.
Proof. unfold has_type. destruct e as [|t e]; [naive_solver|]. split; [by exists t|done]. Qed.

Lemma playChanges_rep os h o :
  represents os h →
  (shape_ok os (orChange o) →
     ∃ ret, playChanges h (orChange o) (orHash o) = Ok (ret, link_signers o) ∧
       stSeqno (raw ret) = (len os + 1)%Z ∧ stTail (raw ret) = orHash o ∧
       stHost (raw ret) = hcHost (orChange o) ∧ tails ret = [] ∧
       keys_rep ret (link_keys (current_keys os) o) (link_revoked (revoked_keys os) o)) ∧
  (is_ok (playChanges h (orChange o) (orHash o)) = true → shape_ok os (orChange o)).
Proof.
  intros Hr. destruct (len_pos os) as [_ He]. destruct o as [c hsh l1]. cbn [orChange orHash].
  set (ret0 := with_raw (copy h) (mkHostchainState (bcSeqno (hcChainer c)) (hcHost c)
    (bcTime (hcChainer c)) hsh (stKeys (raw (copy h))) (stCas (raw (copy h))) (stAddr (raw (copy h))))).
  pose proof (play_items_rep (hcChanges c) ret0 [] _ _ (rep_keys _ _ Hr)) as Hitems.
  unfold playChanges. fold ret0. split.
  - intros (Hseq & Hroom & Hprev & Hhost & Hok & Hne).
    rewrite (proj2 (checkChainer_rep os h _ Hr)) by done. cbn [mbind result_bind].
    rewrite Hseq, (proj2 (checkHost_rep os h _ _ Hr)) by done. cbn [mbind result_bind].
    rewrite Hok in Hitems. destruct Hitems as (h1 & -> & [S1 S2 S3 S4] & Hk).
    cbn [mbind result_bind]. unfold link_keys, is_eldest. cbn [orChange]. rewrite Hseq.
    unfold HostchainEldestSeqno. rewrite He. case_bool_decide as Hos.
    + destruct (proj1 (nonempty_type _) (Hne Hos)) as [t Ht].
      destruct (addKey_rep _ _ _ _ _ Ht Hk) as (h2 & -> & E1 & E2 & Hk2).
      exists h2. rewrite E1, E2, S1, S2, S3, S4. repeat split; try done; apply Hk2.
    + exists h1. rewrite app_nil_r, S1, S2, S3, S4. repeat split; try done; apply Hk.
  - destruct (checkChainer h (hcChainer c)) as [[]|] eqn:E1; [|done]. cbn [mbind result_bind].
    apply (checkChainer_rep os h _ Hr) in E1 as (Hseq & Hroom & Hprev). rewrite Hseq.
    destruct (checkHostAndSigner h _ _ _) as [[]|] eqn:E2; [|done]. cbn [mbind result_bind].
    apply (checkHost_rep os h _ _ Hr) in E2.
    destruct (forallb item_ok (hcChanges c)) eqn:E3; [|by destruct (play_items _ _ _)].
    destruct Hitems as (h1 & -> & _ & _). cbn [mbind result_bind].
    unfold HostchainEldestSeqno. rewrite He. intros Hlast. repeat split; try done.
    intros Hos. rewrite bool_decide_eq_true_2 in Hlast by done. unfold addKey in Hlast.
    intros Hnil. by rewrite Hnil in Hlast.
Qed.

Lemma recorded_tails_snoc os o :
  os ≠ [] → recorded_tails (os ++ [o]) = recorded_tails os ++ [{| Seqno := len os; htHash := last_hash os |}].
Proof.
  intros Hne. unfold recorded_tails. rewrite length_app. simpl.
  destruct os as [|x os'] using rev_ind; [done|]. clear IHos' Hne.
  rewrite length_app. simpl.
  replace (length os' + 1 + 1 - 1)%nat with (length (os' ++ [x])) by (rewrite length_app; simpl; lia).
  rewrite take_app_length. replace (length os' + 1 - 1)%nat with (length os') by lia.
  rewrite take_app_length, imap_app. f_equal. simpl. unfold last_hash, len.
  rewrite last_snoc, length_app. simpl. do 2 f_equal. lia.
Qed.

Lemma findHostKey_rep os h e :
  represents os h →
  findHostKey h e = true ↔ has_type EntityType_Host e ∧ e ∈ current_keys os.
Proof.
  intros Hr. destruct (rep_keys _ _ Hr) as [Hk _]. unfold findHostKey.
  rewrite existsb_exists. setoid_rewrite <- list_elem_of_In.
  assert (∀ k, k ∈ keys_of h EntityType_Host →
    has_type EntityType_Host (kaEid k) ∧ kaEid k ∈ current_keys os) as Hin.
  { intros k Hk'. apply (list_elem_of_filter (has_type EntityType_Host)). rewrite <- Hk by done.
    by apply (list_elem_of_fmap_2 kaEid). }
  split.
  - intros (k & Hk' & Eq). destruct (Hin k Hk') as [Ht Hc].
    rewrite (EntityID_Eq_spec EntityType_Host) in Eq by done. by apply bool_decide_eq_true in Eq as <-.
  - intros Hc. apply (list_elem_of_filter (has_type EntityType_Host)) in Hc. rewrite <- Hk in Hc by done.
    apply (list_elem_of_fmap kaEid) in Hc as (k & -> & Hk'). exists k. split; [done|].
    rewrite (EntityID_Eq_spec EntityType_Host) by by apply Hin. by apply bool_decide_eq_true.
Qed.

Lemma good_shape os o : good_next os o → shape_ok os (orChange o).
Proof. intros []. repeat split; done. Qed.

Lemma represents_snoc os h o ret ts :
  represents os h → (len os + 1 < 2 ^ 64)%Z → hcHost (orChange o) = (if decide (os = []) then hcSigner (orChange o) else host_of os) →
  stSeqno (raw ret) = (len os + 1)%Z → stTail (raw ret) = orHash o → stHost (raw ret) = hcHost (orChange o) →
  keys_rep ret (link_keys (current_keys os) o) (link_revoked (revoked_keys os) o) →
  ts = recorded_tails (os ++ [o]) →
  represents (os ++ [o]) (mkHostchain (hKeys ret) (raw ret) ts (revoked ret)).
Proof.
  intros Hr Hroom Hh S T Ho Hk Ht. split; cbn [raw tails].
  - unfold len in *. rewrite length_app. simpl. lia.
  - rewrite S. unfold len. rewrite length_app. simpl. lia.
  - rewrite T. unfold last_hash. by rewrite last_snoc.
  - rewrite Ho, Hh. by destruct os.
  - done.
  - unfold current_keys, revoked_keys. by rewrite !foldl_snoc.
Qed.

Lemma Play_ok os h l h' :
  represents os h → Play h l = Ok h' →
  ∃ o, OpenHostchainChangeLink l = Ok o ∧ good_next os o ∧ represents (os ++ [o]) h'.
Proof.
  intros Hr HP. unfold Play in HP. apply bind_Ok in HP as (o & Ho & HP). exists o. split; [done|].
  apply bind_Ok in HP as ([ret vs] & Hpc & HP).
  destruct (playChanges_rep os h o Hr) as [Hfwd Hback].
  assert (shape_ok os (orChange o)) as Hsh by (apply Hback; by rewrite Hpc).
  destruct (Hfwd Hsh) as (ret' & Hpc' & S & T & Hh & Htl & Hk).
  rewrite Hpc in Hpc'. injection Hpc' as <- ->. destruct Hsh as (Hseq & Hroom & Hprev & Hhost & Hok & Hne).
  apply bind_Ok in HP as ([] & Hv & HP). rewrite S in HP. destruct (len_pos os) as [_ He].
  unfold HostchainEldestSeqno in HP. rewrite He in HP.
  destruct (decide (os = [])) as [Hos|Hos].
  - rewrite bool_decide_eq_true_2 in HP by done. injection HP as <-. split.
    { split; rewrite ?decide_True by done; auto. by destruct 1. }
    destruct ret as [k r t rv]. cbn in Htl. subst os t.
    by apply (represents_snoc [] h o (mkHostchain k r [] rv)).
  - rewrite bool_decide_eq_false_2 in HP by done. cbn [negb] in HP.
    unfold Last, link_signers in HP. rewrite last_snoc in HP. cbn in HP.
    apply bind_Ok in HP as (f & Hf & HP).
    assert (length (hcSigner (orChange o)) ≤ 34)%nat as Hl.
    { unfold EntityID_Fixed, len in Hf. inv_ok. lia. }
    rewrite EntityID_Fixed_fixed in Hf by done. injection Hf as <-.
    apply bind_Ok in HP as (? & Hrv & HP). apply guard_err_Ok in Hrv.
    apply bind_Ok in HP as (? & Hfind & HP). apply guard_err_Ok, negb_false_iff in Hfind.
    apply (findHostKey_rep os) in Hfind as [Hty Hin]; [|done].
    rewrite (proj2 (rep_keys _ _ Hr)) in Hrv by by rewrite (fixed_type _ _ Hty). apply bool_decide_eq_false in Hrv.
    injection HP as <-. split.
    { split; rewrite ?decide_False by done; auto.
      apply nonempty_type. by eexists. }
    apply (represents_snoc os h); try done; [by rewrite decide_False|].
    rewrite recorded_tails_snoc, (rep_seqno _ _ Hr), (rep_tail _ _ Hr), (rep_tails _ _ Hr); done.
Qed.

Lemma Play_accepts os h l o :
  represents os h → OpenHostchainChangeLink l = Ok o → good_next os o →
  ∃ h', Play h l = Ok h' ∧ represents (os ++ [o]) h'.
Proof.
  intros Hr Ho Hg. destruct (playChanges_rep os h o Hr) as [Hfwd _].
  destruct (Hfwd (good_shape _ _ Hg)) as (ret & Hpc & S & _).
  destruct (Play h l) as [h'|e] eqn:HP.
  - exists h'. split; [done|]. apply (Play_ok os) in HP as (o' & Ho' & _ & Hr'); [|done]. congruence.
  - exfalso. unfold Play in HP. rewrite Ho in HP. cbn [mbind result_bind] in HP.
    rewrite Hpc in HP. cbn [mbind result_bind] in HP. rewrite (gn_sigs _ _ Hg) in HP.
    cbn [mbind result_bind] in HP. destruct (len_pos os) as [_ He].
    rewrite S in HP. unfold HostchainEldestSeqno in HP. rewrite He in HP.
    case_bool_decide as Hos; [done|]. cbn [negb] in HP.
    destruct (gn_signer _ _ Hg Hos) as (Hl & Hty & Hin & Hrv).
    unfold Last, link_signers in HP. rewrite last_snoc in HP. cbn [of_option mbind result_bind GetEntityID] in HP.
    rewrite EntityID_Fixed_fixed in HP by done. cbn [mbind result_bind] in HP.
    rewrite (proj2 (rep_keys _ _ Hr)), bool_decide_eq_false_2 in HP by (done || by rewrite (fixed_type _ _ Hty)). cbn in HP.
    by rewrite (proj2 (findHostKey_rep os h _ Hr)) in HP by done.
Qed.

(** ** Playing many links *)
Definition opens (l : HostchainLinkOuter) (o : OpenHostchainChangeLinkRes) : Prop :=
  OpenHostchainChangeLink l = Ok o.
(** A history in which every link is a good next one. *)
Inductive good_chain : list OpenHostchainChangeLinkRes → Prop :=
  | good_nil : good_chain []
  | good_snoc os o : good_chain os → good_next os o → good_chain (os ++ [o]).

Lemma represents_new a : represents [] (NewHostchainWithAddr a).
Proof. done. Qed.

Lemma MultiPlay_ok links : ∀ os h h',
  good_chain os → represents os h → MultiPlay h links = Ok h' →
  ∃ os', Forall2 opens links os' ∧ good_chain (os ++ os') ∧ represents (os ++ os') h'.
Proof.
  induction links as [|l links IH]; intros os h h' Hg Hr HP; simpl in HP.
  { injection HP as <-. exists []. by rewrite app_nil_r. }
  apply bind_Ok in HP as (h1 & HP1 & HP). apply (Play_ok os) in HP1 as (o & Ho & Hn & Hr1); [|done].
  destruct (IH (os ++ [o]) h1 h') as (os' & Ho' & Hg' & Hr'); [by constructor|done|done|].
  exists (o :: os'). rewrite <- app_assoc in Hg', Hr'. by split; [constructor|].
Qed.

Lemma PlayChain_MultiPlay addr links hid h :
  PlayChain addr links hid = Ok h → MultiPlay (NewHostchainWithAddr addr) links = Ok h.
Proof.
  unfold PlayChain. intros (h' & Hm & HP)%bind_Ok. apply bind_Ok in HP as (? & _ & HP).
  by apply bind_Ok in HP as (? & _ & [= <-]).
Qed.

Lemma PlayChain_ok addr links hid h :
  PlayChain addr links hid = Ok h →
  ∃ os, Forall2 opens links os ∧ good_chain os ∧ represents os h.
Proof.
  intros Hm%PlayChain_MultiPlay.
  by apply (MultiPlay_ok links [] _ h (good_nil) (represents_new addr)).
Qed.

Lemma good_chain_lookup os i o :
  good_chain os → os !! i = Some o → good_next (take i os) o.
Proof.
  intros Hg. revert i o. induction Hg as [|os o' Hg IH Hn]; intros i o Hi; [done|].
  destruct (decide (i < length os)) as [Hl|Hl].
  - rewrite lookup_app_l in Hi by done. rewrite take_app_le by lia. by apply IH.
  - assert (i = length os) as -> by (apply lookup_lt_Some in Hi; rewrite length_app in Hi; simpl in Hi; lia).
    rewrite list_lookup_middle in Hi by done. injection Hi as <-. by rewrite take_app_length.
Qed.

(** ** Comparing chains *)
Lemma prev_of os i o :
  good_chain os → os !! S i = Some o →
  ∃ p, os !! i = Some p ∧ bcPrev (hcChainer (orChange o)) = Some (orHash p).
Proof.
  intros Hg Ho. pose proof (gn_prev _ _ (good_chain_lookup _ _ _ Hg Ho)) as Hp.
  assert (is_Some (os !! i)) as [p Hpi].
  { apply lookup_lt_is_Some. apply lookup_lt_Some in Ho. lia. }
  exists p. split; [done|]. rewrite Hp. rewrite decide_False.
  - unfold last_hash. by rewrite (take_S_r _ _ p), last_snoc by done.
  - intros E. apply (f_equal length) in E. rewrite length_take in E. apply lookup_lt_Some in Hpi.
    cbn [length] in E. lia.
Qed.

Definition links_coll_free (links links' : list HostchainLinkOuter) : Prop :=
  ∀ l l' hsh, l ∈ links → l' ∈ links' →
  HostchainLinkHash l = Ok hsh → HostchainLinkHash l' = Ok hsh → l = l'.

Lemma opens_hash l o : opens l o → HostchainLinkHash l = Ok (orHash o).
Proof.
  unfold opens, OpenHostchainChangeLink. intros Ho. apply bind_Ok in Ho as (v & _ & Ho).
  apply bind_Ok in Ho as (? & _ & Ho). apply bind_Ok in Ho as (l1 & _ & Ho).
  apply bind_Ok in Ho as (inner & _ & Ho). apply bind_Ok in Ho as (hsh & Hh & Ho).
  apply bind_Ok in Ho as (t & _ & Ho). case_match; [|done]. by inv_ok.
Qed.

Lemma same_hash_same_past links links' os os' i o o' :
  Forall2 opens links os → Forall2 opens links' os' → good_chain os → good_chain os' →
  links_coll_free links links' →
  os !! i = Some o → os' !! i = Some o' → orHash o = orHash o' → take (S i) links = take (S i) links'.
Proof.
  intros F F' G G' Hc. revert o o'. induction i as [|i IH]; intros o o' Ho Ho' Hh.
  all: destruct (Forall2_lookup_r _ _ _ _ _ F Ho) as (l & Hl & Hop).
  all: destruct (Forall2_lookup_r _ _ _ _ _ F' Ho') as (l' & Hl' & Hop').
  all: assert (l = l') as <-
    by (apply (Hc l l' (orHash o)); [by eapply list_elem_of_lookup_2..|by apply opens_hash|
        rewrite Hh; by apply opens_hash]).
  all: rewrite (take_S_r links _ l), (take_S_r links' _ l) by done.
  { done. }
  f_equal.
  assert (o = o') as <- by (unfold opens in *; congruence).
  destruct (prev_of os i o G Ho) as (p & Hp & E). destruct (prev_of os' i o G' Ho') as (p' & Hp' & E').
  apply (IH p p'); congruence.
Qed.

Lemma find_tail os k t :
  List.find (λ t, Seqno t =? k)%Z (recorded_tails os) = Some t →
  ∃ i o, k = (Z.of_nat i + 1)%Z ∧ os !! i = Some o ∧ htHash t = orHash o.
Proof.
  intros Hf. apply List.find_some in Hf as [Hin Hk]. apply list_elem_of_In in Hin.
  unfold recorded_tails in Hin. apply elem_of_lookup_imap in Hin as (i & o & -> & Hi).
  cbn in Hk. exists i, o. split; [lia|]. apply lookup_take_Some in Hi as [? _]. done.
Qed.

Lemma superchain_hash os os' h prior :
  represents os h → stSeqno (raw prior) = len os' → stTail (raw prior) = last_hash os' →
  os' ≠ [] → CheckIsSuperChainOf h prior = Ok () →
  ∃ i o o', i = (length os' - 1)%nat ∧ os !! i = Some o ∧ os' !! i = Some o' ∧ orHash o = orHash o'.
Proof.
  intros Hr Hs Ht Hne HC. unfold CheckIsSuperChainOf in HC. rewrite Hs, Ht in HC.
  rewrite (rep_seqno _ _ Hr) in HC.
  destruct os' as [|o' os'] using rev_ind; [done|]. clear IHos' Hne.
  unfold last_hash in HC. rewrite last_snoc in HC. exists (length os').
  rewrite length_app. cbn [length]. assert ((os' ++ [o']) !! length os' = Some o') as Ho'
    by (by rewrite list_lookup_middle).
  apply bind_Ok in HC as (? & _ & HC). apply bind_Ok in HC as (? & _ & HC).
  unfold len in HC. rewrite length_app in HC. cbn [length] in HC.
  destruct (Z.eqb_spec (Z.of_nat (length os)) (Z.of_nat (length os' + 1))) as [El|El].
  - apply guard_err_Ok, negb_false_iff in HC. unfold LinkHash_Eq in HC. apply bool_decide_eq_true in HC.
    rewrite (rep_tail _ _ Hr) in HC. destruct os as [|o os] using rev_ind; [simpl in El; lia|].
    unfold last_hash in HC. rewrite last_snoc in HC. rewrite length_app in El. simpl in El.
    exists o, o'. repeat split; try done; try lia. rewrite list_lookup_middle; [done|lia].
  - apply bind_Ok in HC as (t & Hf & HC). apply of_option_Ok in Hf. rewrite (rep_tails _ _ Hr) in Hf.
    apply find_tail in Hf as (i & o & Ei & Ho & Eh). assert (i = length os') as -> by lia.
    apply guard_err_Ok, negb_false_iff in HC. unfold LinkHash_Eq in HC. apply bool_decide_eq_true in HC.
    exists o, o'. repeat split; try done; [lia|congruence].
Qed.

(** ** TLS CAs *)
Definition is_ca (ca : HostTLSCA) : Prop := has_type EntityType_HostTLSCA (caId ca).
#[global] Instance is_ca_dec ca : Decision (is_ca ca).
Proof. unfold is_ca. apply _. Defined.
Definition cas_rep (h : Hostchain) (cs : list HostTLSCA) : Prop := filter is_ca (haCa <$> stCas (raw h)) = filter is_ca cs.

Lemma cas_rep_raw h h' cs : raw h' = raw h → cas_rep h cs → cas_rep h' cs.
Proof. unfold cas_rep. by intros ->. Qed.
Lemma addKey_raw h e h' : addKey h e = Ok h' → raw h' = raw h.
Proof. intros (t & _ & [= <-])%bind_Ok. done. Qed.

Lemma filter_cas e (l : list HostTLSCAAtSeqno) :
  filter is_ca (haCa <$> filter (λ k, EntityID_Eq (caId (haCa k)) e = false) l) =
  filter (λ ca, caId ca ≠ e) (filter is_ca (haCa <$> l)).
Proof.
  induction l as [|k l IH]; [done|]. cbn [fmap list_fmap]. rewrite (filter_cons is_ca). destruct (decide (is_ca (haCa k))) as [Hc|Hc].
  - pose proof (EntityID_Eq_spec _ _ e Hc) as Eq. rewrite (filter_cons (λ ca, caId ca ≠ e)).
    rewrite (filter_cons (λ k, EntityID_Eq (caId (haCa k)) e = false)).
    destruct (decide (caId (haCa k) = e)) as [He|He].
    + rewrite bool_decide_eq_true_2 in Eq by done. rewrite decide_False by (by rewrite Eq). by rewrite decide_False by (intros []; done).
    + rewrite bool_decide_eq_false_2 in Eq by done. rewrite decide_True by done. rewrite decide_True by done.
      cbn [fmap list_fmap]. rewrite (filter_cons_True is_ca) by done. by f_equal.
  - rewrite <- IH. rewrite (filter_cons (λ k, EntityID_Eq (caId (haCa k)) e = false)). case_decide; [|done].
    cbn [fmap list_fmap]. by rewrite (filter_cons_False is_ca).
Qed.

Lemma filter_cas_swap e (cs : list HostTLSCA) :
  filter (λ ca, caId ca ≠ e) (filter is_ca cs) = filter is_ca (filter (λ ca, caId ca ≠ e) cs).
Proof. rewrite !list_filter_filter. apply list_filter_iff. naive_solver. Qed.

Lemma revoke_cas h e h' cs : cas_rep h cs → revoke h e = Ok h' → cas_rep h' (filter (λ ca, caId ca ≠ e) cs).
Proof.
  intros Hc HR. unfold revoke in HR. apply bind_Ok in HR as (t & Ht & HR). apply EntityID_Type_Ok in Ht. unfold cas_rep in *.
  rewrite <- filter_cas_swap, <- Hc. destruct (Z.eqb_spec t EntityType_HostTLSCA) as [->|Hne].
  - injection HR as <-. cbn [raw with_raw revokeTLSCA with_Cas stCas]. by rewrite removeIndices_filter, filter_cas.
  - unfold revokeKey in HR. apply bind_Ok in HR as (? & _ & HR). apply bind_Ok in HR as (f & _ & [= <-]). cbn [raw].
    rewrite list_filter_filter. apply list_filter_iff. intros ca. unfold is_ca, has_type in *. split; [|by intros [_ ?]].
    intros Hca. split; [|done]. intros E. rewrite E in Hca. congruence.
Qed.

Lemma playChange_cas h c keys h' keys' cs :
  cas_rep h cs → playChange h c keys = Ok (h', keys') → cas_rep h' (item_cas cs c).
Proof.
  intros Hc HP. unfold playChange in HP. apply bind_Ok in HP as (t & Ht & HP).
  assert (t = ci_T c) as -> by (unfold ChangeItem_GetT in Ht; by inv_ok). clear Ht.
  unfold item_cas, revokes, adds_ca. destruct (ci_T c =? HostchainChangeType_Revoke)%Z eqn:E1.
  { apply bind_Ok in HP as (e & He & HP). apply bind_Ok in HP as (h1 & HR & [= <- _]).
    unfold Revoke in He. apply bind_Ok in He as (v & Hv & He). apply of_option_Ok in Hv. rewrite Hv.
    apply bind_Ok in He as (? & _ & [= ->]). by eapply revoke_cas. }
  destruct (ci_T c =? HostchainChangeType_Key)%Z eqn:E2.
  { apply Z.eqb_eq in E2. rewrite E2. apply bind_Ok in HP as (e & _ & HP). apply bind_Ok in HP as (h1 & Ha & [= <- _]).
    apply (cas_rep_raw h); [by eapply addKey_raw|done]. }
  destruct (ci_T c =? HostchainChangeType_TLSCA)%Z eqn:E3; [|by injection HP as <- _].
  apply bind_Ok in HP as (ca & Hca & HP). unfold Tlsca in Hca. apply bind_Ok in Hca as (v & Hv & Hca). apply of_option_Ok in Hv.
  rewrite Hv. apply bind_Ok in Hca as (? & _ & [= ->]).
  apply bind_Ok in HP as (pk & _ & HP). apply bind_Ok in HP as (? & _ & HP). apply bind_Ok in HP as (epk & _ & HP).
  apply bind_Ok in HP as (? & _ & [= <- _]). unfold cas_rep in *. cbn [raw with_raw with_Cas stCas].
  rewrite fmap_app, !filter_app, Hc. done.
Qed.

Lemma play_items_cas l : ∀ h keys h' keys' cs,
  cas_rep h cs → play_items h l keys = Ok (h', keys') → cas_rep h' (foldl item_cas cs l).
Proof.
  induction l as [|c l IH]; intros h keys h' keys' cs Hc HP; cbn [play_items foldl] in *; [by injection HP as <- _|].
  apply bind_Ok in HP as ([h1 ks1] & Hp1 & HP). eapply IH; [|done]. by eapply playChange_cas.
Qed.

Lemma Play_cas h l o h' cs :
  opens l o → cas_rep h cs → Play h l = Ok h' → cas_rep h' (foldl item_cas cs (hcChanges (orChange o))).
Proof.
  intros Ho Hc HP. unfold Play in HP. unfold opens in Ho. rewrite Ho in HP. cbn [mbind result_bind] in HP.
  apply bind_Ok in HP as ([ret vs] & Hpc & HP). apply bind_Ok in HP as (? & _ & HP).
  assert (cas_rep ret (foldl item_cas cs (hcChanges (orChange o)))) as Hret.
  { unfold playChanges in Hpc. apply bind_Ok in Hpc as (? & _ & Hpc). apply bind_Ok in Hpc as (? & _ & Hpc).
    apply bind_Ok in Hpc as ([r1 k1] & Hi & Hpc). eapply play_items_cas in Hi; [|exact Hc].
    apply bind_Ok in Hpc as (r2 & Ha & [= <- _]). destruct (_ =? _)%Z; [|by injection Ha as <-].
    eapply cas_rep_raw; [by eapply addKey_raw|done]. }
  case_match; [|by injection HP as <-]. apply bind_Ok in HP as (? & _ & HP).
  apply bind_Ok in HP as (? & _ & HP). apply bind_Ok in HP as (? & _ & HP).
  apply bind_Ok in HP as (? & _ & [= <-]). exact Hret.
Qed.

Lemma MultiPlay_cas_from links : ∀ os h h' cs,
  Forall2 opens links os → MultiPlay h links = Ok h' → cas_rep h cs →
  cas_rep h' (foldl (λ cs o, foldl item_cas cs (hcChanges (orChange o))) cs os).
Proof.
  induction links as [|l links IH]; intros os h h' cs F HP Hc; inversion F as [|? o ? os' Ho F']; subst; cbn [MultiPlay foldl] in *.
  { by injection HP as <-. }
  apply bind_Ok in HP as (h1 & Hp1 & HP). eapply IH; [done..|]. by eapply Play_cas.
Qed.
Lemma MultiPlay_cas addr links os h :
  Forall2 opens links os → MultiPlay (NewHostchainWithAddr addr) links = Ok h → cas_rep h (current_cas os).
Proof. intros F HP. by eapply MultiPlay_cas_from. Qed.

(** ** Keys are filed under their type *)
Definition keys_typed (h : Hostchain) : Prop :=
  ∀ t k, k ∈ keys_of h t → has_type t (kaEid k).

Lemma addKey_typed h e h' : keys_typed h → addKey h e = Ok h' → keys_typed h'.
Proof.
  intros Hty Ha. unfold addKey in Ha. apply bind_Ok in Ha as (t & Ht & [= <-]).
  apply EntityID_Type_Ok in Ht. intros t' k. unfold keys_of, with_keys, map_append. cbn [hKeys].
  destruct (decide (t' = t)) as [->|Hne].
  - rewrite lookup_insert, decide_True by done. simpl. rewrite elem_of_app, list_elem_of_singleton.
    intros [Hk| ->]; [by apply Hty|done].
  - rewrite lookup_insert_ne by done. apply Hty.
Qed.

Lemma revoke_typed h e h' : keys_typed h → revoke h e = Ok h' → keys_typed h'.
Proof.
  intros Hty Hv. unfold revoke in Hv. apply bind_Ok in Hv as (t & Ht & Hv).
  case_match; [by injection Hv as <-|]. unfold revokeKey in Hv. rewrite Ht in Hv. cbn in Hv.
  apply bind_Ok in Hv as (f & _ & [= <-]). intros t' k. unfold keys_of. cbn [hKeys].
  rewrite removeIndices_filter. destruct (decide (t' = t)) as [->|Hne].
  - rewrite lookup_insert, decide_True by done. simpl.
    intros [_ Hk]%list_elem_of_filter. by apply Hty.
  - rewrite lookup_insert_ne by done. apply Hty.
Qed.

Lemma play_items_typed l : ∀ h keys h' keys',
  keys_typed h → play_items h l keys = Ok (h', keys') → keys_typed h'.
Proof.
  induction l as [|c l IH]; intros h keys h' keys' Hty HP; cbn [play_items] in HP.
  { by injection HP as <- <-. }
  apply bind_Ok in HP as ([h1 ks1] & Hc & HP). eapply IH; [|done]. clear HP IH.
  unfold playChange in Hc. apply bind_Ok in Hc as (t & _ & Hc).
  destruct (t =? HostchainChangeType_Revoke)%Z.
  { apply bind_Ok in Hc as (e & _ & Hc). apply bind_Ok in Hc as (h2 & Hv & [= <- _]).
    by eapply revoke_typed. }
  destruct (t =? HostchainChangeType_Key)%Z.
  { apply bind_Ok in Hc as (e & _ & Hc). apply bind_Ok in Hc as (h2 & Hv & [= <- _]).
    by eapply addKey_typed. }
  destruct (t =? HostchainChangeType_TLSCA)%Z; [|by injection Hc as <- _].
  apply bind_Ok in Hc as (ca & _ & Hc). apply bind_Ok in Hc as (pk & _ & Hc).
  apply bind_Ok in Hc as (? & _ & Hc). apply bind_Ok in Hc as (epk & _ & Hc).
  apply bind_Ok in Hc as (? & _ & [= <- _]). exact Hty.
Qed.

Lemma Play_typed h l h' : keys_typed h → Play h l = Ok h' → keys_typed h'.
Proof.
  intros Hty HP. unfold Play in HP. apply bind_Ok in HP as (o & _ & HP).
  apply bind_Ok in HP as ([ret vs] & Hpc & HP). apply bind_Ok in HP as (? & _ & HP).
  assert (keys_typed ret) as Hret.
  { unfold playChanges in Hpc. apply bind_Ok in Hpc as (? & _ & Hpc).
    apply bind_Ok in Hpc as (? & _ & Hpc). apply bind_Ok in Hpc as ([r1 k1] & Hi & Hpc).
    apply play_items_typed in Hi; [|exact Hty].
    apply bind_Ok in Hpc as (r2 & Ha & [= <- _]). destruct (_ =? _)%Z; [exact (addKey_typed _ _ _ Hi Ha)|].
    by injection Ha as <-. }
  case_match; [|by injection HP as <-]. apply bind_Ok in HP as (? & _ & HP).
  apply bind_Ok in HP as (? & _ & HP). apply bind_Ok in HP as (? & _ & HP).
  apply bind_Ok in HP as (? & _ & [= <-]). exact Hret.
Qed.

Lemma import_keys_typed l : ∀ m m',
  (∀ t k, k ∈ default [] (m !! t) → has_type t (kaEid k)) → import_keys m l = Ok m' →
  ∀ t k, k ∈ default [] (m' !! t) → has_type t (kaEid k).
Proof.
  induction l as [|x l IH]; intros m m' Hm HI; cbn in HI; [by injection HI as <-|].
  apply bind_Ok in HI as (t & Ht & HI). apply EntityID_Type_Ok in Ht. eapply IH; [|done].
  intros t' k. unfold map_append. destruct (decide (t' = t)) as [->|Hne].
  - rewrite lookup_insert, decide_True by done. simpl. rewrite elem_of_app, list_elem_of_singleton.
    intros [Hk| ->]; [by apply Hm|done].
  - rewrite lookup_insert_ne by done. apply Hm.
Qed.

(** C37: Every key of a host chain is filed under its own type: a chain loaded from any
    exported state has it, and playing a link keeps it, so that a key of one type is never
    returned as a key of another. *)
Theorem host_keys_filed_by_type h h' :
  (∀ x, Hostchain_Import h x = Ok h' → keys_typed h') ∧
  (∀ l, keys_typed h → Play h l = Ok h' → keys_typed h').
Proof.
  split; [|intros l; by apply Play_typed]. intros x HI. unfold Hostchain_Import in HI.
  apply bind_Ok in HI as (m & Hm & [= <-]). intros t k. unfold keys_of. cbn [hKeys].
  rewrite lookup_fmap. destruct (m !! t) as [l|] eqn:El; simpl; [|set_solver].
  rewrite sort_Slice_perm. intros Hk. eapply (import_keys_typed _ ∅); [|done|by rewrite El].
  intros t' k'. rewrite lookup_empty. simpl. set_solver.
Qed.

(** ** What a client learns from a chain it has played *)

(** C10: Of every type but that of TLS CAs, the keys a played chain reports are exactly those that some link added and no
    later change revoked, most recent first; the CAs it holds are exactly those that were added and not
    revoked, oldest first (of those that have a CA's identifier); the host's identity is the key that signed the first link. *)
Theorem played_keys_exact addr links hid h :
  PlayChain addr links hid = Ok h →
  ∃ os, Forall2 opens links os ∧
    (∀ t, t ≠ EntityType_HostTLSCA → Keys h t = rev (filter (has_type t) (current_keys os))) ∧
    filter is_ca (haCa <$> stCas (raw h)) = filter is_ca (current_cas os) ∧
    Hostchain_HostID h = host_of os ∧ stSeqno (raw h) = len os ∧ stTail (raw h) = last_hash os.
Proof.
  intros HP. pose proof (PlayChain_MultiPlay _ _ _ _ HP) as Hm. apply PlayChain_ok in HP as (os & F & _ & Hr). exists os.
  split; [done|]. destruct Hr as [_ Hs Ht Hh _ [Hk _]]. split; [|split; [|done]].
  - intros t Hty. unfold Keys. by rewrite Hk.
  - by apply (MultiPlay_cas addr links).
Qed.

(** A key of the type of TLS CAs that was added as a key stays among the keys when it is revoked. *)
Lemma tlsca_key_survives_revocation h e h' :
  has_type EntityType_HostTLSCA e → revoke h e = Ok h' → Keys h' EntityType_HostTLSCA = Keys h EntityType_HostTLSCA.
Proof. intros He. unfold revoke. rewrite (proj2 (EntityID_Type_Ok e _) He). by intros [= <-]. Qed.

(** C16: In an accepted host chain every link but the first is signed, over its contents and
    all its new keys' signatures, by a host key that earlier links made current and none revoked;
    it names the same host, its sequence number is one more, and it points to the link before. *)
Theorem host_links_authorized addr links hid h i l :
  PlayChain addr links hid = Ok h → links !! S i = Some l →
  ∃ os o, Forall2 opens (take (S i) links) os ∧ opens l o ∧
    let signer := hcSigner (orChange o) in
    has_type EntityType_Host signer ∧ signer ∈ current_keys os ∧ fixed signer ∉ revoked_keys os ∧
    (VerifyStackedSignature (orL1 o)
       (concat (map item_signers (hcChanges (orChange o))) ++ [EntityPublicEd25519 signer])).2 = Ok () ∧
    hcHost (orChange o) = host_of os ∧
    bcSeqno (hcChainer (orChange o)) = (Z.of_nat (S i) + 1)%Z ∧
    bcPrev (hcChainer (orChange o)) = Some (last_hash os).
Proof.
  intros (os & F & G & _)%PlayChain_ok Hl. destruct (Forall2_lookup_l _ _ _ _ _ F Hl) as (o & Ho & Hop).
  pose proof (good_chain_lookup _ _ _ G Ho) as Hn. apply lookup_lt_Some in Ho.
  assert (take (S i) os ≠ []) as Hne by (destruct os; [simpl in Ho; lia|done]).
  exists (take (S i) os), o. split; [by apply Forall2_take|]. split; [done|].
  destruct Hn as [Hseq _ Hprev Hhost _ _ Hsig Hsigner]. destruct (Hsigner Hne) as (_ & ? & ? & ?).
  rewrite decide_False in Hprev by done. rewrite decide_False in Hhost by done. repeat split; try done.
  rewrite Hseq. unfold len. rewrite length_take. f_equal. lia.
Qed.

(** C20: When a newly played chain passes the check against an earlier one, the links of the
    earlier chain are a prefix of the new one's: a host cannot rewrite or drop what a client
    has seen, unless two links share a hash. *)
Theorem prior_chain_is_prefix addr addr' hid hid' links links' h h' prior :
  PlayChain addr links hid = Ok h → PlayChain addr' links' hid' = Ok h' →
  stSeqno (raw prior) = stSeqno (raw h') → stTail (raw prior) = stTail (raw h') →
  CheckChainAgainstPriorChains h (Some prior) = Ok () →
  links_coll_free links links' → links' = take (length links') links.
Proof.
  intros (os & F & G & Hr)%PlayChain_ok (os' & F' & G' & Hr')%PlayChain_ok Hs Ht HC Hc.
  destruct (decide (os' = [])) as [->|Hne].
  { by apply Forall2_nil_inv_r in F' as ->. }
  rewrite (rep_seqno _ _ Hr') in Hs. rewrite (rep_tail _ _ Hr') in Ht.
  destruct (superchain_hash os os' h prior) as (i & o & o' & Hi & Ho & Ho' & Eh); [done..|].
  pose proof (same_hash_same_past _ _ _ _ _ _ _ F F' G G' Hc Ho Ho' Eh) as E.
  pose proof (Forall2_length _ _ _ F') as El. apply lookup_lt_Some in Ho'.
  replace (length links') with (S i) by lia. rewrite E. symmetry. apply take_ge. lia.
Qed.

(** A chain in hand accepts exactly the good next links: from the state any accepted
    links lead to, a link plays if and only if it opens, has the next sequence number, points to
    the last link, names the host, has playable items, is signed by every new key and then by its signer,
    and its signer is a current host key that is not revoked. *)
Theorem play_accepts_exactly addr links h os l :
  MultiPlay (NewHostchainWithAddr addr) links = Ok h → Forall2 opens links os →
  is_ok (Play h l) = true ↔ ∃ o, opens l o ∧ good_next os o.
Proof.
  intros HP F. apply (MultiPlay_ok links [] _ h good_nil (represents_new addr)) in HP as (os' & F' & _ & Hr).
  assert (os' = os) as ->.
  { clear -F F'. revert os F. induction F' as [|a b la lb Hab _ IH]; intros os F.
    - by apply Forall2_nil_inv_l in F as ->.
    - apply Forall2_cons_inv_l in F as (b' & lb' & Hab' & F & ->). unfold opens in *.
      f_equal; [congruence|by apply IH]. }
  split.
  - destruct (Play h l) as [h'|] eqn:E; [|done]. intros _.
    apply (Play_ok os) in E as (o & ? & ? & _); [|done]. by exists o.
  - intros (o & Ho & Hg). by destruct (Play_accepts os h l o Hr Ho Hg) as (h' & -> & _).
Qed.
End facts.
