(* ===== verification/HostChainWriter.v ===== *)
(** * Writing host chains ([server/shared/hostchains.go])

    The server's side of a host chain: the keys it holds, the links it has made,
    and the rows of its configuration database that the operations touch.  The
    links it makes are accepted by the client code of [HostChain].

    The clock, the current Merkle root and the certificate manager are arguments.
    A failed operation rolls its transaction back; on success the state in memory
    is updated after the commit, as in the code. *)
From S2P Require Import Prelude Snowp MerkleTypes Role Roster TeamRoster Sigs HostChain HostChainFacts.

Abbreviation HostKey := EntityPrivateEd25519.

(** Rows of [host_keys] (type, key, [state = 'valid']), of [hostchain_links] by sequence number, and
    the number of rows of [x509_assets] per key, for this host. *)
Record HostDB := mkHostDB {
  host_keys : list (EntityType * EntityID * bool);
  hostchain_links : gmap Z (HostchainLinkOuter * bytes);
  x509_assets : gmap EntityID nat
}.

Record HostChain := mkHostChain {
  srvHostID : HostID;
  srvKeys : gmap EntityType (list HostKey);
  srvCerts : gmap EntityID bytes;
  srvLinks : list HostchainLinkOuter
}.
Definition srv_keys (h : HostChain) (t : EntityType) : list HostKey := default [] (srvKeys h !! t).

Definition EntityID_HostID (e : EntityID) : result HostID :=
  t ← EntityID_Type e;
  _ ← guard_err (negb (t =? EntityType_Host)%Z || negb (len e =? EntityType_Len t)%Z) (EntityError "not a host");
  Ok e.
Definition ToHostTLSCAID (e : EntityID) : result EntityID :=
  t ← EntityID_Type e;
  _ ← guard_err (negb (t =? EntityType_HostTLSCA)%Z || negb (len e =? EntityType_Len t)%Z)
        (EntityError "not a host tls ca");
  Ok e.

Section writer.
Context `{Codec} `{Crypto} `{HostchainLib}.
Context (enc_HostchainLinkInner : HostchainLinkInner → result bytes).

Definition HostKey_EntityID (k : HostKey) : result EntityID :=
  pub ← EntityPrivate_EntityPublic k; Ok (GetEntityID pub).
Definition HostKey_HostID (k : HostKey) : result HostID :=
  eid ← HostKey_EntityID k; EntityID_HostID eid.

(** ** Making links *)
Definition sealLink (chng : HostchainChange) (keys : list HostKey) : result HostchainLinkOuter :=
  blob ← enc_HostchainLinkInner (mkHostchainLinkInner HostchainLinkType_Change (Some chng));
  let '(v1, res) := SignStacked (mkHostchainLinkOuterV1 blob []) keys in
  _ ← res;
  Ok (NewHostchainLinkOuterWithV1 v1).

Definition makeChangeLink (h : HostChain) (now : Z) (merkleRoot : result TreeRoot)
    (items : list HostchainChangeItem) (signers : list HostKey) : result (HostchainLinkOuter * Z) :=
  last_ ← of_option (HostchainError "no links found") (last (srvLinks h));
  chng ← OpenHostchainChangeLink last_;
  signer ← of_option (HostchainError "no host key found") (last (srv_keys h EntityType_Host));
  signerId ← HostKey_HostID signer;
  let seqno := wrap64 (bcSeqno (hcChainer (orChange chng)) + 1) in
  root ← merkleRoot;
  let link := mkHostchainChange (mkBaseChainer seqno (Some (orHash chng)) root now)
                (srvHostID h) signerId items in
  ret ← sealLink link (signers ++ [signer]);
  Ok (ret, seqno).

Definition makeNewKeyLink (h : HostChain) (now : Z) (root : result TreeRoot) (new : HostKey) (cert : bytes)
  : result (HostchainLinkOuter * Z) :=
  newEid ← HostKey_EntityID new;
  t ← EntityID_Type newEid;
  _ ← guard_err (negb (Bool.eqb (0 <? len cert)%Z (t =? EntityType_HostTLSCA)%Z)) (HostKeyError "invalid cert");
  item ← (if (0 <? len cert)%Z
          then id ← ToHostTLSCAID newEid; Ok (NewHostchainChangeItemWithTlsca (mkHostTLSCA id cert))
          else Ok (NewHostchainChangeItemWithKey newEid));
  makeChangeLink h now root [item] [new].

Definition makeRevokeLink (h : HostChain) (now : Z) (root : result TreeRoot) (keys : list EntityID)
  : result (HostchainLinkOuter * Z) :=
  makeChangeLink h now root (map NewHostchainChangeItemWithRevoke keys) [].

(** ** The database *)
Definition WriteChainLinkToDB (db : HostDB) (link : HostchainLinkOuter) (seqno : Z) : result HostDB :=
  hsh ← HostchainLinkHash link;
  _ ← guard_err (bool_decide (is_Some (hostchain_links db !! seqno))) (SqlError "duplicate key");
  Ok (mkHostDB (host_keys db) (<[seqno := (link, hsh)]> (hostchain_links db)) (x509_assets db)).

Definition txWritePubToDB (db : HostDB) (k : HostKey) (typ : EntityType) : result HostDB :=
  eid ← HostKey_EntityID k;
  _ ← guard_err (existsb (λ r, (r.1.1 =? typ)%Z && bool_decide (r.1.2 = eid)) (host_keys db))
        (SqlError "duplicate key");
  Ok (mkHostDB (host_keys db ++ [(typ, eid, true)]) (hostchain_links db) (x509_assets db)).

(** [UPDATE host_keys SET state='revoked' WHERE ... AND state='valid'], which must change one row. *)
Definition row_matches (typ : EntityType) (e : EntityID) (r : EntityType * EntityID * bool) : bool :=
  (r.1.1 =? typ)%Z && bool_decide (r.1.2 = e) && r.2.
Definition revoke_row (db : HostDB) (e : EntityID) : result HostDB :=
  typ ← EntityID_Type e;
  _ ← guard_err (negb (len (List.filter (row_matches typ e) (host_keys db)) =? 1)%Z)
        (UpdateError "failed to update all key revokes");
  _ ← guard_err ((typ =? EntityType_HostTLSCA)%Z && negb (default 0%nat (x509_assets db !! e) =? 1)%nat)
        (UpdateError "failed to update all cert revokes");
  Ok (mkHostDB (map (λ r, if row_matches typ e r then (r.1, false) else r) (host_keys db))
        (hostchain_links db) (x509_assets db)).

Fixpoint revoke_rows (db : HostDB) (keys : list EntityID) : result HostDB :=
  match keys with [] => Ok db | e :: keys => db ← revoke_row db e; revoke_rows db keys end.

Definition writeRevokesToDB (db : HostDB) (keys : list EntityID) : result HostDB :=
  db ← revoke_rows db keys;
  _ ← guard_err (len (List.filter (λ r, (r.1.1 =? EntityType_Host)%Z && r.2) (host_keys db)) <? 1)%Z
        (UpdateError "can't revoke all host keys");
  Ok db.

(** ** Operations *)
(** The keys other than [e]; a TLS CA that goes takes its certificate along. *)
Fixpoint prune_keys (typ : EntityType) (e : EntityID) (certs : gmap EntityID bytes) (v : list HostKey)
  : result (list HostKey * gmap EntityID bytes) :=
  match v with
  | [] => Ok ([], certs)
  | k2 :: v =>
      eid ← HostKey_EntityID k2;
      certs ← (if EntityID_Eq eid e && (typ =? EntityType_HostTLSCA)%Z
               then caid ← ToHostTLSCAID eid; Ok (delete caid certs) else Ok certs);
      '(newV, certs) ← prune_keys typ e certs v;
      Ok (if EntityID_Eq eid e then newV else k2 :: newV, certs)
  end.

Fixpoint pruneState (h : HostChain) (keys : list EntityID) : result HostChain :=
  match keys with
  | [] => Ok h
  | k1 :: keys =>
      typ ← EntityID_Type k1;
      '(newV, certs) ← prune_keys typ k1 (srvCerts h) (srv_keys h typ);
      pruneState (mkHostChain (srvHostID h) (<[typ := newV]> (srvKeys h)) certs (srvLinks h)) keys
  end.

Definition srv_Revoke (db : HostDB) (h : HostChain) (now : Z) (root : result TreeRoot) (keys : list EntityID)
  : result (HostDB * HostChain) :=
  '(link, seqno) ← makeRevokeLink h now root keys;
  db ← WriteChainLinkToDB db link seqno;
  db ← writeRevokesToDB db keys;
  h ← pruneState (mkHostChain (srvHostID h) (srvKeys h) (srvCerts h) (srvLinks h ++ [link])) keys;
  Ok (db, h).

(** [NewKey] with the generated key; for a TLS CA, [generateCA] has filed the key and its
    certificate first, and the commit files the key a second time. *)
Definition srv_NewKey (db : HostDB) (h : HostChain) (now : Z) (root : result TreeRoot)
    (typ : EntityType) (newKey : HostKey) (newCert : bytes)
    (PutCert : gmap EntityID nat → EntityID → result (gmap EntityID nat)) : result (HostDB * HostChain) :=
  eid ← HostKey_EntityID newKey;
  let ca := (typ =? EntityType_HostTLSCA)%Z in
  let h := if ca
           then mkHostChain (srvHostID h) (<[typ := srv_keys h typ ++ [newKey]]> (srvKeys h))
                  (<[eid := newCert]> (srvCerts h)) (srvLinks h)
           else h in
  '(link, seqno) ← makeNewKeyLink h now root newKey (if ca then newCert else []);
  db ← WriteChainLinkToDB db link seqno;
  db ← txWritePubToDB db newKey typ;
  x509 ← (if ca then PutCert (x509_assets db) eid else Ok (x509_assets db));
  Ok (mkHostDB (host_keys db) (hostchain_links db) x509,
      mkHostChain (srvHostID h) (<[typ := srv_keys h typ ++ [newKey]]> (srvKeys h)) (srvCerts h)
        (srvLinks h ++ [link])).
(** ** Forging a chain *)

(** The newest key of a type, if there is one. *)
Definition keypair (h : HostChain) (t : EntityType) : result (option (HostKey * EntityID)) :=
  match last (srv_keys h t) with
  | None => Ok None
  | Some key => eid ← HostKey_EntityID key; Ok (Some (key, eid))
  end.

Fixpoint tlsca_items (certs : gmap EntityID bytes) (l : list HostKey) : result (list HostchainChangeItem) :=
  match l with
  | [] => Ok []
  | key :: l =>
      eid ← HostKey_EntityID key;
      tlscaid ← ToHostTLSCAID eid;
      cert ← of_option (HostKeyError "no cert found") (certs !! tlscaid);
      items ← tlsca_items certs l;
      Ok (NewHostchainChangeItemWithTlsca (mkHostTLSCA tlscaid cert) :: items)
  end.

Definition key_item (p : option (HostKey * EntityID)) : list HostchainChangeItem * list HostKey :=
  match p with
  | Some (priv, eid) => ([NewHostchainChangeItemWithKey eid], [priv])
  | None => ([], [])
  end.

Definition makeEldestLink (h : HostChain) (now : Z) (zeroRoot : TreeRoot) : result (HostchainLinkOuter * Z) :=
  let seqno := HostchainEldestSeqno in
  items ← tlsca_items (srvCerts h) (srv_keys h EntityType_HostTLSCA);
  merkle ← keypair h EntityType_HostMerkleSigner;
  metadata ← keypair h EntityType_HostMetadataSigner;
  let chng := mkHostchainChange (mkBaseChainer seqno None zeroRoot now) (srvHostID h) (srvHostID h)
                (items ++ (key_item merkle).1 ++ (key_item metadata).1) in
  host ← of_option (HostKeyError "no host key found") (last (srv_keys h EntityType_Host));
  ret ← sealLink chng (srv_keys h EntityType_HostTLSCA ++ (key_item merkle).2 ++ (key_item metadata).2 ++ [host]);
  Ok (ret, seqno).

Fixpoint write_pubs (db : HostDB) (l : list (EntityType * HostKey)) : result HostDB :=
  match l with [] => Ok db | (typ, k) :: l => db ← txWritePubToDB db k typ; write_pubs db l end.

(** The keys of the map in some order, each with its type. *)
Definition keys_list (h : HostChain) : list (EntityType * HostKey) :=
  concat (map (λ p, map (λ k, (p.1, k)) p.2) (map_to_list (srvKeys h))).

(** [initWithKeys], which [Forge] calls when the keys are generated.  [writeNewCert] is
    [writeNewCertToDB] with the certificate manager; the rows of the host's identity, name and
    configuration are not in [HostDB]. *)
Definition initWithKeys (db : HostDB) (h : HostChain) (now : Z) (zeroRoot : TreeRoot)
    (writeNewCert : gmap EntityID nat → result (gmap EntityID nat)) : result (HostDB * HostChain) :=
  '(link, seqno) ← makeEldestLink h now zeroRoot;
  db ← write_pubs db (keys_list h);
  db ← WriteChainLinkToDB db link seqno;
  x509 ← writeNewCert (x509_assets db);
  Ok (mkHostDB (host_keys db) (hostchain_links db) x509, mkHostChain (srvHostID h) (srvKeys h) (srvCerts h) (srvLinks h ++ [link])).

(** ** The links the server makes are accepted

    What is relied on: a link's inner part decodes to what was encoded, the signature scheme
    accepts its own signatures, a key pair's public half has 32 bytes. *)
Class WriterLaws := {
  dec_enc_inner : ∀ x b, enc_HostchainLinkInner x = Ok b → dec_HostchainLinkInner b = Ok x;
  writer_sign :: SignLaws
}.

#[global] Instance HostchainLinkOuterV1_laws : StackedLaws (T := HostchainLinkOuterV1).
Proof. split; [done|done|]. by intros []. Qed.

(** A host key the server holds: generated for its type, with its entity ID. *)
Definition held (k : HostKey) (t : EntityType) (e : EntityID) : Prop :=
  ∃ priv, k = NewEntityPrivateEd25519 t priv ∧ IsEd25519 t = true ∧
          HostKey_EntityID k = Ok e ∧ has_type t e ∧ length e = 33%nat.

Context `{!WriterLaws}.

Lemma IsEd25519_byte t : IsEd25519 t = true → wrap8 t = t ∧ EntityType_Len t = 33%Z.
Proof.
  intros Ht. unfold EntityType_Len. rewrite Ht. split; [|done]. apply bool_decide_eq_true in Ht.
  repeat (apply elem_of_cons in Ht as [->|Ht]; [reflexivity|]). by apply elem_of_nil in Ht.
Qed.

Lemma new_key_held t priv :
  IsEd25519 t = true → held (NewEntityPrivateEd25519 t priv) t (t :: ed25519_Public priv).
Proof.
  intros Ht. exists priv. destruct (IsEd25519_byte t Ht) as [Hw Hl].
  split; [done|]. split; [done|]. split; [|split; [done|simpl; by rewrite length_Public]].
  unfold HostKey_EntityID, EntityPrivate_EntityPublic, MakeEntityID. cbn [pk_typ pk_pub NewEntityPrivateEd25519].
  rewrite Hl, Hw. unfold len. cbn [length]. by rewrite length_Public.
Qed.

Lemma held_signer k t e : held k t e → signer_ok k (EntityPublicEd25519 e).
Proof.
  intros (priv & -> & Ht & He & _). exists t, priv. split; [done|]. split; [done|].
  unfold HostKey_EntityID in He. unfold EntityPrivate_EntityPublic in *.
  destruct (MakeEntityID _ _) as [id|]; [|done]. by injection He as <-.
Qed.

Lemma sealLink_opens chng keys eps link hsh :
  keys ≠ [] → Forall2 signer_ok keys eps → sealLink chng keys = Ok link → HostchainLinkHash link = Ok hsh →
  ∃ o, opens link o ∧ orChange o = chng ∧ (VerifyStackedSignature (orL1 o) eps).2 = Ok ().
Proof.
  intros Hne Hk Hs Hh. unfold sealLink in Hs. apply bind_Ok in Hs as (blob & Eb & Hs).
  destruct (SignStacked _ _) as [v1 [[]|]] eqn:Es; [|done]. cbn in Hs. injection Hs as <-.
  exists (mkOpenRes chng hsh v1). split; [|split; [done|]].
  - unfold opens, OpenHostchainChangeLink. rewrite Hh.
    destruct (sign_stack_verified _ _ _ _ _ Hk Es) as (new & -> & _ & _). cbn.
    by rewrite (dec_enc_inner _ _ Eb).
  - cbn [orL1]. by rewrite (stacked_sign_verify _ _ _ _ Hne Hk Es).
Qed.

(** The server's state matches its chain: it holds current host keys, and every key the chain
    has revoked is still a row of the database. *)
Record synced (db : HostDB) (h : HostChain) (os : list OpenHostchainChangeLinkRes) : Prop := {
  sy_links : Forall2 opens (srvLinks h) os;
  sy_good : good_chain os;
  sy_some : os ≠ [];
  sy_host : srvHostID h = host_of os;
  sy_host_type : has_type EntityType_Host (srvHostID h);
  sy_keys : ∀ k, k ∈ srv_keys h EntityType_Host →
    ∃ e, held k EntityType_Host e ∧ e ∈ current_keys os ∧ fixed e ∉ revoked_keys os;
  sy_rows : ∀ r, r ∈ host_keys db → has_type r.1.1 r.1.2 ∧ length r.1.2 = 33%nat;
  sy_revoked : ∀ f, f ∈ revoked_keys os → ∃ r, r ∈ host_keys db ∧ f = fixed r.1.2
}.

Lemma fixed_inj e e' : length e = length e' → fixed e = fixed e' → e = e'.
Proof. unfold fixed. intros Hl E. by apply app_inj_1 in E as [? _]. Qed.

Lemma held_HostID k e : held k EntityType_Host e → HostKey_HostID k = Ok e.
Proof.
  intros (priv & -> & _ & He & Ht & Hl). unfold HostKey_HostID. rewrite He. cbn.
  unfold EntityID_HostID. rewrite (proj2 (EntityID_Type_Ok e _) Ht). cbn. unfold len. by rewrite Hl.
Qed.

Lemma last_opened links os : Forall2 opens links os → os ≠ [] →
  ∃ l o, last links = Some l ∧ last os = Some o ∧ opens l o.
Proof.
  intros F Hne. destruct os as [|o os _] using rev_ind; [done|].
  apply Forall2_app_inv_r in F as (ls & l & F & Fl & ->).
  apply Forall2_cons_inv_r in Fl as (l' & ls' & Hl & Fn & ->). apply Forall2_nil_inv_r in Fn as ->.
  exists l', o. by rewrite !last_snoc.
Qed.

Lemma good_last_seqno os o : good_chain os → last os = Some o → bcSeqno (hcChainer (orChange o)) = len os.
Proof.
  intros G. destruct G as [|os o' G Hn]; [done|]. rewrite last_snoc. intros [= <-].
  rewrite (gn_seqno _ _ Hn). unfold len. rewrite length_app. simpl. lia.
Qed.

Lemma makeChangeLink_good db h os now root items signers link seqno hsh :
  synced db h os → (len os + 1 < 2 ^ 64)%Z → forallb item_ok items = true →
  Forall2 signer_ok signers (concat (map item_signers items)) →
  makeChangeLink h now root items signers = Ok (link, seqno) → HostchainLinkHash link = Ok hsh →
  ∃ o, opens link o ∧ hcChanges (orChange o) = items ∧ is_eldest o = false ∧ good_next os o.
Proof.
  intros Hsy Hroom Hitems Hsig Hm Hh. unfold makeChangeLink in Hm.
  destruct (last_opened _ _ (sy_links _ _ _ Hsy) (sy_some _ _ _ Hsy)) as (l & o & Hll & Hlo & Hop).
  rewrite Hll in Hm. cbn in Hm. unfold opens in Hop. rewrite Hop in Hm. cbn in Hm.
  destruct (last (srv_keys h EntityType_Host)) as [signer|] eqn:Hs; [|done]. cbn in Hm.
  destruct (sy_keys _ _ _ Hsy signer) as (e & He & Hcur & Hrev); [by apply last_Some_elem_of|].
  rewrite (held_HostID _ _ He) in Hm. cbn in Hm. apply bind_Ok in Hm as (r & _ & Hm).
  apply bind_Ok in Hm as (link' & Hseal & [= -> <-]).
  rewrite (good_last_seqno _ _ (sy_good _ _ _ Hsy) Hlo) in *.
  assert (wrap64 (len os + 1) = len os + 1)%Z as Ew.
  { unfold wrap64. pose proof (len_pos os). apply Z.mod_small. lia. }
  rewrite Ew in *. pose proof (sy_some _ _ _ Hsy) as Hne.
  assert (Forall2 signer_ok (signers ++ [signer])
    (concat (map item_signers items) ++ [EntityPublicEd25519 e])) as Hall.
  { apply Forall2_app; [done|]. constructor; [by eapply held_signer|constructor]. }
  assert (signers ++ [signer] ≠ []) as Hsome by (by destruct signers).
  destruct (sealLink_opens _ _ _ _ _ Hsome Hall Hseal Hh) as (o' & Ho' & Hc & Hv).
  exists o'. destruct (len_pos os) as [_ Hel]. rewrite bool_decide_eq_false_2 in Hel by done.
  destruct He as (priv & -> & _ & _ & Hty & Hl).
  split; [done|]. rewrite Hc. split; [done|]. split; [by unfold is_eldest; rewrite Hc|].
  split; rewrite ?Hc; cbn; rewrite ?decide_False by done; try done.
  - unfold last_hash. by rewrite Hlo.
  - by rewrite (sy_host _ _ _ Hsy).
  - by intros ->.
  - unfold link_signers. by rewrite Hc.
  - intros _. split; [lia|done].
Qed.

Lemma good_chain_snoc_keys os o :
  is_eldest o = false →
  current_keys (os ++ [o]) = foldl item_keys (current_keys os) (hcChanges (orChange o)) ∧
  revoked_keys (os ++ [o]) = foldl item_revoked (revoked_keys os) (hcChanges (orChange o)).
Proof.
  intros He. unfold current_keys, revoked_keys. rewrite !foldl_snoc. unfold link_keys. rewrite He.
  by rewrite app_nil_r.
Qed.

Lemma WriteChainLink_hash db link seqno db' :
  WriteChainLinkToDB db link seqno = Ok db' →
  ∃ hsh, HostchainLinkHash link = Ok hsh ∧ host_keys db' = host_keys db.
Proof.
  unfold WriteChainLinkToDB. intros (hsh & Hh & HW)%bind_Ok. apply bind_Ok in HW as (? & _ & [= <-]).
  by exists hsh.
Qed.

(** *** A new key *)
Definition cert_for (typ : EntityType) (cert : bytes) (e : EntityID) : Prop :=
  typ = EntityType_HostTLSCA → ParseCertificate cert = Ok (CertEd25519 (drop 1 e)).

Lemma new_item_ok typ k e cert item :
  held k typ e → cert_for typ cert e →
  (if (0 <? len cert)%Z then id ← ToHostTLSCAID e; Ok (NewHostchainChangeItemWithTlsca (mkHostTLSCA id cert))
   else Ok (NewHostchainChangeItemWithKey e)) = Ok item →
  item_ok item = true ∧ item_signers item = [EntityPublicEd25519 e] ∧ revokes item = None ∧
  (adds item = None ∨ adds item = Some e) ∧ (typ = EntityType_Host → adds item = Some e).
Proof.
  intros (priv & -> & Hed & _ & Hty & Hl) Hcert Hi. case_match.
  - apply bind_Ok in Hi as (id & Hid & [= <-]). unfold ToHostTLSCAID in Hid.
    rewrite (proj2 (EntityID_Type_Ok e typ) Hty) in Hid. cbn in Hid.
    apply bind_Ok in Hid as (? & Hg & [= <-]). apply guard_err_Ok, orb_false_iff in Hg as [Hg _].
    apply negb_false_iff, Z.eqb_eq in Hg. subst typ.
    assert (PublicKeyEd25519 e = Ok (Some (drop 1 e))) as Epk.
    { unfold PublicKeyEd25519. by rewrite (proj2 (EntityID_Type_Ok e _) Hty). }
    unfold item_ok. cbn [ci_T ci_F3 NewHostchainChangeItemWithTlsca caCert caId]. cbn [Z.eqb Pos.eqb].
    rewrite Hcert, Epk by done. repeat split; try done; [|by left].
    by apply bool_decide_eq_true.
  - injection Hi as <-. unfold item_ok. cbn. unfold len. rewrite Hl. repeat split; try done. by right.
Qed.

Lemma txWritePub_rows db k typ e db' :
  held k typ e → txWritePubToDB db k typ = Ok db' →
  host_keys db' = host_keys db ++ [(typ, e, true)] ∧ ∀ r, r ∈ host_keys db → r.1.1 = typ → r.1.2 ≠ e.
Proof.
  intros (priv & -> & _ & He & _) HW. unfold txWritePubToDB in HW. rewrite He in HW. cbn in HW.
  apply bind_Ok in HW as (? & Hg & [= <-]). apply guard_err_Ok in Hg. split; [done|].
  intros r Hr Ht Hk. assert (existsb (λ r, (r.1.1 =? typ)%Z && bool_decide (r.1.2 = e)) (host_keys db) = true) as E.
  { apply existsb_exists. exists r. split; [by apply list_elem_of_In|].
    rewrite Ht, Z.eqb_refl. by apply bool_decide_eq_true. }
  congruence.
Qed.

(** The primary key of [host_keys] keeps a revoked key from coming back. *)
Lemma fresh_not_revoked db h os typ e :
  synced db h os → has_type typ e → length e = 33%nat →
  (∀ r, r ∈ host_keys db → r.1.1 = typ → r.1.2 ≠ e) → fixed e ∉ revoked_keys os.
Proof.
  intros Hsy Hty Hl Hfresh Hf. destruct (sy_revoked _ _ _ Hsy _ Hf) as (r & Hr & Ef).
  destruct (sy_rows _ _ _ Hsy r Hr) as [Ht33 Hl33]. apply fixed_inj in Ef; [|lia].
  apply (Hfresh r Hr); [|done]. rewrite <- Ef in Ht33. unfold has_type in *. congruence.
Qed.

Lemma synced_file_ca db h os keys certs :
  synced db h os →
  synced db (mkHostChain (srvHostID h) (<[EntityType_HostTLSCA := keys]> (srvKeys h)) certs (srvLinks h)) os.
Proof.
  intros []. split; try done. intros k'. unfold srv_keys. cbn [srvKeys].
  rewrite lookup_insert_ne by done. auto.
Qed.

Lemma NewKey_synced db h os now root typ k e cert PutCert db' h' :
  synced db h os → (len os + 1 < 2 ^ 64)%Z → held k typ e → cert_for typ cert e →
  srv_NewKey db h now root typ k cert PutCert = Ok (db', h') →
  ∃ o, synced db' h' (os ++ [o]).
Proof.
  intros Hsy Hroom Hk Hcert HN. unfold srv_NewKey in HN. pose proof Hk as (priv & _ & _ & Hid & Hty & Hl).
  rewrite Hid in HN. cbn [mbind result_bind] in HN.
  set (h1 := if (typ =? EntityType_HostTLSCA)%Z then _ else h) in HN.
  assert (synced db h1 os) as Hsy1.
  { unfold h1. case_match eqn:Et; [|done]. apply Z.eqb_eq in Et. subst typ. by apply synced_file_ca. }
  apply bind_Ok in HN as ([link seqno] & Hlink & HN). apply bind_Ok in HN as (db1 & Hdb1 & HN).
  apply bind_Ok in HN as (db2 & Hdb2 & HN). apply bind_Ok in HN as (x & _ & [= <- <-]).
  apply WriteChainLink_hash in Hdb1 as (hsh & Hh & Edb).
  apply (txWritePub_rows _ _ _ e) in Hdb2 as [Erows Hfresh]; [|done]. rewrite Edb in *.
  unfold makeNewKeyLink in Hlink. rewrite Hid in Hlink. cbn [mbind result_bind] in Hlink.
  apply bind_Ok in Hlink as (t' & _ & Hlink). apply bind_Ok in Hlink as (? & _ & Hlink).
  apply bind_Ok in Hlink as (item & Hitem & Hlink).
  assert (cert_for typ (if (typ =? EntityType_HostTLSCA)%Z then cert else []) e) as Hcert'.
  { intros ->. by apply Hcert. }
  destruct (new_item_ok _ _ _ _ _ Hk Hcert' Hitem) as (Hok & Hsigs & Hrv & Hadd & Hhost).
  assert (forallb item_ok [item] = true) as Hoks by (cbn [forallb]; by rewrite Hok).
  assert (Forall2 signer_ok [k] (concat (map item_signers [item]))) as Hsg.
  { cbn [map concat]. rewrite Hsigs. constructor; [by eapply held_signer|constructor]. }
  destruct (makeChangeLink_good _ _ _ _ _ _ _ _ _ _ Hsy1 Hroom Hoks Hsg Hlink Hh)
    as (o & Ho & Hc & Hel & Hn).
  exists o. destruct (good_chain_snoc_keys os o Hel) as [Ek Er]. rewrite Hc in Ek, Er. cbn in Ek, Er.
  unfold item_keys in Ek. unfold item_revoked in Er. rewrite Hrv in Ek, Er.
  assert (∀ e', e' ∈ current_keys os → e' ∈ current_keys (os ++ [o])) as Hcur.
  { intros e' He'. rewrite Ek. case_match; [set_solver|done]. }
  split.
  - cbn [srvLinks]. apply Forall2_app; [apply Hsy1|]. by repeat constructor.
  - constructor; [apply Hsy|done].
  - by destruct os.
  - cbn [srvHostID]. rewrite (sy_host _ _ _ Hsy1). pose proof (sy_some _ _ _ Hsy). by destruct os.
  - apply (sy_host_type _ _ _ Hsy1).
  - intros k' Hk'. unfold srv_keys in Hk'. cbn [srvKeys] in Hk'. rewrite Er.
    assert (k' ∈ srv_keys h1 EntityType_Host ∨ (typ = EntityType_Host ∧ k' = k)) as [Hin|[-> ->]].
    { destruct (decide (EntityType_Host = typ)) as [<-|Hne].
      - rewrite lookup_insert, decide_True in Hk' by done. cbn in Hk'.
        apply elem_of_app in Hk' as [?|?%list_elem_of_singleton]; [by left|by right].
      - rewrite lookup_insert_ne in Hk' by done. by left. }
    + destruct (sy_keys _ _ _ Hsy1 k' Hin) as (e' & ? & ? & ?). exists e'. auto.
    + exists e. split; [done|]. rewrite Ek, (Hhost eq_refl). split; [set_solver|].
      by apply (fresh_not_revoked db h os EntityType_Host).
  - intros r. cbn [host_keys]. rewrite Erows. intros [Hr|Hr]%elem_of_app; [by apply (sy_rows _ _ _ Hsy)|].
    apply list_elem_of_singleton in Hr as ->. done.
  - intros f. rewrite Er. intros Hf. destruct (sy_revoked _ _ _ Hsy f Hf) as (r & Hr & ->).
    exists r. cbn [host_keys]. rewrite Erows. split; [set_solver|done].
Qed.

(** *** Revocation *)
Lemma revoke_row_inv db e db' :
  revoke_row db e = Ok db' →
  (∃ r, r ∈ host_keys db ∧ r.1.2 = e) ∧ map fst (host_keys db') = map fst (host_keys db).
Proof.
  unfold revoke_row. intros (t & _ & HR)%bind_Ok. apply bind_Ok in HR as (? & Hg & HR).
  apply bind_Ok in HR as (? & _ & [= <-]). apply guard_err_Ok, negb_false_iff, Z.eqb_eq in Hg. split.
  - destruct (List.filter _ _) as [|r l] eqn:El; [done|].
    assert (In r (List.filter (row_matches t e) (host_keys db))) as [Hin Hm]%filter_In
      by (rewrite El; by left). exists r. split; [by apply list_elem_of_In|].
    unfold row_matches in Hm. apply andb_true_iff in Hm as [[_ Hm]%andb_true_iff _].
    by apply bool_decide_eq_true in Hm.
  - cbn [host_keys]. rewrite map_map. apply map_ext. intros r. by destruct (row_matches t e r).
Qed.

Lemma same_rows (l l' : list (EntityType * EntityID * bool)) r :
  map fst l = map fst l' → r ∈ l → ∃ r', r' ∈ l' ∧ r'.1 = r.1.
Proof.
  intros E Hr. apply (list_elem_of_fmap_2 fst) in Hr.
  change (fst <$> l) with (map fst l) in Hr. rewrite E in Hr.
  apply (list_elem_of_fmap fst) in Hr as (r' & -> & Hr'). by exists r'.
Qed.

Lemma revoke_rows_inv keys : ∀ db db', revoke_rows db keys = Ok db' →
  (∀ e, e ∈ keys → ∃ r, r ∈ host_keys db ∧ r.1.2 = e) ∧ map fst (host_keys db') = map fst (host_keys db).
Proof.
  induction keys as [|e keys IH]; intros db db' HR; cbn in HR.
  { injection HR as <-. split; [set_solver|done]. }
  apply bind_Ok in HR as (db1 & H1' & HR). apply revoke_row_inv in H1' as [He E1].
  apply IH in HR as [Hks E2]. split; [|congruence].
  intros e' [->|He']%elem_of_cons; [done|]. destruct (Hks e' He') as (r & Hr & Ee).
  destruct (same_rows _ _ _ E1 Hr) as (r' & Hr' & Ef). exists r'. by rewrite Ef.
Qed.

Lemma prune_keys_inv typ e1 v : ∀ certs newV certs', prune_keys typ e1 certs v = Ok (newV, certs') →
  ∀ k, k ∈ newV → k ∈ v ∧ ∀ e, HostKey_EntityID k = Ok e → EntityID_Eq e e1 = false.
Proof.
  induction v as [|k2 v IH]; intros certs newV certs' HP k Hk; cbn [prune_keys] in HP.
  { injection HP as <- _. set_solver. }
  apply bind_Ok in HP as (eid & Hid & HP). apply bind_Ok in HP as (certs1 & _ & HP).
  apply bind_Ok in HP as ([v1 c1] & HP1 & [= <- _]).
  destruct (EntityID_Eq eid e1) eqn:Eq; [|apply elem_of_cons in Hk as [->|Hk]].
  - destruct (IH _ _ _ HP1 k Hk) as [? ?]. split; [set_solver|done].
  - split; [set_solver|]. intros e He. congruence.
  - destruct (IH _ _ _ HP1 k Hk) as [? ?]. split; [set_solver|done].
Qed.

Lemma pruneState_inv keys : ∀ h h', pruneState h keys = Ok h' →
  srvLinks h' = srvLinks h ∧ srvHostID h' = srvHostID h ∧
  ∀ t k, k ∈ srv_keys h' t → k ∈ srv_keys h t ∧
    ∀ e e1, e1 ∈ keys → has_type t e1 → HostKey_EntityID k = Ok e → EntityID_Eq e e1 = false.
Proof.
  induction keys as [|e1 keys IH]; intros h h' HP; cbn [pruneState] in HP.
  { injection HP as <-. repeat split; try done. set_solver. }
  apply bind_Ok in HP as (typ & Ht & HP). apply EntityID_Type_Ok in Ht.
  apply bind_Ok in HP as ([v1 c1] & Hp1 & HP). apply IH in HP as (El & Ei & Hk). cbn in El, Ei.
  split; [done|]. split; [done|]. intros t k Hin. destruct (Hk t k Hin) as [Hin1 Hne].
  unfold srv_keys in Hin1. cbn [srvKeys] in Hin1. destruct (decide (t = typ)) as [->|Hnt].
  - rewrite lookup_insert, decide_True in Hin1 by done. cbn in Hin1.
    destruct (prune_keys_inv _ _ _ _ _ _ Hp1 k Hin1) as [Hv Hne1]. split; [done|].
    intros e e2 [->|He2]%elem_of_cons Hty He; [by apply Hne1|by eapply Hne].
  - rewrite lookup_insert_ne in Hin1 by done. split; [done|].
    intros e e2 [->|He2]%elem_of_cons Hty He; [|by eapply Hne].
    unfold has_type in *. congruence.
Qed.

Lemma revoke_items_keys keys : ∀ ks e,
  e ∈ foldl item_keys ks (map NewHostchainChangeItemWithRevoke keys) ↔ e ∈ ks ∧ e ∉ keys.
Proof.
  induction keys as [|e1 keys IH]; intros ks e; cbn [map foldl]; [set_solver|].
  rewrite IH. unfold item_keys, revokes, adds. cbn. rewrite list_elem_of_filter. set_solver.
Qed.

Lemma revoke_items_revoked keys : ∀ rs f,
  f ∈ foldl item_revoked rs (map NewHostchainChangeItemWithRevoke keys) ↔ f ∈ rs ∨ ∃ e1, e1 ∈ keys ∧ f = fixed e1.
Proof.
  induction keys as [|e1 keys IH]; intros rs f; cbn [map foldl]; [set_solver|].
  rewrite IH. unfold item_revoked, revokes. cbn. set_solver.
Qed.

Lemma revoke_items_ok keys :
  (∀ e, e ∈ keys → length e = 33%nat) →
  forallb item_ok (map NewHostchainChangeItemWithRevoke keys) = true ∧
  concat (map item_signers (map NewHostchainChangeItemWithRevoke keys)) = [].
Proof.
  induction keys as [|e keys IH]; intros Hl; [done|].
  destruct (IH ltac:(set_solver)) as [Ho Hs]. cbn [map forallb concat]. rewrite Ho, Hs. split; [|done].
  unfold item_ok. cbn. unfold len. rewrite Hl by set_solver. by rewrite orb_true_r.
Qed.

Lemma Revoke_synced db h os now root keys db' h' :
  synced db h os → (len os + 1 < 2 ^ 64)%Z → srv_Revoke db h now root keys = Ok (db', h') →
  ∃ o, synced db' h' (os ++ [o]).
Proof.
  intros Hsy Hroom HR. unfold srv_Revoke in HR. apply bind_Ok in HR as ([link seqno] & Hlink & HR).
  apply bind_Ok in HR as (db1 & Hdb1 & HR). apply bind_Ok in HR as (db2 & Hdb2 & HR).
  apply bind_Ok in HR as (h1 & Hprune & [= <- <-]).
  apply WriteChainLink_hash in Hdb1 as (hsh & Hh & Edb).
  unfold writeRevokesToDB in Hdb2. apply bind_Ok in Hdb2 as (db3 & Hrows & Hdb2).
  apply bind_Ok in Hdb2 as (? & _ & [= <-]). apply revoke_rows_inv in Hrows as [Hks Erows].
  rewrite Edb in *. apply pruneState_inv in Hprune as (El & Ei & Hkept). cbn in El, Ei.
  assert (∀ e, e ∈ keys → length e = 33%nat) as H33.
  { intros e (r & Hr & <-)%Hks. by apply (sy_rows _ _ _ Hsy). }
  destruct (revoke_items_ok keys H33) as [Hok Hsigs].
  assert (Forall2 signer_ok [] (concat (map item_signers (map NewHostchainChangeItemWithRevoke keys)))) as Hsg
    by (rewrite Hsigs; constructor).
  destruct (makeChangeLink_good _ _ _ _ _ _ _ _ _ _ Hsy Hroom Hok Hsg Hlink Hh) as (o & Ho & Hc & Hel & Hn).
  exists o. destruct (good_chain_snoc_keys os o Hel) as [Ek Er]. rewrite Hc in Ek, Er. split.
  - rewrite El. apply Forall2_app; [apply Hsy|]. by repeat constructor.
  - constructor; [apply Hsy|done].
  - by destruct os.
  - rewrite Ei, (sy_host _ _ _ Hsy). pose proof (sy_some _ _ _ Hsy). by destruct os.
  - rewrite Ei. apply (sy_host_type _ _ _ Hsy).
  - intros k (Hin & Hne)%Hkept. destruct (sy_keys _ _ _ Hsy k Hin) as (e & Hheld & Hcur & Hrev).
    exists e. split; [done|]. destruct Hheld as (priv & -> & _ & Hid & Hty & Hl).
    assert (∀ e1, e1 ∈ keys → e ≠ e1) as Hdiff.
    { intros e1 He1 <-. specialize (Hne e e He1 Hty Hid).
      rewrite (EntityID_Eq_spec EntityType_Host), bool_decide_eq_true_2 in Hne; done. }
    rewrite Ek, Er, revoke_items_keys, revoke_items_revoked. split.
    { split; [done|]. intros He. by apply (Hdiff e He). }
    intros [?|(e1 & He1 & Ef)]; [done|]. apply fixed_inj in Ef; [by apply (Hdiff e1)|].
    rewrite (H33 e1); done.
  - intros r Hr. destruct (same_rows _ _ _ Erows Hr) as (r' & Hr' & <-). by apply (sy_rows _ _ _ Hsy).
  - intros f. rewrite Er, revoke_items_revoked.
    assert (∀ r, r ∈ host_keys db → ∃ r', r' ∈ host_keys db3 ∧ r'.1 = r.1) as Hback.
    { intros r Hr. by apply (same_rows (host_keys db)). }
    intros [Hf|(e1 & (r & Hr & <-)%Hks & ->)];
      [destruct (sy_revoked _ _ _ Hsy f Hf) as (r & Hr & ->)|];
      destruct (Hback r Hr) as (r' & Hr' & <-); by exists r'.
Qed.

(** *** The first link *)
Lemma tlsca_items_ok certs keys : ∀ items,
  (∀ k, k ∈ keys → ∃ e, held k EntityType_HostTLSCA e ∧
     ∀ cert, certs !! e = Some cert → ParseCertificate cert = Ok (CertEd25519 (drop 1 e))) →
  tlsca_items certs keys = Ok items →
  forallb item_ok items = true ∧ Forall2 signer_ok keys (concat (map item_signers items)) ∧
  (∀ ks, foldl item_keys ks items = ks) ∧ ∀ rs, foldl item_revoked rs items = rs.
Proof.
  induction keys as [|k keys IH]; intros items Hk HT; cbn [tlsca_items] in HT.
  { injection HT as <-. repeat split; constructor. }
  destruct (Hk k) as (e & Hheld & Hcert); [set_solver|]. pose proof Hheld as (priv & _ & _ & Hid & Hty & Hl).
  rewrite Hid in HT. cbn [mbind result_bind] in HT. apply bind_Ok in HT as (id & Hca & HT).
  assert (id = e) as ->.
  { unfold ToHostTLSCAID in Hca. rewrite (proj2 (EntityID_Type_Ok e _) Hty) in Hca. cbn in Hca.
    by apply bind_Ok in Hca as (? & _ & [= <-]). }
  apply bind_Ok in HT as (cert & Hc & HT). apply of_option_Ok in Hc. apply Hcert in Hc.
  apply bind_Ok in HT as (rest & Hrest & [= <-]).
  destruct (IH rest) as (Ho & Hs & Hks & Hrs); [set_solver|done|].
  assert (PublicKeyEd25519 e = Ok (Some (drop 1 e))) as Epk
    by (unfold PublicKeyEd25519; by rewrite (proj2 (EntityID_Type_Ok e _) Hty)).
  split; [|split; [|done]].
  - cbn [forallb]. rewrite Ho, andb_true_r. unfold item_ok. cbn [ci_T ci_F3 NewHostchainChangeItemWithTlsca caCert caId].
    cbn [Z.eqb Pos.eqb]. rewrite Hc, Epk. by apply bool_decide_eq_true.
  - cbn. constructor; [by eapply held_signer|done].
Qed.

Lemma keypair_item h t p :
  (∀ k, k ∈ srv_keys h t → ∃ e, held k t e) → keypair h t = Ok p →
  forallb item_ok (key_item p).1 = true ∧ Forall2 signer_ok (key_item p).2 (concat (map item_signers (key_item p).1)) ∧
  ∀ rs, foldl item_revoked rs (key_item p).1 = rs.
Proof.
  intros Hk HK. unfold keypair in HK. destruct (last (srv_keys h t)) as [k|] eqn:El.
  - destruct (Hk k) as [e Hheld]; [by apply last_Some_elem_of|]. pose proof Hheld as (priv & _ & _ & Hid & Hty & Hl).
    rewrite Hid in HK. injection HK as <-. cbn. unfold len. rewrite Hl. split; [done|]. split; [|done].
    constructor; [by eapply held_signer|constructor].
  - injection HK as <-. cbn. repeat split; constructor.
Qed.

(** A server about to forge its chain: one host key, whose ID is the host's, and certificates
    that match their keys ([generate]). *)
Record generated (h : HostChain) : Prop := {
  ge_links : srvLinks h = [];
  ge_held : ∀ t k, k ∈ srv_keys h t → ∃ e, held k t e;
  ge_host : ∃ k, srv_keys h EntityType_Host = [k] ∧ held k EntityType_Host (srvHostID h);
  ge_certs : ∀ k e cert, k ∈ srv_keys h EntityType_HostTLSCA → HostKey_EntityID k = Ok e →
    srvCerts h !! e = Some cert → ParseCertificate cert = Ok (CertEd25519 (drop 1 e))
}.

Lemma write_pubs_rows l : ∀ db db',
  (∀ t k, (t, k) ∈ l → ∃ e, held k t e) →
  (∀ r, r ∈ host_keys db → has_type r.1.1 r.1.2 ∧ length r.1.2 = 33%nat) → write_pubs db l = Ok db' →
  ∀ r, r ∈ host_keys db' → has_type r.1.1 r.1.2 ∧ length r.1.2 = 33%nat.
Proof.
  induction l as [|[t k] l IH]; intros db db' Hl Hdb HW; cbn in HW; [by injection HW as <-|].
  apply bind_Ok in HW as (db1 & Hdb1 & HW). destruct (Hl t k) as [e He]; [set_solver|].
  apply (txWritePub_rows _ _ _ e) in Hdb1 as [E1 _]; [|done]. eapply IH; [set_solver| |done].
  intros r. rewrite E1. intros [Hr|Hr]%elem_of_app; [by apply Hdb|].
  apply list_elem_of_singleton in Hr as ->. by destruct He as (? & _ & _ & _ & ? & ?).
Qed.

Lemma keys_list_held h t k : generated h → (t, k) ∈ keys_list h → ∃ e, held k t e.
Proof.
  intros Hg Hin. unfold keys_list in Hin. apply list_elem_of_In, in_concat in Hin as (l & Hl & Hin).
  apply in_map_iff in Hl as ([t' ks] & <- & Hl). apply in_map_iff in Hin as (k' & [= -> ->] & Hin).
  apply list_elem_of_In, elem_of_map_to_list in Hl. cbn in *. apply (ge_held _ Hg t k).
  unfold srv_keys. rewrite Hl. by apply list_elem_of_In.
Qed.

Lemma makeEldestLink_good h now root link seqno hsh :
  generated h → makeEldestLink h now root = Ok (link, seqno) → HostchainLinkHash link = Ok hsh →
  ∃ o, opens link o ∧ good_next [] o ∧ hcSigner (orChange o) = srvHostID h ∧
       srvHostID h ∈ current_keys [o] ∧ revoked_keys [o] = ∅.
Proof.
  intros Hg HM Hh. unfold makeEldestLink in HM. destruct (ge_host _ Hg) as (k0 & Ek0 & Hk0).
  apply bind_Ok in HM as (items & Hit & HM). apply bind_Ok in HM as (p1 & Hp1 & HM).
  apply bind_Ok in HM as (p2 & Hp2 & HM). rewrite Ek0 in HM. cbn [last of_option mbind result_bind] in HM.
  apply bind_Ok in HM as (link' & Hseal & [= -> <-]).
  destruct (tlsca_items_ok _ _ _ (λ k Hk, match ge_held _ Hg _ k Hk with
    | ex_intro _ e He => ex_intro _ e (conj He (λ c, ge_certs _ Hg k e c Hk
        (match He with ex_intro _ _ (conj _ (conj _ (conj Hid _))) => Hid end))) end) Hit) as (O1 & S1 & _ & R1).
  destruct (keypair_item _ _ _ (ge_held _ Hg _) Hp1) as (O2 & S2 & R2).
  destruct (keypair_item _ _ _ (ge_held _ Hg _) Hp2) as (O3 & S3 & R3).
  set (its := items ++ (key_item p1).1 ++ (key_item p2).1) in *.
  assert (Forall2 signer_ok
    (srv_keys h EntityType_HostTLSCA ++ (key_item p1).2 ++ (key_item p2).2 ++ [k0])
    (concat (map item_signers its) ++ [EntityPublicEd25519 (srvHostID h)])) as Hall.
  { unfold its. rewrite !map_app, !concat_app, <- !app_assoc.
    repeat (apply Forall2_app; [done|]). constructor; [by eapply held_signer|constructor]. }
  assert (∀ (a b c : list HostKey), a ++ b ++ c ++ [k0] ≠ []) as Hsome
    by (intros [] [] []; done).
  destruct (sealLink_opens _ _ _ _ _ (Hsome _ _ _) Hall Hseal Hh) as (o & Ho & Hc & Hv).
  destruct Hk0 as (priv & -> & _ & _ & Hty & Hl).
  exists o. rewrite Hc. split; [done|]. split; [|split; [done|split]].
  - split; rewrite ?Hc; try done; cbn.
    + unfold its. by rewrite !forallb_app, O1, O2, O3.
    + apply nonempty_type. by eexists.
    + unfold link_signers. by rewrite Hc.
  - unfold current_keys. cbn. unfold link_keys, is_eldest. rewrite Hc. cbn. set_solver.
  - unfold revoked_keys. cbn. unfold link_revoked. rewrite Hc. cbn. unfold its.
    by rewrite !foldl_app, R1, R2, R3.
Qed.

Lemma initWithKeys_synced db h now root wc db' h' :
  host_keys db = [] → generated h → initWithKeys db h now root wc = Ok (db', h') → ∃ os, synced db' h' os.
Proof.
  intros Hdb Hg HF. unfold initWithKeys in HF. apply bind_Ok in HF as ([link seqno] & Hlink & HF).
  apply bind_Ok in HF as (db1 & Hpubs & HF). apply bind_Ok in HF as (db2 & Hdb2 & HF). apply bind_Ok in HF as (x509 & _ & [= <- <-]).
  apply WriteChainLink_hash in Hdb2 as (hsh & Hh & Edb).
  destruct (makeEldestLink_good _ _ _ _ _ _ Hg Hlink Hh) as (o & Ho & Hn & Hs & Hcur & Hrev).
  destruct (ge_host _ Hg) as (k0 & Ek0 & Hk0). exists [o]. split.
  - cbn. rewrite (ge_links _ Hg). by repeat constructor.
  - apply (good_snoc []); [constructor|done].
  - done.
  - cbn. by rewrite <- Hs.
  - by destruct Hk0 as (? & _ & _ & _ & ? & _).
  - intros k. unfold srv_keys. cbn [srvKeys]. change (default [] (srvKeys h !! EntityType_Host))
      with (srv_keys h EntityType_Host). rewrite Ek0. intros ->%list_elem_of_singleton.
    exists (srvHostID h). rewrite Hrev. split; [done|]. split; [done|set_solver].
  - cbn [host_keys]. rewrite Edb. eapply write_pubs_rows; [intros t k; by apply keys_list_held| |done].
    rewrite Hdb. set_solver.
  - rewrite Hrev. set_solver.
Qed.

(** ** The server as a state machine *)
Inductive server_step : HostDB * HostChain → HostDB * HostChain → Prop :=
  | step_NewKey db h now root typ k e cert PutCert db' h' :
      held k typ e → cert_for typ cert e →
      srv_NewKey db h now root typ k cert PutCert = Ok (db', h') → server_step (db, h) (db', h')
  | step_Revoke db h now root keys db' h' :
      srv_Revoke db h now root keys = Ok (db', h') → server_step (db, h) (db', h').

Inductive server_reaches : HostDB * HostChain → Prop :=
  | reach_init db h now root writeNewCert s :
      host_keys db = [] → generated h → initWithKeys db h now root writeNewCert = Ok s → server_reaches s
  | reach_step s s' :
      server_reaches s → (len (srvLinks s.2) + 1 < 2 ^ 64)%Z → server_step s s' → server_reaches s'.

Lemma server_reaches_synced s : server_reaches s → ∃ os, synced s.1 s.2 os.
Proof.
  induction 1 as [db h now root wc [db' h'] Hdb Hg HF|s s' _ [os IH] Hroom Hst].
  - by eapply initWithKeys_synced.
  - pose proof (Forall2_length _ _ _ (sy_links _ _ _ IH)) as El. unfold len in Hroom. rewrite El in Hroom.
    inversion Hst; subst; cbn in *.
    + edestruct NewKey_synced as [o ?]; [done..|]. by exists (os ++ [o]).
    + edestruct Revoke_synced as [o ?]; [done..|]. by exists (os ++ [o]).
Qed.

(** Every history of good links is played, from the first link on. *)
Lemma good_chain_plays links os :
  Forall2 opens links os → good_chain os → ∀ a, ∃ h, MultiPlay (NewHostchainWithAddr a) links = Ok h ∧ represents os h.
Proof.
  intros F G a. revert links F. induction G as [|os o G IH Hn]; intros links F.
  - apply Forall2_nil_inv_r in F as ->. by exists (NewHostchainWithAddr a).
  - apply Forall2_app_inv_r in F as (ls & l & F & Fl & ->).
    apply Forall2_cons_inv_r in Fl as (l' & ls' & Hl & Fn & ->). apply Forall2_nil_inv_r in Fn as ->.
    destruct (IH ls F) as (h & Hp & Hr). destruct (Play_accepts os h l' o Hr Hl Hn) as (h' & Hp' & Hr').
    exists h'. split; [|done]. clear -Hp Hp'. revert Hp. generalize (NewHostchainWithAddr a).
    induction ls as [|x ls IHl]; intros r Hp; cbn in *; [by injection Hp as ->; rewrite Hp'|].
    apply bind_Ok in Hp as (r1 & -> & Hp). by apply IHl.
Qed.

(** C18: Whatever keys the server adds or revokes after forging its chain, the chain it has
    written is one that every client accepts, under the host ID the server has, and the
    server's newest host key is one the client takes for the next link. *)
Theorem server_chain_accepted s addr :
  server_reaches s →
  ∃ h, PlayChain addr (srvLinks s.2) (Some (srvHostID s.2)) = Ok h ∧
       Hostchain_HostID h = srvHostID s.2 ∧
       ∀ k, k ∈ srv_keys s.2 EntityType_Host → ∃ e, HostKey_EntityID k = Ok e ∧ e ∈ Keys h EntityType_Host.
Proof.
  intros (os & Hsy)%server_reaches_synced.
  destruct (good_chain_plays _ _ (sy_links _ _ _ Hsy) (sy_good _ _ _ Hsy) addr) as (h & Hp & Hr).
  assert (Hostchain_HostID h = srvHostID s.2) as Eh.
  { unfold Hostchain_HostID. by rewrite (rep_host _ _ Hr), (sy_host _ _ _ Hsy). }
  exists h. split; [|split; [done|]].
  - unfold PlayChain. rewrite Hp. cbn [mbind result_bind]. rewrite Eh.
    unfold HostID_IsZero, HostID_Eq. cbn. rewrite bool_decide_eq_true_2 by done.
    pose proof (sy_host_type _ _ _ Hsy) as Ht. by destruct (srvHostID s.2) as [|b l]; [|injection Ht as ->].
  - intros k Hk. destruct (sy_keys _ _ _ Hsy k Hk) as (e & (priv & _ & _ & Hid & Hty & _) & Hcur & _).
    exists e. split; [done|]. unfold Keys. rewrite <- Permutation_rev, (proj1 (rep_keys _ _ Hr)) by done.
    by apply list_elem_of_filter.
Qed.
End writer.
