(* ===== verification/HostChainExamples.v ===== *)
(** * Host chains: a concrete host

    An instance of the third-party code that satisfies the laws the theorems
    rely on: signatures that append a checksum to the public key, links encoded as
    MessagePack values, and a hash that is a checksum.  A server forges a chain, adds
    a host key and revokes the old one; a client plays it. *)
From S2P Require Import Prelude Snowp MerkleTypes Role Roster TeamRoster Sigs HostChain HostChainFacts HostChainWriter.

(** ** The records as MessagePack values *)
#[global] Instance TreeRoot_eq_dec : EqDecision TreeRoot.
Proof. solve_decision. Defined.
#[global] Instance BaseChainer_eq_dec : EqDecision BaseChainer.
Proof. solve_decision. Defined.
#[global] Instance HostTLSCA_eq_dec : EqDecision HostTLSCA.
Proof. solve_decision. Defined.
#[global] Instance HostchainChangeItem_eq_dec : EqDecision HostchainChangeItem.
Proof. solve_decision. Defined.
#[global] Instance HostchainChange_eq_dec : EqDecision HostchainChange.
Proof. solve_decision. Defined.
#[global] Instance HostchainLinkInner_eq_dec : EqDecision HostchainLinkInner.
Proof. solve_decision. Defined.
#[global] Instance HostchainLinkOuterV1_eq_dec : EqDecision HostchainLinkOuterV1.
Proof. solve_decision. Defined.
#[global] Instance HostchainLinkOuter_eq_dec : EqDecision HostchainLinkOuter.
Proof. solve_decision. Defined.

Definition mp_list {A} (f : A → mp) (l : list A) : mp := match l with [] => MNil | _ => MArr (map f l) end.
Definition mp_opt {A} (f : A → mp) (o : option A) : mp := match o with None => MNil | Some a => MArr [f a] end.
Definition to_mp (x : HostchainLinkInner) : mp :=
  MArr [MInt (hli_T x); mp_opt (λ c,
    let b := hcChainer c in
    MArr [MInt (bcSeqno b); mp_opt MBin (bcPrev b); MInt (trEpno (bcRoot b)); MBin (trHash (bcRoot b));
          MInt (bcTime b); MBin (hcHost c); MBin (hcSigner c);
          mp_list (λ i, MArr [MInt (ci_T i); mp_opt MBin (ci_F1 i); mp_opt MBin (ci_F2 i);
                              mp_opt (λ ca, MArr [MBin (caId ca); MBin (caCert ca)]) (ci_F3 i)])
            (hcChanges c)]) (hli_F1 x)].

Definition of_opt {A} (f : mp → option A) (v : mp) : option (option A) :=
  match v with MNil => Some None | MArr [v] => a ← f v; Some (Some a) | _ => None end.
Definition of_bin (v : mp) : option bytes := match v with MBin b => Some b | _ => None end.
Definition of_ca (v : mp) : option HostTLSCA :=
  match v with MArr [MBin i; MBin c] => Some (mkHostTLSCA i c) | _ => None end.
Definition of_item (v : mp) : option HostchainChangeItem :=
  match v with
  | MArr [MInt t; a; b; c] =>
      a ← of_opt of_bin a; b ← of_opt of_bin b; c ← of_opt of_ca c; Some (mkHostchainChangeItem t a b c)
  | _ => None
  end.
Definition of_list {A} (f : mp → option A) (v : mp) : option (list A) :=
  match v with MNil => Some [] | MArr l => mapM f l | _ => None end.
Definition of_change (v : mp) : option HostchainChange :=
  match v with
  | MArr [MInt q; p; MInt ep; MBin rh; MInt tm; MBin host; MBin signer; items] =>
      p ← of_opt of_bin p; l ← of_list of_item items;
      Some (mkHostchainChange (mkBaseChainer q p {| trEpno := ep; trHash := rh |} tm) host signer l)
  | _ => None
  end.
Definition of_inner (v : mp) : option HostchainLinkInner :=
  match v with MArr [MInt t; c] => c ← of_opt of_change c; Some (mkHostchainLinkInner t c) | _ => None end.

Definition toy_dec_inner (b : bytes) : result HostchainLinkInner :=
  match decode 20 b with
  | Some (v, []) => of_option (GoError "decode") (of_inner v)
  | _ => Err (GoError "decode")
  end.
(** Encodes what decodes back. *)
Definition toy_enc_inner (x : HostchainLinkInner) : result bytes :=
  let b := shortest (to_mp x) in
  if decide (toy_dec_inner b = Ok x) then Ok b else Err (GoError "encode").

Definition checksum (m : bytes) : bytes :=
  be_enc 32 (fold_left (λ a b, (a * 257 + b + 1) mod (2 ^ 61 - 1)) m 7)%Z.

#[local] Instance toy_crypto : Crypto := {|
  ed25519_verify k m s := bool_decide (s = k ++ checksum m);
  ed25519_Public p := take 32 (p ++ replicate 32 0%Z);
  ed25519_Sign p m := take 32 (p ++ replicate 32 0%Z) ++ checksum m;
  EcdsaKey := ();
  UnmarshalCompressed _ := None;
  ecdsa_Verify _ _ _ := false;
  asn1_Unmarshal _ := Err (GoError "asn1");
  Sum512_256 := checksum;
  TypeUniqueID_Encode _ := Ok []
|}.
#[local] Instance toy_codec : Codec := {|
  uid_bytes u := be_enc 8 u;
  sha512_256 := checksum;
  enc_MerkleNode _ := Err (GoError "not used");
  enc_MerkleRoot _ := Err (GoError "not used");
  enc_MerkleBackPointers _ := Err (GoError "not used");
  dec_MerkleRoot _ := Err (GoError "not used");
  dec_Signature _ := Err (GoError "not used")
|}.

Definition mp_sig (s : Signature) : mp := MBin (default [] (sig_F0 s)).
Definition toy_outer1 (l : HostchainLinkOuterV1) : mp :=
  MArr [MBin (ho1Inner l); mp_list mp_sig (ho1Signatures l)].

Definition not_less {A} (less : A → A → bool) (a b : A) : Prop := less b a = false.
#[local] Instance not_less_dec {A} (less : A → A → bool) a b : Decision (not_less less a b).
Proof. unfold not_less. apply _. Defined.
Definition toy_sort {A} (less : A → A → bool) (l : list A) : list A := merge_sort (not_less less) l.

#[local] Instance toy_lib : HostchainLib.
Proof.
  refine {|
    enc_HostchainLinkOuterV1 l := Ok (shortest (toy_outer1 l));
    enc_HostchainLinkOuter l :=
      Ok (shortest (MArr [MInt (ho_V l); match ho_F1 l with Some v => toy_outer1 v | None => MNil end]));
    dec_HostchainLinkInner := toy_dec_inner;
    ParseCertificate c := if decide (c = []) then Err (GoError "x509") else Ok (CertEd25519 c);
    sort_Slice A less l := toy_sort less l
  |}.
  intros A less l. apply merge_sort_Permutation.
Defined.

#[local] Instance toy_laws : WriterLaws toy_enc_inner.
Proof.
  split.
  - intros x b. unfold toy_enc_inner. case_decide; [|done]. by intros [= <-].
  - split.
    + intros priv msg. cbn. by apply bool_decide_eq_true.
    + intros priv. unfold ed25519_Public, toy_crypto.
      rewrite length_take, length_app, length_replicate. lia.
Qed.

(** ** A server's chain *)
Definition priv_n (t n : Z) : HostKey := NewEntityPrivateEd25519 t [t; n].
Definition ex_root : TreeRoot := {| trEpno := 3; trHash := zero_hash |}.
Definition id_of (k : HostKey) : EntityID := pk_typ k :: pk_pub k.
Definition k_host := priv_n EntityType_Host 1.
Definition k_host2 := priv_n EntityType_Host 2.
Definition k_ca := priv_n EntityType_HostTLSCA 1.
Definition k_merkle := priv_n EntityType_HostMerkleSigner 1.
Definition k_meta := priv_n EntityType_HostMetadataSigner 1.

Definition ex_srv0 : HostChain :=
  mkHostChain (id_of k_host)
    {[ EntityType_Host := [k_host]; EntityType_HostTLSCA := [k_ca];
       EntityType_HostMerkleSigner := [k_merkle]; EntityType_HostMetadataSigner := [k_meta] ]}
    {[ id_of k_ca := pk_pub k_ca ]} [].
Definition ex_db0 : HostDB := mkHostDB [] ∅ ∅.
(** The generated CA's certificate is written. *)
Definition ex_put_first (m : gmap EntityID nat) : result (gmap EntityID nat) := Ok (<[id_of k_ca := 1]> m).
Definition ex_r1 := initWithKeys toy_enc_inner ex_db0 ex_srv0 100 {| trEpno := 0; trHash := zero_hash |} ex_put_first.
Definition ex_s1 : HostDB * HostChain := Eval vm_compute in ok_or (ex_db0, ex_srv0) ex_r1.
Definition put_none (m : gmap EntityID nat) (_ : EntityID) : result (gmap EntityID nat) := Ok m.
Definition ex_r2 := srv_NewKey toy_enc_inner ex_s1.1 ex_s1.2 200 (Ok ex_root) EntityType_Host k_host2 [] put_none.
Definition ex_s2 : HostDB * HostChain := Eval vm_compute in ok_or ex_s1 ex_r2.
Definition ex_r3 := srv_Revoke toy_enc_inner ex_s2.1 ex_s2.2 300 (Ok ex_root) [id_of k_host].
Definition ex_s3 : HostDB * HostChain := Eval vm_compute in ok_or ex_s2 ex_r3.
Definition ex_links : list HostchainLinkOuter := Eval vm_compute in srvLinks ex_s3.2.


Example ex_runs : is_ok ex_r1 && is_ok ex_r2 && is_ok ex_r3 && (len ex_links =? 3)%Z = true.
Proof. vm_compute. reflexivity. Qed.

Lemma ex_r1_ok : initWithKeys toy_enc_inner ex_db0 ex_srv0 100 {| trEpno := 0; trHash := zero_hash |} ex_put_first = Ok ex_s1.
Proof. vm_compute. reflexivity. Qed.
Lemma ex_r2_ok :
  srv_NewKey toy_enc_inner ex_s1.1 ex_s1.2 200 (Ok ex_root) EntityType_Host k_host2 [] put_none
  = Ok (ex_s2.1, ex_s2.2).
Proof.
  vm_compute. reflexivity.
Qed.
Lemma ex_r3_ok :
  srv_Revoke toy_enc_inner ex_s2.1 ex_s2.2 300 (Ok ex_root) [id_of k_host] = Ok (ex_s3.1, ex_s3.2).
Proof.
  vm_compute. reflexivity.
Qed.

Lemma ex_held t n : IsEd25519 t = true → held (priv_n t n) t (id_of (priv_n t n)).
Proof. intros Ht. by apply (new_key_held toy_enc_inner). Qed.

Lemma ex_generated : generated ex_srv0.
Proof.
  split; [done| |by exists k_host; split; [|apply ex_held]|].
  - intros t k. unfold srv_keys, ex_srv0. cbn [srvKeys].
    destruct (decide (t = EntityType_Host)) as [->|]; [intros ->%list_elem_of_singleton; eexists; by apply ex_held|].
    destruct (decide (t = EntityType_HostTLSCA)) as [->|]; [intros ->%list_elem_of_singleton; eexists; by apply ex_held|].
    destruct (decide (t = EntityType_HostMerkleSigner)) as [->|]; [intros ->%list_elem_of_singleton; eexists; by apply ex_held|].
    destruct (decide (t = EntityType_HostMetadataSigner)) as [->|]; [intros ->%list_elem_of_singleton; eexists; by apply ex_held|].
    rewrite !lookup_insert_ne, lookup_singleton_ne by done. cbn. set_solver.
  - intros k e cert Hk He Hc. apply list_elem_of_singleton in Hk as ->.
    assert (e = id_of k_ca) as -> by (vm_compute in He; injection He as <-; reflexivity).
    vm_compute in Hc. injection Hc as <-. vm_compute. reflexivity.
Qed.

Lemma ex_reaches : server_reaches toy_enc_inner ex_s3.
Proof.
  assert (server_reaches toy_enc_inner ex_s1) as R1 by (by eapply reach_init; [|apply ex_generated|apply ex_r1_ok]).
  assert (server_reaches toy_enc_inner ex_s2) as R2.
  { apply (reach_step _ ex_s1); [exact R1|vm_compute; reflexivity|].
    rewrite (surjective_pairing ex_s1), (surjective_pairing ex_s2).
    apply (step_NewKey _ _ _ _ _ _ _ _ _ _ _ _ (ex_held EntityType_Host 2 eq_refl) ltac:(by intros ?) ex_r2_ok). }
  apply (reach_step _ ex_s2); [exact R2|vm_compute; reflexivity|].
  rewrite (surjective_pairing ex_s2), (surjective_pairing ex_s3).
  apply (step_Revoke _ _ _ _ _ _ _ _ ex_r3_ok).
Qed.

(** ** A client's view *)
Definition ex_h : Hostchain := Eval vm_compute in ok_or NewHostchain (PlayChain [] ex_links None).
Definition ex_links2 : list HostchainLinkOuter := Eval vm_compute in take 2 ex_links.
Definition ex_h2 : Hostchain := Eval vm_compute in ok_or NewHostchain (PlayChain [] ex_links2 None).
Lemma ex_h_ok : PlayChain [] ex_links None = Ok ex_h.
Proof. vm_compute. reflexivity. Qed.
Lemma ex_h2_ok : PlayChain [] ex_links2 None = Ok ex_h2.
Proof. vm_compute. reflexivity. Qed.
Example ex_host_keys : Keys ex_h EntityType_Host = [id_of k_host2] ∧ Hostchain_HostID ex_h = id_of k_host.
Proof. split; vm_compute; reflexivity. Qed.

Definition coll_free_check (l1 l2 : list HostchainLinkOuter) : bool :=
  forallb (λ l, forallb (λ l', negb (bool_decide (HostchainLinkHash l = HostchainLinkHash l'))
                               || bool_decide (l = l')) l2) l1.
Lemma coll_free_check_ok l1 l2 : coll_free_check l1 l2 = true → links_coll_free l1 l2.
Proof.
  unfold coll_free_check. intros Hc l l' hsh Hl Hl' E E'.
  apply list_elem_of_In in Hl, Hl'. rewrite forallb_forall in Hc. specialize (Hc l Hl).
  rewrite forallb_forall in Hc. specialize (Hc l' Hl').
  rewrite E, E', bool_decide_eq_true_2 in Hc by done. by apply bool_decide_eq_true in Hc.
Qed.

(** ** The theorems on this host *)
Lemma server_chain_accepted_witness :
  ∃ h, PlayChain [] (srvLinks ex_s3.2) (Some (srvHostID ex_s3.2)) = Ok h ∧
       Hostchain_HostID h = srvHostID ex_s3.2 ∧
       ∀ k, k ∈ srv_keys ex_s3.2 EntityType_Host → ∃ e, HostKey_EntityID k = Ok e ∧ e ∈ Keys h EntityType_Host.
Proof. exact (server_chain_accepted toy_enc_inner ex_s3 [] ex_reaches). Defined.

Lemma played_keys_exact_witness :
  ∃ os, Forall2 opens ex_links os ∧
    (∀ t, t ≠ EntityType_HostTLSCA → Keys ex_h t = rev (filter (has_type t) (current_keys os))) ∧
    filter is_ca (haCa <$> stCas (raw ex_h)) = filter is_ca (current_cas os) ∧
    Hostchain_HostID ex_h = host_of os ∧ stSeqno (raw ex_h) = len os ∧ stTail (raw ex_h) = last_hash os.
Proof. exact (played_keys_exact [] ex_links None ex_h ex_h_ok). Defined.

Definition ex_l2 : HostchainLinkOuter := Eval vm_compute in default (mkHostchainLinkOuter 0 None) (ex_links !! 2).
Lemma ex_l2_ok : ex_links !! 2 = Some ex_l2.
Proof.
  reflexivity.
Qed.

Lemma host_links_authorized_witness :
  ∃ os o, Forall2 opens (take 2 ex_links) os ∧ opens ex_l2 o ∧
    let signer := hcSigner (orChange o) in
    has_type EntityType_Host signer ∧ signer ∈ current_keys os ∧ fixed signer ∉ revoked_keys os ∧
    (VerifyStackedSignature (orL1 o)
       (concat (map item_signers (hcChanges (orChange o))) ++ [EntityPublicEd25519 signer])).2 = Ok () ∧
    hcHost (orChange o) = host_of os ∧
    bcSeqno (hcChainer (orChange o)) = (Z.of_nat 2 + 1)%Z ∧
    bcPrev (hcChainer (orChange o)) = Some (last_hash os).
Proof. exact (host_links_authorized [] ex_links None ex_h 1 ex_l2 ex_h_ok ex_l2_ok). Defined.

(** The earlier chain comes back from storage. *)
Definition ex_prior : Hostchain := Eval vm_compute in ok_or NewHostchain (Hostchain_Import NewHostchain (Hostchain_Export ex_h2)).

Lemma ex_prior_import : Hostchain_Import NewHostchain (Hostchain_Export ex_h2) = Ok ex_prior.
Proof.
  vm_compute. reflexivity.
Qed.
Lemma host_keys_filed_by_type_witness : keys_typed ex_prior.
Proof. exact (proj1 (host_keys_filed_by_type NewHostchain ex_prior) (Hostchain_Export ex_h2) ex_prior_import). Defined.

Lemma prior_chain_is_prefix_witness : ex_links2 = take (length ex_links2) ex_links.
Proof.
  apply (prior_chain_is_prefix [] [] None None ex_links ex_links2 ex_h ex_h2 ex_prior ex_h_ok ex_h2_ok).
  - vm_compute. reflexivity.
  - vm_compute. reflexivity.
  - vm_compute. reflexivity.
  - apply coll_free_check_ok. vm_compute. reflexivity.
Defined.

Lemma ex_opens2 : ∃ os, MultiPlay (NewHostchainWithAddr []) ex_links2 = Ok ex_h2 ∧ Forall2 opens ex_links2 os.
Proof.
  destruct (PlayChain_ok [] ex_links2 None ex_h2 ex_h2_ok) as (os & F & _). exists os.
  exact (conj (PlayChain_MultiPlay [] ex_links2 None ex_h2 ex_h2_ok) F).
Qed.

Lemma play_accepts_exactly_witness :
  ∃ os, Forall2 opens ex_links2 os ∧ (is_ok (Play ex_h2 ex_l2) = true ↔ ∃ o, opens ex_l2 o ∧ good_next os o).
Proof.
  destruct ex_opens2 as (os & HM & F). exists os. split; [exact F|].
  exact (play_accepts_exactly [] ex_links2 ex_h2 os ex_l2 HM F).
Defined.

Lemma stacked_sign_verify_witness :
  let s := mkHostchainLinkOuterV1 [1; 2; 3]%Z [] in
  let s' := (SignStacked s [k_ca; k_host]).1 in
  VerifyStackedSignature s' [EntityPublicEd25519 (id_of k_ca); EntityPublicEd25519 (id_of k_host)] = (s', Ok ()).
Proof.
  cbn zeta.
  apply (stacked_sign_verify (mkHostchainLinkOuterV1 [1; 2; 3]%Z []) [k_ca; k_host]).
  - discriminate.
  - constructor; [|constructor; [|constructor]]; eapply held_signer; by apply ex_held.
  - vm_compute. reflexivity.
Defined.

(** ** Two behaviours to know about *)

(** A key that was revoked and later added again: replaying the chain refuses its signature,
    but the chain loaded from storage has lost the list of revoked keys and accepts it. *)
Definition ex_l3 : HostchainLinkOuter := Eval vm_compute in
  (ok_or (mkHostchainLinkOuter 0 None, 0%Z) (makeNewKeyLink toy_enc_inner ex_s3.2 400 (Ok ex_root) k_host [])).1.
Definition ex_srv4 : HostChain :=
  mkHostChain (srvHostID ex_s3.2) {[ EntityType_Host := [k_host] ]} ∅ (ex_links ++ [ex_l3]).
Definition ex_l4 : HostchainLinkOuter := Eval vm_compute in
  (ok_or (mkHostchainLinkOuter 0 None, 0%Z) (makeRevokeLink toy_enc_inner ex_srv4 500 (Ok ex_root) [])).1.
Definition ex_h4 : Hostchain := Eval vm_compute in ok_or NewHostchain (MultiPlay NewHostchain (ex_links ++ [ex_l3])).

Theorem import_forgets_revocation :
  is_ok (MultiPlay NewHostchain (ex_links ++ [ex_l3])) = true ∧
  Play ex_h4 ex_l4 = Err (HostchainError "revoked key used") ∧
  is_ok (h ← Hostchain_Import NewHostchain (Hostchain_Export ex_h4); Play h ex_l4) = true.
Proof. split; [|split]; vm_compute; reflexivity. Qed.

(** A new key of the wrong length is played before its signature is checked with it, and
    checking panics. *)
Definition short_key_link : HostchainLinkOuter :=
  let c := mkHostchainChange (mkBaseChainer 1 None ex_root 1) (id_of k_host) (id_of k_host)
             [NewHostchainChangeItemWithKey [2; 7; 7]%Z] in
  let inner := ok_or [] (toy_enc_inner (mkHostchainLinkInner HostchainLinkType_Change (Some c))) in
  NewHostchainLinkOuterWithV1
    (mkHostchainLinkOuterV1 inner [NewSignatureWithEddsa (replicate 64 0%Z); NewSignatureWithEddsa (replicate 64 0%Z)]).
Theorem short_host_key_panics : Play NewHostchain short_key_link = Err GoPanic.
Proof. vm_compute. reflexivity. Qed.

(** Removing in place shifts the array: a slice of two CAs that was copied by value before
    the first was revoked now shows the second twice. *)
Theorem revoked_ca_shows_through {A} (a b : A) :
  let after := removeIndices (slice_of [a; b]) [0] in
  slice_elems after = [b] ∧ slice_elems (mkSlice (sl_array after) 2) = [b; b].
Proof. done. Qed.
