(* ===== verification/ChainLoader.v ===== *)
(** * Loading sigchains ([client/libclient/base_chain_loader.go])

    What the loaders of users, teams and settings share: the links of a chain
    point to each other, every link's hash is a leaf of the Merkle tree at a key
    that the link before it commits to, and the tree has no leaf where the next link
    would be.  Also the keys of the Merkle tree ([lib/merkle/bits.go]).

    [chainerAtIndex] is the callback the callers pass.  The testing hooks are kept: with a
    hook set, an error is queued instead of returned. *)
From S2P Require Import Prelude Snowp MerkleTypes MerkleTrie MerkleVerify Role Roster TeamRoster Sigs HostChain.

(** ** Records ([proto/lib/chains.go], [proto/lib/merkle.go]) *)
Record LinkOuterV1 := mkLinkOuterV1 { lo1Inner : bytes; lo1Signatures : list Signature }.
Definition LinkVersion_V1 : Z := 1.
Record LinkOuter := mkLinkOuter { lo_V : Z; lo_F1 : option LinkOuterV1 }.
Definition LinkOuter_GetV (l : LinkOuter) : result Z :=
  _ ← guard_err ((lo_V l =? LinkVersion_V1)%Z && is_nil (lo_F1 l)) (GoError "unexpected nil case for F_1__");
  Ok (lo_V l).
Definition LinkOuter_V1 (l : LinkOuter) : result LinkOuterV1 :=
  v ← of_option GoPanic (lo_F1 l);
  _ ← guard_err (negb (lo_V l =? LinkVersion_V1)%Z) GoPanic; Ok v.

#[global] Instance LinkOuterV1_eq_dec : EqDecision LinkOuterV1.
Proof. solve_decision. Defined.
#[global] Instance LinkOuter_eq_dec : EqDecision LinkOuter.
Proof. solve_decision. Defined.

Record HidingChainer := mkHidingChainer { hdBase : BaseChainer; NextLocationCommitment : bytes }.

Abbreviation ChainType := Z.
Definition ChainType_User : ChainType := 0.
Definition ChainType_Name : ChainType := 1.
Definition ChainType_UserSettings : ChainType := 2.
Definition ChainType_Team : ChainType := 3.
Definition ChainType_TeamMembership : ChainType := 4.
Definition IsPartyType (t : ChainType) : bool := (t =? ChainType_User)%Z || (t =? ChainType_Team)%Z.
Definition IsSubchain (t : ChainType) : bool :=
  (t =? ChainType_UserSettings)%Z || (t =? ChainType_TeamMembership)%Z.
Definition FirstNameSeqno : Z := 1.
Definition Seqno_IsEldest (s : Z) : bool := (s =? 1)%Z.

Record MerkleTreeRFInput := mkMerkleTreeRFInput {
  rfCt : ChainType; rfEntity : EntityID; rfSeqno : Z; rfLocation : option bytes
}.

Class ChainLib := {
  enc_LinkOuter : LinkOuter → result bytes;
  enc_MerkleTreeRFInput : MerkleTreeRFInput → result bytes;
  enc_TreeLocation : bytes → result bytes;
  enc_ChainLocationDerivation : Z → result bytes;
  dec_LinkOuter : bytes → result LinkOuter;
  hmac_sha512_256 : bytes → bytes → bytes (* the key, then the message *)
}.

Definition Select (p : MerklePathsCompressed) (i : Z) : result MerklePathCompressed :=
  x ← index (psPaths p) i;
  Ok {| pcRoot := psRoot p; pcPath := ppPath x; pcTerminal := ppTerminal x |}.

(** ** The loader *)
Record ChainLoaderTesting := mkChainLoaderTesting {
  SkipMerkleLeafValueCheck : bool; SkipPrevCheck : bool; SkipMerklePathCheck : bool; SkipExistingLoad : bool
}.

Record BaseChainLoader := mkBaseChainLoader {
  linkHashes : list bytes;
  lastHash : option bytes;
  merkleLeaves : list MerkleLeaf;
  fatalError : option error;
  bclTesting : option ChainLoaderTesting
}.
Definition SetTesting (b : BaseChainLoader) (t : option ChainLoaderTesting) : BaseChainLoader :=
  mkBaseChainLoader (linkHashes b) (lastHash b) (merkleLeaves b) (fatalError b) t.
Definition new_loader : BaseChainLoader := mkBaseChainLoader [] None [] None None.
(** A negative index passes the guard and panics. *)
Definition MerkleKey (b : BaseChainLoader) (i : Z) : result (option bytes) :=
  if (len (merkleLeaves b) <=? i)%Z then Ok None
  else lf ← index (merkleLeaves b) i; Ok (Some (Key lf)).

(** The loader's methods change it also when they return an error: a state and error monad. *)
Definition loaderM (A : Type) : Type := BaseChainLoader → BaseChainLoader * result A.
#[global] Instance loaderM_ret : MRet loaderM := λ A a b, (b, Ok a).
#[global] Instance loaderM_bind : MBind loaderM := λ A B f m b,
  match m b with (b, Ok a) => f a b | (b, Err e) => (b, Err e) end.
Definition lift {A} (r : result A) : loaderM A := λ b, (b, r).
Definition get : loaderM BaseChainLoader := λ b, (b, Ok b).
Definition modify (f : BaseChainLoader → BaseChainLoader) : loaderM () := λ b, (f b, Ok ()).

Definition queueFatalError (e : error) : loaderM () := modify (λ b,
  mkBaseChainLoader (linkHashes b) (lastHash b) (merkleLeaves b)
    (match fatalError b with None => Some e | Some e' => Some e' end) (bclTesting b)).
Definition append_hash (h : bytes) : loaderM () := modify (λ b,
  mkBaseChainLoader (linkHashes b ++ [h]) (lastHash b) (merkleLeaves b) (fatalError b) (bclTesting b)).
Definition append_leaf (lf : MerkleLeaf) : loaderM () := modify (λ b,
  mkBaseChainLoader (linkHashes b) (lastHash b) (merkleLeaves b ++ [lf]) (fatalError b) (bclTesting b)).
Definition set_lastHash (h : option bytes) : loaderM () := modify (λ b,
  mkBaseChainLoader (linkHashes b) h (merkleLeaves b) (fatalError b) (bclTesting b)).

(** [if testing != nil && testing.Skip { queue } else { return err }]. *)
Definition queue_or_fail (skip : bool) (e : error) : loaderM () :=
  if skip then queueFatalError e else lift (Err e).
Definition skips (testing : option ChainLoaderTesting) (f : ChainLoaderTesting → bool) : bool :=
  match testing with Some t => f t | None => false end.

Definition ChainLoaderGenericError (s : string) : error := ChainLoaderError false (GoError s).

Section loader.
Context `{Codec} `{ChainLib}.

Definition LinkHash (l : LinkOuter) : result bytes :=
  PrefixedHashInto 0xed4cc0f7081732b6%Z (encodeAndCheck (enc_LinkOuter l)).
Definition KeyHash (inp : MerkleTreeRFInput) : result bytes :=
  PrefixedHashInto 0xb0e268f388acc97a%Z (encodeAndCheck (enc_MerkleTreeRFInput inp)).
Definition TreeLocation_hash (loc : bytes) : result bytes :=
  PrefixedHashInto 0xaeffd88b6cd267d9%Z (encodeAndCheck (enc_TreeLocation loc)).

Definition VerifyTreeLocationCommitment (loc given : bytes) : result () :=
  computed ← TreeLocation_hash loc;
  guard_err (negb (bool_decide (computed = given))) (CommitmentError "bad location commitment").

Definition HashName (eid : EntityID) (seqno : Z) : result bytes :=
  KeyHash (mkMerkleTreeRFInput ChainType_Name eid seqno None).

(** One round of the loop of [checkChain]. *)
Definition check_link (which : string) (testing : option ChainLoaderTesting)
    (prev : option bytes) (seqno : Z) (ch : option HidingChainer) (link : LinkOuter)
  : loaderM (option bytes * Z) :=
  ch ← lift (of_option (ChainLoaderGenericError "chainerAtIndex returned nil") ch);
  let found := bcSeqno (hdBase ch) in
  _ ← lift (guard_err (negb (found =? seqno)%Z) (ChainLoaderError true (CLBadSeqnoError which seqno found)));
  hsh ← lift (LinkHash link);
  let lpp := bcPrev (hdBase ch) in
  _ ← append_hash hsh;
  _ ← (if negb (Bool.eqb (is_nil lpp) (is_nil prev))
          || (match lpp, prev with Some l, Some p => negb (LinkHash_Eq l p) | _, _ => false end)
       then queue_or_fail (skips testing SkipPrevCheck)
              (ChainLoaderError false (CLBadPrevError seqno prev lpp))
       else mret ());
  _ ← lift (guard_err (negb (Bool.eqb (Seqno_IsEldest seqno) (is_nil prev)))
        (ChainLoaderGenericError "prev==nil iff seqno==1"));
  mret (Some hsh, wrap64 (seqno + 1)).

Fixpoint check_links (which : string) (testing : option ChainLoaderTesting)
    (prev : option bytes) (seqno : Z) (chainerAtIndex : nat → option HidingChainer) (i : nat)
    (links : list LinkOuter) : loaderM (option bytes) :=
  match links with
  | [] => mret prev
  | link :: links =>
      '(prev, seqno) ← check_link which testing prev seqno (chainerAtIndex i) link;
      check_links which testing prev seqno chainerAtIndex (S i) links
  end.

Definition checkChain (prev : option bytes) (seqno : Z) (links : list LinkOuter)
    (chainerAtIndex : nat → option HidingChainer) (which : string) (testing : option ChainLoaderTesting)
  : loaderM () :=
  prev ← check_links which testing prev seqno chainerAtIndex 0 links;
  set_lastHash prev.

(** The location of the key for a sequence number, and what is left of the locations. *)
Definition next_location (typ : ChainType) (seqno : Z) (ntlc loc0 : option bytes) (locations : list bytes)
    (locIndex : Z) : result (option bytes * Z) :=
  match ntlc, loc0 with
  | Some c, _ =>
      loc ← index locations locIndex;
      match VerifyTreeLocationCommitment loc c with
      | Ok _ => Ok (Some loc, locIndex + 1)%Z
      | Err e => Err (ChainLoaderError false (CLBadTreeLocationError e seqno))
      end
  | None, Some l => Ok (Some l, locIndex)
  | None, None =>
      if IsPartyType typ && Seqno_IsEldest seqno then Ok (None, locIndex)
      else Err (InternalError "unexpected nil value for next tree location commitment")
  end.

Record path_env := mkPathEnv {
  peEid : EntityID; peTyp : ChainType; peLocations : list bytes;
  peChainer : nat → option HidingChainer; pePaths : MerklePathsCompressed; peLoc0 : option bytes;
  peOffset : Z; peWhich : string; peTesting : option ChainLoaderTesting
}.

(** The rounds [i] to [i + n - 1], of which the last one is the last of the loop. *)
Fixpoint check_paths (E : path_env) (n : nat) (i : nat) (locIndex : Z)
    (ntlc : option bytes) (seqno : Z) : loaderM () :=
  match n with
  | O => mret ()
  | S n =>
      '(location, locIndex) ← lift (next_location (peTyp E) seqno ntlc (peLoc0 E) (peLocations E) locIndex);
      key ← lift (KeyHash (mkMerkleTreeRFInput (peTyp E) (peEid E) seqno location));
      let last := match n with O => true | _ => false end in
      pathTriple ← lift (Select (pePaths E) (Z.of_nat i + peOffset E));
      leaf ← lift match MerkleVerify.Verify pathTriple key (negb last) with
                  | Ok leaf => Ok leaf
                  | Err e => Err (ChainLoaderError true (CLBadMerklePathError e (peWhich E) seqno))
                  end;
      if last then mret ()
      else
        ch ← lift (of_option (InternalError "chainerAtIndex returned nil") (peChainer E i));
        let ntlc := Some (NextLocationCommitment ch) in
        leaf ← lift (of_option (InternalError "unexpected nil leaf") leaf);
        b ← get;
        lh ← lift (index (linkHashes b) (Z.of_nat i));
        _ ← (if bool_decide (leaf = lh) then mret ()
             else queue_or_fail (skips (peTesting E) SkipMerkleLeafValueCheck)
                    (ChainLoaderError false (CLBadMerkleLeafValueError (peWhich E) seqno)));
        _ ← append_leaf {| Key := key; Value := leaf |};
        check_paths E n (S i) locIndex ntlc (wrap64 (seqno + 1))
  end.

Definition checkMerklePaths (E : path_env) (links : list LinkOuter)
    (ntlc : option bytes) (seqno : Z) : loaderM () :=
  paths ← lift (slice_go (psPaths (pePaths E)) (peOffset E) (len (psPaths (pePaths E))));
  let l := len paths in
  _ ← lift (guard_err (negb (l =? len links + 1)%Z)
        (ChainLoaderError false (CLBadCountError "merkle-paths" (len links + 1) l)));
  let neededLocations := if is_nil ntlc then (l - 1)%Z else l in
  _ ← lift (guard_err (negb (neededLocations =? len (peLocations E))%Z)
        (ChainLoaderError false (CLBadCountError "locations" neededLocations (len (peLocations E)))));
  check_paths E (Z.to_nat l) 0 0 ntlc seqno.

(** ** Retries

    [runOnce i] is the attempt [i], with what the server answers to it; [backoff i] is how
    the wait after it ends: with an error if the caller's deadline passes. *)
Fixpoint run_attempts {A} (more i : nat) (runOnce : nat → loaderM A) (resetState : BaseChainLoader → BaseChainLoader)
    (backoff : nat → option error) : loaderM A := λ b,
  match runOnce i b with
  | (b, Ok a) => (b, Ok a)
  | (b, Err err) =>
      match more, err with
      | S more, ChainLoaderError true _ =>
          let b := resetState b in
          match backoff i with
          | Some e => (b, Err e)
          | None => run_attempts more (S i) runOnce resetState backoff b
          end
      | _, _ => (b, Err err)
      end
  end.
Definition runMany {A} (numRetries : Z) (runOnce : nat → loaderM A) (resetState : BaseChainLoader → BaseChainLoader)
    (backoff : nat → option error) : loaderM A :=
  run_attempts (Z.to_nat numRetries) 0 runOnce resetState backoff.

(** What the loaders' [resetState] do to this part of their state: those of users and of
    generic chains leave it as it is, that of teams drops the hashes. *)
Definition UserLoader_resetState (b : BaseChainLoader) : BaseChainLoader := b.
Definition GenericChainLoader_resetState (b : BaseChainLoader) : BaseChainLoader := b.
Definition TeamLoader_resetState (b : BaseChainLoader) : BaseChainLoader :=
  mkBaseChainLoader [] (lastHash b) (merkleLeaves b) (fatalError b) (bclTesting b).

(** ** Names

    The loop of [checkNameLoad] over the name's paths: the name's entity, the first
    sequence number, the sequence number of the name known before and the hash of the party. *)
Definition name_path (pathTriple : MerklePathCompressed) (h : bytes) (last : bool) (i : nat)
  : loaderM (option bytes) :=
  match MerkleVerify.Verify pathTriple h (negb last) with
  | Ok leaf => mret leaf
  | Err e =>
      let err := ChainLoaderError false (CLBadMerklePathError e "username" (Z.of_nat i)) in
      b ← get;
      if skips (bclTesting b) SkipMerklePathCheck then
        _ ← queueFatalError err;
        match GetLeaf (pcTerminal pathTriple) with
        | Ok true => t ← lift (TerminalTrue (pcTerminal pathTriple)); mret (Some (ptlLeaf t))
        | _ => mret None
        end
      else lift (Err err)
  end.

Fixpoint check_name_paths (neid : EntityID) (paths : MerklePathsCompressed) (party_hash : result bytes)
    (n : nat) (i : nat) (seqno : Z) (ret : Z) : loaderM Z :=
  match n with
  | O => mret ret
  | S n =>
      let last := match n with O => true | _ => false end in
      let penultimate := match n with 1 => true | _ => false end in
      h ← lift (HashName neid seqno);
      pathTriple ← lift (Select paths (Z.of_nat i));
      leaf ← name_path pathTriple h last i;
      if last then mret ret
      else
        leaf ← lift (of_option (InternalError "expected a leaf at end of username path") leaf);
        let ret := seqno in
        if negb penultimate then check_name_paths neid paths party_hash n (S i) seqno ret
        else
          ph ← lift party_hash;
          _ ← lift (guard_err (negb (bool_decide (ph = leaf)))
                (ChainLoaderError false (CLBadMerkleLeafValueError "username" (Z.of_nat i))));
          check_name_paths neid paths party_hash n (S i) (wrap64 (seqno + 1)) ret
  end.

(** ** The server's side ([server/shared/chain_loader.go]): the keys whose paths it sends. *)
Fixpoint merkle_keys (eid : EntityID) (typ : ChainType) (lmap : gmap Z bytes) (n : nat) (i : Z)
  : result (list bytes) :=
  match n with
  | O => Ok []
  | S n =>
      key ← KeyHash (mkMerkleTreeRFInput typ eid i (lmap !! i));
      ret ← merkle_keys eid typ lmap n (i + 1);
      Ok (key :: ret)
  end.
Definition MakeMerkleKeys (eid : EntityID) (typ : ChainType) (start : Z) (lmap : gmap Z bytes)
    (links : list LinkOuter) : result (list bytes) :=
  merkle_keys eid typ lmap (length links + 1) start.

Record NameSeqnoPair := mkNameSeqnoPair { nsN : bytes; nsS : Z }.
(** [eid] is [NameToEntityID curr.N host]. *)
Fixpoint name_keys (eid : EntityID) (n : nat) (i : Z) : result (list bytes) :=
  match n with
  | O => Ok []
  | S n => key ← HashName eid i; ret ← name_keys eid n (i + 1); Ok (key :: ret)
  end.
Definition nameMerkleKeys (eid : result EntityID) (arg : option NameSeqnoPair) (curr : NameSeqnoPair)
  : result (list bytes) :=
  let start := match arg with
               | Some a => if bool_decide (nsN a = nsN curr) then nsS a else FirstNameSeqno
               | None => FirstNameSeqno end in
  eid ← eid;
  name_keys eid (Z.to_nat (nsS curr + 1 - start + 1)) start.
End loader.
