(* ===== verification/ChainLoaderFacts.v ===== *)
(** * Loading sigchains: what an accepted load means

    The Merkle tree under a root publishes one chain for an entity: the link for a sequence
    number is the leaf at the key made of the entity, the number and a location that the link
    before committed to.  A load that is accepted returns that chain, whole; so two
    loads against one root agree.  The paths the server looks up for its keys are accepted. *)
From S2P Require Import Prelude Bits SkipPointers Snowp MerkleTypes MerkleTrie MerkleStorage MerkleEngine MerkleLookup MerkleInsert MerkleRefine MerkleVerify Role Roster TeamRoster Sigs HostChain ChainLoader.

(** ** The loader's monad *)
Lemma bindM_Ok {A B} (m : loaderM A) (f : A → loaderM B) b b' x :
  (m ≫= f) b = (b', Ok x) → ∃ b1 a, m b = (b1, Ok a) ∧ f a b1 = (b', Ok x).
Proof. unfold mbind, loaderM_bind. destruct (m b) as [b1 [a|e]]; [by eauto|done]. Qed.
Lemma bind_lift_Ok {A B} (r : result A) (f : A → loaderM B) b b' x :
  (lift r ≫= f) b = (b', Ok x) → ∃ a, r = Ok a ∧ f a b = (b', Ok x).
Proof. intros (b1 & a & [= <- ->] & Hf)%bindM_Ok. by eauto. Qed.
Lemma bind_lift {A B} (r : result A) (f : A → loaderM B) b a : r = Ok a → (lift r ≫= f) b = f a b.
Proof. by intros ->. Qed.
Lemma bind_run {A B} (m : loaderM A) (f : A → loaderM B) b b1 a : m b = (b1, Ok a) → (m ≫= f) b = f a b1.
Proof. intros Hm. unfold mbind, loaderM_bind. by rewrite Hm. Qed.
Definition ends_ok {A} (r : BaseChainLoader * result A) : bool := is_ok r.2.

Section published.
Context `{Codec} `{ChainLib}.
Context (eid : EntityID) (typ : ChainType) (loc0 : option bytes).
(** The chainer inside a link: what the callers' [chainerAtIndex] returns for it. *)
Context (chainer_of : LinkOuter → HidingChainer).

(** ** The specification *)

(** Where the link for a sequence number is: at a location that opens the commitment of the
    link before, at the location given by another chain, or at none. *)
Inductive placed (seqno : Z) : option bytes → list bytes → option bytes → list bytes → Prop :=
| placed_committed c l locs : TreeLocation_hash l = Ok c → placed seqno (Some c) (l :: locs) (Some l) locs
| placed_given l locs : loc0 = Some l → placed seqno None locs (Some l) locs
| placed_eldest locs :
    loc0 = None → IsPartyType typ = true → Seqno_IsEldest seqno = true → placed seqno None locs None locs.

Definition key_for (seqno : Z) (loc : option bytes) : result bytes :=
  KeyHash (mkMerkleTreeRFInput typ eid seqno loc).

(** The links that [t] publishes from a sequence number on, and the locations of their keys. *)
Inductive published (t : trie) : Z → option bytes → list bytes → list LinkOuter → Prop :=
| published_end seqno ntlc locs loc key :
    placed seqno ntlc locs loc [] → key_for seqno loc = Ok key → tget key 0 t = None →
    published t seqno ntlc locs []
| published_link seqno ntlc locs loc locs' key link h links :
    placed seqno ntlc locs loc locs' → key_for seqno loc = Ok key →
    LinkHash link = Ok h → tget key 0 t = Some h →
    published t (wrap64 (seqno + 1)) (Some (NextLocationCommitment (chainer_of link))) locs' links →
    published t seqno ntlc locs (link :: links).

(** Each link names the hash of the one before and the next sequence number. *)
Inductive chained : option bytes → Z → list LinkOuter → Prop :=
| chained_nil prev seqno : chained prev seqno []
| chained_cons prev seqno link h links :
    bcSeqno (hdBase (chainer_of link)) = seqno → bcPrev (hdBase (chainer_of link)) = prev →
    Seqno_IsEldest seqno = is_nil prev → LinkHash link = Ok h →
    chained (Some h) (wrap64 (seqno + 1)) links → chained prev seqno (link :: links).

Definition hashes (links : list LinkOuter) (hs : list bytes) : Prop := Forall2 (λ l h, LinkHash l = Ok h) links hs.

(** ** [checkChain] *)
Section chain.
Context (which : string).

Lemma check_links_spec b prev seqno ch i links :
  (∀ j, ch (i + j) = chainer_of <$> links !! j) → chained prev seqno links →
  ∃ hs, hashes links hs ∧
    check_links which None prev seqno ch i links b =
      (mkBaseChainLoader (linkHashes b ++ hs) (lastHash b) (merkleLeaves b) (fatalError b) (bclTesting b),
       Ok (match last hs with Some h => Some h | None => prev end)).
Proof.
  intros Hch Hc. revert b i Hch.
  induction Hc as [prev seqno|prev seqno link h links Hs Hp He Hh Hc IH]; intros b i Hch.
  - exists []. split; [constructor|]. cbn [check_links last]. rewrite app_nil_r. by destruct b.
  - edestruct (IH (mkBaseChainLoader (linkHashes b ++ [h]) (lastHash b) (merkleLeaves b) (fatalError b)
      (bclTesting b)) (S i)) as (hs & Hhs & Hrun).
    { intros j. rewrite Nat.add_succ_comm. apply (Hch (S j)). }
    exists (h :: hs). split; [by constructor|]. cbn [check_links].
    enough (check_link which None prev seqno (ch i) link b =
      (mkBaseChainLoader (linkHashes b ++ [h]) (lastHash b) (merkleLeaves b) (fatalError b) (bclTesting b),
       Ok (Some h, wrap64 (seqno + 1)))) as Hl.
    { rewrite (bind_run _ _ _ _ _ Hl). rewrite Hrun. cbn [linkHashes lastHash merkleLeaves fatalError bclTesting].
      rewrite <- app_assoc, last_cons. by destruct (last hs). }
    unfold check_link. specialize (Hch 0). rewrite Nat.add_0_r in Hch. rewrite Hch.
    erewrite bind_lift by done. cbn [lookup list_lookup]. cbv zeta. rewrite Hs, Z.eqb_refl.
    erewrite bind_lift by done. erewrite bind_lift by exact Hh. erewrite bind_run by done.
    rewrite Hp, eqb_reflx, He, eqb_reflx. cbn [negb orb].
    assert ((match prev, prev with Some l, Some p => negb (LinkHash_Eq l p) | _, _ => false end) = false) as ->.
    { destruct prev; [|done]. unfold LinkHash_Eq. by rewrite bool_decide_eq_true_2. }
    done.
Qed.

Lemma check_links_inv b prev seqno ch i links r b' :
  (∀ j, ch (i + j) = chainer_of <$> links !! j) →
  check_links which None prev seqno ch i links b = (b', Ok r) → chained prev seqno links.
Proof.
  revert b prev seqno i. induction links as [|link links IH]; intros b prev seqno i Hch Hrun; [constructor|].
  cbn [check_links] in Hrun. apply bindM_Ok in Hrun as (b1 & [p' s'] & Hl & Hrun). unfold check_link in Hl.
  pose proof (Hch 0) as Hc0. rewrite Nat.add_0_r in Hc0. rewrite Hc0 in Hl.
  apply bind_lift_Ok in Hl as (c & Hc%of_option_Ok & Hl). injection Hc as <-.
  apply bind_lift_Ok in Hl as ([] & Hs%guard_err_Ok%negb_false_iff%Z.eqb_eq & Hl).
  apply bind_lift_Ok in Hl as (h & Hh & Hl). apply bindM_Ok in Hl as (b2 & [] & _ & Hl). cbv zeta in Hl.
  destruct (_ || _) eqn:Hor; [done|]. apply orb_false_iff in Hor as [Hn Heq].
  apply bindM_Ok in Hl as (b3 & [] & _ & Hl).
  apply bind_lift_Ok in Hl as ([] & He%guard_err_Ok & [= _ <- <-]).
  apply negb_false_iff, eqb_prop in He. apply negb_false_iff, eqb_prop in Hn.
  econstructor; [done| |done|done|].
  - destruct (bcPrev _), prev; try done. apply negb_false_iff, bool_decide_eq_true in Heq. by subst.
  - eapply IH; [|done]. intros j. rewrite Nat.add_succ_comm. apply (Hch (S j)).
Qed.

(** The hooks stay as they are. *)
Lemma check_links_testing testing b prev seqno ch i links b' r :
  check_links which testing prev seqno ch i links b = (b', r) → bclTesting b' = bclTesting b.
Proof.
  revert b prev seqno i. induction links as [|link links IH]; intros b prev seqno i Hrun; [by injection Hrun as <- _|].
  cbn [check_links] in Hrun. unfold mbind, loaderM_bind in Hrun.
  destruct (check_link which testing prev seqno (ch i) link b) as [b1 r1] eqn:Hl.
  assert (bclTesting b1 = bclTesting b) as <-.
  { clear -Hl.
    unfold check_link, mbind, loaderM_bind, queue_or_fail, queueFatalError, append_hash, modify, lift, mret, loaderM_ret in Hl.
    repeat (case_match; simplify_eq/=); done. }
  destruct r1 as [[p s]|e]; [by eapply IH|by injection Hrun as <- _].
Qed.
End chain.

(** ** [checkMerklePaths] *)

(** The locations of the keys the loader still asks for. *)
Definition remaining (ntlc : option bytes) (locs : list bytes) : list (option bytes) :=
  match ntlc with Some _ => Some <$> locs | None => loc0 :: (Some <$> locs) end.

(** The paths the loader verifies, with their keys. *)
Fixpoint queries (root : MerkleRoot) (paths : list MerklePathCompressedPair) (ls : list (option bytes)) (seqno : Z)
  : list (MerklePathCompressed * bytes) :=
  match paths, ls with
  | p :: paths, l :: ls =>
      match key_for seqno l with
      | Ok k => ({| pcRoot := root; pcPath := ppPath p; pcTerminal := ppTerminal p |}, k)
                  :: queries root paths ls (wrap64 (seqno + 1))
      | Err _ => []
      end
  | _, _ => []
  end.

Lemma remaining_placed seqno ntlc locs loc locs' :
  placed seqno ntlc locs loc locs' → remaining ntlc locs = loc :: (Some <$> locs').
Proof. intros [c l ls Hc|l ls Hl|ls Hl _ _]; unfold remaining; [done|by rewrite Hl..]. Qed.

Lemma next_location_placed seqno ntlc locations k loc k' :
  next_location typ seqno ntlc loc0 locations (Z.of_nat k) = Ok (loc, k') →
  ∃ n, k' = Z.of_nat n ∧ placed seqno ntlc (drop k locations) loc (drop n locations).
Proof.
  unfold next_location. destruct ntlc as [c|]; [|destruct loc0 as [l|] eqn:Hl].
  - intros Hr. apply bind_Ok in Hr as (l & Hi & Hr). rewrite index_nat in Hi. apply of_option_Ok in Hi.
    destruct (VerifyTreeLocationCommitment l c) eqn:Hv; [|done]. simplify_eq.
    exists (S k). split; [lia|]. rewrite (drop_S _ _ _ Hi). constructor.
    unfold VerifyTreeLocationCommitment in Hv. apply bind_Ok in Hv as (c' & Hc & Hg).
    apply guard_err_Ok, negb_false_iff, bool_decide_eq_true in Hg. by subst.
  - intros [= <- <-]. exists k. split; [done|]. by constructor.
  - case_match eqn:Hc; [|done]. intros [= <- <-]. apply andb_true_iff in Hc as [??].
    exists k. split; [done|]. by constructor.
Qed.

Lemma placed_next_location seqno ntlc locations k loc locs' :
  placed seqno ntlc (drop k locations) loc locs' →
  ∃ n, next_location typ seqno ntlc loc0 locations (Z.of_nat k) = Ok (loc, Z.of_nat n) ∧
    locs' = drop n locations.
Proof.
  intros Hp. unfold next_location. inversion Hp as [c l locs Hc Hc1 Hd|l locs Hl|locs Hl Ht He]; subst.
  - exists (S k). assert (locations !! k = Some l) as Hk.
    { rewrite <- (Nat.add_0_r k), <- lookup_drop, <- Hd. done. }
    rewrite index_nat, Hk.
    cbn [of_option mbind result_bind]. unfold VerifyTreeLocationCommitment. rewrite Hc.
    cbn [mbind result_bind]. rewrite bool_decide_eq_true_2 by done. simpl. split; [do 2 f_equal; lia|].
    rewrite (drop_S _ _ _ Hk) in Hd. by simplify_eq.
  - exists k. by rewrite Hl.
  - exists k. by rewrite Hl, Ht, He.
Qed.

Lemma placed_locs_cons_length seqno ntlc locs loc locs' :
  placed seqno ntlc locs loc locs' → length (remaining ntlc locs) = S (length locs').
Proof. intros Hp. by rewrite (remaining_placed _ _ _ _ _ Hp), length_cons, length_fmap. Qed.

Lemma published_remaining t seqno ntlc locs links :
  published t seqno ntlc locs links → length (remaining ntlc locs) = S (length links).
Proof.
  induction 1 as [seqno ntlc locs loc key Hpl|seqno ntlc locs loc locs' key link h links Hpl _ _ _ _ IH];
    rewrite (placed_locs_cons_length _ _ _ _ _ Hpl); [done|].
  unfold remaining in IH. rewrite length_fmap in IH. simpl. by rewrite IH.
Qed.

(** ** Soundness of a load *)
Section sound.
Context `{!HashTotal} (P : MerkleNode → Prop) (Hcf : coll_free P).
Context (Hnz : ∀ n, P n → node_hash n ≠ zero_hash).
Context (t : trie) (HPt : ∀ n, n ∈ tnodes 0 t → P n) (Hwf : trie_wf [] t).

(** The root of [t], and a path whose hashing meets no collision. *)
Definition root_of (root : MerkleRoot) : Prop := ∃ r1, rF1 root = Some r1 ∧ r1RootNode r1 = thash 0 t.
Definition query_ok (q : MerklePathCompressed * bytes) : Prop :=
  root_of (pcRoot q.1) ∧ bytes_ok (pcPath q.1) ∧ bytes_ok q.2 ∧ ∀ n, n ∈ verifier_nodes q.2 q.1 → P n.

Lemma query_sound p seqno loc key last leaf :
  key_for seqno loc = Ok key → query_ok (p, key) → MerkleVerify.Verify p key (negb last) = Ok leaf →
  if last then tget key 0 t = None else ∃ v, leaf = Some v ∧ tget key 0 t = Some v.
Proof.
  intros Hk ((r1 & Hr1 & Hroot) & Hbp & Hok & HPv). apply PrefixedHashInto_length in Hk.
  unfold MerkleVerify.Verify. destruct last; simpl.
  - intros Hv. apply bind_Ok in Hv as ([] & Hv & _). by eapply (VerifyAbsence_tget P).
  - intros Hv. apply fmap_Ok in Hv as (v & Hv & Heq). exists v. split; [done|].
    by eapply (VerifyPresence_tget P).
Qed.

(** The loader's arguments, for this entity, and the chainers of the links from [i] on. *)
Definition env_for (E : path_env) : Prop :=
  peEid E = eid ∧ peTyp E = typ ∧ peLoc0 E = loc0 ∧ peTesting E = None.
Definition chainers (E : path_env) (i : nat) (links : list LinkOuter) : Prop :=
  ∀ j, j < length links → peChainer E (i + j) = chainer_of <$> links !! j.

Lemma chainers_tail E i link links : chainers E i (link :: links) → chainers E (S i) links.
Proof. intros Hc j Hj. rewrite Nat.add_succ_comm. apply (Hc (S j)). simpl. lia. Qed.

Definition queries_at (E : path_env) (o i k : nat) (ntlc : option bytes) (seqno : Z) :=
  queries (psRoot (pePaths E)) (drop (i + o) (psPaths (pePaths E)))
    (remaining ntlc (drop k (peLocations E))) seqno.

Lemma check_paths_published E o links b pre hs i k ntlc seqno b' :
  env_for E → chainers E i links → peOffset E = Z.of_nat o →
  hashes links hs → linkHashes b = pre ++ hs → length pre = i →
  length (remaining ntlc (drop k (peLocations E))) = S (length links) →
  Forall query_ok (queries_at E o i k ntlc seqno) →
  check_paths E (S (length links)) i (Z.of_nat k) ntlc seqno b = (b', Ok ()) →
  published t seqno ntlc (drop k (peLocations E)) links.
Proof.
  intros (Heid & Htyp & Hloc0 & Htest). destruct E as [eid' typ' locs ch paths l0 off wh tst]. simpl in Heid, Htyp, Hloc0, Htest. subst.
  set (E := mkPathEnv _ _ _ _ _ _ _ _ _). revert b pre hs i k ntlc seqno. induction links as [|link links IH];
    intros b pre hs i k ntlc seqno Hch Ho Hhs Hb Hi Hlen Hq Hrun; pose proof Hch as Hch0;
    cbn [check_paths length] in Hrun;
    apply bind_lift_Ok in Hrun as ([loc k'] & Hloc & Hrun);
    apply next_location_placed in Hloc as (k2 & -> & Hpl);
    apply bind_lift_Ok in Hrun as (key & Hkey & Hrun);
    apply bind_lift_Ok in Hrun as (pt & Hpt & Hrun);
    apply bind_lift_Ok in Hrun as (leaf & Hv & Hrun);
    (destruct (MerkleVerify.Verify pt key _) as [leaf'|] eqn:Hver; [injection Hv as ->|discriminate Hv]);
    unfold Select in Hpt; rewrite Ho, <- Nat2Z.inj_add, index_nat in Hpt;
    apply bind_Ok in Hpt as (pp & Hp%of_option_Ok & [= <-]);
    unfold queries_at in Hq; rewrite (drop_S _ _ _ Hp), (remaining_placed _ _ _ _ _ Hpl) in Hq;
    cbn [queries] in Hq; change (key_for seqno loc = Ok key) in Hkey; rewrite Hkey in Hq;
    apply Forall_cons in Hq as [Hq Hqs]; cbv zeta in Hver;
    rewrite (remaining_placed _ _ _ _ _ Hpl), length_cons, length_fmap in Hlen; injection Hlen as Hlen.
  - apply length_zero_iff_nil in Hlen. change (drop k2 (peLocations E) = []) in Hlen. rewrite Hlen in Hpl. econstructor; [exact Hpl|done|].
    by eapply (query_sound _ _ _ _ true).
  - eapply (query_sound _ _ _ _ false) in Hver as (v & -> & Hget); [|done..].
    specialize (Hch 0 ltac:(simpl; lia)). rewrite Nat.add_0_r in Hch.
    apply bind_lift_Ok in Hrun as (c & Hc%of_option_Ok & Hrun). rewrite Hch in Hc. injection Hc as <-.
    apply bind_lift_Ok in Hrun as (v' & [= <-] & Hrun). apply bindM_Ok in Hrun as (b1 & b2 & [= <- <-] & Hrun).
    inversion Hhs as [|? h ? hs' Hh Hhs']; simplify_eq.
    rewrite Hb, index_nat, lookup_app_r, Nat.sub_diag in Hrun by lia.
    apply bind_lift_Ok in Hrun as (lh & [= <-] & Hrun). apply bindM_Ok in Hrun as (b1 & [] & Hcmp & Hrun).
    case_bool_decide as Hvh; [|done]. injection Hcmp as <-. rewrite Hvh in Hget, Hrun.
    apply bindM_Ok in Hrun as (b1 & [] & [= <-] & Hrun).
    econstructor; [exact Hpl|exact Hkey|exact Hh|exact Hget|].
    eapply (IH _ (pre ++ [h]) hs'); [by eapply chainers_tail|exact Ho|exact Hhs'| | | | |exact Hrun]; cbn [linkHashes].
    + by rewrite Hb, <- app_assoc.
    + rewrite length_app. simpl. lia.
    + unfold remaining. rewrite length_fmap. exact Hlen.
    + exact Hqs.
Qed.
End sound.

(** ** Completeness of a load *)
Section complete.
Context (t : trie).
Definition answered (q : MerklePathCompressed * bytes) : Prop :=
  MerkleVerify.Verify q.1 q.2 (bool_decide (is_Some (tget q.2 0 t))) = Ok (tget q.2 0 t).

(** One round: its location, key and path, and the answer. *)
Lemma round_accepts E o i k ntlc seqno loc locs key :
  env_for E → peOffset E = Z.of_nat o → drop (i + o) (psPaths (pePaths E)) ≠ [] →
  placed seqno ntlc (drop k (peLocations E)) loc locs → key_for seqno loc = Ok key →
  Forall answered (queries_at E o i k ntlc seqno) →
  ∃ k2 pt, next_location (peTyp E) seqno ntlc (peLoc0 E) (peLocations E) (Z.of_nat k) = Ok (loc, Z.of_nat k2) ∧
    locs = drop k2 (peLocations E) ∧
    KeyHash (mkMerkleTreeRFInput (peTyp E) (peEid E) seqno loc) = Ok key ∧
    Select (pePaths E) (Z.of_nat i + peOffset E) = Ok pt ∧ answered (pt, key) ∧
    ∀ c, Forall answered (queries_at E o (S i) k2 (Some c) (wrap64 (seqno + 1))).
Proof.
  intros (Heid & Htyp & Hloc0 & _) Ho Hne Hpl Hkey Hq.
  destruct (placed_next_location _ _ _ _ _ _ Hpl) as (k2 & Hnext & ->).
  destruct (psPaths (pePaths E) !! (i + o)) as [pp|] eqn:Hp; [|by apply lookup_ge_None, drop_ge in Hp].
  unfold queries_at in Hq. rewrite (drop_S _ _ _ Hp), (remaining_placed _ _ _ _ _ Hpl) in Hq.
  cbn [queries] in Hq. rewrite Hkey in Hq. apply Forall_cons in Hq as [Hq Hqs].
  exists k2. eexists. rewrite Heid, Htyp, Hloc0. split_and!; [done..| |exact Hq|done].
  unfold Select. rewrite Ho, <- Nat2Z.inj_add, index_nat, Hp. done.
Qed.

Lemma check_paths_accepts E o links b pre hs i k ntlc seqno :
  env_for E → chainers E i links → peOffset E = Z.of_nat o →
  hashes links hs → linkHashes b = pre ++ hs → length pre = i →
  published t seqno ntlc (drop k (peLocations E)) links →
  length (drop (i + o) (psPaths (pePaths E))) = S (length links) →
  Forall answered (queries_at E o i k ntlc seqno) →
  ends_ok (check_paths E (S (length links)) i (Z.of_nat k) ntlc seqno b) = true.
Proof.
  intros HE. revert b pre hs i k ntlc seqno. induction links as [|link links IH];
    intros b pre hs i k ntlc seqno Hch Ho Hhs Hb Hi Hpub Hlen Hq; cbn [check_paths length];
    assert (drop (i + o) (psPaths (pePaths E)) ≠ []) as Hne by (intros Hz; by rewrite Hz in Hlen);
    inversion Hpub as [? ? ? loc key Hpl Hkey Hget|? ? ? loc locs' key ? h' ? Hpl Hkey Hh' Hget Hpub']; subst;
    destruct (round_accepts _ _ _ _ _ _ _ _ _ HE Ho Hne Hpl Hkey Hq) as (k2 & pt & Hn & Hk2 & Hk & Hs & Ha & Hqs);
    unfold answered in Ha; cbn [fst snd] in Ha; rewrite Hget in Ha;
    rewrite (bind_lift _ _ _ _ Hn), (bind_lift _ _ _ _ Hk), (bind_lift _ _ _ _ Hs); cbv zeta.
  { rewrite (bool_decide_eq_false_2 _ is_Some_None) in Ha. cbn [negb]. by rewrite Ha. }
  rewrite bool_decide_eq_true_2 in Ha by done. cbn [negb]. rewrite Ha. erewrite bind_lift by done.
  inversion Hhs as [|? h ? hs' Hh Hhs']; simplify_eq.
  pose proof (Hch 0 ltac:(simpl; lia)) as Hch0. rewrite Nat.add_0_r in Hch0. rewrite Hch0.
  erewrite bind_lift by done. erewrite bind_lift by done. erewrite bind_run by done.
  erewrite bind_lift by (rewrite Hb, index_nat, lookup_app_r, Nat.sub_diag by lia; done).
  rewrite bool_decide_eq_true_2 by congruence. erewrite bind_run by done. erewrite bind_run by done.
  eapply (IH _ (pre ++ [h]) hs'); cbn [linkHashes].
  - by eapply chainers_tail.
  - exact Ho.
  - exact Hhs'.
  - by rewrite Hb, <- app_assoc.
  - rewrite length_app. simpl. lia.
  - exact Hpub'.
  - rewrite length_drop in Hlen |- *. simpl in Hlen |- *. lia.
  - apply Hqs.
Qed.
End complete.

(** ** A load: the two checks in sequence *)
Definition load (E : path_env) (prev : option bytes) (seqno : Z) (ntlc : option bytes) (links : list LinkOuter)
  : loaderM () :=
  _ ← checkChain prev seqno links (peChainer E) (peWhich E) (peTesting E);
  checkMerklePaths E links ntlc seqno.

(** [chainerAtIndex] looks into the links. *)
Definition reads_links (E : path_env) (links : list LinkOuter) : Prop :=
  ∀ j, peChainer E j = chainer_of <$> links !! j.

Lemma reads_chainers E links : reads_links E links → chainers E 0 links.
Proof. intros Hr j _. apply Hr. Qed.

Lemma checkMerklePaths_counts E o b links ntlc seqno :
  peOffset E = Z.of_nat o →
  length (drop o (psPaths (pePaths E))) = S (length links) →
  length (remaining ntlc (peLocations E)) = S (length links) →
  checkMerklePaths E links ntlc seqno b = check_paths E (S (length links)) 0 0 ntlc seqno b.
Proof.
  intros Ho Hp Hl. rewrite length_drop in Hp. unfold checkMerklePaths, slice_go. rewrite Ho.
  replace (_ && _) with true by (unfold len; lia). erewrite bind_lift by done.
  replace (len (take _ _)) with (len links + 1)%Z
    by (unfold len; rewrite Nat2Z.id, length_take, length_drop; lia).
  rewrite Z.eqb_refl. erewrite bind_lift by done.
  replace (if is_nil ntlc then _ else _) with (len (peLocations E)).
  - rewrite Z.eqb_refl. erewrite bind_lift by done.
    by replace (Z.to_nat (len links + 1)) with (S (length links)) by (unfold len; lia).
  - unfold remaining in Hl. destruct ntlc; simpl in *; rewrite length_fmap in Hl; unfold len; lia.
Qed.

Lemma checkMerklePaths_inv E o b links ntlc seqno b' :
  peOffset E = Z.of_nat o → checkMerklePaths E links ntlc seqno b = (b', Ok ()) →
  length (drop o (psPaths (pePaths E))) = S (length links) ∧
  length (remaining ntlc (peLocations E)) = S (length links).
Proof.
  intros Ho Hr. unfold checkMerklePaths, slice_go in Hr. rewrite Ho in Hr.
  apply bind_lift_Ok in Hr as (ps & Hps & Hr). destruct (_ && _) eqn:Hb; [|done]. injection Hps as <-.
  apply bind_lift_Ok in Hr as ([] & Hc%guard_err_Ok%negb_false_iff%Z.eqb_eq & Hr).
  apply bind_lift_Ok in Hr as ([] & Hd%guard_err_Ok%negb_false_iff%Z.eqb_eq & _).
  unfold len in *. rewrite Nat2Z.id, length_take, length_drop in Hc, Hd. rewrite length_drop.
  split; [lia|]. unfold remaining. destruct ntlc; simpl in *; rewrite length_fmap; lia.
Qed.

Lemma checkChain_spec b prev seqno ch which links :
  (∀ j, ch j = chainer_of <$> links !! j) → chained prev seqno links →
  ∃ b', checkChain prev seqno links ch which None b = (b', Ok ()) ∧
    ∃ hs, hashes links hs ∧ linkHashes b' = linkHashes b ++ hs.
Proof.
  intros Hch Hc. destruct (check_links_spec which b prev seqno ch 0 links Hch Hc) as (hs & Hhs & Hrun).
  unfold checkChain. rewrite (bind_run _ _ _ _ _ Hrun). eauto.
Qed.

Lemma checkChain_inv b prev seqno ch which links b' :
  (∀ j, ch j = chainer_of <$> links !! j) → checkChain prev seqno links ch which None b = (b', Ok ()) →
  chained prev seqno links.
Proof.
  intros Hch Hrun. unfold checkChain in Hrun. apply bindM_Ok in Hrun as (b1 & p1 & Hrun & _).
  by eapply (check_links_inv which _ _ _ _ 0).
Qed.

Lemma checkChain_testing prev seqno links ch which testing b b' r :
  checkChain prev seqno links ch which testing b = (b', r) → bclTesting b' = bclTesting b.
Proof.
  unfold checkChain, mbind, loaderM_bind. destruct (check_links _ _ _ _ _ _ _ b) as [b1 [p|e]] eqn:Hl;
    apply check_links_testing in Hl; intros [= <- _]; done.
Qed.

Lemma load_published P t E o prev seqno ntlc links b b' `{!HashTotal} :
  coll_free P → (∀ n, P n → node_hash n ≠ zero_hash) → (∀ n, n ∈ tnodes 0 t → P n) → trie_wf [] t →
  env_for E → reads_links E links → peOffset E = Z.of_nat o →
  Forall (query_ok P t) (queries_at E o 0 0 ntlc seqno) →
  linkHashes b = [] → load E prev seqno ntlc links b = (b', Ok ()) →
  chained prev seqno links ∧ published t seqno ntlc (peLocations E) links.
Proof.
  intros Hcf Hnz HPt Hwf HE Hrd Ho Hq Hb Hrun. pose proof HE as (_ & _ & Hloc0 & Htest).
  unfold load in Hrun. rewrite Htest in Hrun. apply bindM_Ok in Hrun as (b1 & [] & Hc & Hm).
  pose proof (checkChain_inv _ _ _ _ _ _ _ Hrd Hc) as Hch. split; [done|].
  destruct (checkChain_spec b _ _ _ (peWhich E) _ Hrd Hch) as (b1' & Hc' & hs & Hhs & Hlh).
  assert (b1' = b1) as -> by congruence. rewrite Hb in Hlh.
  destruct (checkMerklePaths_inv _ _ _ _ _ _ _ Ho Hm) as [Hp Hl].
  rewrite (checkMerklePaths_counts _ o) in Hm by done.
  eapply (check_paths_published P Hcf Hnz t HPt Hwf E o links b1 [] hs 0 0); try done. by apply reads_chainers.
Qed.

Lemma load_accepts t E o prev seqno ntlc links b :
  env_for E → reads_links E links → peOffset E = Z.of_nat o →
  chained prev seqno links → published t seqno ntlc (peLocations E) links →
  length (drop o (psPaths (pePaths E))) = S (length links) →
  Forall (answered t) (queries_at E o 0 0 ntlc seqno) →
  linkHashes b = [] → ends_ok (load E prev seqno ntlc links b) = true.
Proof.
  intros HE Hrd Ho Hch Hpub Hlen Hq Hb. pose proof HE as (_ & _ & Hloc0 & Htest).
  destruct (checkChain_spec b _ _ _ (peWhich E) _ Hrd Hch) as (b1 & Hc & hs & Hhs & Hlh). rewrite Hb in Hlh.
  unfold load. rewrite Htest, (bind_run _ _ _ _ _ Hc).
  rewrite (checkMerklePaths_counts _ o) by (done || by eapply published_remaining).
  eapply (check_paths_accepts t E o links b1 [] hs 0 0); try done. by apply reads_chainers.
Qed.
End published.

(** ** One chain per root *)
Lemma placed_agree `{Codec} `{ChainLib} typ loc0 seqno ntlc locs1 loc1 locs1' locs2 loc2 locs2' :
  (∀ a b, a ∈ locs1 ++ locs2 → b ∈ locs1 ++ locs2 → TreeLocation_hash a = TreeLocation_hash b → a = b) →
  placed typ loc0 seqno ntlc locs1 loc1 locs1' → placed typ loc0 seqno ntlc locs2 loc2 locs2' →
  loc1 = loc2 ∧ locs1' ⊆ locs1 ∧ locs2' ⊆ locs2.
Proof.
  intros Hinj H1 H2. destruct H1 as [c l ls Hc|l ls Hl|ls Hl _ _]; inversion H2 as [? l2 ? Hc2|? ? Hl2|? Hl2]; subst;
    split_and!; try set_solver; try congruence.
  f_equal. apply Hinj; [set_solver..|congruence].
Qed.

Lemma published_agree `{Codec} `{ChainLib} eid typ loc0 chainer_of t seqno ntlc locs1 locs2 links1 links2 :
  (∀ a b, a ∈ locs1 ++ locs2 → b ∈ locs1 ++ locs2 → TreeLocation_hash a = TreeLocation_hash b → a = b) →
  (∀ a b, a ∈ links1 ++ links2 → b ∈ links1 ++ links2 → LinkHash a = LinkHash b → a = b) →
  published eid typ loc0 chainer_of t seqno ntlc locs1 links1 →
  published eid typ loc0 chainer_of t seqno ntlc locs2 links2 → links1 = links2.
Proof.
  intros Hloc Hlink H1. revert locs2 links2 Hloc Hlink.
  induction H1 as [seqno ntlc locs1 loc key Hpl Hkey Hget|seqno ntlc locs1 loc locs1' key link h links1 Hpl Hkey Hh Hget _ IH];
    intros locs2 links2 Hloc Hlink H2;
    inversion H2 as [? ? ? loc2 key2 Hpl2 Hkey2 Hget2|? ? ? loc2 locs2' key2 link2 h2 links2' Hpl2 Hkey2 Hh2 Hget2 Hrest];
    subst; destruct (placed_agree _ _ _ _ _ _ _ _ _ _ Hloc Hpl Hpl2) as (-> & Hs1 & Hs2);
    assert (key2 = key) as -> by congruence; [done|congruence|congruence|].
  assert (link2 = link) as -> by (apply Hlink; [set_solver..|congruence]).
  f_equal. eapply IH; [| |exact Hrest].
  - intros a b Ha Hb. apply Hloc; set_solver.
  - intros a b Ha Hb. apply Hlink; set_solver.
Qed.

Section claims.
Context `{Codec} `{ChainLib} `{!HashTotal}.
Context (eid : EntityID) (typ : ChainType) (loc0 : option bytes) (chainer_of : LinkOuter → HidingChainer).
Context (P : MerkleNode → Prop) (t : trie).

(** What the theorems assume of the tree and of hashing: no two of the nodes involved
    collide, and none hashes to zero. *)
Definition tree_ok : Prop :=
  coll_free P ∧ (∀ n, P n → node_hash n ≠ zero_hash) ∧ (∀ n, n ∈ tnodes 0 t → P n) ∧ trie_wf [] t.

(** What they assume of the answer to one load. *)
Definition answer_ok (E : path_env) (ntlc : option bytes) (seqno : Z) (links : list LinkOuter) : Prop :=
  env_for eid typ loc0 E ∧ reads_links chainer_of E links ∧ (0 ≤ peOffset E)%Z ∧
  Forall (query_ok P t) (queries_at eid typ loc0 E (Z.to_nat (peOffset E)) 0 0 ntlc seqno).

(** C17: a load that is accepted against a root returns the chain that the tree under the root
    publishes: the links are numbered and hash-linked, each one's hash is the leaf at its
    key, each key's location opens the commitment of the link before, and the tree
    has no leaf at the key of the next link.  The loader holds no hashes of an earlier attempt. *)
Theorem loaded_chain_is_published E prev seqno ntlc links b b' :
  tree_ok → answer_ok E ntlc seqno links → linkHashes b = [] → load E prev seqno ntlc links b = (b', Ok ()) →
  chained chainer_of prev seqno links ∧
  published eid typ loc0 chainer_of t seqno ntlc (peLocations E) links.
Proof.
  intros (Hcf & Hnz & HPt & Hwf) (HE & Hrd & Ho & Hq) Hb Hrun.
  eapply (load_published _ _ _ _ P t E (Z.to_nat (peOffset E))); try done. lia.
Qed.

(** C1: no forks.  Two loads of the same entity's chain from the same point, accepted against roots
    of one tree, return the same links, whatever the servers answered: neither can show
    another link, leave the last ones out or add some.  (Assuming that hashing confuses no
    two of the links and locations involved.) *)
Theorem loads_agree E1 E2 prev seqno ntlc links1 links2 b1 b2 b1' b2' :
  tree_ok → answer_ok E1 ntlc seqno links1 → answer_ok E2 ntlc seqno links2 →
  (∀ l1 l2, l1 ∈ peLocations E1 ++ peLocations E2 → l2 ∈ peLocations E1 ++ peLocations E2 →
     TreeLocation_hash l1 = TreeLocation_hash l2 → l1 = l2) →
  (∀ l1 l2, l1 ∈ links1 ++ links2 → l2 ∈ links1 ++ links2 → LinkHash l1 = LinkHash l2 → l1 = l2) →
  linkHashes b1 = [] → linkHashes b2 = [] →
  load E1 prev seqno ntlc links1 b1 = (b1', Ok ()) → load E2 prev seqno ntlc links2 b2 = (b2', Ok ()) →
  links1 = links2.
Proof.
  intros (Hcf & Hnz & HPt & Hwf) (HE1 & Hrd1 & Ho1 & Hq1) (HE2 & Hrd2 & Ho2 & Hq2) Hloc Hlink Hb1 Hb2 Hr1 Hr2.
  apply (load_published eid typ loc0 chainer_of P t E1 (Z.to_nat (peOffset E1))) in Hr1 as [_ Hr1]; try done; [|lia].
  apply (load_published eid typ loc0 chainer_of P t E2 (Z.to_nat (peOffset E2))) in Hr2 as [_ Hr2]; try done; [|lia].
  by eapply published_agree.
Qed.

(** Attempt [i] of a load: what the server answers to it. *)
Record attempt := mkAttempt { atE : path_env; atLinks : list LinkOuter }.
Definition try_load (ats : nat → attempt) (prev : option bytes) (seqno : Z) (ntlc : option bytes) (i : nat)
  : loaderM nat := _ ← load (atE (ats i)) prev seqno ntlc (atLinks (ats i)); mret i.

(** C24: retries.  Whatever the server answers to the attempts of a team's load that are refused, and whatever
    roots they are against, the links of the attempt that is accepted are the chain that the tree of its
    own root publishes: between attempts the loader drops the hashes of the links it refused. *)
Theorem team_retries_sound n (ats : nat → attempt) prev seqno ntlc backoff b b' r :
  tree_ok → linkHashes b = [] →
  runMany n (try_load ats prev seqno ntlc) TeamLoader_resetState backoff b = (b', Ok r) →
  answer_ok (atE (ats r)) ntlc seqno (atLinks (ats r)) →
  chained chainer_of prev seqno (atLinks (ats r)) ∧
  published eid typ loc0 chainer_of t seqno ntlc (peLocations (atE (ats r))) (atLinks (ats r)).
Proof.
  intros (Hcf & Hnz & HPt & Hwf) Hb. unfold runMany. generalize (Z.to_nat n) as more, 0 as i.
  intros more. revert b Hb. induction more as [|more IH]; intros b Hb i; cbn [run_attempts];
    destruct (try_load _ _ _ _ i b) as [b1 [x|e]] eqn:Hrun; try done.
  1, 2: intros [= <- ->] (HE & Hrd & Ho & Hq); unfold try_load in Hrun; apply bindM_Ok in Hrun as (b2 & [] & Hl & [= <- <-]);
    eapply (load_published _ _ _ _ P t (atE (ats i)) (Z.to_nat (peOffset (atE (ats i))))); try done; lia.
  destruct e; try done. case_match; [|done]. case_match; [done|]. by apply IH.
Qed.

(** ** Names *)
Lemma name_paths_end neid paths ph n i seqno ret b b' r :
  bclTesting b = None → check_name_paths neid paths ph (S (S n)) i seqno ret b = (b', Ok r) →
  ∃ key p, HashName neid (wrap64 (seqno + 1)) = Ok key ∧ Select paths (Z.of_nat (i + n + 1)) = Ok p ∧
    MerkleVerify.Verify p key false = Ok None.
Proof.
  assert (∀ p h last i b b' leaf, bclTesting b = None → name_path p h last i b = (b', Ok leaf) →
    MerkleVerify.Verify p h (negb last) = Ok leaf ∧ b' = b) as Hnp.
  { intros p h last i0 b0 b1 leaf Ht Hp. unfold name_path in Hp.
    destruct (MerkleVerify.Verify p h (negb last)); [by injection Hp as <- <-|].
    apply bindM_Ok in Hp as (b2 & b3 & [= <- <-] & Hp). by rewrite Ht in Hp. }
  revert i ret b. induction n as [|n IH]; intros i ret b Ht Hrun; cbn [check_name_paths] in Hrun;
    apply bind_lift_Ok in Hrun as (h & Hh & Hrun); apply bind_lift_Ok in Hrun as (p & Hp & Hrun);
    apply bindM_Ok in Hrun as (b1 & leaf & Hl & Hrun); (apply Hnp in Hl as [Hv ->]; [|done]);
    apply bind_lift_Ok in Hrun as (lf & _ & Hrun); cbv zeta in Hrun; cbn [negb] in Hrun.
  - apply bind_lift_Ok in Hrun as (ph' & _ & Hrun). apply bind_lift_Ok in Hrun as ([] & _ & Hrun).
    apply bind_lift_Ok in Hrun as (h2 & Hh2 & Hrun). apply bind_lift_Ok in Hrun as (p2 & Hp2 & Hrun).
    apply bindM_Ok in Hrun as (b2 & leaf2 & Hl2 & _). apply Hnp in Hl2 as [Hv2 _]; [|done].
    exists h2, p2. split_and!; [done| |].
    + by replace (i + 0 + 1) with (S i) by lia.
    + cbn [negb] in Hv2. rewrite Hv2. unfold MerkleVerify.Verify in Hv2. by inv_ok.
  - destruct (IH (S i) seqno b Ht Hrun) as (key & p' & Hk & Hp' & Hv'). exists key, p'. split_and!; [done| |done].
    by replace (i + S n + 1) with (S i + n + 1) by lia.
Qed.

(** C38: a name that was used before cannot be loaded.  When the tree has a link for a name after the
    first one the client asks about (the name changed hands), the client's check of the name's paths
    fails, whatever the server answers: it looks for every link but the last at the same
    sequence number, and then for none at the second. *)
Theorem reused_name_refused neid paths ph n seqno ret b b' r key2 :
  tree_ok → HashName neid (wrap64 (seqno + 1)) = Ok key2 → is_Some (tget key2 0 t) →
  (∀ p i, Select paths i = Ok p → query_ok P t (p, key2)) → bclTesting b = None →
  check_name_paths neid paths ph (S (S n)) 0 seqno ret b ≠ (b', Ok r).
Proof.
  intros (Hcf & Hnz & HPt & Hwf) Hkey [v Hget] Hq Ht Hrun.
  destruct (name_paths_end _ _ _ _ _ _ _ _ _ _ Ht Hrun) as (key & p & Hk & Hp & Hv).
  assert (key = key2) as -> by congruence. unfold HashName in Hk.
  pose proof (PrefixedHashInto_length _ _ _ Hk) as Hlen. destruct (Hq _ _ Hp) as ((r1 & Hr1 & Hroot) & Hbp & Hok & HPv).
  simpl in Hr1, Hbp, Hok, HPv. unfold MerkleVerify.Verify in Hv. apply bind_Ok in Hv as ([] & Hv & _).
  pose proof (VerifyAbsence_tget P Hcf Hnz key2 Hlen Hok p t r1 Hv Hr1 Hroot Hwf Hbp HPt HPv). congruence.
Qed.
End claims.
