(* ===== verification/GenericChain.v ===== *)
(** * Generic chains, from the server's tables to the client's checks

    [server/shared/chain_loader.go] ([LoadGenericChain] and what it calls) and the
    checks of [client/libclient/chain_loader.go] on its answer, with the
    derivation of a subchain's first location ([lib/core/keys.go], [server/shared/chain.go]).
    The theorem: the chain a server publishes in its tree is served and accepted.

    A table is its rows for the entity and chain type, in the order of their sequence numbers, which
    is the order the queries ask for. *)
From S2P Require Import Prelude Bits SkipPointers Snowp MerkleTypes MerkleTrie MerkleStorage MerkleEngine MerkleLookup MerkleInsert MerkleRefine MerkleVerify Role Roster TeamRoster Sigs HostChain ChainLoader ChainLoaderFacts.

Record chain_rows := mkChainRows {
  tree_locations : list (Z * bytes);
  links_rows : list (Z * bytes);
  seed_row : option bytes
}.
Record GenericChain := mkGenericChain {
  gcLinks : list LinkOuter; gcLocations : list bytes; gcMerkle : MerklePathsCompressed; gcLocationSeed : option bytes
}.
Record GenericChainState := mkGenericChainState { gsTail : HidingChainer; gsLastHash : bytes }.

Section generic.
Context `{Codec} `{ChainLib}.

Definition Hmac (uid : Z) (enc : result bytes) (key : bytes) : result bytes :=
  raw ← encodeAndCheck enc; Ok (hmac_sha512_256 key (uid_bytes uid ++ raw)).
Definition ChainLocationDerivationTypeUniqueID : Z := 0xe516acf96cf56e58.
Definition SubchainTreeLocation (s : bytes) (typ : ChainType) : result bytes :=
  Hmac ChainLocationDerivationTypeUniqueID (enc_ChainLocationDerivation typ) s.

Definition TreeLocation_ImportFromBytes (b : bytes) : result bytes :=
  _ ← guard_err (negb (len b =? 32)%Z) (DataError "wrong length for tree location"); Ok b.

(** ** The server *)
Definition lookupComputeZeroethTreeLocation (rows : chain_rows) (typ : ChainType) : result bytes :=
  seedTmp ← of_option (GoError "no rows in result set") (seed_row rows);
  _ ← guard_err (negb (len seedTmp =? 32)%Z) (BadServerDataError "wrong length for seed");
  SubchainTreeLocation seedTmp typ.

Definition LoadTreeLocations (rows : chain_rows) (typ : ChainType) (start : Z)
  : result (gmap Z bytes * list bytes) :=
  let sel := filter (λ r, start ≤ r.1)%Z (tree_locations rows) in
  rList ← mapM_r (λ r, TreeLocation_ImportFromBytes r.2) sel;
  let rMap := list_to_map (reverse (zip sel.*1 rList)) in
  if Seqno_IsEldest start && IsSubchain typ then
    loc ← lookupComputeZeroethTreeLocation rows typ;
    Ok (<[1%Z := loc]> rMap, rList)
  else Ok (rMap, rList).

Definition LoadChain (rows : chain_rows) (start : Z) : result (list LinkOuter) :=
  mapM_r (λ r, dec_LinkOuter r.2) (filter (λ r, start ≤ r.1)%Z (links_rows rows)).

Definition LoadSubchainSeed (rows : chain_rows) : result bytes :=
  seed ← of_option (GoError "no rows in result set") (seed_row rows);
  TreeLocation_ImportFromBytes seed.

(** [MLookup] of the Merkle query server, which [LoadMerkle] calls. *)
Definition LoadMerkle {R} `{StorageReader R} (db : R) (keys : list bytes) : result MerklePathsCompressed :=
  res ← lookupPathsWithLock db {| mlaKeys := keys; mlaSigned := true; mlaRoot := None |};
  LookupPathsRes_Compress res.

Definition LoadGenericChain {R} `{StorageReader R} (db : R) (rows : chain_rows) (typ : ChainType) (eid : EntityID)
    (start : Z) : result GenericChain :=
  '(treeLocMap, treeLocList) ← LoadTreeLocations rows typ start;
  links ← LoadChain rows start;
  merkleKeys ← MakeMerkleKeys eid typ start treeLocMap links;
  merkle ← LoadMerkle db merkleKeys;
  seed ← LoadSubchainSeed rows;
  Ok (mkGenericChain links treeLocList merkle (Some seed)).

(** ** The client *)
Definition generic_start (existing : option GenericChainState) : Z :=
  match existing with Some s => wrap64 (bcSeqno (hdBase (gsTail s)) + 1) | None => 1 end.
Definition generic_prev (existing : option GenericChainState) : option bytes := gsLastHash <$> existing.

Definition Generic_checkChain (existing : option GenericChainState) (raw : GenericChain)
    (chainerAtIndex : nat → option HidingChainer) (which : string) : loaderM () :=
  checkChain (generic_prev existing) (generic_start existing) (gcLinks raw) chainerAtIndex which None.

(** The commitment of the chain before, or the first location, which another chain commits to. *)
Definition generic_location (typ : ChainType) (existing : option GenericChainState) (seed com : option bytes)
  : result (option bytes * option bytes) :=
  match existing with
  | Some s => Ok (Some (NextLocationCommitment (gsTail s)), None)
  | None =>
      seed ← of_option (ChainLoaderError false (GoError "server should have returned a sigchain tree location seed but didn't")) seed;
      com ← of_option (InternalError "seed commitment is nil in GenericChainLoader::checkMerklePaths") com;
      _ ← guard_err (forallb (λ b, (b =? 0)%Z) com)
            (InternalError "seed commitment is zero in GenericChainLoader::checkMerklePaths");
      _ ← match VerifyTreeLocationCommitment seed com with
          | Ok _ => Ok () | Err e => Err (ChainLoaderError false e) end;
      loc0 ← SubchainTreeLocation seed typ;
      Ok (None, Some loc0)
  end.

Definition generic_env (eid : EntityID) (typ : ChainType) (raw : GenericChain)
    (chainerAtIndex : nat → option HidingChainer) (loc0 : option bytes) (which : string)
    (testing : option ChainLoaderTesting) : path_env :=
  mkPathEnv eid typ (gcLocations raw) chainerAtIndex (gcMerkle raw) loc0 0 which testing.

Definition Generic_checkMerklePaths (eid : EntityID) (typ : ChainType) (existing : option GenericChainState)
    (raw : GenericChain) (com : option bytes) (chainerAtIndex : nat → option HidingChainer) (which : string)
  : loaderM () :=
  '(ntlc, loc0) ← lift (generic_location typ existing (gcLocationSeed raw) com);
  b ← get;
  checkMerklePaths (generic_env eid typ raw chainerAtIndex loc0 which (bclTesting b)) (gcLinks raw) ntlc
    (generic_start existing).

(** The two checks of [check] that concern the chain. *)
Definition Generic_check (eid : EntityID) (typ : ChainType) (existing : option GenericChainState)
    (raw : GenericChain) (com : option bytes) (chainerAtIndex : nat → option HidingChainer) (which : string)
  : loaderM () :=
  _ ← Generic_checkChain existing raw chainerAtIndex which;
  Generic_checkMerklePaths eid typ existing raw com chainerAtIndex which.
End generic.

(** ** Rows numbered from a sequence number on *)
Fixpoint numbered {A} (first : Z) (l : list A) : list (Z * A) :=
  match l with [] => [] | x :: l => (first, x) :: numbered (first + 1) l end.

Lemma numbered_fst_ge {A} first (l : list A) q x : (q, x) ∈ numbered first l → (first ≤ q)%Z.
Proof.
  revert first. induction l as [|y l IH]; intros first; simpl; [by intros ?%elem_of_nil|].
  intros [[= -> ->]|Hin]%elem_of_cons; [lia|]. apply IH in Hin. lia.
Qed.

Lemma numbered_zip {A} first (l : list A) : zip (numbered first l).*1 l = numbered first l.
Proof. revert first. induction l as [|x l IH]; intros first; simpl; [done|]. by rewrite IH. Qed.

Lemma numbered_elem {A} first (l : list A) j x : l !! j = Some x → (first + Z.of_nat j, x)%Z ∈ numbered first l.
Proof.
  revert first j. induction l as [|y l IH]; intros first [|j] Hj; simplify_eq/=.
  - rewrite Z.add_0_r. by left.
  - right. replace (first + Z.of_nat (S j))%Z with (first + 1 + Z.of_nat j)%Z by lia. by apply IH.
Qed.

Lemma numbered_NoDup {A} first (l : list A) : NoDup (numbered first l).*1.
Proof.
  revert first. induction l as [|y l IH]; intros first; simpl; constructor; [|done].
  intros ([q x] & Hq & Hin)%list_elem_of_fmap. simpl in Hq. subst q. apply numbered_fst_ge in Hin. lia.
Qed.

(** The map of numbered rows. *)
Definition row_map (first : Z) (locs : list bytes) : gmap Z bytes := list_to_map (reverse (numbered first locs)).

Lemma row_map_lookup first locs j l : locs !! j = Some l → row_map first locs !! (first + Z.of_nat j)%Z = Some l.
Proof.
  intros Hj. apply elem_of_list_to_map_1.
  - rewrite fmap_reverse, reverse_Permutation. apply numbered_NoDup.
  - rewrite elem_of_reverse. by apply numbered_elem.
Qed.

Section served.
Context `{Codec} `{ChainLib} `{!HashTotal}.
Context (chainer_of : LinkOuter → HidingChainer).

(** The keys the server makes are those the client asks for. *)
Lemma merkle_keys_published eid typ loc0 t root lmap seqno ntlc locs links :
  published eid typ loc0 chainer_of t seqno ntlc locs links →
  (0 ≤ seqno)%Z → (seqno + len links + 1 < 2 ^ 64)%Z →
  (∀ j l, remaining loc0 ntlc locs !! j = Some l → lmap !! (seqno + Z.of_nat j)%Z = l) →
  ∃ keys, merkle_keys eid typ lmap (S (length links)) seqno = Ok keys ∧ Forall (λ k, length k = 32) keys ∧
    ∀ paths, Forall2 (λ k p, answered t ({| pcRoot := root; pcPath := ppPath p; pcTerminal := ppTerminal p |}, k)) keys paths →
      length paths = S (length links) ∧ Forall (answered t) (queries eid typ root paths (remaining loc0 ntlc locs) seqno).
Proof.
  induction 1 as [seqno ntlc locs loc key Hpl Hkey Hget|seqno ntlc locs loc locs' key link h links Hpl Hkey Hh Hget Hpub IH];
    intros Hs0 Hs Hmap; rewrite (remaining_placed _ _ _ _ _ _ _ Hpl) in Hmap |- *;
    pose proof (Hmap 0 loc eq_refl) as Hloc; rewrite Z.add_0_r in Hloc;
    unfold key_for in Hkey; pose proof (PrefixedHashInto_length _ _ _ Hkey) as Hkl;
    cbn [merkle_keys length]; rewrite Hloc, Hkey; cbn [mbind result_bind].
  - exists [key]. split_and!; [done|by constructor|]. intros paths Hp.
    inversion Hp as [|? p ? ? Ha Hnil]; subst. inversion Hnil; subst. split; [done|].
    cbn [queries]. unfold key_for. rewrite Hkey. by repeat constructor.
  - destruct IH as (keys & Hkeys & Hlens & Hq); [unfold wrap64, len in *; simpl in *; lia..| |].
    { intros j l Hj. assert (wrap64 (seqno + 1) = seqno + 1)%Z as -> by (unfold wrap64, len in *; simpl in *; lia).
      rewrite <- Z.add_assoc. replace (1 + Z.of_nat j)%Z with (Z.of_nat (S j)) by lia. by apply Hmap. }
    assert (wrap64 (seqno + 1) = seqno + 1)%Z as Hw by (unfold wrap64, len in *; simpl in *; lia).
    rewrite Hw in Hkeys. cbn [merkle_keys] in Hkeys. rewrite Hkeys. cbn [mbind result_bind].
    exists (key :: keys). split_and!; [done|by constructor|]. intros paths Hp.
    inversion Hp as [|? p ? paths' Ha Hp']; subst. destruct (Hq _ Hp') as [Hl Hf]. split; [simpl; by rewrite Hl|].
    cbn [queries]. unfold key_for. rewrite Hkey. by constructor.
Qed.

Lemma merkle_keys_hashed eid typ lmap n i keys :
  (∀ m, bytes_ok (sha512_256 m)) → merkle_keys eid typ lmap n i = Ok keys →
  Forall (λ k, length k = 32 ∧ bytes_ok k) keys.
Proof.
  intros Hsha. revert i keys. induction n as [|n IH]; intros i keys Hk; cbn [merkle_keys] in Hk; [by simplify_eq|].
  apply bind_Ok in Hk as (k & Hk & Hr). apply bind_Ok in Hr as (ks & Hks & [= <-]).
  constructor; [|by eapply IH]. split; [by eapply PrefixedHashInto_length|].
  unfold KeyHash, PrefixedHashInto in Hk. inv_ok. apply Hsha.
Qed.

(** ** What the server has stored

    A tree with the published chain and, in its tables from the client's position on, the
    links, their locations (a subchain's first location comes from the seed instead) and the seed. *)
Record publishes {R} `{StorageReaderLaws R} (db : R) (rt : Root) (t : trie) : Prop := {
  pub_db : rd_ok db;
  pub_select : SelectRootForTraversal db true None = Ok (Some rt);
  pub_node : RootNode rt = ph_of 0 t;
  pub_stored : stored (rd_view db) 0 t;
  pub_wf : trie_wf [] t;
  pub_type : type_of t = MerkleNodeType_Node;
  pub_nonzero : ∀ n, n ∈ tnodes 0 t → node_hash n ≠ zero_hash;
  pub_body : ∃ r1, dec_MerkleRoot (Body rt) = Ok (NewMerkleRootWithV1 r1) ∧ r1RootNode r1 = thash 0 t
}.

Record tabled (typ : ChainType) (rows : chain_rows) (existing : option GenericChainState)
    (com : option bytes) (loc0 : option bytes) (locs : list bytes) (links : list LinkOuter) : Prop := {
  tab_links : LoadChain rows (generic_start existing) = Ok links;
  tab_locs : filter (λ r, generic_start existing ≤ r.1)%Z (tree_locations rows) =
             numbered (generic_start existing + (if existing then 0 else 1)) locs;
  tab_locs_len : Forall (λ l, length l = 32) locs;
  tab_seed : ∃ seed, seed_row rows = Some seed ∧ length seed = 32 ∧
    match existing with
    | Some _ => loc0 = None
    | None => ∃ c l, com = Some c ∧ forallb (λ b, (b =? 0)%Z) c = false ∧ TreeLocation_hash seed = Ok c ∧
                SubchainTreeLocation seed typ = Ok l ∧ loc0 = Some l
    end
}.

Definition generic_ntlc (existing : option GenericChainState) : option bytes :=
  (λ s, NextLocationCommitment (gsTail s)) <$> existing.

Lemma LoadTreeLocations_tabled typ rows existing com loc0 locs links :
  tabled typ rows existing com loc0 locs links → IsSubchain typ = true →
  Seqno_IsEldest (generic_start existing) = is_nil existing →
  ∃ lmap, LoadTreeLocations rows typ (generic_start existing) = Ok (lmap, locs) ∧
    ∀ j l, remaining loc0 (generic_ntlc existing) locs !! j = Some l →
      lmap !! (generic_start existing + Z.of_nat j)%Z = l.
Proof.
  intros [_ Hlocs Hlens (seed & Hseed & Hsl & Hex)] Hsub Held. unfold LoadTreeLocations. cbv zeta.
  rewrite Hlocs, Held, Hsub.
  assert (∀ first, mapM_r (λ r : Z * bytes, TreeLocation_ImportFromBytes r.2) (numbered first locs) = Ok locs) as Himp.
  { clear -Hlens. induction Hlens as [|l ls Hl _ IH]; intros first; [done|]. cbn [numbered mapM_r snd].
    assert (TreeLocation_ImportFromBytes l = Ok l) as -> by (unfold TreeLocation_ImportFromBytes, len; by rewrite Hl).
    cbn [mbind result_bind]. by rewrite IH. }
  rewrite Himp. cbn [mbind result_bind]. rewrite numbered_zip. fold (row_map (generic_start existing + (if existing then 0 else 1)) locs).
  destruct existing as [st|]; cbn [is_nil andb].
  - eexists. split; [done|]. intros j l. cbn [generic_ntlc fmap option_fmap option_map remaining].
    rewrite list_lookup_fmap. intros (x & Hx & ->)%fmap_Some. rewrite Z.add_0_r. by apply row_map_lookup.
  - destruct Hex as (c & l0 & _ & _ & _ & Hl0 & ->). unfold lookupComputeZeroethTreeLocation. rewrite Hseed.
    cbn [of_option mbind result_bind]. unfold len. rewrite Hsl. cbn [Z.of_nat Pos.of_succ_nat Pos.succ Z.eqb Pos.eqb negb guard_err mbind result_bind].
    rewrite Hl0. cbn [mbind result_bind]. eexists. split; [done|]. intros [|j] l; cbn [generic_ntlc fmap option_fmap option_map remaining].
    + intros [= <-]. apply lookup_insert_eq.
    + intros Hj. change ((Some <$> locs) !! j = Some l) in Hj.
      rewrite list_lookup_fmap in Hj. apply fmap_Some in Hj as (x & Hx & ->).
      rewrite lookup_insert_ne by (simpl; lia).
      replace (generic_start None + Z.of_nat (S j))%Z with (generic_start None + 1 + Z.of_nat j)%Z by lia.
      by apply row_map_lookup.
Qed.

(** C3: an honest server is accepted.  When its tree publishes a generic chain and its
    tables hold it, the server's [LoadGenericChain] (locations, links, Merkle keys, paths) returns
    an answer for a client at any point of the chain, and the client's checks accept it. *)
Theorem served_chain_accepted {R} `{StorageReaderLaws R} (db : R) rt t rows eid typ existing com loc0 locs links b which :
  publishes db rt t → (∀ m, bytes_ok (sha512_256 m)) →
  tabled typ rows existing com loc0 locs links → IsSubchain typ = true →
  Seqno_IsEldest (generic_start existing) = is_nil existing →
  (generic_start existing + len links + 1 < 2 ^ 63)%Z →
  chained chainer_of (generic_prev existing) (generic_start existing) links →
  published eid typ loc0 chainer_of t (generic_start existing) (generic_ntlc existing) locs links →
  linkHashes b = [] → bclTesting b = None →
  ∃ raw, LoadGenericChain db rows typ eid (generic_start existing) = Ok raw ∧
    ends_ok (Generic_check eid typ existing raw com (λ j, chainer_of <$> gcLinks raw !! j) which b) = true.
Proof.
  intros [Hdb Hsel Hnode Hst Hwf Hty Hnz (r1 & Hdec & Hr1)] Hsha Htab Hsub Held Hbound Hch Hpub Hb Htest.
  pose proof Htab as [Hlinks _ _ (seed & Hseed & Hsl & Hex)].
  assert (0 ≤ generic_start existing)%Z as Hpos by (destruct existing; simpl; unfold wrap64; lia).
  destruct (LoadTreeLocations_tabled _ _ _ _ _ _ _ Htab Hsub Held) as (lmap & Hlocs & Hmap).
  destruct (merkle_keys_published _ _ _ _ (NewMerkleRootWithV1 r1) lmap _ _ _ _ Hpub Hpos) as (keys & Hkeys & Hklen & Hq);
    [lia|done|].
  destruct (lookupPaths_verify db t {| mlaKeys := keys; mlaSigned := true; mlaRoot := None |} rt
    (NewMerkleRootWithV1 r1) r1) as (res & ps & Hlook & Hcomp & Hroot & Hver); try done.
  { cbn [mlaKeys]. eapply Forall_impl; [exact (merkle_keys_hashed _ _ _ _ _ _ Hsha Hkeys)|]. done. }
  cbn [mlaKeys] in Hver. destruct (Hq _ Hver) as [Hplen Hans].
  exists (mkGenericChain links locs ps (Some seed)). split.
  { unfold LoadGenericChain. rewrite Hlocs. cbn [mbind result_bind]. rewrite Hlinks. cbn [mbind result_bind].
    unfold MakeMerkleKeys. rewrite Nat.add_1_r, Hkeys. cbn [mbind result_bind]. unfold LoadMerkle. rewrite Hlook.
    cbn [mbind result_bind]. rewrite Hcomp. cbn [mbind result_bind]. unfold LoadSubchainSeed, TreeLocation_ImportFromBytes.
    rewrite Hseed. cbn [of_option mbind result_bind]. unfold len. rewrite Hsl. done. }
  set (raw := mkGenericChain _ _ _ _). set (ch := λ j, _).
  assert (generic_location typ existing (gcLocationSeed raw) com = Ok (generic_ntlc existing, loc0)) as Hloc.
  { unfold generic_location, VerifyTreeLocationCommitment. destruct existing; [by subst loc0|].
    destruct Hex as (c & l & -> & Hz & Hc & Hl & ->). cbn [of_option mbind result_bind raw gcLocationSeed].
    rewrite Hz. cbn [guard_err mbind result_bind]. rewrite Hc. cbn [mbind result_bind].
    rewrite bool_decide_eq_true_2 by done. cbn [negb guard_err mbind result_bind]. by rewrite Hl. }
  pose proof (load_accepts eid typ loc0 chainer_of t (generic_env eid typ raw ch loc0 which None) 0
    (generic_prev existing) (generic_start existing) (generic_ntlc existing) links b) as Hacc.
  unfold load in Hacc. cbn [peChainer peWhich peTesting generic_env] in Hacc.
  unfold Generic_check, Generic_checkChain. cbn [gcLinks raw].
  destruct (checkChain_spec chainer_of b _ _ ch which _ (λ j, eq_refl) Hch) as (b1 & Hc & _).
  pose proof (checkChain_testing _ _ _ _ _ _ _ _ _ Hc) as Ht1. rewrite Htest in Ht1.
  rewrite (bind_run _ _ _ _ _ Hc) in Hacc. rewrite (bind_run _ _ _ _ _ Hc). unfold Generic_checkMerklePaths.
  rewrite (bind_lift _ _ _ _ Hloc). erewrite bind_run by done. rewrite Ht1. apply Hacc; try done.
  unfold queries_at. rewrite drop_0. cbn [generic_env pePaths peLocations gcMerkle gcLocations raw].
  rewrite Hroot. exact Hans.
Qed.
End served.
