(* ===== verification/ChainLoaderExamples.v ===== *)
(** * Loading sigchains: a concrete chain

    A chain of two links for an entity's settings, in a Merkle tree built by the engine over the
    SQL storage, with an instance of the third-party code (the hash and node encodings of
    [MerkleExamples], MessagePack for the rest).  The witnesses, and what goes
    wrong when a load is tried again. *)
From S2P Require Import Prelude Bits SkipPointers Snowp MerkleTypes MerkleTrie MerkleStorage MerkleSql MerkleEngine MerkleLookup MerkleInsert MerkleRefine MerkleVerify MerkleExamples Role Roster TeamRoster Sigs HostChain ChainLoader ChainLoaderFacts GenericChain.

#[local] Instance cl_lib : ChainLib := {|
  enc_LinkOuter l := Ok (shortest (MArr [MInt (lo_V l); MBin (default [] (lo1Inner <$> lo_F1 l))]));
  enc_MerkleTreeRFInput i := Ok (shortest (MArr [MInt (rfCt i); MBin (rfEntity i); MInt (rfSeqno i);
    match rfLocation i with None => MNil | Some l => MBin l end]));
  enc_TreeLocation l := Ok (shortest (MBin l));
  enc_ChainLocationDerivation t := Ok (shortest (MArr [MInt t]));
  dec_LinkOuter b := match decode 5 b with
                     | Some (MArr [MInt v; MBin i], []) => Ok (mkLinkOuter v (Some (mkLinkOuterV1 i [])))
                     | _ => Err (GoError "decode") end;
  hmac_sha512_256 k m := poly_hash (k ++ m)
|}.

(** A link's inside: the sequence number, the hash before, the commitment and a tag. *)
Definition cl_link (seqno : Z) (prev com : bytes) (tag : Z) : LinkOuter :=
  mkLinkOuter 1 (Some (mkLinkOuterV1 (seqno :: prev ++ com ++ [tag]) [])).
Definition cl_chainer (l : LinkOuter) : HidingChainer :=
  let i := default [] (lo1Inner <$> lo_F1 l) in
  let seqno := hd 0%Z i in
  mkHidingChainer
    (mkBaseChainer seqno (if (seqno =? 1)%Z then None else Some (slice 1 32 i)) {| trEpno := 0; trHash := [] |} 0)
    (slice 33 32 i).

Definition ok_or {A} (d : A) (r : result A) : A := match r with Ok a => a | Err _ => d end.
Definition cl_eid : EntityID := replicate 33 3%Z.
Definition cl_typ : ChainType := ChainType_UserSettings.
Definition cl_seed : bytes := replicate 32 5%Z.
Definition cl_seed_com : bytes := Eval vm_compute in ok_or [] (TreeLocation_hash cl_seed).
Definition cl_loc0 : bytes := Eval vm_compute in ok_or [] (SubchainTreeLocation cl_seed cl_typ).
Definition cl_locB : bytes := replicate 32 6%Z.
Definition cl_locC : bytes := replicate 32 7%Z.
Definition cl_comB : bytes := Eval vm_compute in ok_or [] (TreeLocation_hash cl_locB).
Definition cl_comC : bytes := Eval vm_compute in ok_or [] (TreeLocation_hash cl_locC).

Definition cl_L1 : LinkOuter := Eval vm_compute in cl_link 1 zero_hash cl_comB 1.
Definition cl_h1 : bytes := Eval vm_compute in ok_or [] (LinkHash cl_L1).
Definition cl_L2 : LinkOuter := Eval vm_compute in cl_link 2 cl_h1 cl_comC 2.
Definition cl_h2 : bytes := Eval vm_compute in ok_or [] (LinkHash cl_L2).
(** Another second link, which the tree does not have. *)
Definition cl_L2' : LinkOuter := Eval vm_compute in cl_link 2 cl_h1 cl_comC 3.

Definition cl_k1 : bytes := Eval vm_compute in ok_or [] (key_for cl_eid cl_typ 1 (Some cl_loc0)).
Definition cl_k2 : bytes := Eval vm_compute in ok_or [] (key_for cl_eid cl_typ 2 (Some cl_locB)).
Definition cl_k3 : bytes := Eval vm_compute in ok_or [] (key_for cl_eid cl_typ 3 (Some cl_locC)).

(** A name with two links. *)
Definition cl_name : EntityID := replicate 33 4%Z.
Definition cl_n1 : bytes := Eval vm_compute in ok_or [] (HashName cl_name 1).
Definition cl_n2 : bytes := Eval vm_compute in ok_or [] (HashName cl_name 2).

(** ** The tree *)
Definition cl_t1 : Tx := Eval vm_compute in run_ok (insertKeyValueTryTx 101 ex_t0 (ex_arg cl_k1 cl_h1)).
Definition cl_t2 : Tx := Eval vm_compute in run_ok (insertKeyValueTryTx 102 cl_t1 (ex_arg cl_k2 cl_h2)).
Definition cl_t3 : Tx := Eval vm_compute in run_ok (insertKeyValueTryTx 103 cl_t2 (ex_arg cl_n1 cl_h1)).
Definition cl_t4 : Tx := Eval vm_compute in run_ok (insertKeyValueTryTx 104 cl_t3 (ex_arg cl_n2 cl_h1)).
Definition cl_tr1 : trie := Eval vm_compute in tinsert cl_k1 cl_h1 0 ex_tr0.
Definition cl_tr2 : trie := Eval vm_compute in tinsert cl_k2 cl_h2 0 cl_tr1.
Definition cl_tr3 : trie := Eval vm_compute in tinsert cl_n1 cl_h1 0 cl_tr2.
Definition cl_tr : trie := Eval vm_compute in tinsert cl_n2 cl_h1 0 cl_tr3.

(** The last root is signed. *)
Definition signed_db (db : Db) (h e : Z) : Db :=
  {| merkle_roots := merkle_roots db; merkle_nodes := merkle_nodes db; merkle_leaves := merkle_leaves db;
     merkle_last_sig := {[h := e]}; merkle_bookkeeping := merkle_bookkeeping db;
     merkle_hostchain_tails := merkle_hostchain_tails db; merkle_tree_metadata := merkle_tree_metadata db |}.
Definition cl_db : Tx := Eval vm_compute in {| tx := signed_db (tx cl_t4) 1 5; tx_host := 1 |}.

Definition cl_rows : chain_rows := Eval vm_compute in {|
  tree_locations := [(2%Z, cl_locB); (3%Z, cl_locC)];
  links_rows := [(1%Z, ok_or [] (enc_LinkOuter cl_L1)); (2%Z, ok_or [] (enc_LinkOuter cl_L2))];
  seed_row := Some cl_seed |}.
Definition cl_raw : GenericChain := Eval vm_compute in
  ok_or (mkGenericChain [] [] {| psRoot := {| rV := 0; rF1 := None |}; psPaths := [] |} None)
    (LoadGenericChain cl_db cl_rows cl_typ cl_eid 1).
Example cl_served : length (psPaths (gcMerkle cl_raw)) = 3 ∧ gcLinks cl_raw = [cl_L1; cl_L2].
Proof. vm_compute. split; reflexivity. Qed.

(** ** Answers to a load *)
Definition cl_paths : MerklePathsCompressed := Eval vm_compute in gcMerkle cl_raw.
(** The path for the first key in place of the last one. *)
Definition cl_bad_paths : MerklePathsCompressed := Eval vm_compute in
  {| psRoot := psRoot cl_paths;
     psPaths := match psPaths cl_paths with p1 :: p2 :: _ => [p1; p2; p1] | _ => [] end |}.
(** A path for something else in front. *)
Definition cl_off_paths : MerklePathsCompressed := Eval vm_compute in
  {| psRoot := psRoot cl_paths; psPaths := take 1 (psPaths cl_paths) ++ psPaths cl_paths |}.

Definition cl_env (links : list LinkOuter) (paths : MerklePathsCompressed) (locs : list bytes) (o : Z) : path_env :=
  mkPathEnv cl_eid cl_typ locs (λ j, cl_chainer <$> links !! j) paths (Some cl_loc0) o "settings" None.
Definition cl_locs : list bytes := [cl_locB; cl_locC].
Definition cl_links : list LinkOuter := [cl_L1; cl_L2].
Definition cl_good : path_env := cl_env cl_links cl_paths cl_locs 0.
Definition cl_bad : path_env := cl_env cl_links cl_bad_paths cl_locs 0.
Definition cl_off : path_env := cl_env cl_links cl_off_paths cl_locs 1.

Definition cl_name_paths : MerklePathsCompressed := Eval vm_compute in
  ok_or cl_paths (keys ← nameMerkleKeys (Ok cl_name) None (mkNameSeqnoPair [] 2); LoadMerkle cl_db keys).

(** ** The nodes involved *)
Definition cl_queries (E : path_env) (o : nat) : list (MerklePathCompressed * bytes) :=
  queries_at cl_eid cl_typ (Some cl_loc0) E o 0 0 None 1.
Definition cl_name_queries : list (MerklePathCompressed * bytes) :=
  (λ p, ({| pcRoot := psRoot cl_name_paths; pcPath := ppPath p; pcTerminal := ppTerminal p |}, cl_n2)) <$> psPaths cl_name_paths.
Definition cl_all_queries : list (MerklePathCompressed * bytes) := Eval vm_compute in
  cl_queries cl_good 0 ++ cl_queries cl_bad 0 ++ cl_queries cl_off 1 ++ cl_name_queries.
Definition cl_nodes : list MerkleNode := Eval vm_compute in
  remove_dups (tnodes 0 ex_tr0 ++ tnodes 0 cl_tr1 ++ tnodes 0 cl_tr2 ++ tnodes 0 cl_tr3 ++ tnodes 0 cl_tr ++
    (cl_all_queries ≫= λ q, verifier_nodes q.2 q.1)).
Definition cl_P (n : MerkleNode) : Prop := n ∈ cl_nodes.

Lemma cl_coll_free : coll_free cl_P.
Proof. apply no_collision_sound. vm_compute. reflexivity. Qed.
Lemma cl_nonzero n : cl_P n → node_hash n ≠ zero_hash.
Proof.
  intros Hn. assert (forallb (λ n, negb (bool_decide (node_hash n = zero_hash))) cl_nodes = true) as Ha
    by (vm_compute; reflexivity).
  rewrite forallb_forall in Ha. apply list_elem_of_In, Ha in Hn.
  by apply negb_true_iff, bool_decide_eq_false in Hn.
Qed.
Lemma cl_P_all l : forallb (λ n, bool_decide (n ∈ cl_nodes)) l = true → ∀ n, n ∈ l → cl_P n.
Proof. rewrite forallb_forall. intros Hl n Hn%list_elem_of_In%Hl. by apply bool_decide_eq_true in Hn. Qed.

Ltac cl_insert_tac :=
  first [ done | apply bytes_ok_unpack; vm_compute; reflexivity
        | apply (bool_decide_unpack _); vm_compute; exact I
        | vm_compute; reflexivity
        | intros ? Hc; vm_compute in Hc; simplify_eq; simpl; lia
        | apply cl_P_all; vm_compute; reflexivity ].
Lemma cl_reach : reach cl_P cl_t4 cl_tr.
Proof.
  apply (ex_insert cl_P 104 cl_t3 cl_tr3 cl_n2 cl_h1); [|cl_insert_tac..].
  apply (ex_insert cl_P 103 cl_t2 cl_tr2 cl_n1 cl_h1); [|cl_insert_tac..].
  apply (ex_insert cl_P 102 cl_t1 cl_tr1 cl_k2 cl_h2); [|cl_insert_tac..].
  apply (ex_insert cl_P 101 ex_t0 ex_tr0 cl_k1 cl_h1); [|cl_insert_tac..].
  apply reach_blank. cl_insert_tac.
Qed.

Lemma cl_tree_ok : tree_ok cl_P cl_tr.
Proof.
  destruct (reach_tree_inv cl_P cl_coll_free _ _ cl_reach) as [_ Hinv].
  split_and!; [exact cl_coll_free|exact cl_nonzero|cl_insert_tac|apply Hinv].
Qed.

(** [query_ok], decided. *)
Definition cl_r1 : MerkleRootV1 := Eval vm_compute in default ex_r1 (rF1 (psRoot cl_paths)).
Definition query_okb (q : MerklePathCompressed * bytes) : bool :=
  bool_decide (rF1 (pcRoot q.1) = Some cl_r1) && forallb (λ x, (0 <=? x) && (x <? 256))%Z (pcPath q.1) &&
  forallb (λ x, (0 <=? x) && (x <? 256))%Z q.2 &&
  forallb (λ n, bool_decide (n ∈ cl_nodes)) (verifier_nodes q.2 q.1).
Lemma query_okb_sound l : forallb query_okb l = true → Forall (query_ok cl_P cl_tr) l.
Proof.
  intros Hl. rewrite forallb_forall in Hl. apply Forall_forall. intros q Hq%list_elem_of_In%Hl. unfold query_okb in Hq.
  rewrite !andb_true_iff, bool_decide_eq_true in Hq. destruct Hq as [[[Hr Hp] Hk] Hn]. split_and!.
  - exists cl_r1. split; [done|]. vm_compute. reflexivity.
  - by apply bytes_ok_unpack.
  - by apply bytes_ok_unpack.
  - by apply cl_P_all.
Qed.

Lemma cl_answer E o :
  env_for cl_eid cl_typ (Some cl_loc0) E → reads_links cl_chainer E cl_links → peOffset E = Z.of_nat o →
  forallb query_okb (cl_queries E o) = true →
  answer_ok cl_eid cl_typ (Some cl_loc0) cl_chainer cl_P cl_tr E None 1 cl_links.
Proof.
  intros HE Hr Ho Hq. split_and!; [done|done|lia|]. rewrite Ho, Nat2Z.id. by apply query_okb_sound.
Qed.
Lemma cl_good_ok : answer_ok cl_eid cl_typ (Some cl_loc0) cl_chainer cl_P cl_tr cl_good None 1 cl_links.
Proof. apply (cl_answer cl_good 0); [done|done|done|vm_compute; reflexivity]. Qed.
Lemma cl_off_ok : answer_ok cl_eid cl_typ (Some cl_loc0) cl_chainer cl_P cl_tr cl_off None 1 cl_links.
Proof. apply (cl_answer cl_off 1); [done|done|done|vm_compute; reflexivity]. Qed.

(** ** Witnesses *)
Definition cl_after (E : path_env) : BaseChainLoader := (load E None 1 None cl_links new_loader).1.
Lemma cl_load_ok E : (load E None 1 None cl_links new_loader).2 = Ok () →
  load E None 1 None cl_links new_loader = (cl_after E, Ok ()).
Proof. unfold cl_after. destruct (load _ _ _ _ _ _) as [b r]. simpl. by intros ->. Qed.

(** Collision-freeness on a finite list is decidable. *)
Lemma inj_on `{EqDecision A} (f : A → result bytes) (l : list A) :
  forallb (λ a, forallb (λ b, implb (bool_decide (f a = f b)) (bool_decide (a = b))) l) l = true →
  ∀ a b, a ∈ l → b ∈ l → f a = f b → a = b.
Proof.
  intros Hl a b Ha%list_elem_of_In Hb%list_elem_of_In Heq. rewrite forallb_forall in Hl. specialize (Hl a Ha).
  rewrite forallb_forall in Hl. specialize (Hl b Hb). rewrite (bool_decide_eq_true_2 _ Heq) in Hl.
  by apply bool_decide_eq_true in Hl.
Qed.

Lemma cl_locs_inj l1 l2 :
  l1 ∈ peLocations cl_good ++ peLocations cl_off → l2 ∈ peLocations cl_good ++ peLocations cl_off →
  TreeLocation_hash l1 = TreeLocation_hash l2 → l1 = l2.
Proof. apply (inj_on TreeLocation_hash (peLocations cl_good ++ peLocations cl_off)). vm_compute. reflexivity. Qed.
Lemma cl_links_inj l1 l2 :
  l1 ∈ cl_links ++ cl_links → l2 ∈ cl_links ++ cl_links → LinkHash l1 = LinkHash l2 → l1 = l2.
Proof. apply (inj_on LinkHash (cl_links ++ cl_links)). vm_compute. reflexivity. Qed.
Lemma cl_good_run : load cl_good None 1 None cl_links new_loader = (cl_after cl_good, Ok ()).
Proof. apply cl_load_ok. vm_compute. reflexivity. Qed.
Lemma cl_off_run : load cl_off None 1 None cl_links new_loader = (cl_after cl_off, Ok ()).
Proof. apply cl_load_ok. vm_compute. reflexivity. Qed.

Lemma loaded_chain_is_published_witness :
  chained cl_chainer None 1 cl_links ∧
  published cl_eid cl_typ (Some cl_loc0) cl_chainer cl_tr 1 None cl_locs cl_links.
Proof.
  exact (loaded_chain_is_published cl_eid cl_typ (Some cl_loc0) cl_chainer cl_P cl_tr cl_good None 1 None cl_links
    new_loader (cl_after cl_good) cl_tree_ok cl_good_ok eq_refl cl_good_run).
Defined.

Lemma loads_agree_witness : cl_links = gcLinks cl_raw.
Proof.
  exact (loads_agree cl_eid cl_typ (Some cl_loc0) cl_chainer cl_P cl_tr cl_good cl_off None 1 None cl_links (gcLinks cl_raw)
    new_loader new_loader (cl_after cl_good) (cl_after cl_off) cl_tree_ok cl_good_ok cl_off_ok
    cl_locs_inj cl_links_inj eq_refl eq_refl cl_good_run cl_off_run).
Defined.

(** The server answers wrongly the first time. *)
Definition cl_attempts (i : nat) : attempt :=
  match i with O => mkAttempt cl_bad cl_links | _ => mkAttempt cl_good cl_links end.
Definition cl_retry_end : BaseChainLoader :=
  (runMany 3 (try_load cl_attempts None 1 None) TeamLoader_resetState (λ _, None) new_loader).1.
Lemma cl_retry_run :
  runMany 3 (try_load cl_attempts None 1 None) TeamLoader_resetState (λ _, None) new_loader = (cl_retry_end, Ok 1).
Proof.
  assert ((runMany 3 (try_load cl_attempts None 1 None) TeamLoader_resetState (λ _, None) new_loader).2 = Ok 1) as Hr
    by (vm_compute; reflexivity).
  unfold cl_retry_end. destruct (runMany _ _ _ _ _) as [b r]. simpl in *. by rewrite Hr.
Qed.
Lemma team_retries_sound_witness :
  chained cl_chainer None 1 cl_links ∧
  published cl_eid cl_typ (Some cl_loc0) cl_chainer cl_tr 1 None cl_locs cl_links.
Proof.
  exact (team_retries_sound cl_eid cl_typ (Some cl_loc0) cl_chainer cl_P cl_tr 3 cl_attempts None 1 None (λ _, None)
    new_loader cl_retry_end 1 cl_tree_ok eq_refl cl_retry_run cl_good_ok).
Defined.

Lemma poly_hash_ok m : bytes_ok (poly_hash m).
Proof.
  unfold poly_hash. apply Forall_app. split.
  - apply Forall_fmap, Forall_forall. intros i _. unfold byte_ok. simpl. change 255%Z with (Z.ones 8).
    rewrite Z.land_ones by lia. apply Z.mod_pos_bound. lia.
  - apply Forall_replicate. unfold byte_ok. lia.
Qed.

Definition cl_root : Root := Eval vm_compute in
  match SelectRootForTraversal cl_db true None with Ok (Some r) => r | _ => ex_root cl_t4 end.
Lemma cl_publishes : publishes cl_db cl_root cl_tr.
Proof.
  destruct (reach_tree_inv cl_P cl_coll_free _ _ cl_reach) as [Hok Hinv].
  assert (cl_db = {| tx := signed_db (tx cl_t4) 1 5; tx_host := 1 |}) as Hdb by (vm_compute; reflexivity).
  rewrite Hdb. split.
  - destruct Hok. constructor; assumption.
  - vm_compute. reflexivity.
  - vm_compute. reflexivity.
  - apply (inv_stored _ _ _ Hinv).
  - apply Hinv.
  - reflexivity.
  - intros n Hn. apply cl_nonzero. revert n Hn. cl_insert_tac.
  - exists cl_r1. split; vm_compute; reflexivity.
Qed.

Lemma cl_published : published cl_eid cl_typ (Some cl_loc0) cl_chainer cl_tr 1 None cl_locs cl_links.
Proof.
  eapply published_link with (loc := Some cl_loc0) (key := cl_k1) (h := cl_h1);
    [by constructor|vm_compute; reflexivity..|].
  eapply published_link with (loc := Some cl_locB) (locs' := [cl_locC]) (key := cl_k2) (h := cl_h2);
    [constructor; vm_compute; reflexivity|vm_compute; reflexivity..|].
  eapply published_end with (loc := Some cl_locC) (key := cl_k3);
    [constructor; vm_compute; reflexivity|vm_compute; reflexivity..].
Qed.
Lemma cl_chained : chained cl_chainer None 1 cl_links.
Proof.
  eapply chained_cons with (h := cl_h1); [vm_compute; reflexivity..|].
  eapply chained_cons with (h := cl_h2); [vm_compute; reflexivity..|]. constructor.
Qed.
Lemma cl_tabled : tabled cl_typ cl_rows None (Some cl_seed_com) (Some cl_loc0) cl_locs cl_links.
Proof.
  split.
  - vm_compute. reflexivity.
  - vm_compute. reflexivity.
  - by repeat constructor.
  - exists cl_seed. split_and!; [done|done|]. exists cl_seed_com, cl_loc0. split_and!; vm_compute; reflexivity.
Qed.

Lemma served_chain_accepted_witness :
  ∃ raw, LoadGenericChain cl_db cl_rows cl_typ cl_eid 1 = Ok raw ∧
    ends_ok (Generic_check cl_eid cl_typ None raw (Some cl_seed_com) (λ j, cl_chainer <$> gcLinks raw !! j)
      "settings" new_loader) = true.
Proof.
  exact (served_chain_accepted cl_chainer cl_db cl_root cl_tr cl_rows cl_eid cl_typ None (Some cl_seed_com)
    (Some cl_loc0) cl_locs cl_links new_loader "settings" cl_publishes poly_hash_ok cl_tabled eq_refl eq_refl
    eq_refl cl_chained cl_published eq_refl eq_refl).
Defined.

Lemma cl_name_queries_ok p i : Select cl_name_paths i = Ok p → query_ok cl_P cl_tr (p, cl_n2).
Proof.
  assert (Forall (query_ok cl_P cl_tr) cl_name_queries) as Hq by (apply query_okb_sound; vm_compute; reflexivity).
  unfold cl_name_queries in Hq. rewrite Forall_fmap, Forall_forall in Hq. unfold Select. intros Hs.
  apply bind_Ok in Hs as (x & Hx & [= <-]). unfold index in Hx. destruct (_ && _); [|done].
  apply of_option_Ok, list_elem_of_lookup_2 in Hx. exact (Hq _ Hx).
Qed.
(** The tree has links for the name at 1 and 2; the honest server's answer is refused. *)
Lemma reused_name_refused_witness :
  length (psPaths cl_name_paths) = 3 ∧
  ∀ b' r, check_name_paths cl_name cl_name_paths (Ok cl_h1) 3 0 1 0 new_loader ≠ (b', Ok r).
Proof.
  split; [reflexivity|]. intros b' r.
  apply (reused_name_refused cl_P cl_tr cl_name cl_name_paths (Ok cl_h1) 1 1 0 new_loader b' r cl_n2).
  - exact cl_tree_ok.
  - vm_compute. reflexivity.
  - apply (bool_decide_unpack _). vm_compute. exact I.
  - exact cl_name_queries_ok.
  - reflexivity.
Defined.

(** ** Trying again *)

(** The first answer is refused as a race; the second one has another last link, which is not in the
    tree, and the same paths. *)
Definition cl_forged_links : list LinkOuter := [cl_L1; cl_L2'].
Definition cl_forged_attempts (i : nat) : attempt :=
  match i with
  | O => mkAttempt cl_bad cl_links
  | _ => mkAttempt (cl_env cl_forged_links cl_paths cl_locs 0) cl_forged_links
  end.

Lemma cl_forged_unpublished : ¬ published cl_eid cl_typ (Some cl_loc0) cl_chainer cl_tr 1 None cl_locs cl_forged_links.
Proof.
  intros Hp. inversion Hp as [|? ? ? loc locs' key link h links Hpl Hk Hh Hg Hp2]; subst. clear Hp.
  inversion Hpl; subst; [|done]. clear Hpl Hk Hh Hg.
  inversion Hp2 as [|? ? ? loc locs' key2 link h2 links Hpl2 Hk2 Hh2 Hg2 Hp3]; subst. clear Hp2 Hp3.
  inversion Hpl2; subst. clear Hpl2. vm_compute in Hk2. injection Hk2 as <-.
  vm_compute in Hh2. injection Hh2 as <-.
  apply (f_equal (λ o, bool_decide (o = Some cl_h2))) in Hg2. vm_compute in Hg2. discriminate Hg2.
Qed.

(** C25: the retries of the loaders of users and generic chains bypass the tree.  They keep the hashes
    of the links of a refused attempt, and compare the leaves of the tree with
    those: a server whose first answer fails as a race makes the client accept, in the second,
    a link that the tree does not have.  (Concretely: a chain of two links, whose second link is replaced.) *)
Theorem user_retry_accepts_unpublished :
  (runMany 3 (try_load cl_forged_attempts None 1 None) UserLoader_resetState (λ _, None) new_loader).2 = Ok 1 ∧
  tree_ok cl_P cl_tr ∧ root_of cl_tr (psRoot cl_paths) ∧
  ¬ published cl_eid cl_typ (Some cl_loc0) cl_chainer cl_tr 1 None cl_locs (atLinks (cl_forged_attempts 1)).
Proof.
  split_and!.
  - vm_compute. reflexivity.
  - exact cl_tree_ok.
  - exists cl_r1. split; vm_compute; reflexivity.
  - exact cl_forged_unpublished.
Qed.

(** An honest server may add a link between the attempts; the new chain is then refused for good, since the second
    link's leaf is compared with the first link's hash. *)
Definition cl_grown_attempts (i : nat) : attempt :=
  match i with
  | O => mkAttempt (cl_env [cl_L1] {| psRoot := psRoot cl_bad_paths; psPaths := take 2 (psPaths cl_bad_paths) |} [cl_locB] 0) [cl_L1]
  | _ => mkAttempt cl_good cl_links
  end.
Theorem user_retry_refuses_published :
  (runMany 3 (try_load cl_grown_attempts None 1 None) UserLoader_resetState (λ _, None) new_loader).2 =
    Err (ChainLoaderError false (CLBadMerkleLeafValueError "settings" 2)) ∧
  published cl_eid cl_typ (Some cl_loc0) cl_chainer cl_tr 1 None cl_locs (atLinks (cl_grown_attempts 1)) ∧
  (runMany 3 (try_load cl_grown_attempts None 1 None) TeamLoader_resetState (λ _, None) new_loader).2 = Ok 1.
Proof. split_and!; [vm_compute; reflexivity|exact cl_published|vm_compute; reflexivity]. Qed.
