(* ===== verification/UserChain.v ===== *)
(** * User sigchain links ([lib/core/chain.go], [lib/core/keysuite.go], [lib/core/hepk.go])

    A user's sigchain records the devices of the user, the role each device has, and the
    generations of the per-user keys (PUKs), one line of keys for each role.  A link is opened
    against the set of hybrid encryption keys (HEPKs) sent with it: the keys that it introduces
    and the device that signs it have to sign it.  What it changes is then checked against the
    devices and the key generations before it.

    The decoder of a link's inner part and the encoders are third-party code, the fields of
    [UserLib].  Numbers that the source formats into the text of an error are left out. *)
From S2P Require Import Prelude Snowp MerkleTypes Rational Role Roster TeamRoster TeamBoxes Sigs HostChain ChainLoader.

(** ** Encryption keys ([proto/lib/common.go]) *)
Abbreviation DHType := Z.
Definition DHType_Curve25519 : DHType := 1.
Definition DHType_P256 : DHType := 2.
Record DHPublicKey := mkDHPublicKey { dh_T : DHType; dh_F0 : option bytes; dh_F1 : option bytes }.
Definition DHPublicKey_GetT (d : DHPublicKey) : result DHType :=
  _ ← guard_err ((dh_T d =? DHType_Curve25519)%Z && is_nil (dh_F0 d)) (GoError "unexpected nil case for F_0__");
  _ ← guard_err ((dh_T d =? DHType_P256)%Z && is_nil (dh_F1 d)) (GoError "unexpected nil case for F_1__");
  Ok (dh_T d).
Definition P256 (d : DHPublicKey) : result bytes :=
  v ← of_option GoPanic (dh_F1 d);
  _ ← guard_err (negb (dh_T d =? DHType_P256)%Z) GoPanic; Ok v.

Record KemEncapKey := mkKemEncapKey { kem_T : Z; kem_F1 : option bytes }.
Record HEPKv1 := mkHEPKv1 { Classical : DHPublicKey; Pqkem : KemEncapKey }.
Definition HEPKVersion_None : Z := 0.
Definition HEPKVersion_V1 : Z := 1.
Record HEPK := mkHEPK { hepk_V : Z; hepk_F1 : option HEPKv1 }.
Definition HEPK_GetV (h : HEPK) : result Z :=
  _ ← guard_err ((hepk_V h =? HEPKVersion_V1)%Z && is_nil (hepk_F1 h)) (GoError "unexpected nil case for F_1__");
  Ok (hepk_V h).
Definition HEPK_V1 (h : HEPK) : result HEPKv1 :=
  v ← of_option GoPanic (hepk_F1 h);
  _ ← guard_err (negb (hepk_V h =? HEPKVersion_V1)%Z) GoPanic; Ok v.

Definition HEPK_Open (h : HEPK) : result HEPKv1 :=
  v ← HEPK_GetV h;
  _ ← guard_err (v =? HEPKVersion_None)%Z (InternalError "HEPK uninitialized");
  _ ← guard_err (negb (v =? HEPKVersion_V1)%Z) (VersionNotSupportedError "HEPK from future");
  HEPK_V1 h.
Definition HEPK_DHPublicKey (h : HEPK) : result DHPublicKey := v1 ← HEPK_Open h; Ok (Classical v1).

(** ** Links ([proto/lib/chains.go]) *)
Record GroupChangeSigner := mkGroupChangeSigner { gsKey : EntityID; gsKeyOwner : option KeyOwner }.

Abbreviation ChangeType := Z.
Definition ChangeType_DeviceName : ChangeType := 0.
Definition ChangeType_Username : ChangeType := 1.
Definition ChangeType_Eldest : ChangeType := 2.
Definition ChangeType_Teamname : ChangeType := 3.
Definition ChangeType_TeamIndexRange : ChangeType := 4.
Definition ChangeType_MemberLoadFloor : ChangeType := 5.
Definition ChangeType_RosterDelegationFloor : ChangeType := 6.
Abbreviation Commitment := bytes.
Record EldestMetadata := mkEldestMetadata { SubchainTreeLocationSeedCommitment : bytes }.
Record ChangeMetadata := mkChangeMetadata {
  cm_T : ChangeType;
  cm_F0 : option Commitment;
  cm_F1 : option EldestMetadata;
  cm_F2 : option proto_RationalRange;
  cm_F3 : option Role;
  cm_F4 : option Role
}.
Definition ChangeMetadata_GetT (c : ChangeMetadata) : result ChangeType :=
  let t := cm_T c in
  _ ← guard_err (((t =? ChangeType_DeviceName) || (t =? ChangeType_Username) || (t =? ChangeType_Teamname))%Z
                 && is_nil (cm_F0 c)) (GoError "unexpected nil case for F_0__");
  _ ← guard_err ((t =? ChangeType_Eldest)%Z && is_nil (cm_F1 c)) (GoError "unexpected nil case for F_1__");
  _ ← guard_err ((t =? ChangeType_TeamIndexRange)%Z && is_nil (cm_F2 c)) (GoError "unexpected nil case for F_2__");
  _ ← guard_err ((t =? ChangeType_MemberLoadFloor)%Z && is_nil (cm_F3 c)) (GoError "unexpected nil case for F_3__");
  _ ← guard_err ((t =? ChangeType_RosterDelegationFloor)%Z && is_nil (cm_F4 c))
        (GoError "unexpected nil case for F_4__");
  Ok t.
Definition Devicename (c : ChangeMetadata) : result Commitment :=
  v ← of_option GoPanic (cm_F0 c);
  _ ← guard_err (negb (cm_T c =? ChangeType_DeviceName)%Z) GoPanic; Ok v.
Definition Username (c : ChangeMetadata) : result Commitment :=
  v ← of_option GoPanic (cm_F0 c);
  _ ← guard_err (negb (cm_T c =? ChangeType_Username)%Z) GoPanic; Ok v.
Definition Eldest (c : ChangeMetadata) : result EldestMetadata :=
  v ← of_option GoPanic (cm_F1 c);
  _ ← guard_err (negb (cm_T c =? ChangeType_Eldest)%Z) GoPanic; Ok v.
Definition NewChangeMetadataWithDevicename (v : Commitment) : ChangeMetadata :=
  mkChangeMetadata ChangeType_DeviceName (Some v) None None None None.
Definition NewChangeMetadataWithUsername (v : Commitment) : ChangeMetadata :=
  mkChangeMetadata ChangeType_Username (Some v) None None None None.
Definition NewChangeMetadataWithEldest (v : EldestMetadata) : ChangeMetadata :=
  mkChangeMetadata ChangeType_Eldest None (Some v) None None None.

Record GroupChange := mkGroupChange {
  gcChainer : HidingChainer;
  gcEntity : FQEntity;
  gcSigner : GroupChangeSigner;
  gcChanges : list proto_MemberRole;
  gcSharedKeys : list SharedKey;
  gcMetadata : list ChangeMetadata;
  gcLocationVRFID : option bytes
}.
(** [G] stands for the links of the other chains, which user links are not. *)
Definition LinkType_GROUP_CHANGE : Z := 1.
Definition LinkType_GENERIC : Z := 2.
Record LinkInner (G : Type) := mkLinkInner { li_T : Z; li_F0 : option GroupChange; li_F1 : option G }.
Arguments mkLinkInner {G}.
Arguments li_T {G}.
Arguments li_F0 {G}.
Arguments li_F1 {G}.
Definition LinkInner_GetT {G} (l : LinkInner G) : result Z :=
  _ ← guard_err ((li_T l =? LinkType_GROUP_CHANGE)%Z && is_nil (li_F0 l)) (GoError "unexpected nil case for F_0__");
  _ ← guard_err ((li_T l =? LinkType_GENERIC)%Z && is_nil (li_F1 l)) (GoError "unexpected nil case for F_1__");
  Ok (li_T l).
Definition LinkInner_GroupChange {G} (l : LinkInner G) : result GroupChange :=
  v ← of_option GoPanic (li_F0 l);
  _ ← guard_err (negb (li_T l =? LinkType_GROUP_CHANGE)%Z) GoPanic; Ok v.

Definition MemberKeys_User (m : MemberKeys) : result UserMemberKeys :=
  v ← of_option GoPanic (mk_F1 m);
  _ ← guard_err (negb (mk_T m =? MemberKeysType_User)%Z) GoPanic; Ok v.

Class UserLib := {
  GenericLink : Type;
  dec_LinkInner : bytes → result (LinkInner GenericLink);
  enc_LinkOuterV1 : LinkOuterV1 → result bytes;
  enc_HEPK : HEPK → result bytes
}.

(** ** Entities and roles ([proto/lib/extras.go]) *)
Definition EntityType_Device : EntityType := 4.
Definition EntityType_BackupKey : EntityType := 16.
Definition EntityType_PassphraseKey : EntityType := 17.
Definition EntityType_BotTokenKey : EntityType := 19.
Definition RollingEq (e e2 : EntityID) : result bool :=
  if (len e =? len e2)%Z && (2 <? len e)%Z then
    t ← EntityID_Type e; t2 ← EntityID_Type e2;
    Ok ((RollingType t =? RollingType t2)%Z && bool_decide (drop 1 e = drop 1 e2))
  else Ok false.
Definition Role_IsSet (r : Role) : bool :=
  match GetT r with Ok t => negb (t =? RoleType_NONE)%Z | Err _ => false end.
Definition Commitment_IsZero (c : bytes) : bool := forallb (λ b, (b =? 0)%Z) c.
Definition ECDSACompressedPublicKey (i : EntityID) : result bytes :=
  t ← EntityID_Type i;
  if (t =? EntityType_Yubi)%Z then Ok (drop 1 i) else Err (DataError "not an ecdsa entity").

(** ** Key suites

    [PublicSuite25519] and [PublicSuiteECDSA] have the same fields, and are told apart by the
    kind of their key. *)
Record PublicSuite := mkPublicSuite {
  psEp : EntityPublic; psHostID : option HostID; psHepk : HEPK; psRole : Role; psStartEpno : option Z
}.
Definition psEntityID (p : PublicSuite) : EntityID := GetEntityID (psEp p).
Record PublicSuiterWithSeqno := mkPublicSuiterWithSeqno { Ps : PublicSuite; pwSeqno : Z }.
Record SharedPublicSuite := mkSharedPublicSuite { spsKey : SharedKey; spsHEPK : HEPK }.
Definition ImportSharedPublicSuite (o : SharedKey) (k : HEPK) : SharedPublicSuite := mkSharedPublicSuite o k.

(** A set of HEPKs by fingerprint; the nil set acts as the empty one. *)
Abbreviation HEPKSet := (gmap bytes HEPK).
Definition HEPKSet_Lookup (h : HEPKSet) (f : bytes) : option HEPK := h !! f.
(** The keys of the argument replace those of the receiver. *)
Definition HEPKSet_Merge (h o : HEPKSet) : HEPKSet := o ∪ h.

Definition importPublicSuiteHelper (eid : EntityID) (hepk : HEPK) (h1 : option HostID) (h2 : HostID) (role : Role)
  : result PublicSuite :=
  dh ← HEPK_DHPublicKey hepk;
  dhtyp ← DHPublicKey_GetT dh;
  _ ← guard_err (match h1 with Some h1 => negb (HostID_Eq h1 h2) | None => false end) (HostMismatchError "");
  t ← EntityID_Type eid;
  if bool_decide (t ∈ [EntityType_Device; EntityType_User; EntityType_NamedTeam; EntityType_BackupKey;
                       EntityType_PassphraseKey; EntityType_BotTokenKey]) then
    _ ← guard_err (negb (dhtyp =? DHType_Curve25519)%Z) (KeyImportError "wrong type of DH key in key import");
    Ok (mkPublicSuite (EntityPublicEd25519 eid) (Some h2) hepk role None)
  else if (t =? EntityType_Yubi)%Z then
    _ ← guard_err (negb (dhtyp =? DHType_P256)%Z) (KeyImportError "need DH type P256 with Yubikey/ECDSA");
    i ← P256 dh;
    j ← ECDSACompressedPublicKey eid;
    _ ← guard_err (negb (bool_decide (i = j))) (KeyImportError "ECDSA public key mismatch");
    Ok (mkPublicSuite (EntityPublicECDSA eid) (Some h2) hepk role None)
  else Err (KeyImportError "unknown key type in import").

Definition ImportPublicSuite (o : proto_MemberRole) (hepks : HEPKSet) (host : HostID) : result PublicSuite :=
  typ ← MemberKeys_GetT (mKeys (mrMember o));
  _ ← guard_err (negb (typ =? MemberKeysType_User)%Z) (KeyImportError "only user keys supported");
  ukeys ← MemberKeys_User (mKeys (mrMember o));
  hepk ← of_option (KeyNotFoundError "hepk") (HEPKSet_Lookup hepks (umkHepkFp ukeys));
  importPublicSuiteHelper (hsEntity (mId (mrMember o))) hepk (hsHost (mId (mrMember o))) host (DstRole o).

Record EntityPublicAtHost := mkEntityPublicAtHost { epahEp : EntityPublic; epahHost : HostID }.
Definition ImportEntityPublicWithHost (eid : EntityID) (host : HostID) : result EntityPublicAtHost :=
  ep ← ImportEntityPublic eid; Ok (mkEntityPublicAtHost ep host).
Definition EntityPublicAtHost_Eq (e : EntityPublicAtHost) (ps : PublicSuite) : result bool :=
  host ← of_option MissingHostError (psHostID ps);
  Ok (HostID_Eq host (epahHost e) && EntityID_Eq (GetEntityID (epahEp e)) (psEntityID ps)).

(** What signs a link: a shared key, the new device or another public key. *)
Inductive LinkVerifier :=
  | VShared (s : SharedPublicSuite)
  | VSuite (p : PublicSuite)
  | VEntity (e : EntityPublic).

Record OpenDeviceChangeRes := mkOpenDeviceChangeRes {
  odGc : GroupChange;
  odLov1 : LinkOuterV1;
  odVerifiers : list LinkVerifier;
  newDevice : option PublicSuite;
  RawNewDevice : option proto_MemberRole;
  ExistingDevice : EntityPublic;
  odSharedKeys : list SharedPublicSuite;
  odSubkey : option EntityPublic;
  LastSigner : EntityPublic
}.

Section links.
Context `{Crypto} `{Codec} `{UserLib}.

#[global] Instance LinkOuterV1_Verifiable : Verifiable LinkOuterV1 := {
  GetTypeUniqueID _ := 0xc2745284af617745%Z;
  Encode := enc_LinkOuterV1
}.
#[global] Instance LinkOuterV1_Stacked : StackedVerifiable LinkOuterV1 := {
  GetSignatures := lo1Signatures;
  SetSignatures l s := mkLinkOuterV1 (lo1Inner l) s
}.
#[global] Instance LinkOuterV1_StackedLaws : StackedLaws (T := LinkOuterV1).
Proof. split; by intros []. Qed.

(** The suite of a shared key verifies with the bytes of its key: the nil key, of an
    identifier that is not of an Ed25519 type, has not 32 bytes. *)
#[global] Instance SharedPublicSuite_Verifier : Verifier SharedPublicSuite := λ T HT s sig obj,
  key ← PublicKeyEd25519 (skVerifyKey (spsKey s));
  VerifyWithEd25519Public (default [] key) sig obj.
#[global] Instance LinkVerifier_Verifier : Verifier LinkVerifier := λ T HT v sig obj,
  match v with
  | VShared s => Verifier_Verify s sig obj
  | VSuite p => Verifier_Verify (psEp p) sig obj
  | VEntity e => Verifier_Verify e sig obj
  end.

Definition HEPK_Fingerprint (h : HEPK) : result bytes :=
  PrefixedHashInto 0x9c581beed36c7e0c%Z (encodeAndCheck (enc_HEPK h)).
Fixpoint import_hepks (vs : list HEPK) (ret : HEPKSet) : result HEPKSet :=
  match vs with
  | [] => Ok ret
  | v :: vs => fp ← HEPK_Fingerprint v; import_hepks vs (<[fp := v]> ret)
  end.
Definition ImportHEPKSet (hs : list HEPK) : result HEPKSet := import_hepks hs ∅.

(** ** Opening a link *)
Definition OpenGroupChange (link : LinkOuter) : result (GroupChange * LinkOuterV1) :=
  v ← LinkOuter_GetV link;
  _ ← guard_err (negb (v =? LinkVersion_V1)%Z) (VersionNotSupportedError "can only handle outer links V1");
  lov1 ← LinkOuter_V1 link;
  li ← dec_LinkInner (lo1Inner lov1);
  typ ← LinkInner_GetT li;
  _ ← guard_err (negb (typ =? LinkType_GROUP_CHANGE)%Z) (LinkError "unknown link type");
  gc ← LinkInner_GroupChange li;
  Ok (gc, lov1).

(** The shared keys have rising roles; [prev] is the key before. *)
Fixpoint open_shared_keys (prev : option SharedKey) (sks : list SharedKey) (hepks : HEPKSet)
  : result (list SharedPublicSuite) :=
  match sks with
  | [] => Ok []
  | sk :: sks =>
      _ ← match prev with
          | None => Ok ()
          | Some p => lt ← Role_LessThan (skRole p) (skRole sk);
                      guard_err (negb lt) (LinkError "need roles to be in strictly increasing order")
          end;
      w ← of_option (KeyNotFoundError "hepk") (HEPKSet_Lookup hepks (skHepkFp sk));
      rest ← open_shared_keys (Some sk) sks hepks;
      Ok (ImportSharedPublicSuite sk w :: rest)
  end.
Definition OpenSharedKeys (gc : GroupChange) (hepks : HEPKSet) : result (list LinkVerifier * list SharedPublicSuite) :=
  sharedKeys ← open_shared_keys None (gcSharedKeys gc) hepks;
  Ok (map VShared sharedKeys, sharedKeys).

Definition OpenChainer (gc : GroupChange) : result () :=
  let base := hdBase (gcChainer gc) in
  _ ← guard_err (Commitment_IsZero (NextLocationCommitment (gcChainer gc)))
        (LinkError "need non-zero next location commitment for all links");
  _ ← guard_err (negb (Bool.eqb (Seqno_IsEldest (bcSeqno base)) (is_nil (bcPrev base))))
        (LinkError "nil prev hash iff seqno==0");
  guard_err (negb (Seqno_IsValid (bcSeqno base))) (LinkError "invalid seqno (< 1)").

(** The part on the new device: the device, the subkey and the verifiers they add. *)
Definition open_new_device (gc : GroupChange) (hepks : HEPKSet) (hostID : HostID) (existingDevice : EntityPublicAtHost)
  : result (option PublicSuite * option proto_MemberRole * option EntityPublic * list LinkVerifier) :=
  match gcChanges gc with
  | [raw] =>
      rt ← GetT (DstRole raw);
      if (rt =? RoleType_NONE)%Z then Ok (None, None, None, [])
      else
        nd ← ImportPublicSuite raw hepks hostID;
        _ ← guard_err (negb (is_nil (hsHost (mId (mrMember raw))))) (LinkError "expected empty host in change");
        kt ← MemberKeys_GetT (mKeys (mrMember raw));
        _ ← guard_err (negb (kt =? MemberKeysType_User)%Z) (LinkError "expected user keys in change");
        ukeys ← MemberKeys_User (mKeys (mrMember raw));
        subkey ← match umkSubKey ukeys with
                 | Some k => s ← ImportEntityPublic k; Ok (Some s)
                 | None => Ok None
                 end;
        let subvs := match subkey with Some s => [VEntity s] | None => [] end in
        if Seqno_IsEldest (bcSeqno (hdBase (gcChainer gc))) then
          eq ← EntityPublicAtHost_Eq existingDevice nd;
          _ ← guard_err (negb eq) (LinkError "expected eldest-link to be self-signed");
          Ok (Some nd, Some raw, subkey, subvs)
        else Ok (Some nd, Some raw, subkey, subvs ++ [VSuite nd])
  | _ => Ok (None, None, None, [])
  end.

Definition OpenDeviceChange (link : LinkOuter) (hepks : HEPKSet) (uid : option bytes) (hostID : HostID)
  : result OpenDeviceChangeRes :=
  '(gc, lov1) ← OpenGroupChange link;
  t ← EntityID_Type (fqEntity (gcEntity gc));
  _ ← guard_err (negb (t =? EntityType_User)%Z) (LinkError "expected a link for a User entity");
  _ ← guard_err (negb (HostID_Eq hostID (fqHost (gcEntity gc)))) (LinkError "wrong host given");
  _ ← guard_err (match uid with Some u => negb (EntityID_Eq u (fqEntity (gcEntity gc))) | None => false end)
        (LinkError "wrong user given");
  '(verifiers, sharedKeys) ← OpenSharedKeys gc hepks;
  _ ← guard_err (1 <? len (gcChanges gc))%Z (LinkError "expected 0 or 1 device changes, got more");
  _ ← guard_err (negb (is_nil (gsKeyOwner (gcSigner gc))))
        (LinkError "expected a nil Signer.KeyOwner for user-sigchain links");
  existingDevice ← ImportEntityPublicWithHost (gsKey (gcSigner gc)) hostID;
  '(nd, raw, subkey, vs) ← open_new_device gc hepks hostID existingDevice;
  let verifiers := verifiers ++ vs ++ [VEntity (epahEp existingDevice)] in
  _ ← OpenChainer gc;
  _ ← (VerifyStackedSignature lov1 verifiers).2;
  Ok {| odGc := gc; odLov1 := lov1; odVerifiers := verifiers; newDevice := nd; RawNewDevice := raw;
        ExistingDevice := epahEp existingDevice; odSharedKeys := sharedKeys; odSubkey := subkey;
        LastSigner := epahEp existingDevice |}.
End links.

(** ** Checking what a link changes

    [Devices] are the active devices, with the sequence numbers of the links that added them. *)
Abbreviation Devices := (gmap FQEntityFixed PublicSuiterWithSeqno).

Definition openDeviceName (m : ChangeMetadata) : result Commitment :=
  mdt ← ChangeMetadata_GetT m;
  _ ← guard_err (negb (mdt =? ChangeType_DeviceName)%Z) (LinkError "wrong type of metadata; need DeviceName");
  Devicename m.
Definition openSubchainTreeLocationCommitment (m : ChangeMetadata) : result bytes :=
  mdt ← ChangeMetadata_GetT m;
  _ ← guard_err (negb (mdt =? ChangeType_Eldest)%Z) (LinkError "wrong type of metadata; need Eldest");
  e ← Eldest m; Ok (SubchainTreeLocationSeedCommitment e).
Definition openUsername (m : ChangeMetadata) : result Commitment :=
  mdt ← ChangeMetadata_GetT m;
  _ ← guard_err (negb (mdt =? ChangeType_Username)%Z) (LinkError "wrong type of metadata; need Username");
  Username m.

(** *** The first link *)
Record OpenEldestRes := mkOpenEldestRes {
  erUid : bytes; erDevice : PublicSuite; erUserKey : SharedPublicSuite;
  erDeviceNameCommitment : Commitment; erUsernameCommitment : Commitment;
  erSubchainTreeLocationCommitment : bytes; erRoot : TreeRoot; erLocationVRFID : option bytes;
  erNextLocationCommitment : bytes; erSubkey : option EntityPublic; erSeqno : Z
}.

Definition CheckEldestChainer (b : BaseChainer) : result () :=
  _ ← guard_err (negb (Seqno_IsValid (bcSeqno b))) (LinkError "invalid seqno for eldest chainlink");
  _ ← guard_err (negb (Seqno_IsEldest (bcSeqno b))) (LinkError "need seqno=0 for eldest chainlink");
  guard_err (negb (is_nil (bcPrev b))) (LinkError "need nil hash for eldest chainlink").

Definition OpenEldestLinkWithODC (odc : OpenDeviceChangeRes) : result OpenEldestRes :=
  let gc := odGc odc in
  let bad := LinkError "expected exactly 1 new device for eldest link" in
  _ ← guard_err (negb (len (gcChanges gc) =? 1)%Z) bad;
  nd ← of_option bad (newDevice odc);
  _ ← guard_err (negb (Role_IsSet (psRole nd))) bad;
  _ ← Role_AssertEq (psRole nd) (NewRoleDefault RoleType_OWNER)
        (LinkError "expected a role=owner, level=0 role for eldest device");
  _ ← guard_err (negb (EntityID_Eq (gsKey (gcSigner gc)) (psEntityID nd)))
        (LinkError "mismatched self-signing public keys");
  sharedKey ← match odSharedKeys odc with
              | [k] => Ok k
              | _ => Err (LinkError "expected exactly one PUK for eldest link")
              end;
  _ ← guard_err (negb (is_nil (gsKeyOwner (gcSigner gc))))
        (LinkError "expected a nil Signer.KeyOwner for user-sigchain links");
  req ← RollingEq (fqEntity (gcEntity gc)) (skVerifyKey (spsKey sharedKey));
  _ ← guard_err (negb req) (LinkError "mismatched entity for User in eldest link");
  _ ← Role_AssertEq (skRole (spsKey sharedKey)) (NewRoleDefault RoleType_OWNER)
        (LinkError "expected role=owner PUK for eldest");
  _ ← guard_err (negb (skGen (spsKey sharedKey) =? FirstGeneration)%Z) (LinkError "expected seqno=1 PUK for eldest");
  _ ← guard_err (len (gcMetadata gc) <? 3)%Z (LinkError "expected at least 3 metadata changes");
  md0 ← index (gcMetadata gc) 0;
  userCommitment ← openUsername md0;
  md1 ← index (gcMetadata gc) 1;
  devCommitment ← openDeviceName md1;
  md2 ← index (gcMetadata gc) 2;
  sctlc ← openSubchainTreeLocationCommitment md2;
  _ ← CheckEldestChainer (hdBase (gcChainer gc));
  uid ← ToUID (fqEntity (gcEntity gc));
  Ok {| erUid := uid; erDevice := nd; erUserKey := sharedKey; erDeviceNameCommitment := devCommitment;
        erUsernameCommitment := userCommitment; erSubchainTreeLocationCommitment := sctlc;
        erRoot := bcRoot (hdBase (gcChainer gc)); erLocationVRFID := gcLocationVRFID gc;
        erNextLocationCommitment := NextLocationCommitment (gcChainer gc); erSubkey := odSubkey odc;
        erSeqno := bcSeqno (hdBase (gcChainer gc)) |}.

(** *** New devices *)
Record OpenDeviceProvisionRes := mkOpenDeviceProvisionRes {
  prGc : GroupChange; prLov1 : LinkOuterV1; prVerifiers : list LinkVerifier; prNewDevice : PublicSuite;
  prSharedKey : option SharedPublicSuite; prDeviceNameCommitment : Commitment; prRoot : TreeRoot;
  prExistingDevice : EntityPublic; prSubkey : option EntityPublic
}.

Definition openDeviceProvisionPUK (puk : SharedPublicSuite) (lowlyDevice : bool) (pukGens : gmap RoleKey Generation)
    (nd : PublicSuite) : result () :=
  _ ← guard_err (negb lowlyDevice) (LinkError "can only add a shared key if adding a lower-privileged device");
  ir ← ImportRole (skRole (spsKey puk));
  let newGen := skGen (spsKey puk) in
  _ ← guard_err (is_nil (pukGens !! ir) && negb (Gen_IsFirst newGen))
        (LinkError "exepected gen=1 for new PUK shared key");
  _ ← guard_err (match pukGens !! ir with Some curr => negb (newGen =? wrap64 (curr + 1))%Z | None => false end)
        (LinkError "unexpected pukGen");
  Role_AssertEq (skRole (spsKey puk)) (psRole nd) (LinkError "need PUK role to be same as new device").

Definition OpenDeviceProvision (odc : OpenDeviceChangeRes) (currentDevices : Devices)
    (pukGens : gmap RoleKey Generation) (hostID : HostID) : result OpenDeviceProvisionRes :=
  let gc := odGc odc in
  let bad := LinkError "expected exactly 1 new device for device provision" in
  _ ← guard_err (negb (len (gcChanges gc) =? 1)%Z) bad;
  nd ← of_option bad (newDevice odc);
  _ ← guard_err (negb (Role_IsSet (psRole nd))) bad;
  rt ← GetT (psRole nd);
  _ ← guard_err (rt =? RoleType_NONE)%Z (LinkError "cannot revoke a device via provision");
  fid ← EntityID_Fixed (GetEntityID (ExistingDevice odc));
  signer ← of_option (ValidationError "attempt to provision without a current device")
             (currentDevices !! mkFQEntityFixed fid hostID);
  _ ← Role_AssertEq (psRole (Ps signer)) (NewRoleDefault RoleType_OWNER)
        (PermissionError "only owner devices can add new devices");
  lowlyDevice ← Role_GreaterThan (psRole (Ps signer)) (psRole nd);
  _ ← guard_err (negb (len (gcMetadata gc) =? 1)%Z) (LinkError "expected exactly one metadata change");
  md ← index (gcMetadata gc) 0;
  commitment ← openDeviceName md;
  _ ← guard_err (1 <? len (odSharedKeys odc))%Z
        (LinkError "only can have at most 1 shared key (if adding a lower-privileged device");
  puk ← match odSharedKeys odc with
        | [puk] => _ ← openDeviceProvisionPUK puk lowlyDevice pukGens nd; Ok (Some puk)
        | _ => Ok None
        end;
  Ok {| prGc := gc; prLov1 := odLov1 odc; prVerifiers := odVerifiers odc; prNewDevice := nd; prSharedKey := puk;
        prDeviceNameCommitment := commitment; prRoot := bcRoot (hdBase (gcChainer gc));
        prExistingDevice := ExistingDevice odc; prSubkey := odSubkey odc |}.

(** *** Revoking devices and rotating keys *)
Record CheckDeviceRevokeRes := mkCheckDeviceRevokeRes {
  rrRole : RoleKey; rrID : option EntityID; rrEpno : Z; rrPswsqno : option PublicSuiterWithSeqno
}.
Definition IsRevoke (c : CheckDeviceRevokeRes) : bool := negb (is_nil (rrID c)).

(** Go ranges over a map in no fixed order; the order only decides which of several errors is
    returned. *)
Fixpoint count_owners (targetId : EntityID) (devs : list (FQEntityFixed * PublicSuiterWithSeqno)) : result Z :=
  match devs with
  | [] => Ok 0%Z
  | (fqe, dev) :: devs =>
      eid ← Unfix (Entity fqe);
      if EntityID_Eq eid targetId then count_owners targetId devs
      else
        role ← GetT (psRole (Ps dev));
        n ← count_owners targetId devs;
        Ok (if (role =? RoleType_OWNER)%Z then wrap_int (n + 1) else n)
  end.
Definition countRemainingOwners (targetId : EntityID) (currentDevices : Devices) : result Z :=
  count_owners targetId (map_to_list currentDevices).

Fixpoint check_puks (sharedKeys : list SharedKey) (pukGens : gmap RoleKey Generation) (foundPUKs : gset RoleKey)
  : result (gset RoleKey) :=
  match sharedKeys with
  | [] => Ok foundPUKs
  | puk :: sharedKeys =>
      rk ← ImportRole (skRole puk);
      gen ← of_option (LinkError "found unneeded new PUK for generation") (pukGens !! rk);
      _ ← guard_err (negb (wrap64 (gen + 1) =? skGen puk)%Z)
            (LinkError "got wrong PUK generation, expected a strict +1 increment");
      _ ← guard_err (bool_decide (rk ∈ foundPUKs)) (LinkError "repeated PUK");
      check_puks sharedKeys pukGens ({[rk]} ∪ foundPUKs)
  end.
Definition CheckSharedKeyUpdate (sharedKeys : list SharedKey) (pukGens : gmap RoleKey Generation)
    (upperLimit : RoleKey) : result () :=
  foundPUKs ← check_puks sharedKeys pukGens ∅;
  guard_err (existsb (λ rk, LessThanOrEqual rk upperLimit && negb (bool_decide (rk ∈ foundPUKs)))
               (map_to_list pukGens).*1)
    (LinkError "missing PUK for role").

Definition checkRotateRevokeCommon (odc : OpenDeviceChangeRes) (hostID : HostID) (currentDevices : Devices)
    (pukGens : gmap RoleKey Generation) (targetRole : RoleKey) : result () :=
  fid ← EntityID_Fixed (GetEntityID (ExistingDevice odc));
  signer ← of_option (ValidationError "attempt to revoke without a current device")
             (currentDevices !! mkFQEntityFixed fid hostID);
  _ ← Role_AssertEq (psRole (Ps signer)) (NewRoleDefault RoleType_OWNER)
        (PermissionError "only owner devices can revoke devices or rotate PUKs");
  _ ← (if (0 <? len (gcSharedKeys (odGc odc)))%Z
       then CheckSharedKeyUpdate (gcSharedKeys (odGc odc)) pukGens targetRole else Ok ());
  guard_err (trEpno (bcRoot (hdBase (gcChainer (odGc odc)))) =? 0)%Z
    (RevokeError "need non-zero merkle Epno for revoke").

Definition checkDeviceRevoke (odc : OpenDeviceChangeRes) (hostID : HostID) (currentDevices : Devices)
    (pukGens : gmap RoleKey Generation) : result CheckDeviceRevokeRes :=
  let gc := odGc odc in
  target ← index (gcChanges gc) 0;
  let m := mrMember target in
  _ ← guard_err (match hsHost (mId m) with Some h => negb (HostID_Eq h hostID) | None => false end)
        (LinkError "wrong hostID for revoked device");
  rt ← GetT (DstRole target);
  _ ← guard_err (negb (rt =? RoleType_NONE)%Z) (LinkError "revoke must actually revoke the device");
  ktyp ← MemberKeys_GetT (mKeys m);
  _ ← guard_err (negb (ktyp =? MemberKeysType_None)%Z) (LinkError "member keys must be none for revoke");
  let targetId := hsEntity (mId m) in
  targetIdFixed ← EntityID_Fixed targetId;
  targetPS ← of_option (LinkError "device to revoke is not currently active")
               (currentDevices !! mkFQEntityFixed targetIdFixed hostID);
  targetRole ← ImportRole (psRole (Ps targetPS));
  let selfRevoke := EntityID_Eq (gsKey (gcSigner gc)) targetId in
  _ ← guard_err (negb (len (gcSharedKeys gc) =? 0)%Z && selfRevoke)
        (LinkError "for self-revoke, need 0 shared keys");
  _ ← guard_err ((len (gcSharedKeys gc) =? 0)%Z && negb selfRevoke)
        (LinkError "if not self-revoking, then need to provide shared keys");
  _ ← (if (Typ targetRole =? RoleType_OWNER)%Z then
         n ← countRemainingOwners targetId currentDevices;
         guard_err (n =? 0)%Z (RevokeError "cannot revoke last owner device")
       else Ok ());
  _ ← checkRotateRevokeCommon odc hostID currentDevices pukGens targetRole;
  Ok (mkCheckDeviceRevokeRes targetRole (Some targetId) (trEpno (bcRoot (hdBase (gcChainer gc)))) (Some targetPS)).

Definition checkDeviceRotate (odc : OpenDeviceChangeRes) (hostID : HostID) (currentDevices : Devices)
    (pukGens : gmap RoleKey Generation) : result CheckDeviceRevokeRes :=
  _ ← guard_err (len (odSharedKeys odc) =? 0)%Z (LinkError "need at least 1 new shared key");
  seniorDevice ← index (odSharedKeys odc) (len (odSharedKeys odc) - 1);
  upperLimit ← ImportRole (skRole (spsKey seniorDevice));
  _ ← checkRotateRevokeCommon odc hostID currentDevices pukGens upperLimit;
  Ok (mkCheckDeviceRevokeRes upperLimit None 0 None).

Definition CheckDeviceRevokeOrRotate (odc : OpenDeviceChangeRes) (hostID : HostID) (currentDevices : Devices)
    (pukGens : gmap RoleKey Generation) : result CheckDeviceRevokeRes :=
  let nChanges := len (gcChanges (odGc odc)) in
  res ← (if (nChanges =? 1)%Z then checkDeviceRevoke odc hostID currentDevices pukGens
         else if (nChanges =? 0)%Z then checkDeviceRotate odc hostID currentDevices pukGens
         else Err (LinkError "expected exactly 1 device change for revoke device (or 0 for a rotate)"));
  Ok (mkCheckDeviceRevokeRes (rrRole res) (rrID res) (trEpno (bcRoot (hdBase (gcChainer (odGc odc))))) (rrPswsqno res)).

(** *** User names *)
Definition CheckChangeUsername (odc : OpenDeviceChangeRes) : result Commitment :=
  _ ← guard_err (negb (len (gcChanges (odGc odc)) =? 0)%Z)
        (LinkError "expected exactly 0 device changes for user rename");
  _ ← guard_err (negb (len (gcMetadata (odGc odc)) =? 1)%Z)
        (LinkError "expected exactly 1 metada change for user rename");
  md ← index (gcMetadata (odGc odc)) 0;
  typ ← ChangeMetadata_GetT md;
  _ ← guard_err (negb (typ =? ChangeType_Username)%Z)
        (LinkError "expected user name metadata change for user rename");
  Username md.

(** *** The boxes of a rotation *)
Record DeviceAtRole := mkDeviceAtRole { darId : FixedEntityID; darHost : HostID; darRole : RoleKey }.
#[global] Instance DeviceAtRole_eq_dec : EqDecision DeviceAtRole.
Proof. solve_decision. Defined.
#[global] Instance DeviceAtRole_countable : Countable DeviceAtRole.
Proof.
  apply (inj_countable' (λ d, (darId d, darHost d, darRole d)) (λ p, mkDeviceAtRole p.1.1 p.1.2 p.2)). by intros [].
Defined.

Definition gameplan_device (pukGens : gmap RoleKey Generation) (ceiling : RoleKey)
    (id : FQEntityFixed) (devRk : RoleKey) (ret : gmap DeviceAtRole Generation) : gmap DeviceAtRole Generation :=
  map_fold (λ role gen ret,
    if LessThanOrEqual role ceiling && LessThanOrEqual role devRk
    then <[mkDeviceAtRole (Entity id) (Host id) role := wrap64 (gen + 1)]> ret else ret) ret pukGens.
Definition ComputeRotateNewBoxGameplan (currentDevices : gmap FQEntityFixed RoleKey)
    (pukGens : gmap RoleKey Generation) (ceiling : RoleKey) : gmap DeviceAtRole Generation :=
  map_fold (gameplan_device pukGens ceiling) ∅ currentDevices.
