(* ===== verification/UserLoader.v ===== *)
(** * Playing a user's sigchain ([client/libclient/user_loader.go], [client/libclient/stale_keys.go])

    The client opens the links the server sent, plays them over the state it saved before, and
    saves the new state: the active devices, the history of every device, the per-user keys and
    the roles whose keys are stale since a device that had them was revoked.

    A play that fails is not tried again and its state is not used: the operations return the
    new state or an error.  Go ranges over maps in no fixed order; where the order shows, the
    source sorts the result.  [slices.SortFunc] and the encoder of device labels are fields
    of [UserLoaderLib]. *)
From S2P Require Import Prelude Snowp MerkleTypes Role Roster TeamRoster TeamBoxes Sigs HostChain ChainLoader UserChain.

(** ** Records ([proto/lib/device.go], [proto/lib/chains.go], [proto/rem/user.go], [proto/lcl/db.go]) *)
Definition DeviceStatus_ACTIVE : Z := 0.
Definition DeviceStatus_REVOKED : Z := 1.
Record DeviceLabel := mkDeviceLabel { dlDeviceType : Z; dlName : bytes; dlSerial : Z }.
Record DeviceLabelAndName := mkDeviceLabelAndName { dnLabel : DeviceLabel; dnNv : Z; dnName : bytes }.
Record DeviceLabelNameAndCommitmentKey := mkDeviceLabelNameAndCommitmentKey {
  Dln : DeviceLabelAndName; CommitmentKey : bytes
}.
Record ProvisionInfo := mkProvisionInfo { pvSigner : EntityID; pvChain : BaseChainer; pvLeaf : MerkleLeaf }.
Record RevokeInfo := mkRevokeInfo { Revoker : EntityID; rvChain : BaseChainer }.
Record DeviceInfo := mkDeviceInfo {
  Status : Z; Dn : option DeviceLabelAndName; diKey : proto_MemberRole; Ctime : Z;
  Provisioned : ProvisionInfo; Revoked : option RevokeInfo
}.
Record RoleKeyAndGen := mkRoleKeyAndGen { rgRole : RoleKey; rgGen : Generation }.
#[global] Instance RoleKeyAndGen_eq_dec : EqDecision RoleKeyAndGen.
Proof. solve_decision. Defined.
#[global] Instance RoleKeyAndGen_countable : Countable RoleKeyAndGen.
Proof.
  apply (inj_countable' (λ r, (rgRole r, rgGen r)) (λ p, mkRoleKeyAndGen p.1 p.2)). by intros [].
Defined.
Definition ImportRoleKeyAndGen (sk : SharedPublicSuite) : result RoleKeyAndGen :=
  rk ← ImportRole (skRole (spsKey sk)); Ok (mkRoleKeyAndGen rk (skGen (spsKey sk))).

Abbreviation LoadMode := Z.
Definition LoadModeSelf : LoadMode := 1.

(** What a load is given: the user, the host, the mode, and the device names the server sent. *)
Record LoadUserArg := mkLoadUserArg {
  luUid : bytes; luHost : HostID; luMode : LoadMode; luDeviceNames : list DeviceLabelNameAndCommitmentKey
}.

(** The parts of a saved state that playing uses. *)
Record UserSigchainState := mkUserSigchainState {
  usTail : HidingChainer; usLastHash : bytes;
  usPuks : list SharedKey; usDevices : list DeviceInfo; usSctlsc : bytes;
  usMerkleLeaves : list MerkleLeaf; usHepks : list HEPK; usStalePUKs : list Role
}.

Class UserLoaderLib := {
  enc_DeviceLabel : DeviceLabel → result bytes;
  slices_SortFunc {A : Type} : (A → A → Z) → list A → list A
}.

(** ** Stale keys ([stale_keys.go]) *)
Abbreviation StaleKeys := (gset RoleKey).
Definition Refresh (s : StaleKeys) (r : RoleKey) : StaleKeys := s ∖ {[r]}.
Definition MarkStale (s : StaleKeys) (r : RoleKey) : StaleKeys := {[r]} ∪ s.
Fixpoint StaleKeys_Import (s : StaleKeys) (roles : list Role) : result StaleKeys :=
  match roles with
  | [] => Ok s
  | r :: roles => rk ← ImportRole r; StaleKeys_Import ({[rk]} ∪ s) roles
  end.

(** ** Names of devices ([proto/lib/extras.go]): what the regular expressions match *)
Definition alnum (c : Z) : bool := ((97 <=? c) && (c <=? 122) || (48 <=? c) && (c <=? 57))%Z.
Definition punct (c : Z) : bool := bool_decide (c ∈ [46; 95; 43; 39; 45]%Z).
Definition name_char (c : Z) : bool := alnum c || (c =? 32)%Z || punct c.
Fixpoint has_pair (p : Z → bool) (s : bytes) : bool :=
  match s with
  | a :: (b :: _) as s' => p a && p b || has_pair p s'
  | _ => false
  end.
Definition ends_with (p : Z → bool) (s : bytes) : bool := match last s with Some c => p c | None => false end.
(** [strings.Split(s, " ")]. *)
Fixpoint split_spaces (s : bytes) : list bytes :=
  match s with
  | [] => [[]]
  | c :: s' =>
      if (c =? 32)%Z then [] :: split_spaces s'
      else match split_spaces s' with t :: ts => (c :: t) :: ts | [] => [[c]] end
  end.
Definition DeviceNameNormalizedRxx (s : bytes) : bool :=
  match s with c :: (_ :: _) as r => alnum c && forallb name_char r | _ => false end.
Definition DeviceNameBadNormalizedRxx (s : bytes) : bool :=
  has_pair (λ c, (c =? 32)%Z) s || ends_with (λ c, (c =? 32)%Z) s.
Definition DeviceNameTokenBadNormalizedRxx (s : bytes) : bool :=
  has_pair punct s || ends_with (λ c, bool_decide (c ∈ [95; 39; 46]%Z)) s
  || match s with [c] => ((c =? 43) || (c =? 45))%Z | _ => false end.
Definition DeviceName_AssertNormalized (d : bytes) : result () :=
  _ ← guard_err (200 <? len d)%Z (NormalizationError "device name, length check");
  _ ← guard_err (negb (DeviceNameNormalizedRxx d) || DeviceNameBadNormalizedRxx d)
        (NormalizationError "device name, full check");
  guard_err (existsb DeviceNameTokenBadNormalizedRxx (split_spaces d)) (NormalizationError "device name, token check").

(** What is committed to is normalized. *)
Class Normalized (T : Type) := AssertNormalized : T → result ().
#[global] Instance DeviceLabel_Normalized : Normalized DeviceLabel := λ d, DeviceName_AssertNormalized (dlName d).
#[global] Instance DeviceLabel_Verifiable `{UserLoaderLib} : Verifiable DeviceLabel := {
  GetTypeUniqueID _ := 0x9650227205486122%Z;
  Encode := enc_DeviceLabel
}.

(** ** The loader *)
Record UserLoader := mkUserLoader {
  keys : Devices;
  devInfo : gmap FQEntityFixed (list DeviceInfo);
  puks : gmap RoleKeyAndGen SharedPublicSuite;
  puksByRole : gmap RoleKey (list SharedPublicSuite);
  pukGens : gmap RoleKey Generation;
  allMerkleLeaves : list MerkleLeaf;
  uncs : list Commitment;
  dnIdx : Z;
  deviceOrder : list FQEntityFixed;
  sctlsc : option bytes;
  hepks : HEPKSet;
  stalePUKs : StaleKeys
}.
(** A loader after [resetState], with the Merkle leaves of the links to play. *)
Definition new_UserLoader (leaves : list MerkleLeaf) : UserLoader :=
  mkUserLoader ∅ ∅ ∅ ∅ ∅ leaves [] 0 [] None ∅ ∅.
Definition set_devices u ks di order : UserLoader :=
  mkUserLoader ks di (puks u) (puksByRole u) (pukGens u) (allMerkleLeaves u) (uncs u) (dnIdx u) order
    (sctlsc u) (hepks u) (stalePUKs u).
Definition set_puks u ps byRole gens stale : UserLoader :=
  mkUserLoader (keys u) (devInfo u) ps byRole gens (allMerkleLeaves u) (uncs u) (dnIdx u) (deviceOrder u)
    (sctlsc u) (hepks u) stale.
Definition set_names u ns idx : UserLoader :=
  mkUserLoader (keys u) (devInfo u) (puks u) (puksByRole u) (pukGens u) (allMerkleLeaves u) ns idx (deviceOrder u)
    (sctlsc u) (hepks u) (stalePUKs u).
Definition set_sctlsc u c : UserLoader :=
  mkUserLoader (keys u) (devInfo u) (puks u) (puksByRole u) (pukGens u) (allMerkleLeaves u) (uncs u) (dnIdx u)
    (deviceOrder u) c (hepks u) (stalePUKs u).
Definition set_hepks u hs : UserLoader :=
  mkUserLoader (keys u) (devInfo u) (puks u) (puksByRole u) (pukGens u) (allMerkleLeaves u) (uncs u) (dnIdx u)
    (deviceOrder u) (sctlsc u) hs (stalePUKs u).
Definition set_stale u s : UserLoader :=
  set_puks u (puks u) (puksByRole u) (pukGens u) s.

Definition addDeviceKey (host : HostID) (u : UserLoader) (ps : PublicSuite) (di : DeviceInfo) : result UserLoader :=
  fid ← EntityID_Fixed (psEntityID ps);
  let mapKey := mkFQEntityFixed fid host in
  let ks := if is_nil (Revoked di)
            then <[mapKey := mkPublicSuiterWithSeqno ps (bcSeqno (pvChain (Provisioned di)))]> (keys u)
            else keys u in
  match devInfo u !! mapKey with
  | None => Ok (set_devices u ks (<[mapKey := [di]]> (devInfo u)) (deviceOrder u ++ [mapKey]))
  | Some lst => Ok (set_devices u ks (<[mapKey := lst ++ [di]]> (devInfo u)) (deviceOrder u))
  end.

Definition addPuk (u : UserLoader) (puk : SharedPublicSuite) : result UserLoader :=
  pukKey ← ImportRoleKeyAndGen puk;
  let ps := <[pukKey := puk]> (puks u) in
  rk ← ImportRole (skRole (spsKey puk));
  let g := skGen (spsKey puk) in
  let gens := match pukGens u !! rk with
              | None => <[rk := g]> (pukGens u)
              | Some gen => if (gen <? g)%Z then <[rk := g]> (pukGens u) else pukGens u
              end in
  let plist := default [] (puksByRole u !! rk) in
  _ ← guard_err (match last plist with Some l => (g <=? skGen (spsKey l))%Z | None => false end)
        (InternalError "puk gen not increasing");
  Ok (set_puks u ps (<[rk := plist ++ [puk]]> (puksByRole u)) gens (Refresh (stalePUKs u) rk)).

Fixpoint addPuks (u : UserLoader) (ps : list SharedPublicSuite) : result UserLoader :=
  match ps with [] => Ok u | p :: ps => u ← addPuk u p; addPuks u ps end.

Fixpoint mark_stale (rk : RoleKey) (ps : list SharedPublicSuite) (s : StaleKeys) : result StaleKeys :=
  match ps with
  | [] => Ok s
  | k :: ps =>
      rk2 ← ImportRole (skRole (spsKey k));
      mark_stale rk ps (if (0 <=? RoleKey_Cmp rk rk2)%Z then MarkStale s rk2 else s)
  end.
Definition markPotentiallyStale (u : UserLoader) (r : Role) : result UserLoader :=
  rk ← ImportRole r;
  s ← mark_stale rk (map_to_list (puks u)).*2 (stalePUKs u);
  Ok (set_stale u s).

Definition playRevoke (host : HostID) (u : UserLoader) (odc : OpenDeviceChangeRes) : result UserLoader :=
  let base := hdBase (gcChainer (odGc odc)) in
  cdrr ← match CheckDeviceRevokeOrRotate odc host (keys u) (pukGens u) with
         | Ok r => Ok r
         | Err e => Err (ChainLoaderError false (ULRevokeError (bcSeqno base) e))
         end;
  fid ← EntityID_Fixed (default [] (rrID cdrr));
  let mk := mkFQEntityFixed fid host in
  _ ← of_option (InternalError "no key for device; revoke failed") (keys u !! mk);
  let ks := delete mk (keys u) in
  lst ← of_option (LinkError "no device info for device; revoke failed") (devInfo u !! mk);
  di ← index lst (len lst - 1);
  let di := mkDeviceInfo DeviceStatus_REVOKED (Dn di) (diKey di) (Ctime di) (Provisioned di)
              (Some (mkRevokeInfo (gsKey (gcSigner (odGc odc))) base)) in
  let lst := <[length lst - 1 := di]> lst in
  let u := set_devices u ks (<[mk := lst]> (devInfo u)) (deviceOrder u) in
  markPotentiallyStale u (DstRole (diKey di)).

Definition playUsernameChange (u : UserLoader) (odc : OpenDeviceChangeRes) : result UserLoader :=
  new ← mapM_r (λ md, t ← ChangeMetadata_GetT md;
                      if (t =? ChangeType_Username)%Z then c ← Username md; Ok [c] else Ok [])
               (gcMetadata (odGc odc));
  Ok (set_names u (uncs u ++ concat new) (dnIdx u)).

Definition checkSigner (host : HostID) (u : UserLoader) (odc : OpenDeviceChangeRes) : result () :=
  let eid := GetEntityID (LastSigner odc) in
  fid ← EntityID_Fixed eid;
  guard_err (is_nil (keys u !! mkFQEntityFixed fid host))
    (ChainLoaderError false (CLInvalidSignerError (bcSeqno (hdBase (gcChainer (odGc odc)))) eid host)).

Section play.
Context `{Crypto} `{ChainLib} `{UserLoaderLib}.

Definition computeCommitment `{Verifiable T} (v : T) (key : bytes) : result Commitment :=
  prfx ← TypeUniqueID_Encode (GetTypeUniqueID v);
  enc ← Encode v;
  Ok (hmac_sha512_256 key (prfx ++ enc)).
Definition OpenCommitment `{Verifiable T} `{Normalized T} (v : T) (key : bytes) (expected : Commitment) : result () :=
  _ ← AssertNormalized v;
  computed ← computeCommitment v key;
  guard_err (negb (bool_decide (computed = expected))) (VerifyError "commitment failed").

(** The commitment is never nil here: its callers pass the address of a value. *)
Definition playDeviceName (arg : LoadUserArg) (u : UserLoader) (c : Commitment)
  : result (UserLoader * option DeviceLabelAndName) :=
  if negb (luMode arg =? LoadModeSelf)%Z then Ok (u, None)
  else
    let idx := dnIdx u in
    _ ← guard_err (len (luDeviceNames arg) <=? idx)%Z
          (ChainLoaderError false (CLBadCountError "device-names" (idx + 1) (len (luDeviceNames arg))));
    dnk ← index (luDeviceNames arg) idx;
    _ ← match OpenCommitment (dnLabel (Dln dnk)) (CommitmentKey dnk) c with
        | Ok _ => Ok ()
        | Err e => Err (ChainLoaderError false (ULOpenCommitmentError "device-name" idx e))
        end;
    Ok (set_names u (uncs u) (idx + 1), Some (Dln dnk)).

(** The record of a new device, added by the link at [leaf]. *)
Definition new_device_info (odc : OpenDeviceChangeRes) (dn : option DeviceLabelAndName) (raw : proto_MemberRole)
    (leaf : MerkleLeaf) : DeviceInfo :=
  let base := hdBase (gcChainer (odGc odc)) in
  mkDeviceInfo DeviceStatus_ACTIVE dn raw (bcTime base)
    (mkProvisionInfo (gsKey (gcSigner (odGc odc))) base leaf) None.

Definition playLinkEldest (arg : LoadUserArg) (u : UserLoader) (odc : OpenDeviceChangeRes) : result UserLoader :=
  oer ← match OpenEldestLinkWithODC odc with
        | Ok r => Ok r
        | Err e => Err (ChainLoaderError false (ULEldestError e))
        end;
  _ ← guard_err (negb (bool_decide (erUid oer = luUid arg))) (InternalError "wrong uid in eldest link");
  '(u, dn) ← playDeviceName arg u (erDeviceNameCommitment oer);
  _ ← guard_err (len (allMerkleLeaves u) =? 0)%Z (InternalError "no merkle keys");
  raw ← of_option GoPanic (RawNewDevice odc);
  leaf ← index (allMerkleLeaves u) 0;
  u ← addDeviceKey (luHost arg) u (erDevice oer) (new_device_info odc dn raw leaf);
  let u := set_names u (uncs u ++ [erUsernameCommitment oer]) (dnIdx u) in
  u ← addPuk u (erUserKey oer);
  Ok (set_sctlsc u (Some (erSubchainTreeLocationCommitment oer))).

Definition playProvision (arg : LoadUserArg) (u : UserLoader) (odc : OpenDeviceChangeRes) : result UserLoader :=
  odpr ← match OpenDeviceProvision odc (keys u) (pukGens u) (luHost arg) with
         | Ok r => Ok r
         | Err e => Err (ChainLoaderError false (CLProvisionError (bcSeqno (hdBase (gcChainer (odGc odc)))) e))
         end;
  raw ← of_option (InternalError "no new device in provision") (RawNewDevice odc);
  '(u, dn) ← playDeviceName arg u (prDeviceNameCommitment odpr);
  let seqno := bcSeqno (hdBase (gcChainer (prGc odpr))) in
  _ ← guard_err (negb (Seqno_IsValid seqno)) (InternalError "invalid seqno; refusing to -1 on 0");
  let idx := wrap_int (wrap_int seqno - 1) in
  _ ← guard_err (idx <? 0)%Z (InternalError "invalid seqno; wound up with < 0 index");
  _ ← guard_err (len (allMerkleLeaves u) <=? idx)%Z (InternalError "no merkle key for provision");
  leaf ← index (allMerkleLeaves u) idx;
  addDeviceKey (luHost arg) u (prNewDevice odpr) (new_device_info odc dn raw leaf).

Definition playDeviceChange (arg : LoadUserArg) (u : UserLoader) (odc : OpenDeviceChangeRes) : result UserLoader :=
  match gcChanges (odGc odc) with
  | [] => Ok u
  | [chng] =>
      rt ← GetT (DstRole chng);
      if (rt =? RoleType_NONE)%Z then playRevoke (luHost arg) u odc else playProvision arg u odc
  | _ => Err (InternalError "unexpected number of changes")
  end.

Definition playLinkNonEldest (arg : LoadUserArg) (u : UserLoader) (odc : OpenDeviceChangeRes) : result UserLoader :=
  _ ← checkSigner (luHost arg) u odc;
  u ← playUsernameChange u odc;
  u ← playDeviceChange arg u odc;
  addPuks u (odSharedKeys odc).

Definition playLink (arg : LoadUserArg) (u : UserLoader) (odc : OpenDeviceChangeRes) : result UserLoader :=
  let seqno := bcSeqno (hdBase (gcChainer (odGc odc))) in
  if negb (Seqno_IsValid seqno) then Err (ChainLoaderError false CLInvalidSeqnoError)
  else if Seqno_IsEldest seqno then playLinkEldest arg u odc
  else playLinkNonEldest arg u odc.

Fixpoint playLinks (arg : LoadUserArg) (u : UserLoader) (odcs : list OpenDeviceChangeRes) : result UserLoader :=
  match odcs with
  | [] => Ok u
  | odc :: odcs => u ← playLink arg u odc; playLinks arg u odcs
  end.
End play.

(** ** Reading the saved state and saving the new one

    The name of the user, which the loader checks apart from the links, is not part of it. *)
Section state.
Context `{Crypto} `{Codec} `{ChainLib} `{UserLib} `{UserLoaderLib}.

Fixpoint read_devices (host : HostID) (u : UserLoader) (ds : list DeviceInfo) : result UserLoader :=
  match ds with
  | [] => Ok u
  | d :: ds =>
      ps ← ImportPublicSuite (diKey d) (hepks u) host;
      u ← addDeviceKey host u ps d;
      read_devices host u ds
  end.
Definition readKeysFromState (host : HostID) (u : UserLoader) (existing : UserSigchainState) : result UserLoader :=
  hs ← ImportHEPKSet (usHepks existing);
  read_devices host (set_hepks u hs) (usDevices existing).

Fixpoint read_puks (u : UserLoader) (ks : list SharedKey) : result UserLoader :=
  match ks with
  | [] => Ok u
  | k :: ks =>
      hepk ← of_option (KeyNotFoundError "hepk") (HEPKSet_Lookup (hepks u) (skHepkFp k));
      u ← addPuk u (ImportSharedPublicSuite k hepk);
      read_puks u ks
  end.
Definition readPuksFromState (u : UserLoader) (existing : UserSigchainState) : result UserLoader :=
  read_puks u (usPuks existing).
Definition readStaleKeys (u : UserLoader) (existing : UserSigchainState) : result UserLoader :=
  s ← StaleKeys_Import (stalePUKs u) (usStalePUKs existing);
  Ok (set_stale u s).

(** [None]: no state was saved. *)
Definition loadExistingUser (host : HostID) (u : UserLoader) (existing : option UserSigchainState) : result UserLoader :=
  match existing with
  | None => Ok u
  | Some ex =>
      u ← readKeysFromState host u ex;
      u ← readPuksFromState u ex;
      u ← readStaleKeys u ex;
      Ok (set_sctlsc u (Some (usSctlsc ex)))
  end.

Definition updateHEPKs (u : UserLoader) (raw : list HEPK) : result UserLoader :=
  s2 ← ImportHEPKSet raw;
  Ok (set_hepks u (HEPKSet_Merge (hepks u) s2)).

Fixpoint open_links (arg : LoadUserArg) (hs : HEPKSet) (n : Z) (links : list LinkOuter)
  : result (list OpenDeviceChangeRes) :=
  match links with
  | [] => Ok []
  | link :: links =>
      odc ← match OpenDeviceChange link hs (Some (luUid arg)) (luHost arg) with
            | Ok o => Ok o
            | Err e => Err (ChainLoaderError false (CLOpenLinkError e n))
            end;
      rest ← open_links arg hs (n + 1) links;
      Ok (odc :: rest)
  end.
Definition openLinks (arg : LoadUserArg) (u : UserLoader) (links : list LinkOuter)
  : result (list OpenDeviceChangeRes) := open_links arg (hepks u) 0 links.

(** The order of the saved keys: by role, then by generation. *)
Definition puk_cmp (x y : SharedKey) : Z :=
  match Role_Cmp (skRole x) (skRole y) with
  | Err _ => 0
  | Ok c => if nz c then c else wrapS64 (skGen x - skGen y)
  end.
(** A sort of two or more keys compares every key, and a key whose role has no type gives an
    error at its first comparison. *)
Definition sort_puks (ks : list SharedKey) : result (list SharedKey) :=
  _ ← (if (2 <=? len ks)%Z then mapM_r (λ k, GetT (skRole k)) ks else Ok []);
  Ok (slices_SortFunc puk_cmp ks).
Definition StaleKeys_Export (s : StaleKeys) : list Role :=
  map Role.Export (slices_SortFunc RoleKey_Cmp (elements s)).
Definition zero_TreeLocationCommitment : bytes := replicate 32 0%Z.

Definition save_devices (u : UserLoader) : result (list (list DeviceInfo)) :=
  mapM_r (λ did, of_option (InternalError "device not found in saveState") (devInfo u !! did)) (deviceOrder u).

(** With no new links the state stays as it was. *)
Definition saveState (u : UserLoader) (existing : option UserSigchainState) (odcs : list OpenDeviceChangeRes)
    (lastHash : option bytes) : result UserSigchainState :=
  match last odcs with
  | None => of_option (InternalError "no links in sigchain") existing
  | Some odc =>
      lastHash ← of_option GoPanic lastHash;
      ks ← sort_puks (spsKey <$> (map_to_list (puks u)).*2);
      devices ← save_devices u;
      Ok {| usTail := gcChainer (odGc odc); usLastHash := lastHash; usPuks := ks; usDevices := concat devices;
            usSctlsc := default zero_TreeLocationCommitment (sctlsc u); usMerkleLeaves := allMerkleLeaves u;
            usHepks := (map_to_list (hepks u)).*2; usStalePUKs := StaleKeys_Export (stalePUKs u) |}
  end.

(** Opening and playing the links that the server sent over what was saved, and saving the
    result.  [leaves] are the Merkle leaves of all links, [lastHash] the hash of the last one. *)
Definition play_over (arg : LoadUserArg) (existing : option UserSigchainState) (raw : list HEPK)
    (links : list LinkOuter) (leaves : list MerkleLeaf) (lastHash : option bytes)
  : result (UserLoader * UserSigchainState) :=
  u ← loadExistingUser (luHost arg) (new_UserLoader leaves) existing;
  u ← updateHEPKs u raw;
  odcs ← openLinks arg u links;
  u ← playLinks arg u odcs;
  st ← saveState u existing odcs lastHash;
  Ok (u, st).
End state.

(** ** What the caller asks of a loaded user *)
Record KeyBookends := mkKeyBookends { kbProvision : ProvisionInfo; kbRevoke : RevokeInfo }.
Fixpoint bookend (epno : Z) (lst : list DeviceInfo) : result (option KeyBookends) :=
  match lst with
  | [] => Err (KeyNotFoundError "")
  | di :: lst =>
      if (epno <? trEpno (bcRoot (pvChain (Provisioned di))))%Z then bookend epno lst
      else match Revoked di with
           | None => Ok None
           | Some rv =>
               if (epno <=? trEpno (bcRoot (rvChain rv)))%Z then Ok (Some (mkKeyBookends (Provisioned di) rv))
               else bookend epno lst
           end
  end.
(** [Fixed] of the entity returns a nil pointer on an error. *)
Definition BookendSigningKey (u : UserLoader) (e : FQEntity) (epno : Z) : result (option KeyBookends) :=
  ef ← of_option GoPanic (FQEntity_Fixed e);
  lst ← of_option (KeyNotFoundError "") (devInfo u !! ef);
  bookend epno lst.

Fixpoint count_owner_devices (ks : list PublicSuiterWithSeqno) : result Z :=
  match ks with
  | [] => Ok 0%Z
  | k :: ks =>
      typ ← GetT (psRole (Ps k));
      n ← count_owner_devices ks;
      Ok (if (typ =? RoleType_OWNER)%Z then wrap_int (n + 1) else n)
  end.
Definition CountOwnerDevices (u : UserLoader) : result Z := count_owner_devices (map_to_list (keys u)).*2.

Definition FindDevice (host : HostID) (u : UserLoader) (e : EntityID) : result (option DeviceInfo) :=
  if bool_decide (devInfo u = ∅) then Ok None
  else
    fid ← EntityID_Fixed e;
    match devInfo u !! mkFQEntityFixed fid host with
    | None => Ok None
    | Some lst => di ← index lst (len lst - 1); Ok (Some di)
    end.
Definition ActiveDevices (u : UserLoader) : list PublicSuite := Ps <$> (map_to_list (keys u)).*2.
Definition LatestPUKGenForRole (u : UserLoader) (r : Role) : result Generation :=
  rk ← ImportRole r;
  of_option (KeyNotFoundError "PUK") (pukGens u !! rk).
