(* ===== verification/UserAccount.v ===== *)
(** * What a user's sigchain promises, and that the loader keeps it

    The specification is a machine on accounts: the active devices with their roles, the latest
    generation of the per-user keys of each role, and the roles whose keys are stale.  A link
    moves the machine by one of four steps, and each step names who may sign it.  The loader's
    maps refine the machine: a link that the loader plays is a step of the machine. *)
From S2P Require Import Prelude Snowp MerkleTypes Role Roster TeamRoster TeamBoxes Sigs HostChain ChainLoader UserChain UserLoader.

(** ** The machine *)
Record account := mkAccount {
  active : gmap FQEntityFixed Role;
  gens : gmap RoleKey Generation;
  stale : gset RoleKey
}.
Definition no_account : account := mkAccount ∅ ∅ ∅.

Definition is_owner (r : Role) : Prop := role_T r = RoleType_OWNER.
Definition dev_key (host : HostID) (e : EntityID) : result FQEntityFixed :=
  fid ← EntityID_Fixed e; Ok (mkFQEntityFixed fid host).

Definition add_device (a : account) (k : FQEntityFixed) (r : Role) : account :=
  mkAccount (<[k := r]> (active a)) (gens a) (stale a).
Definition remove_device (a : account) (k : FQEntityFixed) (rk : RoleKey) : account :=
  mkAccount (delete k (active a)) (gens a) (stale a ∪ filter (λ r, rk_le r rk) (dom (gens a))).

(** New keys: each has a higher generation than the one before it in its role, whose stale
    mark it clears. *)
Inductive new_keys : account → list SharedKey → account → Prop :=
  | nk_nil a : new_keys a [] a
  | nk_cons a sk rk sks a' :
      ImportRole (skRole sk) = Ok rk → (∀ g, gens a !! rk = Some g → g < skGen sk)%Z →
      new_keys (mkAccount (active a) (<[rk := skGen sk]> (gens a)) (stale a ∖ {[rk]})) sks a' →
      new_keys a (sk :: sks) a'.

(** The next generation of a role's keys. *)
Definition next_gen (a : account) (rk : RoleKey) (g : Generation) : Prop :=
  match gens a !! rk with Some g0 => g = wrap64 (g0 + 1) | None => g = FirstGeneration end.

Section machine.
Context (host : HostID).
Implicit Types (odc : OpenDeviceChangeRes).

Definition link_seqno odc : Z := bcSeqno (hdBase (gcChainer (odGc odc))).
Definition link_keys odc : list SharedKey := spsKey <$> odSharedKeys odc.

Definition signed_by (a : account) odc (P : Role → Prop) : Prop :=
  ∃ k r, dev_key host (GetEntityID (ExistingDevice odc)) = Ok k ∧ active a !! k = Some r ∧ P r.

(** The keys that come with a new device: none, or the next one of a role below the owners'
    that is the device's. *)
Definition provision_keys (a : account) (r : Role) (sks : list SharedKey) : Prop :=
  sks = [] ∨ ∃ sk rk, sks = [sk] ∧ ImportRole (skRole sk) = Ok rk ∧ ImportRole r = Ok rk ∧
                      rk_lt rk OwnerRole ∧ next_gen a rk (skGen sk).

(** The keys that come with a revocation: none if a device revokes itself, and else the next one of
    every role at or below that of the revoked device. *)
Definition revoke_keys (a : account) (self : bool) (rk : RoleKey) (sks : list SharedKey) : Prop :=
  if self then sks = []
  else sks ≠ [] ∧
       (∀ sk, sk ∈ sks → ∃ r g, ImportRole (skRole sk) = Ok r ∧ gens a !! r = Some g ∧ skGen sk = wrap64 (g + 1)) ∧
       (∀ r, is_Some (gens a !! r) → rk_le r rk → ∃ sk, sk ∈ sks ∧ ImportRole (skRole sk) = Ok r).

(** [Fixed] pads with zeros; an identifier of its type's length is one that padding and cutting
    gives back. *)
Definition exact_id (e : EntityID) : Prop := ∃ f, EntityID_Fixed e = Ok f ∧ Unfix f = Ok e.

Inductive acct_step odc : account → account → Prop :=
  | step_eldest a a' k nd sk :
      link_seqno odc = 1%Z → newDevice odc = Some nd →
      psEntityID nd = gsKey (gcSigner (odGc odc)) → dev_key host (psEntityID nd) = Ok k →
      is_owner (psRole nd) → link_keys odc = [sk] → is_owner (skRole sk) → skGen sk = FirstGeneration →
      new_keys (add_device a k (psRole nd)) [sk] a' → acct_step odc a a'
  | step_provision a a' k nd :
      link_seqno odc ≠ 1%Z → newDevice odc = Some nd → dev_key host (psEntityID nd) = Ok k →
      signed_by a odc is_owner → Role_IsSet (psRole nd) = true →
      provision_keys a (psRole nd) (link_keys odc) →
      new_keys (add_device a k (psRole nd)) (link_keys odc) a' → acct_step odc a a'
  | step_revoke a a' target k r rk :
      link_seqno odc ≠ 1%Z → (λ c, hsEntity (mId (mrMember c))) <$> gcChanges (odGc odc) = [target] →
      dev_key host target = Ok k → active a !! k = Some r → ImportRole r = Ok rk →
      signed_by a odc is_owner →
      (exact_id target → is_owner r → ∃ k' r', k' ≠ k ∧ active a !! k' = Some r' ∧ is_owner r') →
      revoke_keys a (EntityID_Eq (gsKey (gcSigner (odGc odc))) target) rk (gcSharedKeys (odGc odc)) →
      new_keys (remove_device a k rk) (link_keys odc) a' → acct_step odc a a'
  | step_other a a' :
      link_seqno odc ≠ 1%Z → gcChanges (odGc odc) = [] → signed_by a odc (λ _, True) →
      new_keys a (link_keys odc) a' → acct_step odc a a'.

Inductive acct_steps : list OpenDeviceChangeRes → account → account → Prop :=
  | steps_nil a : acct_steps [] a a
  | steps_cons odc odcs a1 a2 a3 :
      acct_step odc a1 a2 → acct_steps odcs a2 a3 → acct_steps (odc :: odcs) a1 a3.
End machine.

(** ** The account of a loader *)
Definition acct (u : UserLoader) : account :=
  mkAccount ((λ p, psRole (Ps p)) <$> keys u) (pukGens u) (stalePUKs u).

(** What the loader's maps have in common: the keys of a role by generation, the latest
    generation, and the history of every device. *)
Record keys_ok (u : UserLoader) : Prop := {
  ko_gens r : pukGens u !! r = (λ l, default 0%Z (skGen ∘ spsKey <$> last l)) <$> puksByRole u !! r;
  ko_roles r l p : puksByRole u !! r = Some l → p ∈ l → ImportRole (skRole (spsKey p)) = Ok r;
  ko_sorted r l : puksByRole u !! r = Some l → l ≠ [] ∧ StronglySorted Z.lt (skGen ∘ spsKey <$> l);
  ko_puks r g p : puks u !! mkRoleKeyAndGen r g = Some p ↔
                  ∃ l, puksByRole u !! r = Some l ∧ p ∈ l ∧ skGen (spsKey p) = g;
  ko_stale : stalePUKs u ⊆ dom (pukGens u)
}.
Record devices_ok (host : HostID) (u : UserLoader) : Prop := {
  do_order : NoDup (deviceOrder u);
  do_dom k : k ∈ deviceOrder u ↔ is_Some (devInfo u !! k);
  do_infos k l : devInfo u !! k = Some l → Host k = host ∧ l ≠ [];
  do_keys k p : keys u !! k = Some p →
    ∃ di, last (default [] (devInfo u !! k)) = Some di ∧ Revoked di = None ∧
          dev_key host (psEntityID (Ps p)) = Ok k ∧ DstRole (diKey di) = psRole (Ps p) ∧
          pwSeqno p = bcSeqno (pvChain (Provisioned di))
}.

(** ** Roles *)
Lemma is_owner_GetT r : is_owner r → GetT r = Ok RoleType_OWNER.
Proof. unfold is_owner, GetT. intros ->. done. Qed.

Lemma AssertEq_owner r e u : Role_AssertEq r (NewRoleDefault RoleType_OWNER) e = Ok u ↔ is_owner r.
Proof.
  destruct u. unfold Role_AssertEq. split.
  - intros Hr. inv_ok. destruct x; simpl in Hr; [|done].
    unfold Role_Eq in *. inv_ok. unfold GetT in *. inv_ok. unfold is_owner.
    by destruct (Z.eqb_spec (role_T r) RoleType_OWNER).
  - intros Ho. unfold Role_Eq. by rewrite (is_owner_GetT _ Ho).
Qed.

(** Two roles that are equal, one of them valid, have the same key. *)
Lemma AssertEq_import r1 r2 e u rk : Role_AssertEq r1 r2 e = Ok u → ImportRole r1 = Ok rk → ImportRole r2 = Ok rk.
Proof.
  unfold Role_AssertEq, Role_Eq, ImportRole. intros Ha Hi.
  destruct (GetT r1) as [t1|] eqn:E1; [|done]. destruct (GetT r2) as [t2|] eqn:E2; [|done]. simpl in *.
  destruct (Z.eqb_spec t1 t2) as [->|]; [|done]. simpl in *.
  destruct (Z.eqb_spec t2 RoleType_MEMBER); simpl in *; [|done].
  destruct (Member r1) as [v1|]; [|done]. destruct (Member r2) as [v2|]; [|done]. simpl in *.
  by destruct (Z.eqb_spec v1 v2) as [->|].
Qed.

Lemma GreaterThan_owner r r2 rk b :
  is_owner r → ImportRole r2 = Ok rk → Role_GreaterThan r r2 = Ok b → b = true → rk_lt rk OwnerRole.
Proof.
  intros Ho Hi Hg ->. unfold Role_GreaterThan, Role_Cmp, RoleType_Cmp in Hg.
  rewrite (is_owner_GetT _ Ho), (GetT_imported _ _ Hi) in Hg.
  cbn [mbind result_bind] in Hg.
  unfold RoleType_OWNER, RoleType_MEMBER, rk_lt, OwnerRole in *. cbn [Typ Lev].
  destruct (Z.eqb_spec 3 (Typ rk)) as [E|]; [by rewrite <- ?E in Hg|].
  destruct (Z.ltb_spec 3 (Typ rk)); [done|]. left. unfold RoleType_OWNER. lia.
Qed.

Lemma IsSet_GetT r : Role_IsSet r = true ↔ ∃ t, GetT r = Ok t ∧ t ≠ RoleType_NONE.
Proof.
  unfold Role_IsSet. destruct (GetT r) as [t|e].
  - destruct (Z.eqb_spec t RoleType_NONE); naive_solver.
  - naive_solver.
Qed.

(** ** New keys *)
Section keys.
Implicit Types (u : UserLoader).

Lemma keys_ok_gen u r g :
  keys_ok u → pukGens u !! r = Some g ↔ ∃ l p, puksByRole u !! r = Some l ∧ last l = Some p ∧ skGen (spsKey p) = g.
Proof.
  intros K. rewrite (ko_gens u K). destruct (puksByRole u !! r) as [l|] eqn:El; simpl; [|naive_solver].
  destruct (last l) as [p|] eqn:E; simpl; [naive_solver|].
  apply last_None in E. by destruct (ko_sorted u K r l El).
Qed.

(** What [addPuk] does on success. *)
Definition put_puk u (rk : RoleKey) (p : SharedPublicSuite) : UserLoader :=
  set_puks u (<[mkRoleKeyAndGen rk (skGen (spsKey p)) := p]> (puks u))
    (<[rk := default [] (puksByRole u !! rk) ++ [p]]> (puksByRole u))
    (<[rk := skGen (spsKey p)]> (pukGens u)) (stalePUKs u ∖ {[rk]}).

Lemma addPuk_put u p u' :
  keys_ok u → addPuk u p = Ok u' ↔
  ∃ rk, ImportRole (skRole (spsKey p)) = Ok rk ∧ (∀ g, pukGens u !! rk = Some g → g < skGen (spsKey p))%Z ∧
        u' = put_puk u rk p.
Proof.
  intros K. unfold addPuk, ImportRoleKeyAndGen.
  destruct (ImportRole (skRole (spsKey p))) as [rk|e] eqn:E; simpl; [|naive_solver].
  pose proof (ko_gens u K rk) as Hg. pose proof (ko_sorted u K rk) as Hl. unfold put_puk, Refresh.
  destruct (puksByRole u !! rk) as [l|] eqn:El; simpl in Hg; simpl.
  - destruct (Hl l eq_refl) as [Hne _]. destruct (last l) as [q|] eqn:Eq; [|by apply last_None in Eq].
    simpl in Hg. rewrite Hg. simpl. destruct (Z.leb_spec (skGen (spsKey p)) (skGen (spsKey q))); simpl.
    + split; [done|]. intros (rk' & [= <-] & Hlt & _). rewrite Hg in Hlt. specialize (Hlt _ eq_refl). lia.
    + replace (skGen (spsKey q) <? skGen (spsKey p))%Z with true by lia.
      split; [intros [= <-]; exists rk; split; [done|]; split; [|by rewrite El];
        intros g; rewrite Hg; intros [= <-]; lia|].
      intros (rk' & [= <-] & _ & ->). by rewrite El.
  - rewrite Hg. simpl. split; [intros [= <-]; exists rk; split; [done|]; split; [|by rewrite El]; rewrite Hg; done|].
    intros (rk' & [= <-] & _ & ->). by rewrite El.
Qed.

Lemma StronglySorted_snoc_lt (l : list Z) g :
  StronglySorted Z.lt l → (∀ x, last l = Some x → x < g)%Z → StronglySorted Z.lt (l ++ [g]).
Proof.
  induction 1 as [|x l Hl IH Hx]; intros Hg; simpl; [repeat constructor|].
  constructor.
  - apply IH. intros y Hy. apply Hg. by destruct l.
  - apply Forall_app. split; [done|]. constructor; [|done].
    destruct l as [|y l]; [by apply Hg|].
    destruct (last (y :: l)) as [z|] eqn:Ez; [|by apply last_None in Ez].
    assert (z ∈ y :: l) as Hz by (by apply last_Some in Ez as (l' & ->); set_solver).
    rewrite Forall_forall in Hx. specialize (Hx z Hz). specialize (Hg z Ez). lia.
Qed.

(** No key of a role has a higher generation than the role's latest. *)
Lemma keys_ok_below u r l q :
  keys_ok u → puksByRole u !! r = Some l → q ∈ l →
  ∃ g, pukGens u !! r = Some g ∧ (skGen (spsKey q) ≤ g)%Z.
Proof.
  intros K E Hq. destruct (ko_sorted u K r l E) as [Hne Hs].
  destruct (last l) as [z|] eqn:Ez; [|by apply last_None in Ez].
  exists (skGen (spsKey z)). split; [apply (keys_ok_gen u r _ K); eauto|].
  apply last_Some in Ez as (l' & ->). rewrite fmap_app in Hs. apply StronglySorted_app in Hs as (Hlt & _ & _).
  apply elem_of_app in Hq as [Hq| ->%list_elem_of_singleton]; [|lia].
  apply Z.lt_le_incl, Hlt; [by apply (list_elem_of_fmap_2 (skGen ∘ spsKey))|set_solver].
Qed.

Lemma put_puk_ok u rk p :
  keys_ok u → ImportRole (skRole (spsKey p)) = Ok rk → (∀ g, pukGens u !! rk = Some g → g < skGen (spsKey p))%Z →
  keys_ok (put_puk u rk p).
Proof.
  intros K Hr Hg. split; simpl.
  - intros r. destruct (decide (r = rk)) as [->|Hne].
    + rewrite !lookup_insert_eq. simpl. by rewrite last_snoc.
    + rewrite !lookup_insert_ne by done. apply (ko_gens u K).
  - intros r l q Hl Hq. destruct (decide (r = rk)) as [->|Hne].
    + rewrite lookup_insert_eq in Hl. simplify_eq. apply elem_of_app in Hq as [Hq| ->%list_elem_of_singleton]; [|done].
      destruct (puksByRole u !! rk) eqn:E; simpl in Hq; [by eapply ko_roles|by apply elem_of_nil in Hq].
    + rewrite lookup_insert_ne in Hl by done. by eapply ko_roles.
  - intros r l Hl. destruct (decide (r = rk)) as [->|Hne].
    + rewrite lookup_insert_eq in Hl. simplify_eq. split; [by destruct (default [] _)|].
      rewrite fmap_app. apply StronglySorted_snoc_lt.
      * destruct (puksByRole u !! rk) eqn:E; simpl; [by eapply ko_sorted|constructor].
      * intros x Hx. apply Hg. rewrite (ko_gens u K). rewrite fmap_last in Hx.
        destruct (puksByRole u !! rk); simpl in *; [|done]. by rewrite Hx.
    + rewrite lookup_insert_ne in Hl by done. by eapply ko_sorted.
  - intros r g q. destruct (decide (r = rk)) as [->|Hne].
    + rewrite lookup_insert_eq. rewrite lookup_insert. case_decide as Hd; simplify_eq.
      * split; [intros [= ->]; eexists; split; [done|]; set_solver|].
        intros (l & [= <-] & Hq & Hqg). apply elem_of_app in Hq as [Hq| ->%list_elem_of_singleton]; [|done]. exfalso.
        destruct (puksByRole u !! rk) as [l|] eqn:E; simpl in Hq; [|by apply elem_of_nil in Hq].
        destruct (keys_ok_below u rk l q K E Hq) as (g & Hg' & ?). specialize (Hg g Hg'). lia.
      * rewrite (ko_puks u K). split.
        -- intros (l & Hl & Hq & Hqg). rewrite Hl. eexists; split; [done|]. set_solver.
        -- intros (l & [= <-] & Hq & Hqg). apply elem_of_app in Hq as [Hq| ->%list_elem_of_singleton]; [|by subst g].
           destruct (puksByRole u !! rk) as [l|] eqn:E; simpl in Hq; [eauto|by apply elem_of_nil in Hq].
    + rewrite !lookup_insert_ne by congruence. apply (ko_puks u K).
  - pose proof (ko_stale u K). rewrite dom_insert_L. set_solver.
Qed.
End keys.

Section refine.
Context (host : HostID).
Implicit Types (u : UserLoader) (odc : OpenDeviceChangeRes).

Lemma addPuks_new_keys u ps u' :
  keys_ok u → addPuks u ps = Ok u' →
  keys_ok u' ∧ new_keys (acct u) (spsKey <$> ps) (acct u') ∧
  ∃ a b c d, u' = set_puks u a b c d.
Proof.
  revert u. induction ps as [|p ps IH]; intros u K Hu; cbn [addPuks fmap list_fmap] in Hu.
  { inv_ok. split; [done|]. split; [constructor|]. exists (puks u'), (puksByRole u'), (pukGens u'), (stalePUKs u').
    by destruct u'. }
  apply bind_Ok in Hu as (u1 & H1 & Hu). apply (addPuk_put u p u1 K) in H1 as (rk & Hr & Hg & ->).
  apply IH in Hu as (K' & Hn & a & b & c & d & ->); [|by apply put_puk_ok].
  split; [done|]. split; [|by exists a, b, c, d]. by econstructor.
Qed.

Lemma mark_stale_spec rk ps s s' :
  mark_stale rk ps s = Ok s' →
  ∀ r, r ∈ s' ↔ r ∈ s ∨ rk_le r rk ∧ ∃ p, p ∈ ps ∧ ImportRole (skRole (spsKey p)) = Ok r.
Proof.
  revert s. induction ps as [|p ps IH]; intros s Hs r; cbn [mark_stale] in Hs.
  { inv_ok. set_solver. }
  apply bind_Ok in Hs as (rk2 & Hr & Hs). rewrite (IH _ Hs). clear IH Hs.
  assert ((0 <=? RoleKey_Cmp rk rk2)%Z = true ↔ rk_le rk2 rk) as Hc.
  { pose proof (RoleKey_Cmp_lt rk rk2). rewrite Z.leb_le, rk_le_not_lt, <- RoleKey_Cmp_lt. lia. }
  unfold MarkStale. setoid_rewrite elem_of_cons. destruct (0 <=? RoleKey_Cmp rk rk2)%Z.
  - apply proj1 in Hc. specialize (Hc eq_refl). rewrite elem_of_union, elem_of_singleton. split.
    + intros [[->|?]|(? & p0 & ? & ?)]; [right; eauto|by left|right; eauto].
    + intros [?|(? & p0 & [->|?] & ?)]; [by left; right|left; left; congruence|right; eauto].
  - assert (¬ rk_le rk2 rk) by (intros ?%Hc; done). split.
    + intros [?|(? & p0 & ? & ?)]; [by left|right; eauto].
    + intros [?|(? & p0 & [->|?] & ?)]; [by left|exfalso; congruence|right; eauto].
Qed.

Lemma markPotentiallyStale_spec u r u' :
  keys_ok u → markPotentiallyStale u r = Ok u' →
  ∃ rk, ImportRole r = Ok rk ∧
        u' = set_stale u (stalePUKs u ∪ filter (λ r, rk_le r rk) (dom (pukGens u))).
Proof.
  intros K Hu. unfold markPotentiallyStale in Hu. apply bind_Ok in Hu as (rk & Hr & Hu).
  apply bind_Ok in Hu as (s & Hs & Hu). inv_ok. exists rk. split; [done|]. f_equal.
  apply leibniz_equiv. intros r'. rewrite (mark_stale_spec _ _ _ _ Hs), elem_of_union, elem_of_filter, elem_of_dom.
  f_equiv. f_equiv. split.
  - intros (p & Hp & Hi). apply list_elem_of_fmap in Hp as ([[r1 g1] p1] & -> & Hp).
    apply elem_of_map_to_list, (ko_puks u K) in Hp as (l & Hl & Hpl & _).
    pose proof (ko_roles u K _ _ _ Hl Hpl) as Hi'. cbn [snd] in Hi. rewrite Hi in Hi'. injection Hi' as ->.
    rewrite (ko_gens u K), Hl. by eexists.
  - intros [g Hg]. apply (keys_ok_gen u r' g K) in Hg as (l & p & Hl & Hp & Hpg).
    exists p. assert (p ∈ l) by (apply last_Some in Hp as (? & ->); set_solver).
    split; [|by eapply ko_roles]. apply list_elem_of_fmap. exists (mkRoleKeyAndGen r' g, p). split; [done|].
    apply elem_of_map_to_list, (ko_puks u K). eauto.
Qed.

(** ** Opened links *)
Record opened odc : Prop := {
  op_keys : link_keys odc = gcSharedKeys (odGc odc);
  op_signer : GetEntityID (ExistingDevice odc) = gsKey (gcSigner (odGc odc));
  op_last : LastSigner odc = ExistingDevice odc;
  op_changes : (length (gcChanges (odGc odc)) ≤ 1)%nat;
  op_raw nd : newDevice odc = Some nd →
    ∃ raw, gcChanges (odGc odc) = [raw] ∧ RawNewDevice odc = Some raw ∧ DstRole raw = psRole nd ∧
           hsEntity (mId (mrMember raw)) = psEntityID nd ∧ hsHost (mId (mrMember raw)) = None;
  op_none r : gcChanges (odGc odc) = [r] → GetT (DstRole r) = Ok RoleType_NONE → newDevice odc = None
}.
End refine.

Lemma importPublicSuiteHelper_Ok eid hepk h1 h2 r ps :
  importPublicSuiteHelper eid hepk h1 h2 r = Ok ps → psEntityID ps = eid ∧ psRole ps = r.
Proof.
  unfold importPublicSuiteHelper. intros Hi. do 4 (apply bind_Ok in Hi as (? & _ & Hi)).
  case_bool_decide; [by inv_ok|]. destruct (_ =? _)%Z; [by inv_ok|done].
Qed.

Lemma ImportPublicSuite_Ok o hs h ps :
  ImportPublicSuite o hs h = Ok ps → psEntityID ps = hsEntity (mId (mrMember o)) ∧ psRole ps = DstRole o.
Proof.
  unfold ImportPublicSuite. intros Hi. do 4 (apply bind_Ok in Hi as (? & _ & Hi)).
  by eapply importPublicSuiteHelper_Ok.
Qed.

Lemma ImportEntityPublic_id e ep : ImportEntityPublic e = Ok ep → GetEntityID ep = e.
Proof.
  unfold ImportEntityPublic. intros Hi. do 2 (apply bind_Ok in Hi as (? & _ & Hi)).
  destruct (IsEd25519 _); [by inv_ok|]. destruct (_ =? _)%Z; [by inv_ok|done].
Qed.

Section open.
Context `{Crypto} `{Codec} `{UserLib}.

Lemma open_shared_keys_keys prev sks hs l : open_shared_keys prev sks hs = Ok l → spsKey <$> l = sks.
Proof.
  revert prev l. induction sks as [|sk sks IH]; intros prev l Hl; cbn [open_shared_keys] in Hl; [by inv_ok|].
  do 2 (apply bind_Ok in Hl as (? & _ & Hl)). apply bind_Ok in Hl as (rest & Hr & Hl). inv_ok.
  f_equal. eauto.
Qed.

(** The new device of a link, read off its one change. *)
Lemma open_new_device_Ok gc hs host ex nd raw sub vs :
  open_new_device gc hs host ex = Ok (Some nd, raw, sub, vs) →
  ∃ r, gcChanges gc = [r] ∧ raw = Some r ∧ DstRole r = psRole nd ∧
       hsEntity (mId (mrMember r)) = psEntityID nd ∧ hsHost (mId (mrMember r)) = None ∧
       ImportPublicSuite r hs host = Ok nd ∧
       (Seqno_IsEldest (bcSeqno (hdBase (gcChainer gc))) = true ∨ VSuite nd ∈ vs).
Proof.
  unfold open_new_device. destruct (gcChanges gc) as [|r [|]]; [done| |done].
  intros Ho. apply bind_Ok in Ho as (rt & _ & Ho). destruct (_ =? _)%Z; [done|].
  apply bind_Ok in Ho as (nd' & Hi & Ho). apply bind_Ok in Ho as (? & Hh & Ho).
  do 4 (apply bind_Ok in Ho as (? & _ & Ho)).
  apply guard_err_Ok in Hh. destruct (hsHost _) eqn:Eh; [done|].
  destruct (ImportPublicSuite_Ok _ _ _ _ Hi) as [Hid Hr]. destruct (Seqno_IsEldest _).
  - do 2 (apply bind_Ok in Ho as (? & _ & Ho)). inv_ok. exists r. repeat split; auto.
  - inv_ok. exists r. repeat split; auto. right. set_solver.
Qed.

Lemma open_new_device_none gc hs host ex r nd raw sub vs :
  open_new_device gc hs host ex = Ok (nd, raw, sub, vs) → gcChanges gc = [r] →
  GetT (DstRole r) = Ok RoleType_NONE → nd = None.
Proof. unfold open_new_device. intros Ho Hr Ht. rewrite Hr, Ht in Ho. simpl in Ho. by inv_ok. Qed.

(** What [OpenDeviceChange] has checked when it succeeds. *)
Lemma OpenDeviceChange_Ok link hs uid host odc :
  OpenDeviceChange link hs uid host = Ok odc →
  OpenGroupChange link = Ok (odGc odc, odLov1 odc) ∧ opened odc ∧
  (VerifyStackedSignature (odLov1 odc) (odVerifiers odc)).2 = Ok () ∧
  (∃ vs, odVerifiers odc = map VShared (odSharedKeys odc) ++ vs ++ [VEntity (ExistingDevice odc)] ∧
         (∀ nd, newDevice odc = Some nd → link_seqno odc ≠ 1%Z → VSuite nd ∈ vs)) ∧
  HostID_Eq host (fqHost (gcEntity (odGc odc))) = true ∧
  (∀ u, uid = Some u → fqEntity (gcEntity (odGc odc)) = u).
Proof.
  unfold OpenDeviceChange. intros Ho. apply bind_Ok in Ho as ([gc lov1] & Hg & Ho).
  apply bind_Ok in Ho as (t & _ & Ho). apply bind_Ok in Ho as (? & _ & Ho).
  apply bind_Ok in Ho as (? & Hh & Ho). apply bind_Ok in Ho as (? & Hu & Ho).
  apply bind_Ok in Ho as ([vs0 sks] & Hs & Ho). apply bind_Ok in Ho as (? & Hlen & Ho).
  apply bind_Ok in Ho as (? & _ & Ho). apply bind_Ok in Ho as (ex & Hex & Ho).
  apply bind_Ok in Ho as ([[[nd raw] sub] vs] & Hn & Ho). apply bind_Ok in Ho as (? & _ & Ho).
  apply bind_Ok in Ho as ([] & Hv & Ho). injection Ho as <-. simpl.
  apply guard_err_Ok in Hh, Hu, Hlen. unfold OpenSharedKeys in Hs. apply bind_Ok in Hs as (sks' & Hs & [= <- <-]).
  unfold ImportEntityPublicWithHost in Hex. apply bind_Ok in Hex as (ep & Hep & [= <-]). simpl in *.
  split; [done|]. split; [|split; [done|]; split].
  - split; simpl; try done.
    + by eapply open_shared_keys_keys.
    + by eapply ImportEntityPublic_id.
    + unfold len in Hlen. lia.
    + intros nd' ->. destruct (open_new_device_Ok _ _ _ _ _ _ _ _ Hn) as (r & ? & ? & ? & ? & ? & _). eauto 10.
    + intros r Hr Ht. by eapply open_new_device_none.
  - exists vs. split; [done|]. intros nd' -> Hne.
    destruct (open_new_device_Ok _ _ _ _ _ _ _ _ Hn) as (r & _ & _ & _ & _ & _ & _ & [He|?]); [|done].
    unfold link_seqno, Seqno_IsEldest in *. simpl in *. lia.
  - split; [by destruct (HostID_Eq _ _)|]. intros u ->. apply negb_false_iff in Hu. unfold EntityID_Eq in Hu.
    apply andb_true_iff in Hu as [_ Hu]. by apply bool_decide_eq_true in Hu.
Qed.
End open.

(** ** The checks *)
Section checks.
Context (host : HostID).
Implicit Types (u : UserLoader) (odc : OpenDeviceChangeRes) (devs : Devices).

Lemma OpenEldest_Ok odc res :
  OpenEldestLinkWithODC odc = Ok res →
  ∃ nd sk, newDevice odc = Some nd ∧ odSharedKeys odc = [sk] ∧ erDevice res = nd ∧ erUserKey res = sk ∧
           psEntityID nd = gsKey (gcSigner (odGc odc)) ∧ is_owner (psRole nd) ∧
           is_owner (skRole (spsKey sk)) ∧ skGen (spsKey sk) = FirstGeneration.
Proof.
  unfold OpenEldestLinkWithODC. intros Ho. apply bind_Ok in Ho as (? & _ & Ho).
  apply bind_Ok in Ho as (nd & Hnd & Ho). apply of_option_Ok in Hnd. apply bind_Ok in Ho as (? & _ & Ho).
  apply bind_Ok in Ho as (? & Hr & Ho). apply AssertEq_owner in Hr. apply bind_Ok in Ho as (? & He & Ho).
  apply guard_err_Ok, negb_false_iff in He. apply bind_Ok in Ho as (sk & Hsk & Ho).
  apply bind_Ok in Ho as (? & _ & Ho). apply bind_Ok in Ho as (req & _ & Ho). apply bind_Ok in Ho as (? & _ & Ho).
  apply bind_Ok in Ho as (? & Hskr & Ho). apply AssertEq_owner in Hskr. apply bind_Ok in Ho as (? & Hg & Ho).
  apply guard_err_Ok, negb_false_iff, Z.eqb_eq in Hg. do 9 (apply bind_Ok in Ho as (? & _ & Ho)).
  injection Ho as <-. exists nd, sk. destruct (odSharedKeys odc) as [|k [|]]; [done| |done]. injection Hsk as <-.
  repeat split; try done. unfold EntityID_Eq in He. apply andb_true_iff in He as [_ He].
  by apply bool_decide_eq_true in He.
Qed.

(** The signer is an active device with a role that [P] allows. *)
Definition signer_in devs odc (P : Role → Prop) : Prop :=
  ∃ k p, dev_key host (GetEntityID (ExistingDevice odc)) = Ok k ∧ devs !! k = Some p ∧ P (psRole (Ps p)).

Lemma signer_in_intro devs odc fid p (P : Role → Prop) :
  EntityID_Fixed (GetEntityID (ExistingDevice odc)) = Ok fid → devs !! mkFQEntityFixed fid host = Some p →
  P (psRole (Ps p)) → signer_in devs odc P.
Proof. intros Hf Hp HP. exists (mkFQEntityFixed fid host), p. unfold dev_key. by rewrite Hf. Qed.

Lemma openDeviceProvisionPUK_Ok puk lowly gs nd signer v :
  is_owner signer → Role_GreaterThan signer (psRole nd) = Ok lowly →
  openDeviceProvisionPUK puk lowly gs nd = Ok v →
  ∃ rk, ImportRole (skRole (spsKey puk)) = Ok rk ∧ ImportRole (psRole nd) = Ok rk ∧ rk_lt rk OwnerRole ∧
        match gs !! rk with
        | Some g0 => skGen (spsKey puk) = wrap64 (g0 + 1)
        | None => skGen (spsKey puk) = FirstGeneration
        end.
Proof.
  intros Ho Hlow. unfold openDeviceProvisionPUK. intros Hp. apply bind_Ok in Hp as (? & Hl & Hp).
  apply guard_err_Ok, negb_false_iff in Hl. apply bind_Ok in Hp as (rk & Hr & Hp).
  apply bind_Ok in Hp as (? & H1 & Hp). apply bind_Ok in Hp as (? & H2 & Hp). apply guard_err_Ok in H1, H2.
  pose proof (AssertEq_import _ _ _ _ _ Hp Hr) as Hi. exists rk.
  split; [done|]. split; [done|]. split; [by eapply GreaterThan_owner|]. unfold Gen_IsFirst in *.
  destruct (gs !! rk); simpl in *; lia.
Qed.

Lemma OpenDeviceProvision_Ok odc devs gs res :
  OpenDeviceProvision odc devs gs host = Ok res →
  ∃ nd, newDevice odc = Some nd ∧ prNewDevice res = nd ∧ prGc res = odGc odc ∧ Role_IsSet (psRole nd) = true ∧
        signer_in devs odc is_owner ∧
        (odSharedKeys odc = [] ∨ ∃ puk rk,
           odSharedKeys odc = [puk] ∧ ImportRole (skRole (spsKey puk)) = Ok rk ∧
           ImportRole (psRole nd) = Ok rk ∧ rk_lt rk OwnerRole ∧
           match gs !! rk with
           | Some g0 => skGen (spsKey puk) = wrap64 (g0 + 1)
           | None => skGen (spsKey puk) = FirstGeneration
           end).
Proof.
  unfold OpenDeviceProvision. intros Ho. apply bind_Ok in Ho as (? & _ & Ho).
  apply bind_Ok in Ho as (nd & Hnd & Ho). apply of_option_Ok in Hnd. apply bind_Ok in Ho as (? & Hs & Ho).
  apply guard_err_Ok, negb_false_iff in Hs. do 2 (apply bind_Ok in Ho as (? & _ & Ho)).
  apply bind_Ok in Ho as (fid & Hf & Ho). apply bind_Ok in Ho as (p & Hp & Ho). apply of_option_Ok in Hp.
  apply bind_Ok in Ho as (? & Hr & Ho). apply AssertEq_owner in Hr. apply bind_Ok in Ho as (lowly & Hlow & Ho).
  do 3 (apply bind_Ok in Ho as (? & _ & Ho)). apply bind_Ok in Ho as (? & Hlen & Ho). apply guard_err_Ok in Hlen.
  apply bind_Ok in Ho as (puk & Hpuk & Ho). injection Ho as <-. exists nd. simpl.
  split; [done|]. split; [done|]. split; [done|]. split; [done|]. split; [by eapply signer_in_intro|].
  destruct (odSharedKeys odc) as [|k [|]]; [by left| |unfold len in Hlen; simpl in Hlen; lia]. right.
  apply bind_Ok in Hpuk as (? & Hpuk & _).
  destruct (openDeviceProvisionPUK_Ok _ _ _ _ _ _ Hr Hlow Hpuk) as (rk & ?). by exists k, rk.
Qed.

Lemma check_puks_Ok sks gs found found' :
  check_puks sks gs found = Ok found' →
  (∀ sk, sk ∈ sks → ∃ r g, ImportRole (skRole sk) = Ok r ∧ gs !! r = Some g ∧ skGen sk = wrap64 (g + 1)) ∧
  (∀ r, r ∈ found' → r ∈ found ∨ ∃ sk, sk ∈ sks ∧ ImportRole (skRole sk) = Ok r).
Proof.
  revert found. induction sks as [|sk sks IH]; intros found Hc; cbn [check_puks] in Hc.
  { inv_ok. split; [|by left]. intros sk Hsk. by apply elem_of_nil in Hsk. }
  apply bind_Ok in Hc as (r & Hr & Hc). apply bind_Ok in Hc as (g & Hg & Hc). apply of_option_Ok in Hg.
  apply bind_Ok in Hc as (? & He & Hc). apply guard_err_Ok, negb_false_iff, Z.eqb_eq in He.
  apply bind_Ok in Hc as (? & _ & Hc). apply IH in Hc as [IH1 IH2]. split.
  - intros sk' [->|Hin]%elem_of_cons; [|by apply IH1]. by exists r, g.
  - intros r' Hr'. destruct (IH2 r' Hr') as [Hin|(sk' & ? & ?)].
    + apply elem_of_union in Hin as [->%elem_of_singleton|?]; [|by left]. right. exists sk. set_solver.
    + right. exists sk'. set_solver.
Qed.

Lemma CheckSharedKeyUpdate_Ok sks gs limit v :
  CheckSharedKeyUpdate sks gs limit = Ok v →
  (∀ sk, sk ∈ sks → ∃ r g, ImportRole (skRole sk) = Ok r ∧ gs !! r = Some g ∧ skGen sk = wrap64 (g + 1)) ∧
  (∀ r, is_Some (gs !! r) → rk_le r limit → ∃ sk, sk ∈ sks ∧ ImportRole (skRole sk) = Ok r).
Proof.
  unfold CheckSharedKeyUpdate. intros Hc. apply bind_Ok in Hc as (found & Hf & Hc). apply guard_err_Ok in Hc.
  apply check_puks_Ok in Hf as [Hk Hf]. split; [done|]. intros r [g Hg] Hle.
  destruct (Hf r) as [Hin|?]; [|by apply elem_of_empty in Hin|done].
  destruct (decide (r ∈ found)) as [|Hn]; [done|]. exfalso. apply not_true_iff_false in Hc. apply Hc.
  apply existsb_exists. exists r. split.
  - apply list_elem_of_In, list_elem_of_fmap. exists (r, g). split; [done|]. by apply elem_of_map_to_list.
  - rewrite bool_decide_false by done. rewrite andb_true_r. by apply LessThanOrEqual_spec.
Qed.

Lemma checkRotateRevokeCommon_Ok odc devs gs rk v :
  checkRotateRevokeCommon odc host devs gs rk = Ok v →
  signer_in devs odc is_owner ∧
  (gcSharedKeys (odGc odc) ≠ [] → CheckSharedKeyUpdate (gcSharedKeys (odGc odc)) gs rk = Ok ()).
Proof.
  unfold checkRotateRevokeCommon. intros Hc. apply bind_Ok in Hc as (fid & Hf & Hc).
  apply bind_Ok in Hc as (p & Hp & Hc). apply of_option_Ok in Hp. apply bind_Ok in Hc as (? & Hr & Hc).
  apply AssertEq_owner in Hr. apply bind_Ok in Hc as ([] & Hk & _). split; [by eapply signer_in_intro|].
  intros Hne. destruct (gcSharedKeys (odGc odc)); [done|]. done.
Qed.

(** *** Remaining owners *)
Lemma count_owners_Ok target l n :
  count_owners target l = Ok n → n ≠ 0%Z →
  ∃ k p eid, (k, p) ∈ l ∧ Unfix (Entity k) = Ok eid ∧ EntityID_Eq eid target = false ∧ is_owner (psRole (Ps p)).
Proof.
  revert n. induction l as [|[k p] l IH]; intros n Hc Hn; cbn [count_owners] in Hc; [by inv_ok|].
  apply bind_Ok in Hc as (eid & He & Hc). destruct (EntityID_Eq eid target) eqn:E.
  { destruct (IH n Hc Hn) as (k' & p' & e' & ? & ? & ? & ?). exists k', p', e'. set_solver. }
  apply bind_Ok in Hc as (t & Ht & Hc). apply bind_Ok in Hc as (m & Hm & Hc).
  destruct (Z.eqb_spec t RoleType_OWNER) as [->|].
  - exists k, p, eid. split; [set_solver|]. repeat split; try done. unfold GetT in Ht. by inv_ok.
  - injection Hc as ->. destruct (IH n Hm Hn) as (k' & p' & e' & ? & ? & ? & ?). exists k', p', e'. set_solver.
Qed.

Lemma Unfix_nonempty f : Unfix f ≠ Ok [].
Proof.
  unfold Unfix. intros Hu. apply bind_Ok in Hu as (t & _ & Hu). unfold slice_go in Hu.
  destruct (_ && _) eqn:E; [|done]. injection Hu as Hu. apply (f_equal length) in Hu.
  rewrite length_take, length_drop in Hu. simpl in Hu.
  apply andb_true_iff in E as [E1 E2]. apply andb_true_iff in E1 as [_ E1].
  unfold EntityType_Len, len in *. repeat case_match; lia.
Qed.

Lemma countRemainingOwners_Ok target fid devs n :
  exact_id target → EntityID_Fixed target = Ok fid → countRemainingOwners target devs = Ok n → n ≠ 0%Z →
  ∃ k p, k ≠ mkFQEntityFixed fid host ∧ devs !! k = Some p ∧ is_owner (psRole (Ps p)).
Proof.
  intros (f & Hf & Hu) Hf' Hc Hn. rewrite Hf in Hf'. injection Hf' as <-.
  destruct (count_owners_Ok _ _ _ Hc Hn) as (k & p & eid & Hin & He & Hne & Ho).
  apply elem_of_map_to_list in Hin. exists k, p. split; [|done]. intros ->. cbn [Entity] in He.
  rewrite Hu in He. injection He as <-. unfold EntityID_Eq in Hne. rewrite bool_decide_true in Hne by done.
  destruct target as [|b target]; [by apply Unfix_nonempty in Hu|]. unfold len in Hne. simpl in Hne. lia.
Qed.

Lemma checkDeviceRevoke_Ok odc devs gs res :
  checkDeviceRevoke odc host devs gs = Ok res →
  ∃ c cs fid p rk, let target := hsEntity (mId (mrMember c)) in
    gcChanges (odGc odc) = c :: cs ∧ EntityID_Fixed target = Ok fid ∧ rrID res = Some target ∧
    devs !! mkFQEntityFixed fid host = Some p ∧ ImportRole (psRole (Ps p)) = Ok rk ∧
    signer_in devs odc is_owner ∧
    (EntityID_Eq (gsKey (gcSigner (odGc odc))) target = true ↔ gcSharedKeys (odGc odc) = []) ∧
    (gcSharedKeys (odGc odc) ≠ [] → CheckSharedKeyUpdate (gcSharedKeys (odGc odc)) gs rk = Ok ()) ∧
    (exact_id target → is_owner (psRole (Ps p)) →
     ∃ k' p', k' ≠ mkFQEntityFixed fid host ∧ devs !! k' = Some p' ∧ is_owner (psRole (Ps p'))).
Proof.
  unfold checkDeviceRevoke. intros Hc. apply bind_Ok in Hc as (c & Hch & Hc).
  destruct (gcChanges (odGc odc)) as [|c' cs] eqn:Ech; [done|]. cbn in Hch. injection Hch as <-.
  do 5 (apply bind_Ok in Hc as (? & _ & Hc)).
  apply bind_Ok in Hc as (fid & Hf & Hc). apply bind_Ok in Hc as (p & Hp & Hc). apply of_option_Ok in Hp.
  apply bind_Ok in Hc as (rk & Hrk & Hc). apply bind_Ok in Hc as (? & H1 & Hc). apply bind_Ok in Hc as (? & H2 & Hc).
  apply guard_err_Ok in H1, H2. apply bind_Ok in Hc as (? & Hown & Hc). apply bind_Ok in Hc as (? & Hcom & Hc).
  injection Hc as <-. apply checkRotateRevokeCommon_Ok in Hcom as [Hsig Hup].
  exists c', cs, fid, p, rk. cbn zeta. split; [done|]. split; [done|]. split; [done|]. split; [done|]. split; [done|].
  split; [done|]. split.
  { unfold len in *. destruct (gcSharedKeys _); simpl in *; destruct (EntityID_Eq _ _); simpl in *; naive_solver. }
  split; [done|]. intros Hex Ho. pose proof (GetT_imported _ _ Hrk) as Ht. rewrite (is_owner_GetT _ Ho) in Ht.
  injection Ht as Ht. rewrite <- Ht in Hown. simpl in Hown. apply bind_Ok in Hown as (n & Hn & Hz).
  apply guard_err_Ok in Hz. apply (countRemainingOwners_Ok _ _ _ n Hex Hf Hn). lia.
Qed.
End checks.
