(* ===== verification/UserPlay.v ===== *)
(** * The loader refines the account machine

    Every link that [UserLoader.playLink] accepts is a step of [UserAccount.acct_step], and the
    loader's maps keep their invariants. *)
From S2P Require Import Prelude Snowp MerkleTypes Role Roster TeamRoster TeamBoxes Sigs HostChain ChainLoader UserChain UserLoader UserAccount.

(** ** Frames *)
Definition same_keys (u u' : UserLoader) : Prop :=
  puks u' = puks u ∧ puksByRole u' = puksByRole u ∧ pukGens u' = pukGens u ∧ stalePUKs u' = stalePUKs u.
Definition same_devices (u u' : UserLoader) : Prop :=
  keys u' = keys u ∧ devInfo u' = devInfo u ∧ deviceOrder u' = deviceOrder u ∧ hepks u' = hepks u.

Lemma keys_ok_same u u' : same_keys u u' → keys_ok u → keys_ok u'.
Proof. intros (E1 & E2 & E3 & E4) []. split; rewrite ?E1, ?E2, ?E3, ?E4; done. Qed.
Lemma devices_ok_same host u u' : same_devices u u' → devices_ok host u → devices_ok host u'.
Proof. intros (E1 & E2 & E3 & E4) []. split; rewrite ?E1, ?E2, ?E3; done. Qed.
Lemma acct_same u u' : same_keys u u' → same_devices u u' → acct u' = acct u.
Proof. intros (E1 & E2 & E3 & E4) (E5 & _). unfold acct. by rewrite E3, E4, E5. Qed.

#[export] Hint Unfold same_keys same_devices : foks.

Record user_ok (host : HostID) (u : UserLoader) : Prop := {
  uo_keys : keys_ok u;
  uo_devices : devices_ok host u
}.

Lemma user_ok_same host u u' : same_keys u u' → same_devices u u' → user_ok host u → user_ok host u'.
Proof. intros ? ? []. split; [by eapply keys_ok_same|by eapply devices_ok_same]. Qed.

Lemma new_UserLoader_ok host leaves : user_ok host (new_UserLoader leaves).
Proof.
  split; split; simpl; try done.
  - intros r g p. rewrite !lookup_empty. naive_solver.
  - constructor.
  - intros k. rewrite lookup_empty. split; [by intros ?%elem_of_nil|by intros []].
Qed.

Lemma user_ok_hepks host u hs : user_ok host u → user_ok host (set_hepks u hs).
Proof. by intros [[] []]; split; split. Qed.

Section play.
Context (host : HostID).
Implicit Types (u : UserLoader) (odc : OpenDeviceChangeRes).

Lemma signed_by_acct u odc P : signer_in host (keys u) odc P → signed_by host (acct u) odc P.
Proof.
  intros (k & p & Hk & Hp & HP). exists k, (psRole (Ps p)). split; [done|]. split; [|done].
  simpl. by rewrite lookup_fmap, Hp.
Qed.

Lemma active_acct u k r : active (acct u) !! k = Some r ↔ ∃ p, keys u !! k = Some p ∧ psRole (Ps p) = r.
Proof. simpl. rewrite lookup_fmap. destruct (keys u !! k); naive_solver. Qed.

(** *** Adding a device *)
Definition put_device u (k : FQEntityFixed) (ps : PublicSuite) (di : DeviceInfo) : UserLoader :=
  set_devices u
    (if is_nil (Revoked di)
     then <[k := mkPublicSuiterWithSeqno ps (bcSeqno (pvChain (Provisioned di)))]> (keys u) else keys u)
    (<[k := default [] (devInfo u !! k) ++ [di]]> (devInfo u))
    (if decide (is_Some (devInfo u !! k)) then deviceOrder u else deviceOrder u ++ [k]).

Lemma addDeviceKey_put u ps di :
  addDeviceKey host u ps di = (k ← dev_key host (psEntityID ps); Ok (put_device u k ps di)).
Proof.
  unfold addDeviceKey, dev_key, put_device. destruct (EntityID_Fixed _) as [fid|e]; simpl; [|done].
  by destruct (devInfo u !! _) as [l|].
Qed.

Lemma put_device_order u k ps di :
  devices_ok host u → NoDup (deviceOrder (put_device u k ps di)) ∧
  ∀ k', k' ∈ deviceOrder (put_device u k ps di) ↔ is_Some (devInfo (put_device u k ps di) !! k').
Proof.
  intros D. pose proof (do_dom host u D) as Hd. pose proof (do_order host u D) as Ho. simpl.
  case_decide as Hk; simpl.
  - split; [done|]. intros k'. rewrite Hd, lookup_insert_is_Some'. naive_solver.
  - split.
    + apply NoDup_app. split; [done|]. split; [|apply NoDup_singleton].
      intros x Hx ->%list_elem_of_singleton. by apply Hd in Hx.
    + intros k'. rewrite elem_of_app, list_elem_of_singleton, Hd, lookup_insert_is_Some'. naive_solver.
Qed.

Lemma put_device_ok u k ps di :
  devices_ok host u → Revoked di = None → DstRole (diKey di) = psRole ps → dev_key host (psEntityID ps) = Ok k →
  devices_ok host (put_device u k ps di).
Proof.
  intros D Hr Hro Hk. destruct (put_device_order u k ps di D) as [H1 H2]. split; [done|done|..]; simpl.
  - intros k' l. rewrite lookup_insert. case_decide as E; [|apply (do_infos host u D)].
    intros [= <-]. subst k'. split; [|by destruct (default [] _)].
    unfold dev_key in Hk. apply bind_Ok in Hk as (fid & _ & [= <-]). done.
  - intros k' p. rewrite Hr. simpl. rewrite !lookup_insert. case_decide as E; [|apply (do_keys host u D)].
    intros [= <-]. subst k'. exists di. simpl. by rewrite last_snoc.
Qed.

Lemma acct_put_device u k ps di : Revoked di = None → acct (put_device u k ps di) = add_device (acct u) k (psRole ps).
Proof. intros Hr. unfold acct, put_device, add_device. simpl. rewrite Hr. simpl. by rewrite fmap_insert. Qed.

Lemma put_device_same u k ps di : same_keys u (put_device u k ps di).
Proof. done. Qed.

(** *** Removing a device *)
Definition revoke_info (di : DeviceInfo) (rv : RevokeInfo) : DeviceInfo :=
  mkDeviceInfo DeviceStatus_REVOKED (Dn di) (diKey di) (Ctime di) (Provisioned di) (Some rv).

(** The state after the revocation of the device [k], whose history is [l ++ [di]]. *)
Definition drop_device u (k : FQEntityFixed) (l : list DeviceInfo) (di : DeviceInfo) (rv : RevokeInfo)
    (rk : RoleKey) : UserLoader :=
  set_stale (set_devices u (delete k (keys u)) (<[k := l ++ [revoke_info di rv]]> (devInfo u)) (deviceOrder u))
    (stalePUKs u ∪ filter (λ r, rk_le r rk) (dom (pukGens u))).

Lemma drop_device_ok u k l di rv rk :
  user_ok host u → devInfo u !! k = Some (l ++ [di]) → user_ok host (drop_device u k l di rv rk).
Proof.
  intros [K D] Hk. split.
  - destruct K as [K1 K2 K3 K4 K5]. split; simpl; try done. set_solver.
  - split; simpl.
    + apply (do_order host u D).
    + intros k'. rewrite (do_dom host u D), lookup_insert_is_Some'. split; [by right|]. intros [<-|?]; [by rewrite Hk|done].
    + intros k' l'. rewrite lookup_insert. case_decide as E; [|apply (do_infos host u D)].
      intros [= <-]. subst k'. split; [by eapply (do_infos host u D)|by destruct l].
    + intros k' p [Hne Hp]%lookup_delete_Some. rewrite lookup_insert_ne by done. by apply (do_keys host u D).
Qed.

Lemma acct_drop_device u k l di rv rk : acct (drop_device u k l di rv rk) = remove_device (acct u) k rk.
Proof. unfold acct, drop_device, remove_device. simpl. by rewrite fmap_delete. Qed.

Lemma playRevoke_Ok u odc u' :
  user_ok host u → playRevoke host u odc = Ok u' → (length (gcChanges (odGc odc)) = 1)%nat →
  ∃ c k p l di rk, let target := hsEntity (mId (mrMember c)) in
    gcChanges (odGc odc) = [c] ∧ dev_key host target = Ok k ∧ keys u !! k = Some p ∧
    ImportRole (psRole (Ps p)) = Ok rk ∧ devInfo u !! k = Some (l ++ [di]) ∧ Revoked di = None ∧
    signer_in host (keys u) odc is_owner ∧
    revoke_keys (acct u) (EntityID_Eq (gsKey (gcSigner (odGc odc))) target) rk (gcSharedKeys (odGc odc)) ∧
    (exact_id target → is_owner (psRole (Ps p)) →
     ∃ k' p', k' ≠ k ∧ keys u !! k' = Some p' ∧ is_owner (psRole (Ps p'))) ∧
    u' = drop_device u k l di (mkRevokeInfo (gsKey (gcSigner (odGc odc))) (hdBase (gcChainer (odGc odc)))) rk.
Proof.
  intros [K D] Hu Hlen. unfold playRevoke in Hu. apply bind_Ok in Hu as (cdrr & Hc & Hu).
  destruct (CheckDeviceRevokeOrRotate odc host (keys u) (pukGens u)) as [r|] eqn:Er; [|done]. injection Hc as <-.
  unfold CheckDeviceRevokeOrRotate in Er. replace (len _ =? 1)%Z with true in Er by (unfold len; lia).
  apply bind_Ok in Er as (res & Hres & [= <-]).
  destruct (checkDeviceRevoke_Ok host odc _ _ _ Hres) as (c & cs & fid & p & rk & Hch & Hf & Hid & Hp & Hrk & Hsig & Hself & Hup & Hown).
  rewrite Hch in Hlen. destruct cs; [|done]. cbn [rrID] in Hu. rewrite Hid in Hu. cbn [default from_option id] in Hu.
  rewrite Hf in Hu. cbn [mbind result_bind] in Hu. rewrite Hp in Hu. cbn [of_option mbind result_bind] in Hu.
  destruct (do_keys host u D _ _ Hp) as (di & Hdi & Hnr & Hk & Hro & _).
  destruct (devInfo u !! mkFQEntityFixed fid host) as [lst|] eqn:El; [|done]. simpl in Hdi.
  apply last_Some in Hdi as (l & ->). cbn [of_option mbind result_bind] in Hu.
  apply bind_Ok in Hu as (di' & Hi & Hu). unfold len in Hi. rewrite length_app in Hi. simpl in Hi.
  replace (Z.of_nat (length l + 1) - 1)%Z with (Z.of_nat (length l)) in Hi by lia.
  rewrite index_nat, lookup_app_r, Nat.sub_diag in Hi by lia. injection Hi as <-.
  apply markPotentiallyStale_spec in Hu as (rk' & Hrk' & Hu); [|by eapply keys_ok_same; [|done]].
  cbn [diKey] in Hrk'. rewrite Hro, Hrk in Hrk'. injection Hrk' as <-.
  exists c, (mkFQEntityFixed fid host), p, l, di, rk. cbn zeta. split; [done|]. split; [unfold dev_key; by rewrite Hf|].
  split; [done|]. split; [done|]. split; [done|]. split; [done|]. split; [done|]. split.
  { unfold revoke_keys. destruct (EntityID_Eq _ _); [by apply Hself|].
    assert (gcSharedKeys (odGc odc) ≠ []) as Hne by (intros E; by apply Hself in E). split; [done|].
    by eapply CheckSharedKeyUpdate_Ok, Hup. }
  split; [done|]. rewrite Hu. unfold drop_device. f_equal. f_equal. f_equal.
  rewrite length_app, Nat.add_sub. by rewrite insert_app_r_alt, Nat.sub_diag.
Qed.
End play.

(** ** Every link is a step *)
Section steps.
Context `{Crypto} `{ChainLib} `{UserLoaderLib}.
Implicit Types (arg : LoadUserArg) (u : UserLoader) (odc : OpenDeviceChangeRes).

Lemma playDeviceName_same arg u c u' dn :
  playDeviceName arg u c = Ok (u', dn) →
  same_keys u u' ∧ same_devices u u' ∧ allMerkleLeaves u' = allMerkleLeaves u.
Proof.
  unfold playDeviceName. destruct (negb _); [by intros [= <- <-]|].
  intros Hp. do 3 (apply bind_Ok in Hp as (? & _ & Hp)). by injection Hp as <- <-.
Qed.

Lemma playUsernameChange_same u odc u' :
  playUsernameChange u odc = Ok u' → same_keys u u' ∧ same_devices u u'.
Proof. unfold playUsernameChange. intros Hp. apply bind_Ok in Hp as (? & _ & Hp). by injection Hp as <-. Qed.

Lemma addPuks_user_ok host u ps u' :
  user_ok host u → addPuks u ps = Ok u' →
  user_ok host u' ∧ new_keys (acct u) (spsKey <$> ps) (acct u') ∧ same_devices u u'.
Proof.
  intros [K D] Hp. destruct (addPuks_new_keys u ps u' K Hp) as (K' & Hn & a & b & c & d & ->).
  split; [|done]. split; [done|]. by eapply devices_ok_same; [|done].
Qed.

(** A new device's record is made from the change that adds it. *)
Lemma new_device_Ok arg u odc nd raw dn leaf u' :
  user_ok (luHost arg) u → DstRole raw = psRole nd →
  addDeviceKey (luHost arg) u nd (new_device_info odc dn raw leaf) = Ok u' →
  ∃ k, dev_key (luHost arg) (psEntityID nd) = Ok k ∧ u' = put_device u k nd (new_device_info odc dn raw leaf) ∧
       user_ok (luHost arg) u' ∧ acct u' = add_device (acct u) k (psRole nd).
Proof.
  intros [K D] Hr Ha. rewrite addDeviceKey_put in Ha. apply bind_Ok in Ha as (k & Hk & [= <-]).
  exists k. split; [done|]. split; [done|]. split; [|by apply acct_put_device].
  split; [by eapply keys_ok_same; [apply put_device_same|]|by apply put_device_ok].
Qed.

Lemma playLinkEldest_Ok arg u odc u' :
  user_ok (luHost arg) u → opened odc → playLinkEldest arg u odc = Ok u' →
  ∃ nd sk raw k u1 dn leaf ns idx c u3, newDevice odc = Some nd ∧ odSharedKeys odc = [sk] ∧
    RawNewDevice odc = Some raw ∧ psEntityID nd = gsKey (gcSigner (odGc odc)) ∧ is_owner (psRole nd) ∧
    is_owner (skRole (spsKey sk)) ∧ skGen (spsKey sk) = FirstGeneration ∧
    dev_key (luHost arg) (psEntityID nd) = Ok k ∧ same_keys u u1 ∧ same_devices u u1 ∧
    let u2 := put_device u1 k nd (new_device_info odc dn raw leaf) in
    user_ok (luHost arg) u2 ∧ acct u2 = add_device (acct u) k (psRole nd) ∧
    addPuks (set_names u2 ns idx) (odSharedKeys odc) = Ok u3 ∧ u' = set_sctlsc u3 c.
Proof.
  intros U O Hp. unfold playLinkEldest in Hp. apply bind_Ok in Hp as (oer & Ho & Hp).
  destruct (OpenEldestLinkWithODC odc) as [r|] eqn:Er; [|done]. injection Ho as <-.
  destruct (OpenEldest_Ok odc r Er) as (nd & sk & Hnd & Hsk & <- & <- & Hid & Hown & Hsr & Hsg).
  apply bind_Ok in Hp as (? & _ & Hp). apply bind_Ok in Hp as ([u1 dn] & Hn & Hp).
  destruct (playDeviceName_same _ _ _ _ _ Hn) as (S1 & S2 & _). apply bind_Ok in Hp as (? & _ & Hp).
  apply bind_Ok in Hp as (raw & Hraw & Hp). apply of_option_Ok in Hraw. apply bind_Ok in Hp as (leaf & _ & Hp).
  destruct (op_raw odc O _ Hnd) as (raw' & _ & Hraw' & Hr & _). rewrite Hraw in Hraw'. injection Hraw' as <-.
  apply bind_Ok in Hp as (u2 & Ha & Hp).
  destruct (new_device_Ok arg u1 odc _ _ _ _ _ (user_ok_same _ _ _ S1 S2 U) Hr Ha) as (k & Hk & -> & U2 & A2).
  apply bind_Ok in Hp as (u3 & Hpuk & [= <-]). rewrite (acct_same u u1 S1 S2) in A2.
  eexists _, _, raw, k, u1, dn, leaf, _, _, _, u3.
  do 10 (split; [done|]). split; [done|]. split; [done|]. split; [|done]. rewrite Hsk. cbn [addPuks].
  rewrite Hpuk. done.
Qed.

Lemma playLinkEldest_step arg u odc u' :
  user_ok (luHost arg) u → opened odc → link_seqno odc = 1%Z → playLinkEldest arg u odc = Ok u' →
  user_ok (luHost arg) u' ∧ acct_step (luHost arg) odc (acct u) (acct u').
Proof.
  intros U O Hseq Hp. destruct (playLinkEldest_Ok arg u odc u' U O Hp)
    as (nd & sk & raw & k & u1 & dn & leaf & ns & idx & c & u3 & Hnd & Hsk & _ & Hid & Hown & Hsr & Hsg & Hk & _ & _ & U2 & A2 & Hpuk & ->).
  set (u2 := put_device u1 k nd _) in *.
  destruct (addPuks_user_ok (luHost arg) (set_names u2 ns idx) _ u3 (user_ok_same _ u2 (set_names u2 ns idx) ltac:(done) ltac:(done) U2) Hpuk) as (U3 & N3 & _).
  split; [by apply (user_ok_same _ u3)|]. apply (step_eldest _ _ _ _ k nd (spsKey sk)); try done.
  - unfold link_keys. by rewrite Hsk.
  - rewrite <- A2. by rewrite Hsk in N3.
Qed.

Lemma playProvision_Ok arg u odc u' :
  user_ok (luHost arg) u → opened odc → playProvision arg u odc = Ok u' →
  ∃ nd raw k u1 dn leaf, newDevice odc = Some nd ∧ RawNewDevice odc = Some raw ∧
    dev_key (luHost arg) (psEntityID nd) = Ok k ∧ same_keys u u1 ∧ same_devices u u1 ∧
    u' = put_device u1 k nd (new_device_info odc dn raw leaf) ∧
    user_ok (luHost arg) u' ∧ acct u' = add_device (acct u) k (psRole nd) ∧
    Role_IsSet (psRole nd) = true ∧ signer_in (luHost arg) (keys u) odc is_owner ∧
    provision_keys (acct u) (psRole nd) (link_keys odc).
Proof.
  intros U O Hp. unfold playProvision in Hp. apply bind_Ok in Hp as (odpr & Ho & Hp).
  destruct (OpenDeviceProvision _ _ _ _) as [r|] eqn:Er; [|done]. injection Ho as <-.
  destruct (OpenDeviceProvision_Ok _ _ _ _ _ Er) as (nd & Hnd & <- & _ & Hset & Hsig & Hks).
  apply bind_Ok in Hp as (raw & Hraw & Hp). apply of_option_Ok in Hraw.
  destruct (op_raw odc O _ Hnd) as (raw' & _ & Hraw' & Hr & _). rewrite Hraw in Hraw'. injection Hraw' as <-.
  apply bind_Ok in Hp as ([u1 dn] & Hn & Hp). destruct (playDeviceName_same _ _ _ _ _ Hn) as (S1 & S2 & _).
  do 3 (apply bind_Ok in Hp as (? & _ & Hp)). apply bind_Ok in Hp as (leaf & _ & Hp).
  destruct (new_device_Ok arg u1 odc _ _ _ _ _ (user_ok_same _ _ _ S1 S2 U) Hr Hp) as (k & Hk & Hu & U2 & A2).
  exists (prNewDevice r), raw, k, u1, dn, leaf. rewrite (acct_same u u1 S1 S2) in A2.
  do 10 (split; [done|]). unfold provision_keys, next_gen, link_keys.
  destruct Hks as [->|(puk & rk & -> & ? & ? & ? & ?)]; [by left|]. right. by exists (spsKey puk), rk.
Qed.

Lemma playLinkNonEldest_step arg u odc u' :
  user_ok (luHost arg) u → opened odc → link_seqno odc ≠ 1%Z → playLinkNonEldest arg u odc = Ok u' →
  user_ok (luHost arg) u' ∧ acct_step (luHost arg) odc (acct u) (acct u').
Proof.
  intros U O Hseq Hp. unfold playLinkNonEldest in Hp. apply bind_Ok in Hp as (? & Hsig & Hp).
  apply bind_Ok in Hp as (u1 & Hun & Hp). destruct (playUsernameChange_same _ _ _ Hun) as [S1 S2].
  pose proof (user_ok_same _ _ _ S1 S2 U) as U1. rewrite <- (acct_same u u1 S1 S2).
  apply bind_Ok in Hp as (u2 & Hd & Hp). unfold playDeviceChange in Hd.
  destruct (gcChanges (odGc odc)) as [|c [|]] eqn:Ec; [| |done].
  - injection Hd as <-. destruct (addPuks_user_ok _ _ _ _ U1 Hp) as (U3 & N3 & _). split; [done|].
    apply step_other; [done..| |done]. unfold checkSigner in Hsig. rewrite (op_last odc O) in Hsig.
    apply bind_Ok in Hsig as (fid & Hf & Hsig). apply guard_err_Ok in Hsig.
    destruct (keys u !! _) as [p|] eqn:Ep; [|done]. destruct S2 as [S2 _]. rewrite <- S2 in Ep.
    apply signed_by_acct. by eapply signer_in_intro.
  - apply bind_Ok in Hd as (rt & Hrt & Hd). destruct (Z.eqb_spec rt RoleType_NONE) as [->|].
    + destruct (playRevoke_Ok _ _ _ _ U1 Hd) as (c' & k & pp & l & di & rk & Hc & Hk & Hkp & Hrk & Hl & _ & Hs & Hks & Hown & ->);
        [by rewrite Ec|].
      destruct (addPuks_user_ok (luHost arg) _ _ _ (drop_device_ok _ _ _ _ _ _ rk U1 Hl) Hp) as (U3 & N3 & _).
      split; [done|]. rewrite acct_drop_device in N3.
      apply (step_revoke _ _ _ _ (hsEntity (mId (mrMember c'))) k (psRole (Ps pp)) rk); try done.
      * by rewrite Hc.
      * apply active_acct. by exists pp.
      * by apply signed_by_acct.
      * intros He Ho. destruct (Hown He Ho) as (k' & p' & ? & ? & ?). exists k', (psRole (Ps p')).
        split; [done|]. split; [apply active_acct; by exists p'|done].
    + destruct (playProvision_Ok arg u1 odc u2 U1 O Hd)
        as (nd & raw & k & u1' & dn & leaf & Hnd & _ & Hk & _ & _ & _ & U2 & A2 & Hset & Hs & Hks).
      destruct (addPuks_user_ok _ _ _ _ U2 Hp) as (U3 & N3 & _). split; [done|]. rewrite A2 in N3.
      apply (step_provision _ _ _ _ k nd); try done. by apply signed_by_acct.
Qed.

Lemma playLink_step arg u odc u' :
  user_ok (luHost arg) u → opened odc → playLink arg u odc = Ok u' →
  user_ok (luHost arg) u' ∧ acct_step (luHost arg) odc (acct u) (acct u').
Proof.
  intros U O. unfold playLink. destruct (negb _); [done|]. unfold Seqno_IsEldest.
  destruct (Z.eqb_spec (bcSeqno (hdBase (gcChainer (odGc odc)))) 1).
  - by apply playLinkEldest_step.
  - by apply playLinkNonEldest_step.
Qed.

Lemma playLinks_steps arg u odcs u' :
  user_ok (luHost arg) u → Forall opened odcs → playLinks arg u odcs = Ok u' →
  user_ok (luHost arg) u' ∧ acct_steps (luHost arg) odcs (acct u) (acct u').
Proof.
  intros U O. revert u U. induction O as [|odc odcs Ho _ IH]; intros u U Hp; cbn [playLinks] in Hp.
  { injection Hp as <-. split; [done|constructor]. }
  apply bind_Ok in Hp as (u1 & Hl & Hp). destruct (playLink_step arg u odc u1 U Ho Hl) as [U1 S1].
  destruct (IH u1 U1 Hp) as [U2 S2]. split; [done|]. by econstructor.
Qed.
End steps.

(** ** What a later link does to the devices *)
Inductive device_change (host : HostID) (odc : OpenDeviceChangeRes) (u u' : UserLoader) : Prop :=
  | dc_none : newDevice odc = None → same_devices u u' → device_change host odc u u'
  | dc_add nd k di :
      newDevice odc = Some nd → dev_key host (psEntityID nd) = Ok k → Revoked di = None →
      same_devices (put_device u k nd di) u' → device_change host odc u u'
  | dc_revoke k l di rv rk :
      newDevice odc = None → devInfo u !! k = Some (l ++ [di]) → same_devices (drop_device u k l di rv rk) u' → device_change host odc u u'.

Lemma same_devices_trans u1 u2 u3 : same_devices u1 u2 → same_devices u2 u3 → same_devices u1 u3.
Proof. intros (? & ? & ? & ?) (? & ? & ? & ?). unfold same_devices. repeat split; congruence. Qed.

Lemma put_device_frame u u1 k nd di :
  same_devices u u1 → same_devices (put_device u k nd di) (put_device u1 k nd di).
Proof. intros (E1 & E2 & E3 & E4). unfold same_devices, put_device. simpl. by rewrite E1, E2, E3, E4. Qed.

Lemma drop_device_frame u u1 k l di rv rk :
  same_devices u u1 → same_devices (drop_device u k l di rv rk) (drop_device u1 k l di rv rk).
Proof. intros (E1 & E2 & E3 & E4). unfold same_devices, drop_device. simpl. by rewrite E1, E2, E3, E4. Qed.

Lemma playLink_devices `{Crypto} `{ChainLib} `{UserLoaderLib} arg u odc u' :
  user_ok (luHost arg) u → opened odc → link_seqno odc ≠ 1%Z → playLink arg u odc = Ok u' →
  device_change (luHost arg) odc u u'.
Proof.
  intros U O Hseq. unfold playLink. destruct (negb _); [done|]. unfold Seqno_IsEldest. unfold link_seqno in Hseq.
  replace (_ =? 1)%Z with false by lia. unfold playLinkNonEldest. intros Hp. apply bind_Ok in Hp as (? & _ & Hp).
  apply bind_Ok in Hp as (u1 & Hun & Hp). destruct (playUsernameChange_same _ _ _ Hun) as [S1 S2].
  pose proof (user_ok_same _ _ _ S1 S2 U) as U1. apply bind_Ok in Hp as (u2 & Hd & Hp). unfold playDeviceChange in Hd.
  destruct (gcChanges (odGc odc)) as [|c [|]] eqn:Ec; [| |done].
  - injection Hd as <-. destruct (addPuks_user_ok _ _ _ _ U1 Hp) as (_ & _ & S3).
    apply dc_none; [|by eapply same_devices_trans].
    destruct (newDevice odc) as [nd|] eqn:En; [|done]. destruct (op_raw odc O nd En) as (? & ? & _). congruence.
  - apply bind_Ok in Hd as (rt & Hrt & Hd). destruct (Z.eqb_spec rt RoleType_NONE) as [->|].
    + destruct (playRevoke_Ok _ _ _ _ U1 Hd) as (c' & k & pp & l & di & rk & _ & _ & _ & _ & Hl & _ & _ & _ & _ & ->);
        [by rewrite Ec|].
      destruct (addPuks_user_ok (luHost arg) _ _ _ (drop_device_ok _ _ _ _ _ _ rk U1 Hl) Hp) as (_ & _ & S3).
      eapply (dc_revoke _ _ _ _ k l di _ rk); [by eapply (op_none odc O)|destruct S2 as (_ & <- & _); done|].
      eapply same_devices_trans; [by apply drop_device_frame|done].
    + destruct (playProvision_Ok arg u1 odc u2 U1 O Hd)
        as (nd & raw & k & u1' & dn & leaf & Hnd & _ & Hk & _ & S2' & -> & U2 & _).
      destruct (addPuks_user_ok _ _ _ _ U2 Hp) as (_ & _ & S3). eapply (dc_add _ _ _ _ nd k); [done|done| |].
      2: { eapply same_devices_trans; [apply put_device_frame; by eapply same_devices_trans|done]. }
      done.
Qed.
