(* ===== verification/UserFacts.v ===== *)
(** * Theorems on user sigchains

    Who may change an account, that an owner remains, what a revocation leaves stale, and which
    generations the keys have.  The proofs are on the machine of [UserAccount], which the loader
    refines ([UserPlay]). *)
From S2P Require Import Prelude Snowp MerkleTypes Role Roster TeamRoster TeamBoxes Sigs HostChain ChainLoader UserChain UserLoader UserAccount UserPlay.

(** ** Facts on the machine *)
Section machine.
Context (host : HostID).
Implicit Types (a : account) (odc : OpenDeviceChangeRes).

Definition has_owner a : Prop := ∃ k r, active a !! k = Some r ∧ is_owner r.

(** What keeps an owner: a link does not add a device that is active, and names the device that it
    revokes by an identifier of its type's length. *)
Definition careful a odc : Prop :=
  (∀ nd k, newDevice odc = Some nd → link_seqno odc ≠ 1%Z → dev_key host (psEntityID nd) = Ok k →
           active a !! k = None) ∧
  (∀ c, c ∈ gcChanges (odGc odc) → exact_id (hsEntity (mId (mrMember c)))).

Lemma new_keys_active a ks a' : new_keys a ks a' → active a' = active a.
Proof. by induction 1. Qed.

Lemma new_keys_none a a' : new_keys a [] a' → a' = a.
Proof. by inversion 1. Qed.

Lemma step_has_owner odc a a' : careful a odc → acct_step host odc a a' → (has_owner a ∨ a = no_account) → has_owner a'.
Proof.
  intros [C1 C2] Hs Ha. unfold has_owner.
  destruct Hs as [a a' k nd sk Hseq Hnd Hid Hk Ho Hks _ _ Hn|a a' k nd Hseq Hnd Hk Hsig _ _ Hn
                 |a a' target k r rk Hseq Hc Hk Hr Hrk Hsig Hrem _ Hn|a a' Hseq Hc (k & r & Hk & Hr & _) Hn];
    rewrite (new_keys_active _ _ _ Hn).
  - exists k, (psRole nd). simpl. by rewrite lookup_insert_eq.
  - destruct Hsig as (k0 & r0 & _ & Hr0 & Ho). exists k0, r0. simpl. split; [|done].
    rewrite lookup_insert_ne; [done|]. intros <-. by rewrite (C1 nd k Hnd Hseq Hk) in Hr0.
  - destruct (gcChanges (odGc odc)) as [|c [|]]; [done| |done]. injection Hc as Hc.
    assert (exact_id target) as He by (rewrite <- Hc; apply C2; set_solver).
    assert (∃ k' r', k' ≠ k ∧ active a !! k' = Some r' ∧ is_owner r') as (k' & r' & ? & ? & ?).
    { destruct Hsig as (k0 & r0 & _ & Hr0 & Ho). destruct (decide (k0 = k)) as [->|]; [|by exists k0, r0].
      apply Hrem; [done|congruence]. }
    exists k', r'. simpl. by rewrite lookup_delete_ne.
  - destruct Ha as [?| ->]; [done|]. simpl in Hr. by rewrite lookup_empty in Hr.
Qed.

(** *** Generations *)
Lemma new_keys_gens a ks a' rk g :
  new_keys a ks a' → gens a !! rk = Some g → ∃ g', gens a' !! rk = Some g' ∧ (g ≤ g')%Z.
Proof.
  intros Hn. revert g. induction Hn as [|a sk rk' ks a' Hr Hg _ IH]; intros g Hk; [exists g; split; [done|lia]|].
  simpl in IH. rewrite lookup_insert in IH. case_decide as E; [|by apply IH].
  subst rk'. specialize (Hg g Hk). destruct (IH (skGen sk) eq_refl) as (g' & ? & ?). exists g'. split; [done|lia].
Qed.

Lemma step_gens odc a a' rk g :
  acct_step host odc a a' → gens a !! rk = Some g → ∃ g', gens a' !! rk = Some g' ∧ (g ≤ g')%Z.
Proof.
  intros Hs Hg. by destruct Hs as [? ? ? ? ? ? ? ? ? ? ? ? ? Hn|? ? ? ? ? ? ? ? ? ? Hn
    |? ? ? ? ? ? ? ? ? ? ? ? ? ? Hn|? ? ? ? ? Hn]; eapply (new_keys_gens _ _ _ _ _ Hn).
Qed.

Lemma steps_gens odcs a a' rk g :
  acct_steps host odcs a a' → gens a !! rk = Some g → ∃ g', gens a' !! rk = Some g' ∧ (g ≤ g')%Z.
Proof.
  intros Hs. revert g. induction Hs as [a|odc odcs a1 a2 a3 H1 _ IH]; intros g Hg; [exists g; split; [done|lia]|].
  destruct (step_gens _ _ _ _ _ H1 Hg) as (g1 & H2 & ?). destruct (IH g1 H2) as (g2 & ? & ?). exists g2. split; [done|lia].
Qed.

(** *** Stale keys *)
Lemma new_keys_stale a ks a' r :
  new_keys a ks a' → r ∈ stale a' ↔ r ∈ stale a ∧ ¬ ∃ sk, sk ∈ ks ∧ ImportRole (skRole sk) = Ok r.
Proof.
  induction 1 as [a|a sk rk ks a' Hr _ _ IH].
  { split; [|tauto]. intros ?. split; [done|]. intros (sk & Hsk & _). by apply elem_of_nil in Hsk. }
  rewrite IH. simpl. rewrite elem_of_difference, elem_of_singleton. setoid_rewrite elem_of_cons.
  split; intros [H1 H2].
  - split; [tauto|]. intros (sk' & [->|?] & ?); [apply H1; congruence|]. apply H2. eauto.
  - split; [split; [done|]|].
    + intros ->. apply H2. eauto.
    + intros (sk' & ? & ?). apply H2. eauto.
Qed.

(** After a revocation by another device no role at or below that of the revoked one is stale; after
    a device's revocation of itself, all of them that have keys are. *)
Lemma revoke_stale a a' k rk self sks r :
  revoke_keys a self rk sks → new_keys (remove_device a k rk) sks a' → stale a ⊆ dom (gens a) → rk_le r rk →
  r ∈ stale a' ↔ self = true ∧ is_Some (gens a !! r).
Proof.
  intros Hks Hn Hd Hle. rewrite (new_keys_stale _ _ _ _ Hn). simpl.
  rewrite elem_of_union, elem_of_filter, elem_of_dom. unfold revoke_keys in Hks. destruct self.
  - subst sks. split.
    + intros [[Hs|[_ ?]] _]; [|done]. split; [done|]. by apply elem_of_dom, Hd.
    + intros [_ ?]. split; [by right|]. intros (sk & Hsk & _). by apply elem_of_nil in Hsk.
  - destruct Hks as (_ & _ & Hall). split; [|by intros []]. intros [Hs Hn']. exfalso. apply Hn'. apply Hall; [|done].
    destruct Hs as [Hs|[_ ?]]; [|done]. by apply elem_of_dom, Hd.
Qed.
End machine.

(** ** The loader *)
Lemma new_keys_gen_of a ks a' r v :
  new_keys a ks a' → (∀ sk, sk ∈ ks → ImportRole (skRole sk) = Ok r → skGen sk = v) →
  gens a' !! r = Some v ∨ gens a' !! r = gens a !! r ∧ ¬ ∃ sk, sk ∈ ks ∧ ImportRole (skRole sk) = Ok r.
Proof.
  induction 1 as [a|a sk rk ks a' Hr _ _ IH]; intros Hv.
  { right. split; [done|]. intros (sk & Hsk & _). by apply elem_of_nil in Hsk. }
  destruct IH as [?|[Hg Hn]]; [intros; apply Hv; [set_solver|done]|by left|]. simpl in Hg.
  destruct (decide (rk = r)) as [->|Hne].
  - left. rewrite Hg, lookup_insert_eq. f_equal. apply Hv; [set_solver|done].
  - right. rewrite lookup_insert_ne in Hg by done. split; [done|].
    intros (sk' & [->|?]%elem_of_cons & ?); [congruence|]. eauto.
Qed.

Lemma revoke_gens a a' k rk sks r g :
  revoke_keys a false rk sks → new_keys (remove_device a k rk) sks a' → rk_le r rk →
  gens a !! r = Some g → gens a' !! r = Some (wrap64 (g + 1)).
Proof.
  intros (_ & Hall & Hex) Hn Hle Hg.
  destruct (new_keys_gen_of _ _ _ r (wrap64 (g + 1)) Hn) as [?|[_ Hno]]; [|done|].
  - intros sk Hsk Hr. destruct (Hall sk Hsk) as (r' & g' & Hr' & Hg' & ->). congruence.
  - exfalso. apply Hno, Hex; eauto.
Qed.

Lemma addPuks_total u ps a :
  keys_ok u → new_keys (acct u) (spsKey <$> ps) a → ∃ u', addPuks u ps = Ok u' ∧ acct u' = a.
Proof.
  revert u. induction ps as [|p ps IH]; intros u K Hn; simpl in Hn; inversion Hn; subst; simpl in *.
  { by exists u. }
  destruct (IH (put_puk u rk p)) as (u' & Hu' & ?); [by apply put_puk_ok|done|].
  exists u'. split; [|done]. replace (addPuk u p) with (Ok (put_puk u rk p)); [done|].
  symmetry. apply addPuk_put; [done|]. by exists rk.
Qed.

(** A link that was opened: its inner part, and the signatures of the keys that it brings, of
    the new device and of the device that makes the change. *)
Record signed_link `{Crypto} `{UserLib} (link : LinkOuter) (odc : OpenDeviceChangeRes) : Prop := {
  sl_inner : OpenGroupChange link = Ok (odGc odc, odLov1 odc);
  sl_opened : opened odc;
  sl_stack : stack_verified (odLov1 odc) [] (zip (lo1Signatures (odLov1 odc)) (odVerifiers odc));
  sl_length : length (lo1Signatures (odLov1 odc)) = length (odVerifiers odc);
  sl_signer : VEntity (ExistingDevice odc) ∈ odVerifiers odc;
  sl_keys sk : sk ∈ odSharedKeys odc → VShared sk ∈ odVerifiers odc;
  sl_device nd : newDevice odc = Some nd → link_seqno odc ≠ 1%Z → VSuite nd ∈ odVerifiers odc
}.

Section loader.
Context `{Crypto} `{Codec} `{ChainLib} `{UserLib} `{UserLoaderLib}.
Implicit Types (arg : LoadUserArg) (u : UserLoader) (odc : OpenDeviceChangeRes).

Lemma OpenDeviceChange_signed link hs uid host odc :
  OpenDeviceChange link hs uid host = Ok odc → signed_link link odc.
Proof.
  intros Ho. destruct (OpenDeviceChange_Ok _ _ _ _ _ Ho) as (Hg & Hop & Hv & (vs & Hvs & Hnd) & _ & _).
  apply verify_stacked_ok in Hv as (_ & Hlen & Hst). split; try done; rewrite ?Hvs.
  - set_solver.
  - intros sk Hsk. apply elem_of_app. left. by apply list_elem_of_In, in_map, list_elem_of_In.
  - intros nd H5 H6. specialize (Hnd nd H5 H6). set_solver.
Qed.

Lemma open_links_signed arg hs n links odcs :
  open_links arg hs n links = Ok odcs → Forall2 signed_link links odcs.
Proof.
  revert n odcs. induction links as [|l links IH]; intros n odcs Ho; cbn [open_links] in Ho.
  { injection Ho as <-. constructor. }
  apply bind_Ok in Ho as (odc & Hodc & Ho). apply bind_Ok in Ho as (rest & Hr & [= <-]).
  constructor; [|by eapply IH]. destruct (OpenDeviceChange _ _ _ _) as [o|] eqn:E; [|done].
  injection Hodc as <-. by eapply OpenDeviceChange_signed.
Qed.

Lemma Forall2_signed_opened links odcs : Forall2 signed_link links odcs → Forall opened odcs.
Proof. induction 1 as [|l o ls os Hs _ IH]; constructor; [apply Hs|done]. Qed.

(** C2: A user's sigchain that a client opens and plays from its first link is a run of the account
    machine: every link has the stack of signatures of the keys it brings, of its new device and of
    the device that makes it, the first link comes from the device that it adds, and every later
    one from a device that is active then; devices are added and removed by owners only. *)
Theorem loaded_links_authorised arg raw links leaves lastHash u st :
  play_over arg None raw links leaves lastHash = Ok (u, st) →
  ∃ odcs, Forall2 signed_link links odcs ∧ acct_steps (luHost arg) odcs no_account (acct u) ∧
          user_ok (luHost arg) u.
Proof.
  unfold play_over. intros Hp. apply bind_Ok in Hp as (u0 & [= <-] & Hp).
  apply bind_Ok in Hp as (u1 & Hh & Hp). apply bind_Ok in Hp as (odcs & Ho & Hp).
  apply bind_Ok in Hp as (u2 & Hu & Hp). apply bind_Ok in Hp as (st' & _ & [= -> ->]).
  unfold updateHEPKs in Hh. apply bind_Ok in Hh as (s2 & _ & [= <-]).
  pose proof (open_links_signed _ _ _ _ _ Ho) as Hs. exists odcs. split; [done|].
  by destruct (playLinks_steps arg _ odcs u (user_ok_hepks _ _ _ (new_UserLoader_ok _ leaves))
    (Forall2_signed_opened _ _ Hs) Hu).
Qed.

(** Every link is careful on the account that it is played on. *)
Fixpoint careful_links arg u (odcs : list OpenDeviceChangeRes) : Prop :=
  match odcs with
  | [] => True
  | odc :: odcs =>
      careful (luHost arg) (acct u) odc ∧
      match playLink arg u odc with Ok u' => careful_links arg u' odcs | Err _ => True end
  end.

Lemma playLinks_has_owner arg u odcs u' :
  user_ok (luHost arg) u → Forall opened odcs → careful_links arg u odcs → playLinks arg u odcs = Ok u' →
  (has_owner (acct u) ∨ acct u = no_account) → odcs ≠ [] → has_owner (acct u').
Proof.
  intros U O. revert u U. induction O as [|odc odcs Ho _ IH]; intros u U C Hp Ha Hne; [done|].
  cbn [playLinks] in Hp. apply bind_Ok in Hp as (u1 & Hl & Hp). destruct C as [C1 C2]. rewrite Hl in C2.
  destruct (playLink_step arg u odc u1 U Ho Hl) as [U1 S1].
  pose proof (step_has_owner (luHost arg) odc _ _ C1 S1 Ha) as Hown.
  destruct odcs; [by injection Hp as <-|]. by apply (IH u1); [..|left|].
Qed.

(** C14: After one or more links, none of which adds a device that is active or revokes a device by an
    identifier of a wrong length, an owner device is active. *)
Theorem owner_remains arg leaves odcs u :
  Forall opened odcs → odcs ≠ [] → careful_links arg (new_UserLoader leaves) odcs →
  playLinks arg (new_UserLoader leaves) odcs = Ok u →
  ∃ k p, keys u !! k = Some p ∧ is_owner (psRole (Ps p)).
Proof.
  intros Ho Hne Hc Hp.
  destruct (playLinks_has_owner arg _ odcs u (new_UserLoader_ok _ leaves) Ho Hc Hp) as (k & r & Hk & Hr); [|done|].
  { right. unfold acct, no_account. simpl. by rewrite fmap_empty. }
  apply active_acct in Hk as (p & ? & <-). by exists k, p.
Qed.

(** C15: A link that revokes a device is signed by an active owner and removes that device alone. If
    another device signs it, every role at or below the revoked device's has a key one generation
    up, and none of them is stale; if the device revokes itself, the keys stay, and all are stale. *)
Theorem revocation_effect arg u odc c u' :
  user_ok (luHost arg) u → opened odc → link_seqno odc ≠ 1%Z →
  gcChanges (odGc odc) = [c] → GetT (DstRole c) = Ok RoleType_NONE → playLink arg u odc = Ok u' →
  ∃ k p rk, dev_key (luHost arg) (hsEntity (mId (mrMember c))) = Ok k ∧ keys u !! k = Some p ∧
    ImportRole (psRole (Ps p)) = Ok rk ∧ signer_in (luHost arg) (keys u) odc is_owner ∧
    active (acct u') = delete k (active (acct u)) ∧
    ∀ r g, rk_le r rk → pukGens u !! r = Some g →
      if EntityID_Eq (gsKey (gcSigner (odGc odc))) (hsEntity (mId (mrMember c)))
      then pukGens u' !! r = Some g ∧ r ∈ stalePUKs u'
      else pukGens u' !! r = Some (wrap64 (g + 1)) ∧ r ∉ stalePUKs u'.
Proof.
  intros U O Hseq Hc Ht Hp. destruct (playLink_step arg u odc u' U O Hp) as [_ Hs].
  inversion Hs as [? ? ? nd|? ? ? nd ? Hnd|? ? target k r rk ? Hch Hk Hr Hrk Hsig _ Hks Hn|? ? ? Hch]; subst; try congruence.
  { by rewrite (op_none odc O c Hc Ht) in Hnd. }
  rewrite Hc in Hch. injection Hch as <-. apply active_acct in Hr as (p & Hkp & <-). exists k, p, rk.
  split; [done|]. split; [done|]. split; [done|]. split.
  { destruct Hsig as (k0 & r0 & Hk0 & Hr0 & Ho). apply active_acct in Hr0 as (p0 & ? & <-). by exists k0, p0. }
  split; [by rewrite (new_keys_active _ _ _ Hn)|]. intros r g Hle Hg.
  rewrite (op_keys odc O) in Hn.
  pose proof (revoke_stale _ _ k rk _ _ r Hks Hn (ko_stale u (uo_keys _ u U)) Hle) as Hst. simpl in Hst.
  destruct (EntityID_Eq _ _).
  - unfold revoke_keys in Hks. rewrite Hks in Hn. split; [|apply Hst; eauto].
    change (pukGens u') with (gens (acct u')). by rewrite (new_keys_none _ _ Hn).
  - split; [|intros [? _]%Hst; done]. by apply (revoke_gens _ _ _ _ _ _ _ Hks Hn Hle Hg).
Qed.

(** C27: A link with new keys and no device change is played if any active device signed it, whatever
    the role of that device and whatever the generations above the present ones, although the
    check for such a link refuses it if the signer is not an owner. *)
Theorem rotation_not_checked arg u odc k p a :
  user_ok (luHost arg) u → opened odc → (1 < link_seqno odc)%Z →
  gcChanges (odGc odc) = [] → gcMetadata (odGc odc) = [] →
  dev_key (luHost arg) (GetEntityID (ExistingDevice odc)) = Ok k → keys u !! k = Some p →
  ¬ is_owner (psRole (Ps p)) → new_keys (acct u) (link_keys odc) a →
  (∃ u', playLink arg u odc = Ok u' ∧ acct u' = a) ∧
  is_ok (CheckDeviceRevokeOrRotate odc (luHost arg) (keys u) (pukGens u)) = false.
Proof.
  intros U O Hseq Hc Hm Hk Hp Hno Hn. split.
  - destruct (addPuks_total u (odSharedKeys odc) a (uo_keys _ u U) Hn) as (u' & Hu' & Ha). exists u'. split; [|done].
    unfold playLink, playLinkNonEldest, Seqno_IsEldest, Seqno_IsValid. unfold link_seqno in Hseq.
    replace (_ >=? 1)%Z with true by lia. replace (_ =? 1)%Z with false by lia. simpl.
    unfold checkSigner. rewrite (op_last odc O). unfold dev_key in Hk. apply bind_Ok in Hk as (fid & -> & [= <-]).
    simpl. rewrite Hp. simpl. unfold playUsernameChange, playDeviceChange. rewrite Hm, Hc. simpl.
    rewrite app_nil_r. rewrite <- Hu'. by destruct u.
  - unfold CheckDeviceRevokeOrRotate. rewrite Hc. simpl. unfold checkDeviceRotate.
    destruct (guard_err _ _); [|done]. destruct (index _ _); [|done]. simpl. destruct (ImportRole _) as [ul|]; [|done]. simpl.
    destruct (checkRotateRevokeCommon _ _ _ _ _) eqn:E; [|done]. exfalso.
    apply checkRotateRevokeCommon_Ok in E as [(k' & p' & Hk' & Hp' & Ho) _]. congruence.
Qed.
End loader.

(** The only device of a user, an owner, can revoke itself with a link that rotates the keys and names the
    device by its identifier with a zero byte at the end: the check that an owner remains compares
    identifiers before they are padded, and the lookup of the device compares them after. *)
Theorem padded_id_revokes_last_owner odc host gs c eid t k p :
  gcChanges (odGc odc) = [c] → DstRole c = NewRoleDefault RoleType_NONE →
  mrMember c = mkMember (mkFQEntityInHostScope (eid ++ [0%Z]) None) (mSrcRole (mrMember c)) zero_MemberKeys →
  EntityID_Type eid = Ok t → IsEd25519 t = true → length eid = 33 →
  gsKey (gcSigner (odGc odc)) = eid → GetEntityID (ExistingDevice odc) = eid →
  dev_key host eid = Ok k → psRole (Ps p) = NewRoleDefault RoleType_OWNER →
  gcSharedKeys (odGc odc) ≠ [] → CheckSharedKeyUpdate (gcSharedKeys (odGc odc)) gs OwnerRole = Ok () →
  trEpno (bcRoot (hdBase (gcChainer (odGc odc)))) ≠ 0%Z →
  ∃ res, checkDeviceRevoke odc host {[k := p]} gs = Ok res.
Proof.
  intros Hc Hd Hm Ht He Hlen Hk Hx Hdk Hr Hne Hup Hep.
  assert (EntityID_Fixed eid = Ok (eid ++ [0%Z])) as Hf by (unfold EntityID_Fixed, len; by rewrite Hlen).
  assert (EntityID_Fixed (eid ++ [0%Z]) = Ok (eid ++ [0%Z])) as Hf'.
  { unfold EntityID_Fixed, len. rewrite length_app, Hlen. simpl. by rewrite app_nil_r. }
  unfold dev_key in Hdk. rewrite Hf in Hdk. injection Hdk as <-.
  assert (Unfix (eid ++ [0%Z]) = Ok eid) as Hu.
  { unfold Unfix, EntityID_Type in *. change 0%Z with (Z.of_nat 0) in Ht |- *. rewrite index_nat in Ht |- *.
    rewrite lookup_app_l by lia. rewrite Ht. cbn [mbind result_bind]. unfold EntityType_Len. rewrite He.
    unfold slice_go, len. rewrite length_app, Hlen. simpl. by rewrite drop_0, take_app_length' by done. }
  assert (eid ≠ []) as Hnil by (by intros ->).
  assert (EntityID_Eq eid (eid ++ [0%Z]) = false) as Hneq.
  { unfold EntityID_Eq. rewrite bool_decide_false; [by rewrite andb_false_r|].
    intros E. apply (f_equal length) in E. rewrite length_app in E. simpl in E. lia. }
  unfold checkDeviceRevoke. rewrite Hc. change (index [c] 0) with (@Ok proto_MemberRole c). cbn [mbind result_bind].
  rewrite Hm, Hd, Hk. cbn -[EntityID_Fixed EntityID_Eq checkRotateRevokeCommon].
  rewrite Hf'. cbn -[EntityID_Fixed EntityID_Eq checkRotateRevokeCommon]. rewrite lookup_singleton_eq, Hneq.
  cbn -[EntityID_Fixed EntityID_Eq checkRotateRevokeCommon countRemainingOwners]. rewrite Hr.
  unfold len. destruct (gcSharedKeys (odGc odc)) as [|sk sks] eqn:Ek; [done|].
  cbn -[EntityID_Fixed EntityID_Eq checkRotateRevokeCommon countRemainingOwners].
  unfold countRemainingOwners. rewrite map_to_list_singleton. cbn [count_owners Entity]. rewrite Hu.
  cbn [mbind result_bind]. rewrite Hneq, Hr. cbn -[EntityID_Fixed checkRotateRevokeCommon].
  unfold checkRotateRevokeCommon. rewrite Hx, Hf. cbn [mbind result_bind]. rewrite lookup_singleton_eq.
  replace (Z.of_nat (S (length sks)) =? 0)%Z with false by lia. rewrite Ek. fold OwnerRole.
  replace (0 <? len (sk :: sks))%Z with true by (unfold len; simpl; lia).
  change (wrap_int (0 + 1) =? 0)%Z with false. cbn [andb negb guard_err of_option mbind result_bind].
  rewrite Hr, Hup. cbn.
  destruct (Z.eqb_spec (trEpno (bcRoot (hdBase (gcChainer (odGc odc))))) 0); [done|]. cbn. by eexists.
Qed.
