(* ===== verification/UserSave.v ===== *)
(** * Saving a user's state and loading it again

    What [saveState] writes, [loadExistingUser] reads back: the devices with their histories, the
    keys of each role and the stale roles, if no link adds a device that is active and the
    order of the saved keys is an order. *)
From S2P Require Import Prelude Snowp MerkleTypes Role Roster TeamRoster TeamBoxes Sigs HostChain ChainLoader UserChain UserLoader UserAccount UserPlay UserFacts.

(** What is documented of [slices.SortFunc]: its result is a permutation, and is sorted if the
    comparison is an order. *)
Class SortLaws `{UserLoaderLib} := {
  sort_perm {A} (cmp : A → A → Z) l : slices_SortFunc cmp l ≡ₚ l;
  sort_sorted {A} (cmp : A → A → Z) l :
    (∀ x y, x ∈ l → y ∈ l → cmp x y < 0 ↔ 0 < cmp y x)%Z →
    (∀ x y z, x ∈ l → y ∈ l → z ∈ l → cmp x y ≤ 0 → cmp y z ≤ 0 → cmp x z ≤ 0)%Z →
    StronglySorted (λ x y, cmp x y ≤ 0)%Z (slices_SortFunc cmp l)
}.

Section stored.
Context `{Crypto} `{Codec} `{ChainLib} `{UserLib} `{UserLoaderLib}.
Implicit Types (arg : LoadUserArg) (u : UserLoader) (odc : OpenDeviceChangeRes).

(** ** What a state has to be to be stored *)

(** The record of a device can be imported again, and gives the device. *)
Definition imports (host : HostID) (hs : HEPKSet) (k : FQEntityFixed) (di : DeviceInfo) (ps : PublicSuite) : Prop :=
  ImportPublicSuite (diKey di) hs host = Ok ps ∧ dev_key host (psEntityID ps) = Ok k.

(** The history of a device: every record but the last is revoked, and the device is active if
    the last one is not. *)
Definition history_ok (host : HostID) u (k : FQEntityFixed) (l : list DeviceInfo) : Prop :=
  Forall (λ di, ∃ ps, imports host (hepks u) k di ps) l ∧
  ∃ l' di, l = l' ++ [di] ∧ Forall (λ d, Revoked d ≠ None) l' ∧
    match Revoked di with
    | None => ∃ ps, imports host (hepks u) k di ps ∧
                    keys u !! k = Some (mkPublicSuiterWithSeqno ps (bcSeqno (pvChain (Provisioned di))))
    | Some _ => keys u !! k = None
    end.

Record storable (host : HostID) u : Prop := {
  st_hepks fp h : hepks u !! fp = Some h → HEPK_Fingerprint h = Ok fp;
  st_history k l : devInfo u !! k = Some l → history_ok host u k l;
  st_known k : is_Some (keys u !! k) → is_Some (devInfo u !! k);
  st_puks r l p : puksByRole u !! r = Some l → p ∈ l → hepks u !! skHepkFp (spsKey p) = Some (spsHEPK p)
}.

(** A link that was opened with the loader's keys, and that does not add an active device. *)
Record opened_with (hs : HEPKSet) (host : HostID) odc : Prop := {
  ow_opened : opened odc;
  ow_device nd raw : newDevice odc = Some nd → RawNewDevice odc = Some raw → ImportPublicSuite raw hs host = Ok nd;
  ow_keys : Forall (λ s, hs !! skHepkFp (spsKey s) = Some (spsHEPK s)) (odSharedKeys odc)
}.
Definition fresh_device (host : HostID) u odc : Prop :=
  ∀ nd k, newDevice odc = Some nd → dev_key host (psEntityID nd) = Ok k → keys u !! k = None.

Lemma open_shared_keys_hepks prev sks hs l :
  open_shared_keys prev sks hs = Ok l → Forall (λ s, hs !! skHepkFp (spsKey s) = Some (spsHEPK s)) l.
Proof.
  revert prev l. induction sks as [|sk sks IH]; intros prev l Hl; cbn [open_shared_keys] in Hl.
  { injection Hl as <-. constructor. }
  apply bind_Ok in Hl as (? & _ & Hl). apply bind_Ok in Hl as (w & Hw & Hl). apply of_option_Ok in Hw.
  apply bind_Ok in Hl as (rest & Hr & Hl). injection Hl as <-. constructor; [done|]. by eapply IH.
Qed.

Lemma OpenDeviceChange_with link hs uid host odc :
  OpenDeviceChange link hs uid host = Ok odc → opened_with hs host odc.
Proof.
  intros Ho. destruct (OpenDeviceChange_Ok _ _ _ _ _ Ho) as (_ & Hop & _). split; [done|..];
    unfold OpenDeviceChange in Ho; apply bind_Ok in Ho as ([gc lov1] & Hg & Ho);
    do 4 (apply bind_Ok in Ho as (? & _ & Ho)); apply bind_Ok in Ho as ([vs0 sks] & Hs & Ho);
    do 2 (apply bind_Ok in Ho as (? & _ & Ho)); apply bind_Ok in Ho as (ex & Hex & Ho);
    apply bind_Ok in Ho as ([[[nd' raw'] sub] vs] & Hn & Ho); do 2 (apply bind_Ok in Ho as (? & _ & Ho));
    injection Ho as <-; simpl.
  - intros nd raw -> ->. destruct (open_new_device_Ok _ _ _ _ _ _ _ _ Hn) as (r & _ & [= <-] & _ & _ & _ & Hi & _). done.
  - unfold OpenSharedKeys in Hs. apply bind_Ok in Hs as (sks' & Hs & [= _ <-]). by eapply open_shared_keys_hepks.
Qed.

(** ** Playing keeps states storable *)
Lemma storable_same host u u' :
  same_keys u u' → same_devices u u' → storable host u → storable host u'.
Proof.
  intros (E1 & E2 & E3 & E4) (E5 & E6 & E7 & E8) [S1 S2 S3 S4]. split; unfold history_ok; rewrite ?E2, ?E5, ?E6, ?E8; done.
Qed.

Lemma storable_put_device host u k nd di :
  storable host u → Revoked di = None → imports host (hepks u) k di nd → keys u !! k = None →
  storable host (put_device u k nd di).
Proof.
  intros [S1 S2 S3 S4] Hr Hi Hk. split; simpl; try done.
  - intros k' l. rewrite lookup_insert. unfold history_ok. simpl. rewrite Hr. simpl. case_decide as E.
    + intros [= <-]. subst k'. split.
      * apply Forall_app. split; [|constructor; [by exists nd|done]].
        destruct (devInfo u !! k) eqn:E; simpl; [by apply (S2 k)|constructor].
      * exists (default [] (devInfo u !! k)), di. split; [done|]. rewrite Hr, lookup_insert_eq. split; [|by exists nd].
        destruct (devInfo u !! k) as [l|] eqn:E; simpl; [|constructor].
        destruct (S2 k l E) as (_ & l' & d & -> & Hl' & Hd). apply Forall_app. split; [done|].
        constructor; [|done]. intros Hd'. rewrite Hd' in Hd. destruct Hd as (ps & _ & Hd). congruence.
    + intros Hl. rewrite lookup_insert_ne by done. by apply (S2 k' l).
  - intros k'. rewrite Hr. simpl. rewrite !lookup_insert. case_decide; [done|apply S3].
Qed.

Lemma storable_drop_device host u k l di rv rk :
  storable host u → devInfo u !! k = Some (l ++ [di]) → storable host (drop_device u k l di rv rk).
Proof.
  intros [S1 S2 S3 S4] Hk. split; simpl; try done.
  - intros k' l1. rewrite lookup_insert. unfold history_ok. simpl. case_decide as E.
    + intros [= <-]. subst k'. destruct (S2 k _ Hk) as (Hi & l' & d & [-> ->]%app_inj_tail & Hl' & _).
      apply Forall_app in Hi as [Hi1 Hi2]. rewrite Forall_singleton in Hi2. split.
      * apply Forall_app. split; [done|]. by apply Forall_singleton.
      * exists l', (revoke_info d rv). split; [done|]. split; [done|]. simpl. by rewrite lookup_delete_eq.
    + rewrite lookup_delete_ne by done. apply (S2 k').
  - intros k' Hk'. rewrite lookup_insert_is_Some'. right. apply S3. destruct Hk' as [p [_ Hp]%lookup_delete_Some]. eauto.
Qed.

Lemma storable_addPuks host u ps u' :
  keys_ok u → storable host u → Forall (λ s, hepks u !! skHepkFp (spsKey s) = Some (spsHEPK s)) ps →
  addPuks u ps = Ok u' → storable host u'.
Proof.
  intros K S Hf. revert u K S Hf. induction ps as [|p ps IH]; intros u K [S1 S2 S3 S4] Hf Hp; cbn [addPuks] in Hp.
  { by injection Hp as <-. }
  apply bind_Ok in Hp as (u1 & Ha & Hp). apply addPuk_put in Ha as (rk & Hr & Hg & ->); [|done].
  apply Forall_cons in Hf as [Hf1 Hf2]. eapply IH; [by apply put_puk_ok| |done|done]. split; simpl; try done.
  intros r l q. rewrite lookup_insert. case_decide; [|apply S4]. intros [= <-] [Hq| ->%list_elem_of_singleton]%elem_of_app; [|done].
  destruct (puksByRole u !! rk) eqn:E; simpl in Hq; [by eapply S4|by apply elem_of_nil in Hq].
Qed.

Lemma playLinkEldest_storable arg u odc u' :
  user_ok (luHost arg) u → storable (luHost arg) u → opened_with (hepks u) (luHost arg) odc →
  fresh_device (luHost arg) u odc → playLinkEldest arg u odc = Ok u' →
  storable (luHost arg) u' ∧ hepks u' = hepks u.
Proof.
  intros U S W F Hp. destruct (playLinkEldest_Ok arg u odc u' U (ow_opened _ _ _ W) Hp)
    as (nd & sk & raw & k & u1 & dn & leaf & ns & idx & c & u3 & Hnd & Hsk & Hraw & _ & _ & _ & _ & Hk & S1 & S2 & U2 & _ & Hpuk & ->).
  pose proof S2 as (Ek & _ & _ & Eh). set (u2 := put_device u1 k nd _) in *.
  assert (storable (luHost arg) u2) as St2.
  { apply storable_put_device; [by eapply storable_same| done| |rewrite Ek; by apply (F nd)].
    split; [|done]. rewrite Eh. by eapply (ow_device _ _ _ W). }
  pose proof (user_ok_same (luHost arg) u2 (set_names u2 ns idx) ltac:(done) ltac:(done) U2) as U2'.
  destruct (addPuks_user_ok (luHost arg) _ _ u3 U2' Hpuk) as (_ & _ & S3).
  assert (hepks u2 = hepks u) as E2 by done. destruct S3 as (_ & _ & _ & E3).
  split; [|simpl; by rewrite E3]. apply (storable_same _ u3); try done.
  eapply storable_addPuks; [apply U2'|by apply (storable_same _ u2)| |done].
  rewrite <- E2 in W. apply (ow_keys _ _ _ W).
Qed.

Lemma playLinkNonEldest_storable arg u odc u' :
  user_ok (luHost arg) u → storable (luHost arg) u → opened_with (hepks u) (luHost arg) odc →
  fresh_device (luHost arg) u odc → playLinkNonEldest arg u odc = Ok u' →
  storable (luHost arg) u' ∧ hepks u' = hepks u.
Proof.
  intros U S W F Hp. unfold playLinkNonEldest in Hp. apply bind_Ok in Hp as (? & _ & Hp).
  apply bind_Ok in Hp as (u1 & Hun & Hp). destruct (playUsernameChange_same _ _ _ Hun) as [S1 S2].
  pose proof (user_ok_same _ _ _ S1 S2 U) as U1. pose proof (storable_same _ _ _ S1 S2 S) as St1.
  pose proof S2 as (Ek & _ & _ & Eh). apply bind_Ok in Hp as (u2 & Hd & Hp).
  assert (user_ok (luHost arg) u2 ∧ storable (luHost arg) u2 ∧ hepks u2 = hepks u) as (U2 & St2 & E2).
  { unfold playDeviceChange in Hd. destruct (gcChanges (odGc odc)) as [|c [|]] eqn:Ec; [| |done].
    { by injection Hd as <-. }
    apply bind_Ok in Hd as (rt & Hrt & Hd). destruct (Z.eqb_spec rt RoleType_NONE) as [->|].
    - destruct (playRevoke_Ok _ _ _ _ U1 Hd) as (c' & k & pp & l & di & rk & _ & _ & _ & _ & Hl & _ & _ & _ & _ & ->);
        [by rewrite Ec|].
      split; [by apply drop_device_ok|]. split; [by apply storable_drop_device|done].
    - destruct (playProvision_Ok arg u1 odc u2 U1 (ow_opened _ _ _ W) Hd)
        as (nd & raw & k & u1' & dn & leaf & Hnd & Hraw & Hk & S1' & S2' & -> & U2 & _).
      pose proof S2' as (Ek' & _ & _ & Eh'). split; [done|]. split; [|by rewrite <- Eh, <- Eh'].
      apply storable_put_device; [by eapply storable_same| done| |rewrite Ek', Ek; by apply (F nd)].
      split; [|done]. rewrite Eh', Eh. by eapply (ow_device _ _ _ W). }
  destruct (addPuks_user_ok (luHost arg) _ _ u' U2 Hp) as (_ & _ & S3).
  split; [|destruct S3 as (_ & _ & _ & E3); by rewrite E3].
  eapply storable_addPuks; [apply U2|done| |done]. rewrite <- E2 in W. apply (ow_keys _ _ _ W).
Qed.

Lemma playLink_storable arg u odc u' :
  user_ok (luHost arg) u → storable (luHost arg) u → opened_with (hepks u) (luHost arg) odc →
  fresh_device (luHost arg) u odc → playLink arg u odc = Ok u' →
  storable (luHost arg) u' ∧ hepks u' = hepks u.
Proof.
  intros U S W F. unfold playLink. destruct (negb _); [done|]. destruct (Seqno_IsEldest _).
  - by apply playLinkEldest_storable.
  - by apply playLinkNonEldest_storable.
Qed.

(** The links of a load, none of which adds a device that is active when it is played. *)
Fixpoint fresh_links arg u (odcs : list OpenDeviceChangeRes) : Prop :=
  match odcs with
  | [] => True
  | odc :: odcs =>
      fresh_device (luHost arg) u odc ∧
      match playLink arg u odc with Ok u' => fresh_links arg u' odcs | Err _ => True end
  end.

Lemma playLinks_storable arg u odcs u' :
  user_ok (luHost arg) u → storable (luHost arg) u → Forall (opened_with (hepks u) (luHost arg)) odcs →
  fresh_links arg u odcs → playLinks arg u odcs = Ok u' →
  user_ok (luHost arg) u' ∧ storable (luHost arg) u'.
Proof.
  revert u. induction odcs as [|odc odcs IH]; intros u U S W F Hp; cbn [playLinks] in Hp; [by injection Hp as <-|].
  apply bind_Ok in Hp as (u1 & Hl & Hp). destruct F as [F1 F2]. rewrite Hl in F2. apply Forall_cons in W as [W1 W2].
  destruct (playLink_storable arg u odc u1 U S W1 F1 Hl) as [S1 E1].
  destruct (playLink_step arg u odc u1 U (ow_opened _ _ _ W1) Hl) as [U1 _].
  apply (IH u1); try done. by rewrite E1.
Qed.
End stored.

(** ** Reading the devices back *)
Section read.
Context `{Crypto} `{Codec} `{ChainLib} `{UserLib} `{UserLoaderLib}.
Implicit Types (u : UserLoader).

Lemma import_hepks_Ok (l : list (bytes * HEPK)) acc :
  (∀ fp h, (fp, h) ∈ l → HEPK_Fingerprint h = Ok fp) →
  import_hepks l.*2 acc = Ok (foldl (λ m p, <[p.1 := p.2]> m) acc l).
Proof.
  revert acc. induction l as [|[fp h] l IH]; intros acc Hl; [done|]. cbn [fmap list_fmap snd import_hepks].
  rewrite (Hl fp h) by set_solver. cbn [mbind result_bind]. rewrite IH by set_solver. done.
Qed.

Lemma foldl_insert_lookup {A} (l : list (bytes * A)) (acc : gmap bytes A) k :
  NoDup l.*1 →
  foldl (λ m p, <[p.1 := p.2]> m) acc l !! k =
  match (list_to_map l : gmap bytes A) !! k with Some v => Some v | None => acc !! k end.
Proof.
  revert acc. induction l as [|[k' v] l IH]; intros acc Hn; simpl; [by rewrite lookup_empty|].
  apply NoDup_cons in Hn as [Hk Hn]. rewrite IH by done. rewrite !lookup_insert.
  destruct (decide (k' = k)) as [->|]; [|done].
  by rewrite (not_elem_of_list_to_map_1 l k Hk).
Qed.

Lemma ImportHEPKSet_export (m : HEPKSet) :
  (∀ fp h, m !! fp = Some h → HEPK_Fingerprint h = Ok fp) → ImportHEPKSet (map_to_list m).*2 = Ok m.
Proof.
  intros Hm. unfold ImportHEPKSet. rewrite import_hepks_Ok; [|intros fp h ?%elem_of_map_to_list; by apply Hm].
  f_equal. apply map_eq. intros k. rewrite foldl_insert_lookup by apply NoDup_fst_map_to_list.
  rewrite list_to_map_to_list, lookup_empty. by destruct (m !! k).
Qed.

(** Reading one record. *)
Lemma read_device_one host u k di ps rest :
  imports host (hepks u) k di ps →
  read_devices host u (di :: rest) = read_devices host (put_device u k ps di) rest.
Proof. intros [Hi Hk]. cbn [read_devices]. by rewrite Hi; simpl; rewrite addDeviceKey_put, Hk. Qed.

(** Reading records of [k] that are revoked adds them to its history, and leaves the active
    devices. *)
Lemma read_devices_revoked host u k l rest :
  Forall (λ di, ∃ ps, imports host (hepks u) k di ps) l → Forall (λ d, Revoked d ≠ None) l → l ≠ [] →
  read_devices host u (l ++ rest) =
  read_devices host (set_devices u (keys u) (<[k := default [] (devInfo u !! k) ++ l]> (devInfo u))
    (if decide (is_Some (devInfo u !! k)) then deviceOrder u else deviceOrder u ++ [k])) rest.
Proof.
  revert u. induction l as [|di l IH]; intros u Hi Hr Hne; [done|].
  apply Forall_cons in Hi as [[ps Hps] Hi]. apply Forall_cons in Hr as [Hr1 Hr]. cbn [app].
  rewrite (read_device_one _ _ _ _ _ _ Hps). unfold put_device. destruct (Revoked di); [|done]. cbn [is_nil].
  destruct l as [|di' l]; [by rewrite app_nil_l|].
  rewrite IH by done. cbn [keys devInfo deviceOrder set_devices]. rewrite lookup_insert_eq, insert_insert_eq.
  cbn [default from_option id]. rewrite <- app_assoc. done.
Qed.

(** Reading the whole history of a device. *)
Lemma read_device_history host u0 u k l rest :
  hepks u = hepks u0 → history_ok host u0 k l → devInfo u !! k = None → keys u !! k = None →
  ∃ u', read_devices host u (l ++ rest) = read_devices host u' rest ∧
    devInfo u' = <[k := l]> (devInfo u) ∧ deviceOrder u' = deviceOrder u ++ [k] ∧ hepks u' = hepks u ∧
    same_keys u u' ∧ keys u' !! k = keys u0 !! k ∧ ∀ k', k' ≠ k → keys u' !! k' = keys u !! k'.
Proof.
  intros Eh (Hi & l' & di & -> & Hl' & Hdi) Hd Hk. rewrite <- Eh in Hi, Hdi.
  apply Forall_app in Hi as [Hi1 Hi2]. rewrite Forall_singleton in Hi2. destruct Hi2 as [ps Hps].
  assert (∃ u1, read_devices host u ((l' ++ [di]) ++ rest) = read_devices host u1 ([di] ++ rest) ∧
    default [] (devInfo u1 !! k) = l' ∧ (∀ x, <[k := x]> (devInfo u1) = <[k := x]> (devInfo u)) ∧
    (if decide (is_Some (devInfo u1 !! k)) then deviceOrder u1 else deviceOrder u1 ++ [k]) = deviceOrder u ++ [k] ∧
    hepks u1 = hepks u ∧ same_keys u u1 ∧ keys u1 = keys u) as (u1 & E1 & E2 & E3 & E4 & E5 & E6 & E7).
  { rewrite <- app_assoc. destruct l' as [|d l'].
    - exists u. rewrite Hd. done.
    - eexists. rewrite (read_devices_revoked host u k (d :: l')) by done. split; [done|]. cbn.
      rewrite Hd. cbn. rewrite lookup_insert_eq. cbn. repeat split; try done. intros x. by rewrite insert_insert_eq. }
  rewrite E1. cbn [app]. rewrite (read_device_one host u1 k di ps) by (by rewrite E5).
  eexists. split; [done|]. cbn [devInfo deviceOrder hepks put_device set_devices keys].
  rewrite E2, E3, E4, E5, E7. split; [done|]. split; [done|]. split; [done|].
  split; [done|]. destruct (Revoked di); cbn [is_nil].
  - by rewrite Hk, Hdi.
  - destruct Hdi as (ps' & Hps' & ->). rewrite lookup_insert_eq. destruct Hps as [Hps _], Hps' as [Hps' _].
    rewrite Hps in Hps'. injection Hps' as <-. split; [done|]. intros k' Hne. by rewrite lookup_insert_ne.
Qed.

Lemma read_devices_Ok host u0 ks infos u :
  hepks u = hepks u0 → NoDup ks → Forall2 (λ k l, devInfo u0 !! k = Some l ∧ history_ok host u0 k l) ks infos →
  (∀ k, k ∈ ks → devInfo u !! k = None ∧ keys u !! k = None) →
  ∃ u', read_devices host u (concat infos) = Ok u' ∧ hepks u' = hepks u ∧ same_keys u u' ∧
    deviceOrder u' = deviceOrder u ++ ks ∧
    (∀ k, devInfo u' !! k = if decide (k ∈ ks) then devInfo u0 !! k else devInfo u !! k) ∧
    (∀ k, keys u' !! k = if decide (k ∈ ks) then keys u0 !! k else keys u !! k).
Proof.
  intros Eh Hn Hf. revert u Eh. induction Hf as [|k l ks infos [Hl Hh] Hf IH]; intros u Eh Hd.
  { exists u. rewrite app_nil_r. split; [done|]. repeat split; try done. }
  apply NoDup_cons in Hn as [Hk Hn]. cbn [concat]. destruct (Hd k) as [Hd1 Hd2]; [set_solver|].
  destruct (read_device_history host u0 u k l (concat infos) Eh Hh Hd1 Hd2) as (u1 & -> & E1 & E2 & E3 & E4 & E5 & E6).
  destruct (IH Hn u1) as (u' & Hu' & F1 & F2 & F3 & F4 & F5); [congruence| |].
  { intros k' Hk'. assert (k' ≠ k) by set_solver. rewrite E1, lookup_insert_ne, E6 by done. apply Hd. set_solver. }
  exists u'. split; [done|]. split; [congruence|]. split.
  { destruct E4 as (? & ? & ? & ?), F2 as (? & ? & ? & ?). unfold same_keys. repeat split; congruence. }
  split; [rewrite F3, E2; by rewrite <- app_assoc|]. split; intros k'; rewrite ?F4, ?F5.
  - destruct (decide (k' ∈ ks)); [by rewrite decide_True by set_solver|]. rewrite E1, lookup_insert. case_decide as E.
    + subst. by rewrite decide_True by set_solver.
    + by rewrite decide_False by set_solver.
  - destruct (decide (k' ∈ ks)); [by rewrite decide_True by set_solver|]. destruct (decide (k' = k)) as [->|].
    + by rewrite E5, decide_True by set_solver.
    + by rewrite E6, decide_False by set_solver.
Qed.
End read.

(** ** Reading the keys back *)
Definition of_role (r : RoleKey) (p : SharedPublicSuite) : Prop := ImportRole (skRole (spsKey p)) = Ok r.
#[global] Instance of_role_dec r p : Decision (of_role r p).
Proof. unfold of_role. apply _. Defined.
Abbreviation gen_of p := (skGen (spsKey p)).

(** Keys that can be read: of valid roles, with known encryption keys, and of rising generations in
    each role. *)
Record readable (u : UserLoader) (s : list SharedPublicSuite) : Prop := {
  rd_role p : p ∈ s → ∃ r, of_role r p;
  rd_hepk p : p ∈ s → hepks u !! skHepkFp (spsKey p) = Some (spsHEPK p);
  rd_sorted r : StronglySorted Z.lt (skGen ∘ spsKey <$> (default [] (puksByRole u !! r) ++ filter (of_role r) s))
}.

Lemma sorted_above_last (l : list SharedPublicSuite) p l' g :
  StronglySorted Z.lt (skGen ∘ spsKey <$> (l ++ p :: l')) → (skGen ∘ spsKey <$> last l) = Some g → (g < gen_of p)%Z.
Proof.
  rewrite fmap_app. intros [Hlt _]%StronglySorted_app Hl. apply Hlt; [|set_solver].
  destruct (last l) as [q|] eqn:E; [|done]. injection Hl as <-. apply last_Some in E as (l0 & ->).
  apply (list_elem_of_fmap_2 (skGen ∘ spsKey)). set_solver.
Qed.

Lemma read_puks_Ok u s :
  keys_ok u → readable u s →
  ∃ u', read_puks u (spsKey <$> s) = Ok u' ∧ keys_ok u' ∧ same_devices u u' ∧ stalePUKs u' ⊆ stalePUKs u ∧
    ∀ r, default [] (puksByRole u' !! r) = default [] (puksByRole u !! r) ++ filter (of_role r) s.
Proof.
  revert u. induction s as [|p s IH]; intros u K [R1 R2 R3].
  { exists u. do 4 (split; [done|]). intros r. by rewrite app_nil_r. }
  destruct (R1 p) as [rk Hr]; [set_solver|]. cbn [fmap list_fmap read_puks]. unfold HEPKSet_Lookup.
  rewrite (R2 p) by set_solver. cbn [of_option mbind result_bind].
  assert (addPuk u p = Ok (put_puk u rk p)) as Ha.
  { apply addPuk_put; [done|]. exists rk. split; [done|]. split; [|done]. intros g Hg. specialize (R3 rk).
    rewrite filter_cons_True in R3 by done. eapply sorted_above_last; [apply R3|].
    apply (keys_ok_gen u rk g K) in Hg as (l & q & -> & Hq & <-). simpl. by rewrite Hq. }
  replace (ImportSharedPublicSuite (spsKey p) (spsHEPK p)) with p by (by destruct p). rewrite Ha. cbn [mbind result_bind].
  assert (∀ r, default [] (puksByRole (put_puk u rk p) !! r) ++ filter (of_role r) s =
               default [] (puksByRole u !! r) ++ filter (of_role r) (p :: s)) as Hp.
  { intros r. cbn [puksByRole put_puk set_puks]. rewrite lookup_insert. case_decide as E.
    - subst r. rewrite filter_cons_True by done. cbn. by rewrite <- app_assoc.
    - rewrite filter_cons_False; [done|]. unfold of_role in *. congruence. }
  destruct (IH (put_puk u rk p)) as (u' & Hu' & K' & D' & S' & B').
  { apply put_puk_ok; [done..|]. apply addPuk_put in Ha as (rk' & Hr' & Hg & _); [|done].
    unfold of_role in Hr. rewrite Hr in Hr'. injection Hr' as <-. done. }
  { split; [intros q Hq; apply R1; set_solver|intros q Hq; apply R2; set_solver|]. intros r. by rewrite Hp. }
  exists u'. split; [done|]. split; [done|]. split; [done|]. split; [|intros r; rewrite B'; apply Hp].
  etrans; [apply S'|]. simpl. set_solver.
Qed.

(** The keys of a loader are determined by the keys of each role. *)
Lemma keys_ok_determined u u' :
  keys_ok u → keys_ok u' → (∀ r, default [] (puksByRole u' !! r) = default [] (puksByRole u !! r)) →
  puksByRole u' = puksByRole u ∧ pukGens u' = pukGens u ∧ puks u' = puks u.
Proof.
  intros K K' Hd. assert (puksByRole u' = puksByRole u) as E.
  { apply map_eq. intros r. specialize (Hd r).
    destruct (puksByRole u' !! r) as [l'|] eqn:E', (puksByRole u !! r) as [l|] eqn:E; simpl in Hd; subst; try done.
    - by destruct (ko_sorted u' K' r [] E').
    - by destruct (ko_sorted u K r [] E). }
  split; [done|]. split.
  - apply map_eq. intros r. by rewrite (ko_gens u K), (ko_gens u' K'), E.
  - apply map_eq. intros [r g]. apply option_eq. intros p. by rewrite (ko_puks u K), (ko_puks u' K'), E.
Qed.

(** ** The order of the saved keys *)
Definition puk_le (x y : RoleKey * Z) : Prop := (rk_lt x.1 y.1 ∨ x.1 = y.1 ∧ x.2 ≤ y.2)%Z.

(** The comparison is this order on keys of roles of which two are not members of different levels, with
    generations of 63 bits. *)
Lemma puk_cmp_spec x y rx ry :
  ImportRole (skRole x) = Ok rx → ImportRole (skRole y) = Ok ry →
  (Typ rx = RoleType_MEMBER → Typ ry = RoleType_MEMBER → rx = ry) →
  (0 ≤ skGen x < 2 ^ 63)%Z → (0 ≤ skGen y < 2 ^ 63)%Z →
  ((puk_cmp x y < 0)%Z ↔ rk_lt rx ry ∨ rx = ry ∧ (skGen x < skGen y)%Z) ∧
  ((0 < puk_cmp x y)%Z ↔ rk_lt ry rx ∨ rx = ry ∧ (skGen y < skGen x)%Z).
Proof.
  intros Hx Hy Hm Gx Gy. unfold puk_cmp, Role_Cmp. rewrite (GetT_imported _ _ Hx), (GetT_imported _ _ Hy).
  cbn [mbind result_bind]. unfold RoleType_Cmp.
  pose proof (ImportRole_valid _ _ Hx) as Vx. pose proof (ImportRole_valid _ _ Hy) as Vy.
  assert (wrapS64 (skGen x - skGen y) = skGen x - skGen y)%Z as Hw.
  { unfold wrapS64. rewrite Z.mod_small by lia. lia. }
  destruct (Z.eqb_spec (Typ rx) (Typ ry)) as [Et|Et]; cbn [nz Z.eqb negb].
  - assert (rx = ry) as ->.
    { destruct (decide (Typ ry = RoleType_MEMBER)); [apply Hm; congruence|].
      destruct rx, ry; simpl in *. subst. f_equal.
      pose proof (rk_valid_level _ Vx). pose proof (rk_valid_level _ Vy). simpl in *. intuition congruence. }
    pose proof (rk_lt_irrefl ry).
    destruct (Z.eqb_spec (Typ ry) RoleType_MEMBER) as [Em|Em]; cbn [negb].
    + rewrite (Member_imported _ _ Hx Em), (Member_imported _ _ Hy Em).
      cbn [mbind result_bind]. rewrite Z.ltb_irrefl. cbn [nz Z.eqb negb]. rewrite Hw. intuition lia.
    + cbn [nz Z.eqb negb]. rewrite Hw. intuition lia.
  - assert (rx ≠ ry) by congruence. destruct (Z.ltb_spec (Typ rx) (Typ ry)); cbn [nz Z.eqb negb]; unfold rk_lt;
      split; split; intros; try lia; naive_solver lia.
Qed.

(** ** Saving *)
Definition suites (u : UserLoader) : list SharedPublicSuite := (map_to_list (puks u)).*2.

(** The order of the saved keys is an order. *)
Record orderly (u : UserLoader) : Prop := {
  od_member r1 r2 : is_Some (pukGens u !! r1) → is_Some (pukGens u !! r2) →
    Typ r1 = RoleType_MEMBER → Typ r2 = RoleType_MEMBER → r1 = r2;
  od_gen p : p ∈ suites u → (0 ≤ gen_of p < 2 ^ 63)%Z
}.

Section save.
Implicit Types (u : UserLoader).

Lemma elem_of_suites u p : keys_ok u → p ∈ suites u ↔ ∃ r l, puksByRole u !! r = Some l ∧ p ∈ l.
Proof.
  intros K. unfold suites. rewrite list_elem_of_fmap. split.
  - intros ([[r g] q] & -> & Hq). apply elem_of_map_to_list, (ko_puks u K) in Hq as (l & ? & ? & _). by exists r, l.
  - intros (r & l & Hl & Hp). exists (mkRoleKeyAndGen r (gen_of p), p). split; [done|].
    apply elem_of_map_to_list, (ko_puks u K). by exists l.
Qed.

Lemma suites_role u p :
  keys_ok u → p ∈ suites u → ∃ r, of_role r p ∧ is_Some (pukGens u !! r) ∧ p ∈ default [] (puksByRole u !! r).
Proof.
  intros K (r & l & Hl & Hp)%elem_of_suites; [|done]. exists r. split; [by eapply ko_roles|].
  rewrite (ko_gens u K), Hl. split; [by eexists|done].
Qed.

Lemma suites_NoDup u : keys_ok u → NoDup (suites u).
Proof.
  intros K. unfold suites. apply NoDup_fmap_2_strong; [|apply NoDup_map_to_list].
  intros [[r1 g1] p1] [[r2 g2] p2] H1 H2 E. simpl in E. subst p2.
  apply elem_of_map_to_list, (ko_puks u K) in H1 as (l1 & Hl1 & Hp1 & <-).
  apply elem_of_map_to_list, (ko_puks u K) in H2 as (l2 & Hl2 & Hp2 & <-).
  pose proof (ko_roles u K _ _ _ Hl1 Hp1). pose proof (ko_roles u K _ _ _ Hl2 Hp2). congruence.
Qed.

Lemma role_list_NoDup u r : keys_ok u → NoDup (default [] (puksByRole u !! r)).
Proof.
  intros K. destruct (puksByRole u !! r) as [l|] eqn:E; simpl; [|constructor].
  destruct (ko_sorted u K r l E) as [_ Hs]. apply (NoDup_fmap_1 (skGen ∘ spsKey)).
  induction Hs as [|x xs _ IH Hx]; constructor; [|done]. intros Hin. rewrite Forall_forall in Hx.
  specialize (Hx x Hin). lia.
Qed.

Lemma filter_suites u r : keys_ok u → filter (of_role r) (suites u) ≡ₚ default [] (puksByRole u !! r).
Proof.
  intros K. apply NoDup_Permutation; [by apply NoDup_filter, suites_NoDup|by apply role_list_NoDup|].
  intros p. rewrite list_elem_of_filter. split.
  - intros [Hr Hp]. destruct (suites_role u p K Hp) as (r' & Hr' & _ & Hin). unfold of_role in *. congruence.
  - destruct (puksByRole u !! r) as [l|] eqn:E; simpl; [|by intros ?%elem_of_nil].
    intros Hp. split; [by eapply ko_roles|]. apply elem_of_suites; eauto.
Qed.

Lemma role_list_sorted u r : keys_ok u → StronglySorted Z.lt (skGen ∘ spsKey <$> default [] (puksByRole u !! r)).
Proof.
  intros K. destruct (puksByRole u !! r) as [l|] eqn:E; simpl; [by eapply ko_sorted|constructor].
Qed.

Lemma lex_trans r1 r2 r3 g1 g2 g3 :
  ¬ (rk_lt r2 r1 ∨ r1 = r2 ∧ g2 < g1)%Z → ¬ (rk_lt r3 r2 ∨ r2 = r3 ∧ g3 < g2)%Z →
  ¬ (rk_lt r3 r1 ∨ r1 = r3 ∧ g3 < g1)%Z.
Proof.
  assert (∀ r r', r = r' ↔ Typ r = Typ r' ∧ Lev r = Lev r') as E by (intros [] []; simpl; naive_solver).
  rewrite !E. unfold rk_lt. lia.
Qed.

Lemma role_list_inj u r p q :
  keys_ok u → p ∈ default [] (puksByRole u !! r) → q ∈ default [] (puksByRole u !! r) → gen_of p = gen_of q → p = q.
Proof.
  intros K Hp Hq Hg. destruct (puksByRole u !! r) as [l|] eqn:E; simpl in *; [|by apply elem_of_nil in Hp].
  assert (puks u !! mkRoleKeyAndGen r (gen_of p) = Some p) as E1 by (apply (ko_puks u K); eauto).
  assert (puks u !! mkRoleKeyAndGen r (gen_of p) = Some q) as E2 by (apply (ko_puks u K); eauto). congruence.
Qed.

Lemma StronglySorted_fmap_inv {A B} (f : A → B) (R : relation B) (S : relation A) l :
  StronglySorted R (f <$> l) → (∀ x y, x ∈ l → y ∈ l → R (f x) (f y) → S x y) → StronglySorted S l.
Proof.
  induction l as [|x l IH]; [constructor|]. rewrite fmap_cons. intros Hs HS.
  apply StronglySorted_inv in Hs as [Hs Hx]. constructor.
  - apply IH; [done|]. intros ? ? ? ?. apply HS; set_solver.
  - rewrite Forall_fmap, Forall_forall in Hx. apply Forall_forall. intros y Hy. apply HS; [set_solver..|by apply Hx].
Qed.

Lemma StronglySorted_filter {A} (R : relation A) P `{∀ x, Decision (P x)} l :
  StronglySorted R l → StronglySorted R (filter P l).
Proof.
  induction 1 as [|x l Hl IH Hx]; [constructor|]. rewrite filter_cons. case_decide; [|done].
  constructor; [done|]. rewrite Forall_forall in Hx. apply Forall_forall.
  intros y [_ Hy]%list_elem_of_filter. by apply Hx.
Qed.

(** The comparison of two of the keys. *)
Lemma suites_cmp u p q :
  keys_ok u → orderly u → p ∈ suites u → q ∈ suites u →
  ∃ rp rq, of_role rp p ∧ of_role rq q ∧
  ((puk_cmp (spsKey p) (spsKey q) < 0)%Z ↔ rk_lt rp rq ∨ rp = rq ∧ (gen_of p < gen_of q)%Z) ∧
  ((0 < puk_cmp (spsKey p) (spsKey q))%Z ↔ rk_lt rq rp ∨ rp = rq ∧ (gen_of q < gen_of p)%Z).
Proof.
  intros K [O1 O2] Hp Hq. destruct (suites_role u p K Hp) as (rp & Hrp & Sp & _).
  destruct (suites_role u q K Hq) as (rq & Hrq & Sq & _). exists rp, rq. split; [done|]. split; [done|].
  apply puk_cmp_spec; try done; [|by apply O2|by apply O2]. intros ? ?. by apply O1.
Qed.

Context `{SortLaws}.

Lemma sorted_suites u :
  keys_ok u → orderly u →
  ∃ s, slices_SortFunc puk_cmp (spsKey <$> suites u) = spsKey <$> s ∧ s ≡ₚ suites u ∧
       ∀ r, filter (of_role r) s = default [] (puksByRole u !! r).
Proof.
  intros K O. pose proof (sort_perm puk_cmp (spsKey <$> suites u)) as Hperm.
  apply Permutation_map_inv in Hperm as (s & Es & Hs). exists s. split; [done|]. split; [done|].
  assert (StronglySorted (λ x y, puk_cmp x y ≤ 0)%Z (spsKey <$> s)) as Hsort.
  { unfold fmap, list_fmap. fold (map spsKey s). rewrite <- Es. apply sort_sorted.
    - intros x y (p & -> & Hp)%list_elem_of_fmap (q & -> & Hq)%list_elem_of_fmap.
      destruct (suites_cmp u p q K O Hp Hq) as (rp & rq & Hrp & Hrq & H1 & _).
      destruct (suites_cmp u q p K O Hq Hp) as (rq' & rp' & Hrq' & Hrp' & _ & H2). unfold of_role in *.
      assert (rp' = rp) as -> by congruence. assert (rq' = rq) as -> by congruence. rewrite H1, H2. intuition congruence.
    - intros x y z (p & -> & Hp)%list_elem_of_fmap (q & -> & Hq)%list_elem_of_fmap (t & -> & Ht)%list_elem_of_fmap.
      destruct (suites_cmp u p q K O Hp Hq) as (rp & rq & Hrp & Hrq & _ & H1).
      destruct (suites_cmp u q t K O Hq Ht) as (rq' & rt & Hrq' & Hrt & _ & H2).
      destruct (suites_cmp u p t K O Hp Ht) as (rp' & rt' & Hrp' & Hrt' & _ & H3). unfold of_role in *.
      assert (rp' = rp) as -> by congruence. assert (rq' = rq) as -> by congruence. assert (rt' = rt) as -> by congruence.
      rewrite <- !Z.nlt_ge, H1, H2, H3. apply lex_trans. }
  intros r. apply (StronglySorted_unique_strong (λ x y, gen_of x ≤ gen_of y)%Z).
  - intros x y [Hx Hxs]%list_elem_of_filter Hy L1 L2. rewrite <- Hs in Hxs.
    apply (role_list_inj u r); [done| |done|lia].
    destruct (suites_role u x K Hxs) as (r' & Hr' & _ & ?). unfold of_role in *. congruence.
  - apply (StronglySorted_fmap_inv id (λ x y, of_role r x → of_role r y → gen_of x ≤ gen_of y)%Z).
    + rewrite list_fmap_id. apply StronglySorted_filter. apply (StronglySorted_fmap_inv spsKey _ _ _ Hsort).
      intros x y Hx Hy Hle Rx Ry. rewrite <- Hs in Hx, Hy.
      destruct (suites_cmp u x y K O Hx Hy) as (rx & ry & Hrx & Hry & _ & Hgt). unfold of_role in *.
      destruct (decide (gen_of y < gen_of x)%Z); [|lia]. exfalso. apply Z.le_ngt in Hle. apply Hle, Hgt. right.
      split; [congruence|done].
    + intros x y [Hx _]%list_elem_of_filter [Hy _]%list_elem_of_filter Hxy. by apply Hxy.
  - eapply (StronglySorted_fmap_inv (skGen ∘ spsKey)); [by apply role_list_sorted|]. intros x y _ _ ?. simpl in *. lia.
  - rewrite <- Hs. by apply filter_suites.
Qed.
End save.

(** ** The round trip *)
Lemma mapM_r_total {A B} (f : A → result B) l : (∀ x, x ∈ l → is_ok (f x) = true) → ∃ l', mapM_r f l = Ok l'.
Proof.
  induction l as [|x l IH]; intros Hl; [by exists []|]. simpl. destruct (f x) as [y|] eqn:E; simpl.
  - destruct IH as [l' ->]; [intros; apply Hl; set_solver|]. by eexists.
  - specialize (Hl x ltac:(set_solver)). by rewrite E in Hl.
Qed.

Lemma StaleKeys_Import_Ok (l : list RoleKey) s :
  (∀ r, r ∈ l → rk_valid r) → StaleKeys_Import s (map Role.Export l) = Ok (list_to_set l ∪ s).
Proof.
  revert s. induction l as [|r l IH]; intros s Hl; simpl; [f_equal; set_solver|].
  rewrite (proj2 (ImportRole_Export r)) by (apply Hl; set_solver). simpl. rewrite IH by (intros; apply Hl; set_solver).
  f_equal. set_solver.
Qed.

Section roundtrip.
Context `{Crypto} `{Codec} `{ChainLib} `{UserLib} `{SortLaws}.
Implicit Types (u : UserLoader).

(** Every state can be saved. *)
Lemma saveState_Ok host u existing odcs odc h :
  user_ok host u → last odcs = Some odc →
  ∃ st infos, saveState u existing odcs (Some h) = Ok st ∧
    usPuks st = slices_SortFunc puk_cmp (spsKey <$> suites u) ∧ usDevices st = concat infos ∧
    Forall2 (λ k l, devInfo u !! k = Some l) (deviceOrder u) infos ∧
    usHepks st = (map_to_list (hepks u)).*2 ∧ usStalePUKs st = StaleKeys_Export (stalePUKs u) ∧
    usSctlsc st = default zero_TreeLocationCommitment (sctlsc u).
Proof.
  intros [K D] Hl. unfold saveState. rewrite Hl. cbn [of_option mbind result_bind].
  assert (∃ x, (if (2 <=? len (spsKey <$> suites u))%Z then mapM_r (λ k, GetT (skRole k)) (spsKey <$> suites u) else Ok []) = Ok x)
    as [x Hx].
  { destruct (2 <=? _)%Z; [|by eexists]. apply mapM_r_total. intros k (p & -> & Hp)%list_elem_of_fmap.
    destruct (suites_role u p K Hp) as (r & Hr & _). by rewrite (GetT_imported _ _ Hr). }
  unfold sort_puks. fold (suites u). rewrite Hx. cbn [mbind result_bind]. unfold save_devices.
  destruct (mapM_r_total (λ did, of_option (InternalError "device not found in saveState") (devInfo u !! did)) (deviceOrder u))
    as [infos Hi].
  { intros k Hk. apply (do_dom host u D) in Hk as [l ->]. done. }
  rewrite Hi. cbn [mbind result_bind]. eexists _, infos. split; [done|]. repeat (split; [done|]). split; [|done].
  apply mapM_r_Ok in Hi. eapply Forall2_impl; [done|]. intros k l Hkl. by apply of_option_Ok in Hkl.
Qed.

Lemma saved_state_loads_aux host u existing odcs odc h leaves :
  user_ok host u → storable host u → orderly u → last odcs = Some odc →
  ∃ st u', saveState u existing odcs (Some h) = Ok st ∧
    loadExistingUser host (new_UserLoader leaves) (Some st) = Ok u' ∧ same_devices u u' ∧ same_keys u u'.
Proof.
  intros U S O Hl. destruct (saveState_Ok host u existing odcs odc h U Hl)
    as (st & infos & Hst & Ep & Ed & Hi & Eh & Es & Ec). exists st. destruct U as [K D].
  unfold loadExistingUser, readKeysFromState. rewrite Eh, (ImportHEPKSet_export _ (st_hepks host u S)).
  cbn [mbind result_bind]. rewrite Ed.
  destruct (read_devices_Ok host u (deviceOrder u) infos (set_hepks (new_UserLoader leaves) (hepks u)))
    as (u1 & Hu1 & H1h & H1k & H1o & H1d & H1a).
  { done. }
  { apply (do_order host u D). }
  { eapply Forall2_impl; [done|]. intros k l Hkl. split; [done|]. by apply (st_history host u S). }
  { intros k _. split; apply lookup_empty. }
  rewrite Hu1. cbn [mbind result_bind]. unfold readPuksFromState. rewrite Ep.
  destruct (sorted_suites u K O) as (s & -> & Hs & Hf).
  pose proof H1k as (E1 & E2 & E3 & E4). simpl in E1, E2, E3, E4.
  assert (keys_ok u1) as K1.
  { apply (keys_ok_same (set_hepks (new_UserLoader leaves) (hepks u))); [done|].
    apply (user_ok_hepks host), new_UserLoader_ok. }
  destruct (read_puks_Ok u1 s K1) as (u2 & Hu2 & K2 & D2 & S2 & B2).
  { split.
    - intros p Hp. rewrite Hs in Hp. destruct (suites_role u p K Hp) as (r & ? & _). by exists r.
    - intros p Hp. rewrite Hs in Hp. rewrite H1h. simpl. apply elem_of_suites in Hp as (r & l & ? & ?); [|done].
      by eapply (st_puks host u S).
    - intros r. rewrite E2, lookup_empty, Hf. simpl. by apply role_list_sorted. }
  rewrite Hu2. cbn [mbind result_bind]. unfold readStaleKeys. rewrite Es. unfold StaleKeys_Export.
  assert (stalePUKs u2 = ∅) as Est by (rewrite E4 in S2; set_solver).
  rewrite StaleKeys_Import_Ok.
  2: { intros r Hr. rewrite (sort_perm RoleKey_Cmp (elements (stalePUKs u))) in Hr. apply elem_of_elements in Hr.
       apply (ko_stale u K), elem_of_dom in Hr as [g Hg]. apply (keys_ok_gen u r g K) in Hg as (l & p & Hl' & Hp & _).
       apply (ImportRole_valid (skRole (spsKey p))). eapply (ko_roles u K); [done|].
       apply last_Some in Hp as (? & ->). set_solver. }
  cbn [mbind result_bind]. eexists. split; [done|]. split; [done|].
  destruct D2 as (F1 & F2 & F3 & F4). split.
  - unfold same_devices. simpl. rewrite F1, F2, F3, F4, H1h, H1o. split; [|split; [|done]]; apply map_eq; intros k.
    + rewrite H1a. case_decide as Hk; [done|]. simpl. rewrite lookup_empty. symmetry. apply eq_None_not_Some. intros ?.
      apply Hk, (do_dom host u D). by apply (st_known host u S).
    + rewrite H1d. case_decide as Hk; [done|]. simpl. rewrite lookup_empty. symmetry. apply eq_None_not_Some. intros ?.
      by apply Hk, (do_dom host u D).
  - destruct (keys_ok_determined u u2 K K2) as (G1 & G2 & G3).
    { intros r. by rewrite B2, E2, lookup_empty, Hf. }
    unfold same_keys. simpl. split; [done|]. split; [done|]. split; [done|]. rewrite Est.
    rewrite (right_id_L ∅ (∪)). apply leibniz_equiv. intros r. rewrite elem_of_list_to_set.
    rewrite (sort_perm RoleKey_Cmp (elements (stalePUKs u))). apply elem_of_elements.
Qed.
End roundtrip.

Section claims.
Context `{Crypto} `{Codec} `{ChainLib} `{UserLib} `{SortLaws}.
Implicit Types (arg : LoadUserArg) (u : UserLoader) (odc : OpenDeviceChangeRes).

(** C22: The state that is saved after playing links, none of which adds an active device, is loaded back
    with the same devices, device histories, keys, generations and stale roles, if no two roles with keys
    are member roles of different levels and the generations have 63 bits; the loaded state can be
    saved again. *)
Theorem saved_state_loads arg u0 odcs odc u existing h leaves :
  user_ok (luHost arg) u0 → storable (luHost arg) u0 → Forall (opened_with (hepks u0) (luHost arg)) odcs →
  fresh_links arg u0 odcs → last odcs = Some odc → playLinks arg u0 odcs = Ok u → orderly u →
  ∃ st u', saveState u existing odcs (Some h) = Ok st ∧
    loadExistingUser (luHost arg) (new_UserLoader leaves) (Some st) = Ok u' ∧
    same_devices u u' ∧ same_keys u u' ∧ user_ok (luHost arg) u' ∧ storable (luHost arg) u'.
Proof.
  intros U S W F Hl Hp O. destruct (playLinks_storable arg u0 odcs u U S W F Hp) as [U' S'].
  destruct (saved_state_loads_aux (luHost arg) u existing odcs odc h leaves U' S' O Hl) as (st & u' & ? & ? & Sd & Sk).
  exists st, u'. do 4 (split; [done|]). split; [by eapply user_ok_same|by eapply storable_same].
Qed.

Lemma read_devices_keeps host u ds u' k :
  read_devices host u ds = Ok u' → is_Some (keys u !! k) → is_Some (keys u' !! k).
Proof.
  revert u. induction ds as [|d ds IH]; intros u Hr Hk; cbn [read_devices] in Hr; [by injection Hr as <-|].
  apply bind_Ok in Hr as (ps & _ & Hr). apply bind_Ok in Hr as (u1 & Ha & Hr). apply (IH u1 Hr).
  rewrite addDeviceKey_put in Ha. apply bind_Ok in Ha as (k' & _ & [= <-]). simpl.
  destruct (is_nil _); [|done]. rewrite lookup_insert_is_Some'. by right.
Qed.

(** A record that is not revoked makes its device active. *)
Lemma read_devices_active host u ds u' k di ps :
  read_devices host u ds = Ok u' → di ∈ ds → Revoked di = None → imports host (hepks u) k di ps →
  is_Some (keys u' !! k).
Proof.
  revert u. induction ds as [|d ds IH]; intros u Hr Hin Hn Hi; [by apply elem_of_nil in Hin|].
  apply elem_of_cons in Hin as [->|Hin].
  - rewrite (read_device_one _ _ _ _ _ _ Hi) in Hr. eapply read_devices_keeps; [done|]. simpl. rewrite Hn. simpl.
    by rewrite lookup_insert_eq.
  - cbn [read_devices] in Hr. apply bind_Ok in Hr as (ps' & _ & Hr). apply bind_Ok in Hr as (u1 & Ha & Hr).
    apply (IH u1); try done. rewrite addDeviceKey_put in Ha. by apply bind_Ok in Ha as (k' & _ & [= <-]).
Qed.

Lemma read_puks_keys u ks u' : read_puks u ks = Ok u' → keys u' = keys u.
Proof.
  revert u. induction ks as [|sk ks IH]; intros u Hr; cbn [read_puks] in Hr; [by injection Hr as <-|].
  apply bind_Ok in Hr as (w & _ & Hr). apply bind_Ok in Hr as (u1 & Ha & Hr). rewrite (IH u1 Hr).
  unfold addPuk in Ha. do 3 (apply bind_Ok in Ha as (? & _ & Ha)). by injection Ha as <-.
Qed.

(** The record that was active before the device was added again is kept as it was. *)
Lemma readded_record arg u odc1 u1 odc2 u2 k nd :
  user_ok (luHost arg) u → storable (luHost arg) u →
  opened odc1 → opened odc2 → link_seqno odc1 ≠ 1%Z → link_seqno odc2 ≠ 1%Z →
  newDevice odc1 = Some nd → dev_key (luHost arg) (psEntityID nd) = Ok k → is_Some (keys u !! k) →
  playLink arg u odc1 = Ok u1 → playLink arg u1 odc2 = Ok u2 → keys u2 !! k = None →
  hepks u2 = hepks u ∧ ∃ l d ps, devInfo u2 !! k = Some l ∧ d ∈ l ∧ Revoked d = None ∧
                                 imports (luHost arg) (hepks u) k d ps.
Proof.
  intros U S O1 O2 Hs1 Hs2 Hnd Hk [p Hp] Hl1 Hl2 Hno.
  pose proof (playLink_step arg u odc1 u1 U O1 Hl1) as [U1 _].
  destruct (st_known _ u S k) as [l Hl]; [by rewrite Hp|].
  destruct (st_history _ u S k l Hl) as (Him & l' & d & -> & _ & Hd).
  destruct (Revoked d) eqn:Er; [congruence|]. destruct Hd as (ps & Hps & _).
  assert (hepks u1 = hepks u ∧ is_Some (keys u1 !! k) ∧ ∃ d', devInfo u1 !! k = Some (l' ++ [d; d'])) as (E1 & Ha & d' & Hd').
  { destruct (playLink_devices arg u odc1 u1 U O1 Hs1 Hl1)
      as [?|nd' k' di Hnd' Hk' Hr' (F1 & F2 & _ & F4)|]; [congruence| |congruence].
    rewrite Hnd in Hnd'. injection Hnd' as <-. rewrite Hk in Hk'. injection Hk' as <-. split; [done|]. split.
    - rewrite F1. simpl. rewrite Hr'. simpl. by rewrite lookup_insert_eq.
    - exists di. rewrite F2. simpl. rewrite lookup_insert_eq, Hl. simpl. by rewrite <- app_assoc. }
  assert (hepks u2 = hepks u ∧ ∃ l2, devInfo u2 !! k = Some l2 ∧ d ∈ l2) as (Eh & l2 & Hl2' & Hin); [|by split; [done|]; exists l2, d, ps].
  { destruct (playLink_devices arg u1 odc2 u2 U1 O2 Hs2 Hl2)
      as [_ (F1 & _)|nd' k' di _ _ Hr' (F1 & _)|k' l1 di rv rk _ Hk' (F1 & F2 & _ & F4)].
    - rewrite <- F1, Hno in Ha. by destruct Ha.
    - rewrite F1 in Hno. simpl in Hno. rewrite Hr' in Hno. simpl in Hno. rewrite lookup_insert in Hno.
      case_decide; [done|]. rewrite Hno in Ha. by destruct Ha.
    - split; [simpl in F4; congruence|]. rewrite F1 in Hno. simpl in Hno. destruct (decide (k' = k)) as [->|].
      + rewrite F2. simpl. rewrite lookup_insert_eq. eexists. split; [done|]. rewrite Hk' in Hd'.
        replace (l' ++ [d; d']) with ((l' ++ [d]) ++ [d']) in Hd' by (by rewrite <- app_assoc).
        injection Hd' as [-> _]%app_inj_tail. set_solver.
      + rewrite lookup_delete_ne in Hno by done. rewrite Hno in Ha. by destruct Ha. }
Qed.

(** A record that is saved and not revoked makes its device active. *)
Lemma saved_record_active host u existing odcs h st leaves u' k l d ps :
  user_ok host u → (∀ fp x, hepks u !! fp = Some x → HEPK_Fingerprint x = Ok fp) →
  devInfo u !! k = Some l → d ∈ l → Revoked d = None → imports host (hepks u) k d ps → odcs ≠ [] →
  saveState u existing odcs (Some h) = Ok st →
  loadExistingUser host (new_UserLoader leaves) (Some st) = Ok u' → is_Some (keys u' !! k).
Proof.
  intros U Hf Hl Hin Hr Hi Hne Hsv Hld.
  destruct (last odcs) as [odc|] eqn:Elast; [|by apply last_None in Elast].
  destruct (saveState_Ok _ u existing odcs odc h U Elast) as (st' & infos & Hst & _ & Ed & Hinf & Ehs & _).
  rewrite Hsv in Hst. injection Hst as <-. unfold loadExistingUser, readKeysFromState in Hld.
  apply bind_Ok in Hld as (u3 & Hrk & Hld). apply bind_Ok in Hrk as (hs & Hhs & Hrd).
  rewrite Ehs, ImportHEPKSet_export in Hhs by done. injection Hhs as <-.
  assert (is_Some (keys u3 !! k)) as Hk3.
  { eapply read_devices_active; [done| |done|done]. rewrite Ed. apply list_elem_of_In, in_concat. exists l.
    split; [|by apply list_elem_of_In]. apply list_elem_of_In.
    assert (k ∈ deviceOrder u) as [i Hi']%list_elem_of_lookup by (apply (do_dom _ u (uo_devices _ u U)); by rewrite Hl).
    destruct (Forall2_lookup_l _ _ _ _ _ Hinf Hi') as (l3 & Hl3 & Hl3'). rewrite Hl in Hl3'. injection Hl3' as <-.
    by eapply list_elem_of_lookup_2. }
  apply bind_Ok in Hld as (u4 & Hpk & Hld). apply bind_Ok in Hld as (u5 & Hst & [= <-]).
  apply bind_Ok in Hst as (? & _ & [= <-]). simpl. by rewrite (read_puks_keys _ _ _ Hpk).
Qed.

(** A device that is added while it is active and revoked afterwards is not active in the state
    that was played, and is active in the state that is saved and loaded. *)
Theorem readded_device_survives_revocation arg u odc1 u1 odc2 u2 k nd existing odcs h st leaves u' :
  user_ok (luHost arg) u → storable (luHost arg) u →
  opened odc1 → opened odc2 → link_seqno odc1 ≠ 1%Z → link_seqno odc2 ≠ 1%Z →
  newDevice odc1 = Some nd → dev_key (luHost arg) (psEntityID nd) = Ok k → is_Some (keys u !! k) →
  playLink arg u odc1 = Ok u1 → playLink arg u1 odc2 = Ok u2 → keys u2 !! k = None →
  saveState u2 existing odcs (Some h) = Ok st → odcs ≠ [] →
  loadExistingUser (luHost arg) (new_UserLoader leaves) (Some st) = Ok u' →
  is_Some (keys u' !! k).
Proof.
  intros U S O1 O2 Hs1 Hs2 Hnd Hk Hp Hl1 Hl2 Hno Hsv Hne Hld.
  destruct (readded_record arg u odc1 u1 odc2 u2 k nd U S O1 O2 Hs1 Hs2 Hnd Hk Hp Hl1 Hl2 Hno)
    as (Eh & l & d & ps & Hl & Hin & Hr & Hi). rewrite <- Eh in Hi.
  pose proof (playLink_step arg u odc1 u1 U O1 Hl1) as [U1 _].
  pose proof (playLink_step arg u1 odc2 u2 U1 O2 Hl2) as [U2 _].
  eapply (saved_record_active (luHost arg) u2); try done. rewrite Eh. apply (st_hepks _ u S).
Qed.
End claims.
