(* ===== verification/UserExamples.v ===== *)
(** * User sigchains: a concrete user

    A user with an owner device and a member device, with an instance of the third-party
    code: keys and hashes are short checksums, and the decoder of links is a table.  The
    witnesses of the theorems on users, and three chains that the checks should stop. *)
From S2P Require Import Prelude Snowp MerkleTypes Role Roster TeamRoster TeamBoxes Sigs HostChain ChainLoader UserChain UserLoader UserAccount UserPlay UserFacts UserSave.

(** ** The third-party code *)
Definition ex_sum (m : bytes) : Z := (fold_left (λ a b, (2 * a + b) mod 251) m 0)%Z.
Definition ex_sig (key m : bytes) : bytes := take 2 key ++ [ex_sum m].
#[local] Instance user_crypto : Crypto := {|
  ed25519_verify k m s := bool_decide (s = ex_sig k m);
  ed25519_Sign p m := ex_sig p m;
  ed25519_Public p := p;
  EcdsaKey := ();
  UnmarshalCompressed _ := None;
  ecdsa_Verify _ _ _ := false;
  asn1_Unmarshal _ := Err (GoError "asn1");
  Sum512_256 m := [ex_sum m];
  TypeUniqueID_Encode _ := Ok []
|}.
#[local] Instance user_codec : Codec := {|
  uid_bytes _ := [];
  sha512_256 m := take 32 (m ++ replicate 32 0%Z);
  enc_MerkleNode _ := Err (GoError "not used");
  enc_MerkleRoot _ := Err (GoError "not used");
  enc_MerkleBackPointers _ := Err (GoError "not used");
  dec_MerkleRoot _ := Err (GoError "not used");
  dec_Signature _ := Err (GoError "not used")
|}.
#[local] Instance user_chain_lib : ChainLib := {|
  enc_LinkOuter _ := Err (GoError "not used");
  enc_MerkleTreeRFInput _ := Err (GoError "not used");
  enc_TreeLocation _ := Err (GoError "not used");
  enc_ChainLocationDerivation _ := Err (GoError "not used");
  dec_LinkOuter _ := Err (GoError "not used");
  hmac_sha512_256 k m := k ++ m
|}.

(** Insertion sort. *)
Fixpoint ins {A} (cmp : A → A → Z) (x : A) (l : list A) : list A :=
  match l with
  | [] => [x]
  | y :: l => if (cmp x y <=? 0)%Z then x :: y :: l else y :: ins cmp x l
  end.
Definition ins_sort {A} (cmp : A → A → Z) (l : list A) : list A := foldr (ins cmp) [] l.

#[local] Instance user_loader_lib : UserLoaderLib := {|
  enc_DeviceLabel l := Ok (dlName l);
  slices_SortFunc A := ins_sort
|}.

Lemma ins_perm {A} (cmp : A → A → Z) x l : ins cmp x l ≡ₚ x :: l.
Proof.
  induction l as [|y l IH]; simpl; [done|]. destruct (cmp x y <=? 0)%Z; [done|].
  rewrite IH. by rewrite Permutation_swap.
Qed.
Lemma ins_sort_perm {A} (cmp : A → A → Z) l : ins_sort cmp l ≡ₚ l.
Proof. induction l as [|x l IH]; simpl; [done|]. by rewrite ins_perm, IH. Qed.

Lemma ins_sorted {A} (cmp : A → A → Z) x l :
  (∀ a b, a ∈ x :: l → b ∈ x :: l → cmp a b < 0 ↔ 0 < cmp b a)%Z →
  (∀ a b c, a ∈ x :: l → b ∈ x :: l → c ∈ x :: l → cmp a b ≤ 0 → cmp b c ≤ 0 → cmp a c ≤ 0)%Z →
  StronglySorted (λ a b, cmp a b ≤ 0)%Z l → StronglySorted (λ a b, cmp a b ≤ 0)%Z (ins cmp x l).
Proof.
  induction l as [|y l IH]; intros Ha Ht Hs; simpl; [repeat constructor|].
  apply StronglySorted_inv in Hs as [Hs Hy]. rewrite Forall_forall in Hy.
  destruct (Z.leb_spec (cmp x y) 0) as [Hle|Hgt].
  - constructor; [by constructor; [|apply Forall_forall]|]. apply Forall_forall.
    intros z [->|Hz]%elem_of_cons; [done|]. apply (Ht x y z); [set_solver..|done|by apply Hy].
  - constructor.
    + apply IH; [intros; apply Ha; set_solver|intros a b c ? ? ?; apply Ht; set_solver|done].
    + apply Forall_forall. intros z. rewrite ins_perm. intros [->|Hz]%elem_of_cons; [|by apply Hy].
      apply Z.lt_le_incl, Ha; [set_solver..|done].
Qed.
#[local] Instance user_sort_laws : SortLaws.
Proof.
  split; [intros; apply ins_sort_perm|]. intros A cmp l. induction l as [|x l IH]; intros Ha Ht; simpl; [constructor|].
  apply ins_sorted.
  - intros a b. rewrite (ins_sort_perm cmp l). apply Ha.
  - intros a b c. rewrite (ins_sort_perm cmp l). apply Ht.
  - apply IH; [intros; apply Ha; set_solver|intros a b c ? ? ?; apply Ht; set_solver].
Qed.

(** ** The user's keys *)
Definition ex_key (t n : Z) : EntityID := t :: n :: n :: replicate 30 0%Z.
Definition ex_host : HostID := 2%Z :: replicate 32 9%Z.
Definition ex_puk (n : Z) : EntityID := ex_key EntityType_PUKVerify n.
Definition ex_uid : EntityID := ex_key EntityType_User 1.
Definition ex_dev (n : Z) : EntityID := ex_key EntityType_Device n.
Definition owner : Role := NewRoleDefault RoleType_OWNER.
Definition member0 : Role := NewRoleWithMember 0.

Definition ex_hepk (n : Z) : HEPK :=
  mkHEPK HEPKVersion_V1 (Some (mkHEPKv1 (mkDHPublicKey DHType_Curve25519 (Some [n]) None) (mkKemEncapKey 1 None))).
Definition ex_enc_hepk (h : HEPK) : bytes :=
  shortest (MArr [MInt (hepk_V h); MBin (default [] (hepk_F1 h ≫= λ v, dh_F0 (Classical v)))]).
Definition ex_fp (n : Z) : bytes := Eval vm_compute in take 32 (ex_enc_hepk (ex_hepk n) ++ replicate 32 0%Z).

Definition ex_shared (g : Generation) (r : Role) (n : Z) : SharedKey := mkSharedKey g r (ex_puk n) (ex_fp n).
Definition ex_member (r : Role) (id : EntityID) (ks : MemberKeys) : proto_MemberRole :=
  mkMemberRole r (mkMember (mkFQEntityInHostScope id None) owner ks).
Definition ex_add (r : Role) (n : Z) : proto_MemberRole :=
  ex_member r (ex_dev n) (mkMemberKeys MemberKeysType_User (Some (mkUserMemberKeys (ex_fp n) None)) None).
Definition ex_remove (id : EntityID) : proto_MemberRole :=
  ex_member (NewRoleDefault RoleType_NONE) id zero_MemberKeys.

Definition ex_gc (seqno : Z) (signer : EntityID) (changes : list proto_MemberRole) (ks : list SharedKey)
    (md : list ChangeMetadata) : GroupChange :=
  mkGroupChange
    (mkHidingChainer (mkBaseChainer seqno (if (seqno =? 1)%Z then None else Some [7%Z]) {| trEpno := 5; trHash := [] |} 0) [1%Z])
    (mkFQEntity ex_uid ex_host) (mkGroupChangeSigner signer None) changes ks md None.
Definition ex_names : list ChangeMetadata := [NewChangeMetadataWithDevicename [2%Z]].

(** The links: the first one; a member device; its revocation; keys made by the member device; the member device
    added again as an owner, and revoked; the only owner revoked
    under a padded identifier; the second owner revoked by itself. *)
Definition ex_table : list GroupChange := [
  ex_gc 1 (ex_dev 1) [ex_add owner 1] [ex_shared 1 owner 1]
    [NewChangeMetadataWithUsername [1%Z]; NewChangeMetadataWithDevicename [2%Z];
     NewChangeMetadataWithEldest (mkEldestMetadata [3%Z])];
  ex_gc 2 (ex_dev 1) [ex_add member0 2] [ex_shared 1 member0 2] ex_names;
  ex_gc 3 (ex_dev 1) [ex_remove (ex_dev 2)] [ex_shared 2 member0 3] [];
  ex_gc 3 (ex_dev 2) [] [ex_shared 7 owner 4] [];
  ex_gc 3 (ex_dev 1) [ex_add owner 2] [] ex_names;
  ex_gc 4 (ex_dev 1) [ex_remove (ex_dev 2)] [ex_shared 2 member0 3; ex_shared 2 owner 4] [];
  ex_gc 2 (ex_dev 1) [ex_remove (ex_dev 1 ++ [0%Z])] [ex_shared 2 owner 4] [];
  ex_gc 4 (ex_dev 2) [ex_remove (ex_dev 2)] [] []].

#[local] Instance user_lib : UserLib := {|
  GenericLink := ();
  dec_LinkInner b :=
    match b with
    | [n] => gc ← of_option (GoError "decode") (ex_table !! Z.to_nat n); Ok (mkLinkInner LinkType_GROUP_CHANGE (Some gc) None)
    | _ => Err (GoError "decode")
    end;
  enc_LinkOuterV1 l :=
    Ok (shortest (MArr [MBin (lo1Inner l);
          match lo1Signatures l with [] => MNil | sigs => MArr (map (λ s, MBin (default [] (sig_F0 s))) sigs) end]));
  enc_HEPK h := Ok (ex_enc_hepk h)
|}.

(** Signs with the keys in turn. *)
Fixpoint ex_sign (l : LinkOuterV1) (ks : list EntityID) : LinkOuterV1 :=
  match ks with
  | [] => l
  | k :: ks =>
      let sig := match enc_LinkOuterV1 l with Ok m => ex_sig (drop 1 k) m | Err _ => [] end in
      ex_sign (mkLinkOuterV1 (lo1Inner l) (lo1Signatures l ++ [NewSignatureWithEddsa sig])) ks
  end.
Definition ex_link (n : Z) (ks : list EntityID) : LinkOuter :=
  mkLinkOuter LinkVersion_V1 (Some (ex_sign (mkLinkOuterV1 [n] []) ks)).
Definition ex_l0 := Eval vm_compute in ex_link 0 [ex_puk 1; ex_dev 1].
Definition ex_l1 := Eval vm_compute in ex_link 1 [ex_puk 2; ex_dev 2; ex_dev 1].
Definition ex_l2 := Eval vm_compute in ex_link 2 [ex_puk 3; ex_dev 1].
Definition ex_l3 := Eval vm_compute in ex_link 3 [ex_puk 4; ex_dev 2].
Definition ex_l4 := Eval vm_compute in ex_link 4 [ex_dev 2; ex_dev 1].
Definition ex_l5 := Eval vm_compute in ex_link 5 [ex_puk 3; ex_puk 4; ex_dev 1].
Definition ex_l6 := Eval vm_compute in ex_link 6 [ex_puk 4; ex_dev 1].
Definition ex_l7 := Eval vm_compute in ex_link 7 [ex_dev 2].

Definition ex_hepks : list HEPK := ex_hepk <$> [1; 2; 3; 4]%Z.
Definition ex_arg : LoadUserArg := mkLoadUserArg ex_uid ex_host 3 [].
Definition ex_leaf : MerkleLeaf := {| Key := []; Value := [] |}.
Definition ex_leaves : list MerkleLeaf := replicate 4 ex_leaf.

Definition ex_play links := play_over ex_arg None ex_hepks links ex_leaves (Some [8%Z]).

(** ** Opening the links *)
Definition ex_hs : HEPKSet := Eval vm_compute in ok_or ∅ (ImportHEPKSet ex_hepks).
Definition ex_u0 : UserLoader := set_hepks (new_UserLoader ex_leaves) ex_hs.
Definition no_odc : OpenDeviceChangeRes :=
  mkOpenDeviceChangeRes (ex_gc 0 [] [] [] []) (mkLinkOuterV1 [] []) [] None None (EntityPublicEd25519 []) [] None (EntityPublicEd25519 []).
Definition ex_open (l : LinkOuter) : OpenDeviceChangeRes :=
  ok_or no_odc (OpenDeviceChange l (hepks ex_u0) (Some ex_uid) ex_host).
Definition opens (l : LinkOuter) : bool := is_ok (OpenDeviceChange l (hepks ex_u0) (Some ex_uid) ex_host).
Definition ex_o0 := Eval vm_compute in ex_open ex_l0.
Definition ex_o1 := Eval vm_compute in ex_open ex_l1.
Definition ex_o2 := Eval vm_compute in ex_open ex_l2.
Definition ex_o3 := Eval vm_compute in ex_open ex_l3.
Definition ex_o4 := Eval vm_compute in ex_open ex_l4.
Definition ex_o5 := Eval vm_compute in ex_open ex_l5.
Definition ex_o6 := Eval vm_compute in ex_open ex_l6.

Lemma open_opened l o : OpenDeviceChange l (hepks ex_u0) (Some ex_uid) ex_host = Ok o → opened_with (hepks ex_u0) ex_host o.
Proof. apply OpenDeviceChange_with. Qed.
Lemma ex_o0_opened : opened_with (hepks ex_u0) ex_host ex_o0.
Proof. apply (open_opened ex_l0). vm_compute. reflexivity. Qed.
Lemma ex_o1_opened : opened_with (hepks ex_u0) ex_host ex_o1.
Proof. apply (open_opened ex_l1). vm_compute. reflexivity. Qed.
Lemma ex_o2_opened : opened_with (hepks ex_u0) ex_host ex_o2.
Proof. apply (open_opened ex_l2). vm_compute. reflexivity. Qed.
Lemma ex_o3_opened : opened_with (hepks ex_u0) ex_host ex_o3.
Proof. apply (open_opened ex_l3). vm_compute. reflexivity. Qed.
Lemma ex_o4_opened : opened_with (hepks ex_u0) ex_host ex_o4.
Proof. apply (open_opened ex_l4). vm_compute. reflexivity. Qed.
Lemma ex_o5_opened : opened_with (hepks ex_u0) ex_host ex_o5.
Proof. apply (open_opened ex_l5). vm_compute. reflexivity. Qed.
Lemma ex_o6_opened : opened_with (hepks ex_u0) ex_host ex_o6.
Proof. apply (open_opened ex_l6). vm_compute. reflexivity. Qed.

(** ** The states *)
Definition ex_after (odcs : list OpenDeviceChangeRes) : UserLoader := ok_or ex_u0 (playLinks ex_arg ex_u0 odcs).
Definition ex_u2 : UserLoader := ex_after [ex_o0; ex_o1].
Definition ex_u3 : UserLoader := ex_after [ex_o0; ex_o1; ex_o2].

(** *** Checks that compute *)
Definition exact_id_b (e : EntityID) : bool :=
  match EntityID_Fixed e with Ok f => bool_decide (Unfix f = Ok e) | Err _ => false end.
Definition fresh_b (u : UserLoader) (odc : OpenDeviceChangeRes) : bool :=
  match newDevice odc with
  | Some nd => match dev_key ex_host (psEntityID nd) with Ok k => is_nil (keys u !! k) | Err _ => true end
  | None => true
  end.
Definition careful_b (u : UserLoader) (odc : OpenDeviceChangeRes) : bool :=
  fresh_b u odc && forallb (λ c, exact_id_b (hsEntity (mId (mrMember c)))) (gcChanges (odGc odc)).
Fixpoint all_links (f : UserLoader → OpenDeviceChangeRes → bool) (u : UserLoader) (odcs : list OpenDeviceChangeRes) : bool :=
  match odcs with
  | [] => true
  | odc :: odcs => f u odc && match playLink ex_arg u odc with Ok u' => all_links f u' odcs | Err _ => true end
  end.

Lemma fresh_b_ok u odc : fresh_b u odc = true → fresh_device ex_host u odc.
Proof.
  unfold fresh_b. intros Hb nd k Hnd Hk. rewrite Hnd, Hk in Hb. by destruct (keys u !! k).
Qed.
Lemma careful_b_ok u odc : careful_b u odc = true → careful ex_host (acct u) odc.
Proof.
  unfold careful_b. intros [Hf Hc]%andb_true_iff. split.
  - intros nd k Hnd _ Hk. simpl. by rewrite lookup_fmap, (fresh_b_ok _ _ Hf nd k Hnd Hk).
  - intros c Hin. rewrite forallb_forall in Hc. specialize (Hc c (proj1 (list_elem_of_In _ _) Hin)).
    unfold exact_id_b in Hc. destruct (EntityID_Fixed _) as [f|] eqn:E; [|done].
    apply bool_decide_eq_true in Hc. by exists f.
Qed.
Lemma all_links_fresh u odcs : all_links fresh_b u odcs = true → fresh_links ex_arg u odcs.
Proof.
  revert u. induction odcs as [|odc odcs IH]; intros u; [done|]. cbn [all_links fresh_links].
  intros [H1 H2]%andb_true_iff. split; [by apply fresh_b_ok|]. destruct (playLink ex_arg u odc); [by apply IH|done].
Qed.
Lemma all_links_careful u odcs : all_links careful_b u odcs = true → careful_links ex_arg u odcs.
Proof.
  revert u. induction odcs as [|odc odcs IH]; intros u; [done|]. cbn [all_links careful_links].
  intros [H1 H2]%andb_true_iff. split; [by apply careful_b_ok|]. destruct (playLink ex_arg u odc); [by apply IH|done].
Qed.

Lemma ex_u0_ok : user_ok ex_host ex_u0.
Proof. apply (user_ok_hepks ex_host (new_UserLoader ex_leaves)), new_UserLoader_ok. Qed.
Lemma ex_u0_storable : storable ex_host ex_u0.
Proof.
  split; simpl.
  - assert (map_Forall (λ fp h, HEPK_Fingerprint h = Ok fp) ex_hs) as Hm; [|done].
    apply (bool_decide_eq_true_1 _). vm_compute. reflexivity.
  - intros k l. by rewrite lookup_empty.
  - intros k. rewrite lookup_empty. by intros [].
  - intros r l p. by rewrite lookup_empty.
Qed.
Lemma ex_u2_ok : user_ok ex_host ex_u2 ∧ storable ex_host ex_u2.
Proof.
  apply (playLinks_storable ex_arg ex_u0 [ex_o0; ex_o1]);
    [apply ex_u0_ok|apply ex_u0_storable|by repeat constructor; try apply ex_o0_opened; try apply ex_o1_opened|..].
  - apply all_links_fresh. vm_compute. reflexivity.
  - apply ok_or_Ok. vm_compute. reflexivity.
Qed.

Definition ex_k2 : FQEntityFixed := Eval vm_compute in mkFQEntityFixed (ok_or [] (EntityID_Fixed (ex_dev 2))) ex_host.
Definition ex_p2 : PublicSuiterWithSeqno := Eval vm_compute in
  default (mkPublicSuiterWithSeqno (mkPublicSuite (EntityPublicEd25519 []) None (ex_hepk 0) owner None) 0) (keys ex_u2 !! ex_k2).

(** ** Witnesses *)
Definition ex_res : UserLoader * UserSigchainState :=
  ok_or (ex_u0, mkUserSigchainState (gcChainer (odGc no_odc)) [] [] [] [] [] [] []) (ex_play [ex_l0; ex_l1; ex_l2]).
Lemma ex_res_Ok : ex_play [ex_l0; ex_l1; ex_l2] = Ok (ex_res.1, ex_res.2).
Proof. rewrite <- surjective_pairing. apply ok_or_Ok. vm_compute. reflexivity. Qed.

(** Witness of [loaded_links_authorised]: a device is added and revoked. *)
Lemma loaded_links_authorised_witness :
  ∃ odcs, Forall2 signed_link [ex_l0; ex_l1; ex_l2] odcs ∧
    acct_steps ex_host odcs no_account (acct ex_res.1) ∧ user_ok ex_host ex_res.1.
Proof.
  exact (loaded_links_authorised ex_arg ex_hepks [ex_l0; ex_l1; ex_l2] ex_leaves (Some [8%Z]) ex_res.1 ex_res.2 ex_res_Ok).
Defined.

Definition ex_v3 : UserLoader := ok_or ex_u0 (playLinks ex_arg (new_UserLoader ex_leaves) [ex_o0; ex_o1; ex_o2]).
Lemma ex_v3_Ok : playLinks ex_arg (new_UserLoader ex_leaves) [ex_o0; ex_o1; ex_o2] = Ok ex_v3.
Proof. apply ok_or_Ok. vm_compute. reflexivity. Qed.
Lemma ex_opened3 : Forall (opened_with (hepks ex_u0) ex_host) [ex_o0; ex_o1; ex_o2].
Proof. repeat constructor; try apply ex_o0_opened; try apply ex_o1_opened; try apply ex_o2_opened. Qed.
Lemma opened_with_opened hs host odcs : Forall (opened_with hs host) odcs → Forall opened odcs.
Proof. intros Hf. eapply Forall_impl; [exact Hf|]. by intros odc []. Qed.
Lemma ex_v3_careful : careful_links ex_arg (new_UserLoader ex_leaves) [ex_o0; ex_o1; ex_o2].
Proof. apply all_links_careful. vm_compute. reflexivity. Qed.

(** Witness of [owner_remains]. *)
Lemma owner_remains_witness : ∃ k p, keys ex_v3 !! k = Some p ∧ is_owner (psRole (Ps p)).
Proof.
  exact (owner_remains ex_arg ex_leaves [ex_o0; ex_o1; ex_o2] ex_v3 (opened_with_opened _ _ _ ex_opened3)
    ltac:(discriminate) ex_v3_careful ex_v3_Ok).
Defined.

Lemma ex_u3_Ok : playLink ex_arg ex_u2 ex_o2 = Ok (ok_or ex_u0 (playLink ex_arg ex_u2 ex_o2)).
Proof. apply ok_or_Ok. vm_compute. reflexivity. Qed.
Lemma ex_o2_seqno : link_seqno ex_o2 ≠ 1%Z.
Proof. discriminate. Qed.
(** Witness of [revocation_effect]: the member device is revoked by the owner. *)
Lemma revocation_effect_witness :
  ∃ k p rk, dev_key ex_host (ex_dev 2) = Ok k ∧ keys ex_u2 !! k = Some p ∧
    ImportRole (psRole (Ps p)) = Ok rk ∧ signer_in ex_host (keys ex_u2) ex_o2 is_owner ∧
    active (acct (ok_or ex_u0 (playLink ex_arg ex_u2 ex_o2))) = delete k (active (acct ex_u2)) ∧
    ∀ r g, rk_le r rk → pukGens ex_u2 !! r = Some g →
      if EntityID_Eq (ex_dev 1) (ex_dev 2)
      then pukGens (ok_or ex_u0 (playLink ex_arg ex_u2 ex_o2)) !! r = Some g ∧ r ∈ stalePUKs (ok_or ex_u0 (playLink ex_arg ex_u2 ex_o2))
      else pukGens (ok_or ex_u0 (playLink ex_arg ex_u2 ex_o2)) !! r = Some (wrap64 (g + 1)) ∧
           r ∉ stalePUKs (ok_or ex_u0 (playLink ex_arg ex_u2 ex_o2)).
Proof.
  exact (revocation_effect ex_arg ex_u2 ex_o2 (ex_remove (ex_dev 2)) _ (proj1 ex_u2_ok) (ow_opened _ _ _ ex_o2_opened)
    ex_o2_seqno eq_refl eq_refl ex_u3_Ok).
Defined.

(** *** Keys made by a device that is not an owner *)
Definition ex_a3 : account :=
  mkAccount (active (acct ex_u2)) (<[OwnerRole := 7%Z]> (gens (acct ex_u2))) (stale (acct ex_u2) ∖ {[OwnerRole]}).
Lemma ex_new_keys : new_keys (acct ex_u2) (link_keys ex_o3) ex_a3.
Proof.
  apply (nk_cons _ _ OwnerRole); [reflexivity| |constructor].
  intros g Hg. assert (gens (acct ex_u2) !! OwnerRole = Some 1%Z) as E by (vm_compute; reflexivity).
  rewrite E in Hg. injection Hg as <-. reflexivity.
Qed.
Lemma ex_k2_active : keys ex_u2 !! ex_k2 = Some ex_p2.
Proof. vm_compute. reflexivity. Qed.
Lemma ex_p2_member : ¬ is_owner (psRole (Ps ex_p2)).
Proof. discriminate. Qed.
(** Witness of [rotation_not_checked]: the owners' key goes from generation 1 to 7. *)
Lemma rotation_not_checked_witness :
  (∃ u', playLink ex_arg ex_u2 ex_o3 = Ok u' ∧ acct u' = ex_a3) ∧
  is_ok (CheckDeviceRevokeOrRotate ex_o3 ex_host (keys ex_u2) (pukGens ex_u2)) = false.
Proof.
  exact (rotation_not_checked ex_arg ex_u2 ex_o3 ex_k2 ex_p2 ex_a3 (proj1 ex_u2_ok) (ow_opened _ _ _ ex_o3_opened)
    eq_refl eq_refl eq_refl eq_refl ex_k2_active ex_p2_member ex_new_keys).
Defined.

(** *** The last owner *)
Definition ex_p1 : PublicSuiterWithSeqno :=
  mkPublicSuiterWithSeqno (mkPublicSuite (EntityPublicEd25519 (ex_dev 1)) (Some ex_host) (ex_hepk 1) owner None) 1.
Definition ex_k1 : FQEntityFixed := Eval vm_compute in mkFQEntityFixed (ok_or [] (EntityID_Fixed (ex_dev 1))) ex_host.
Lemma ex_update : CheckSharedKeyUpdate (gcSharedKeys (odGc ex_o6)) {[OwnerRole := 1%Z]} OwnerRole = Ok ().
Proof. vm_compute. reflexivity. Qed.
(** Witness of [padded_id_revokes_last_owner]. *)
Lemma padded_id_revokes_last_owner_witness :
  ∃ res, checkDeviceRevoke ex_o6 ex_host {[ex_k1 := ex_p1]} {[OwnerRole := 1%Z]} = Ok res.
Proof.
  exact (padded_id_revokes_last_owner ex_o6 ex_host {[OwnerRole := 1%Z]} (ex_remove (ex_dev 1 ++ [0%Z])) (ex_dev 1)
    EntityType_Device ex_k1 ex_p1 eq_refl eq_refl eq_refl eq_refl eq_refl eq_refl eq_refl eq_refl eq_refl eq_refl
    ltac:(discriminate) ex_update ltac:(discriminate)).
Defined.

(** A client that plays the first link and that revocation has no device left. *)
Example no_device_left :
  match ex_play [ex_l0; ex_l6] with Ok (u, _) => bool_decide (keys u = ∅) | Err _ => false end = true.
Proof. vm_compute. reflexivity. Qed.

(** *** Saving and loading *)
Lemma ex_fresh3 : fresh_links ex_arg ex_u0 [ex_o0; ex_o1; ex_o2].
Proof. apply all_links_fresh. vm_compute. reflexivity. Qed.
Lemma ex_u3_play : playLinks ex_arg ex_u0 [ex_o0; ex_o1; ex_o2] = Ok ex_u3.
Proof. apply ok_or_Ok. vm_compute. reflexivity. Qed.
Lemma ex_u3_orderly : orderly ex_u3.
Proof.
  assert (map_Forall (λ r _, r = OwnerRole ∨ r = MemberRole) (pukGens ex_u3)) as Hm.
  { apply (bool_decide_eq_true_1 _). vm_compute. reflexivity. }
  assert (Forall (λ p, 0 ≤ gen_of p < 2 ^ 63)%Z (suites ex_u3)) as Hg.
  { apply (bool_decide_eq_true_1 _). vm_compute. reflexivity. }
  split; [|by apply Forall_forall]. intros r1 r2 [g1 H1] [g2 H2].
  destruct (Hm _ _ H1) as [->| ->], (Hm _ _ H2) as [->| ->]; done.
Qed.
(** Witness of [saved_state_loads]. *)
Lemma saved_state_loads_witness :
  ∃ st u', saveState ex_u3 None [ex_o0; ex_o1; ex_o2] (Some [8%Z]) = Ok st ∧
    loadExistingUser ex_host (new_UserLoader []) (Some st) = Ok u' ∧
    same_devices ex_u3 u' ∧ same_keys ex_u3 u' ∧ user_ok ex_host u' ∧ storable ex_host u'.
Proof.
  exact (saved_state_loads ex_arg ex_u0 [ex_o0; ex_o1; ex_o2] ex_o2 ex_u3 None [8%Z] [] ex_u0_ok ex_u0_storable
    ex_opened3 ex_fresh3 eq_refl ex_u3_play ex_u3_orderly).
Defined.

Definition ex_w4 : UserLoader := ok_or ex_u0 (playLink ex_arg ex_u2 ex_o4).
Definition ex_w5 : UserLoader := ok_or ex_u0 (playLink ex_arg ex_w4 ex_o5).
Definition ex_st5 : UserSigchainState := ok_or ex_res.2 (saveState ex_w5 None [ex_o5] (Some [8%Z])).
Definition ex_w5' : UserLoader := ok_or ex_u0 (loadExistingUser ex_host (new_UserLoader []) (Some ex_st5)).
Lemma ex_w4_Ok : playLink ex_arg ex_u2 ex_o4 = Ok ex_w4.
Proof. apply ok_or_Ok. vm_compute. reflexivity. Qed.
Lemma ex_w5_Ok : playLink ex_arg ex_w4 ex_o5 = Ok ex_w5.
Proof. apply ok_or_Ok. vm_compute. reflexivity. Qed.
Lemma ex_st5_Ok : saveState ex_w5 None [ex_o5] (Some [8%Z]) = Ok ex_st5.
Proof. apply ok_or_Ok. vm_compute. reflexivity. Qed.
Lemma ex_w5'_Ok : loadExistingUser ex_host (new_UserLoader []) (Some ex_st5) = Ok ex_w5'.
Proof. apply ok_or_Ok. vm_compute. reflexivity. Qed.
Lemma ex_k2_some : is_Some (keys ex_u2 !! ex_k2).
Proof. rewrite ex_k2_active. by eexists. Qed.
Lemma ex_k2_gone : keys ex_w5 !! ex_k2 = None.
Proof. vm_compute. reflexivity. Qed.
Definition ex_nd4 : PublicSuite := Eval vm_compute in default (Ps ex_p2) (newDevice ex_o4).
(** Witness of [readded_device_survives_revocation]: the second device is revoked, and active again once the
    state is loaded. *)
Lemma readded_device_survives_revocation_witness : keys ex_w5 !! ex_k2 = None ∧ is_Some (keys ex_w5' !! ex_k2).
Proof.
  exact (conj ex_k2_gone (readded_device_survives_revocation ex_arg ex_u2 ex_o4 ex_w4 ex_o5 ex_w5 ex_k2 ex_nd4 None [ex_o5] [8%Z] ex_st5 [] ex_w5'
    (proj1 ex_u2_ok) (proj2 ex_u2_ok) (ow_opened _ _ _ ex_o4_opened) (ow_opened _ _ _ ex_o5_opened)
    ltac:(discriminate) ltac:(discriminate) eq_refl eq_refl ex_k2_some ex_w4_Ok ex_w5_Ok ex_k2_gone ex_st5_Ok
    ltac:(discriminate) ex_w5'_Ok)).
Defined.

(** An owner that revokes itself leaves the keys of both roles stale. *)
Example self_revoked_stale :
  match ex_play [ex_l0; ex_l1; ex_l4; ex_l7] with
  | Ok (u, _) => bool_decide (stalePUKs u = {[OwnerRole; MemberRole]})
  | Err _ => false
  end = true.
Proof. vm_compute. reflexivity. Qed.
