(* ===== verification/UserWriter.v ===== *)
(** * Making the links of a user ([lib/core/chain.go], [lib/core/keysuite.go], [lib/core/sharedkey.go])

    A client makes a link from the private keys of its devices and of the user, and signs it
    with every key that the link introduces and with the device that makes it.  What is random
    (the keys of commitments, the locations in the tree) and the time are arguments: a random
    value is a [result], the error being that of the random source.

    The encoders of inner links and of names are third-party code, the fields of [UserWriterLib]. *)
From S2P Require Import Prelude Snowp MerkleTypes Role Roster TeamRoster TeamBoxes Sigs HostChain ChainLoader UserChain UserLoader.

(** ** Constructors of the protocol *)
Definition NewDHPublicKeyWithCurve25519 (v : bytes) : DHPublicKey := mkDHPublicKey DHType_Curve25519 (Some v) None.
Definition NewHEPKWithV1 (v : HEPKv1) : HEPK := mkHEPK HEPKVersion_V1 (Some v).
Definition NewMemberKeysWithNone : MemberKeys := mkMemberKeys MemberKeysType_None None None.
Definition NewMemberKeysWithUser (v : UserMemberKeys) : MemberKeys := mkMemberKeys MemberKeysType_User (Some v) None.
Definition NewLinkInnerWithGroupChange {G} (v : GroupChange) : LinkInner G :=
  mkLinkInner LinkType_GROUP_CHANGE (Some v) None.
Definition NewLinkOuterWithV1 (v : LinkOuterV1) : LinkOuter := mkLinkOuter LinkVersion_V1 (Some v).

Abbreviation PartyType := Z.
Definition PartyType_User : PartyType := 0.
Definition PartyType_AdHocTeam : PartyType := 3.
Definition PersistentType (t : EntityType) (p : PartyType) : EntityType :=
  if (t =? EntityType_PUKVerify)%Z then EntityType_User
  else if (t =? EntityType_PTKVerify)%Z then
    if (p =? PartyType_AdHocTeam)%Z then EntityType_AdHocTeam else EntityType_NamedTeam
  else t.
Definition Persistent (e : EntityID) (p : PartyType) : result EntityID :=
  _ ← guard_err (len e <? 2)%Z (DataError "entity ID too short");
  t ← EntityID_Type e;
  MakeEntityID (PersistentType t p) (drop 1 e).

(** ** Names *)
Record NameCommitment := mkNameCommitment { ncName : bytes; ncSeq : Z }.
Definition underscore (c : Z) : bool := (c =? 95)%Z.
Definition NameNormalizedRxx (s : bytes) : bool :=
  (0 <? len s)%Z && forallb (λ c, alnum c || underscore c) s.
Definition NameBadNormalizedRxx (s : bytes) : bool :=
  match s with c :: _ => underscore c | [] => false end || ends_with underscore s || has_pair underscore s.
Definition Name_AssertNormalized (u : bytes) : result () :=
  guard_err (negb (NameNormalizedRxx u) || NameBadNormalizedRxx u) (NormalizationError "name").
Definition NameSeqno_IsValid (s : Z) : bool := (s >=? FirstNameSeqno)%Z.

Class UserWriterLib `{UserLib} := {
  enc_LinkInner : LinkInner GenericLink → result bytes;
  enc_NameCommitment : NameCommitment → result bytes
}.

#[global] Instance NameCommitment_Normalized : Normalized NameCommitment := λ n, Name_AssertNormalized (ncName n).
#[global] Instance NameCommitment_Verifiable `{UserWriterLib} : Verifiable NameCommitment := {
  GetTypeUniqueID _ := 0xe37b1fcfba972353%Z;
  Encode := enc_NameCommitment
}.

(** ** Private suites

    The type, the signing key and its public half are an [EntityPrivateEd25519]; the secret halves of
    the encryption keys play no part in links. *)
Record PrivateSuite25519 := mkPrivateSuite25519 {
  suRole : Role; suKey : EntityPrivateEd25519; suEnc : bytes; suKemEncap : KemEncapKey; suHostID : option HostID
}.
Record SharedPrivateSuite25519 := mkSharedPrivateSuite25519 { spSuite : PrivateSuite25519; spGen : Generation }.

Definition PickHostIDInScope (keyHostID : option HostID) (currentHostID : HostID) : option HostID :=
  match keyHostID with
  | None => None
  | Some h => if HostID_Eq h currentHostID then None else Some h
  end.

Definition Suite_EntityID (s : PrivateSuite25519) : result EntityID := MakeEntityID (pk_typ (suKey s)) (pk_pub (suKey s)).
Definition RollingEntityID (s : PrivateSuite25519) : result EntityID :=
  MakeEntityID (RollingType (pk_typ (suKey s))) (pk_pub (suKey s)).
Definition ExportHEPK (s : PrivateSuite25519) : HEPK :=
  NewHEPKWithV1 (mkHEPKv1 (NewDHPublicKeyWithCurve25519 (suEnc s)) (suKemEncap s)).
Definition Publicize (s : PrivateSuite25519) (hostID : option HostID) : result PublicSuite :=
  ent ← Suite_EntityID s;
  Ok (mkPublicSuite (EntityPublicEd25519 ent) hostID (ExportHEPK s) (suRole s) None).

(** The zero value of a role. *)
Definition zero_Role : Role := NewRoleDefault RoleType_NONE.

Section make.
Context `{Crypto} `{Codec} `{ChainLib} `{UserLoaderLib} `{UserWriterLib}.

(** Of a public suite: the member record and the encryption key. *)
Definition PublicSuite_ExportToMember (p : PublicSuite) (h : HostID) : result (proto_Member * HEPK) :=
  fp ← HEPK_Fingerprint (psHepk p);
  Ok (mkMember (mkFQEntityInHostScope (psEntityID p) (PickHostIDInScope (psHostID p) h)) zero_Role
        (NewMemberKeysWithUser (mkUserMemberKeys fp None)), psHepk p).
Definition exportToMember (s : PrivateSuite25519) (h1 : option HostID) (h2 : HostID) : result proto_Member :=
  eid ← Suite_EntityID s;
  fp ← HEPK_Fingerprint (ExportHEPK s);
  Ok (mkMember (mkFQEntityInHostScope eid (PickHostIDInScope h1 h2)) zero_Role
        (NewMemberKeysWithUser (mkUserMemberKeys fp None))).
Definition ExportToMember (s : PrivateSuite25519) (h : HostID) : result proto_Member := exportToMember s (suHostID s) h.
Definition ExportToSharedKey (s : SharedPrivateSuite25519) : result (SharedKey * HEPK) :=
  vk ← RollingEntityID (spSuite s);
  let hepk := ExportHEPK (spSuite s) in
  fp ← HEPK_Fingerprint hepk;
  Ok (mkSharedKey (spGen s) (suRole (spSuite s)) vk fp, hepk).

(** At sign-up, the user is named after the first key. *)
Definition signup_uid (puk : SharedPrivateSuite25519) : result EntityID :=
  pukEntity ← Suite_EntityID (spSuite puk);
  uidEntity ← Persistent pukEntity PartyType_User;
  ToUID uidEntity.

(** ** Commitments *)
Definition Commit `{Verifiable T} `{Normalized T} (v : T) (rnd : result bytes) : result (bytes * Commitment) :=
  _ ← AssertNormalized v;
  rck ← rnd;
  commitment ← computeCommitment v rck;
  Ok (rck, commitment).
Definition MakeTreeLocation (rnd : result bytes) : result (bytes * bytes) :=
  loc ← rnd;
  com ← TreeLocation_hash loc;
  Ok (loc, com).

(** ** Links *)
Record MakeLinkRes := mkMakeLinkRes {
  mlLink : LinkOuter;
  mlNextTreeLocation : bytes;
  mlSubchainTreeLocationSeed : option bytes;
  mlHEPKSet : list HEPK;
  mlSeqno : Z;
  DevNameCommitmentKey : option bytes;
  UsernameCommitmentKey : option bytes
}.

(** The part that all makers end with: the inner link is encoded, and signed by [keys]. *)
Definition sign_link (gc : GroupChange) (keys : list EntityPrivateEd25519) : result LinkOuter :=
  b ← enc_LinkInner (NewLinkInnerWithGroupChange gc);
  let '(lo, res) := SignStacked (mkLinkOuterV1 b []) keys in
  _ ← res;
  Ok (NewLinkOuterWithV1 lo).

Definition addSubkey (gc : GroupChange) (subkey : option EntityPrivateEd25519) : result GroupChange :=
  match subkey with
  | None => Ok gc
  | Some subkey =>
      ep ← EntityPrivate_EntityPublic subkey;
      let id := GetEntityID ep in
      chng ← index (gcChanges gc) 0;
      ktyp ← MemberKeys_GetT (mKeys (mrMember chng));
      _ ← guard_err (negb (ktyp =? MemberKeysType_User)%Z) (InternalError "expected user keys");
      ukeys ← MemberKeys_User (mKeys (mrMember chng));
      let keys := NewMemberKeysWithUser (mkUserMemberKeys (umkHepkFp ukeys) (Some id)) in
      let m := mkMember (mId (mrMember chng)) (mSrcRole (mrMember chng)) keys in
      Ok (mkGroupChange (gcChainer gc) (gcEntity gc) (gcSigner gc)
            (<[0 := mkMemberRole (DstRole chng) m]> (gcChanges gc))
            (gcSharedKeys gc) (gcMetadata gc) (gcLocationVRFID gc))
  end.
Definition opt_list {A} (o : option A) : list A := match o with Some a => [a] | None => [] end.

Definition MakeEldestLink (host : HostID) (username : NameCommitment) (device : PrivateSuite25519)
    (userKey : SharedPrivateSuite25519) (deviceLabel : DeviceLabel) (root : TreeRoot)
    (subkey : option EntityPrivateEd25519) (now : Z) (r_name r_dev r_loc r_seed : result bytes) : result MakeLinkRes :=
  _ ← guard_err (negb (NameSeqno_IsValid (ncSeq username)))
        (InternalError "invalid seqno for username passed to MakeEldestLink");
  '(usernameRck, usernameCommit) ← Commit username r_name;
  '(devRck, devCommit) ← Commit deviceLabel r_dev;
  deviceID ← Suite_EntityID device;
  '(ske, skHepk) ← ExportToSharedKey userKey;
  user ← Persistent (skVerifyKey ske) PartyType_User;
  deviceMember ← ExportToMember device host;
  '(treeLoc, treeLocCommitment) ← MakeTreeLocation r_loc;
  '(sctl, sctlc) ← MakeTreeLocation r_seed;
  let hepks := [skHepk; ExportHEPK device] in
  let seqno := 1%Z in
  let gc := mkGroupChange
    (mkHidingChainer (mkBaseChainer seqno None root now) treeLocCommitment)
    (mkFQEntity user host) (mkGroupChangeSigner deviceID None)
    [mkMemberRole (NewRoleDefault RoleType_OWNER) deviceMember] [ske]
    [NewChangeMetadataWithUsername usernameCommit; NewChangeMetadataWithDevicename devCommit;
     NewChangeMetadataWithEldest (mkEldestMetadata sctlc)] None in
  gc ← addSubkey gc subkey;
  link ← sign_link gc ([suKey (spSuite userKey)] ++ opt_list subkey ++ [suKey device]);
  Ok (mkMakeLinkRes link treeLoc (Some sctl) hepks seqno (Some devRck) (Some usernameRck)).

Definition MakeChangeUsernameLink (uid : bytes) (host : HostID) (signingDevice : PrivateSuite25519)
    (username : NameCommitment) (seqno : Z) (prev : bytes) (root : TreeRoot) (now : Z) (r_name r_loc : result bytes)
  : result MakeLinkRes :=
  _ ← guard_err (negb (NameSeqno_IsValid (ncSeq username)))
        (InternalError "invalid seqno for username passed to MakeChangeUsernameLink");
  '(usernameRck, usernameCommit) ← Commit username r_name;
  deviceID ← Suite_EntityID signingDevice;
  '(treeLoc, treeLocCommitment) ← MakeTreeLocation r_loc;
  let gc := mkGroupChange
    (mkHidingChainer (mkBaseChainer seqno (Some prev) root now) treeLocCommitment)
    (mkFQEntity uid host) (mkGroupChangeSigner deviceID None) [] []
    [NewChangeMetadataWithUsername usernameCommit] None in
  link ← sign_link gc [suKey signingDevice];
  Ok (mkMakeLinkRes link treeLoc None [] 0 None (Some usernameRck)).

Definition MakeRevokeLink (uid : bytes) (host : HostID) (signingDevice : PrivateSuite25519)
    (targetDevice : option PublicSuite) (newUserKeys : list SharedPrivateSuite25519) (seqno : Z) (prev : bytes)
    (root : TreeRoot) (now : Z) (r_loc : result bytes) : result MakeLinkRes :=
  deviceID ← Suite_EntityID signingDevice;
  exported ← mapM_r ExportToSharedKey newUserKeys;
  '(treeLoc, treeLocCommitment) ← MakeTreeLocation r_loc;
  let changes := match targetDevice with
                 | Some t => [mkMemberRole (NewRoleDefault RoleType_NONE)
                                (mkMember (mkFQEntityInHostScope (psEntityID t) None) zero_Role NewMemberKeysWithNone)]
                 | None => []
                 end in
  let gc := mkGroupChange
    (mkHidingChainer (mkBaseChainer seqno (Some prev) root now) treeLocCommitment)
    (mkFQEntity uid host) (mkGroupChangeSigner deviceID None) changes exported.*1 [] None in
  link ← sign_link gc (((λ k, suKey (spSuite k)) <$> newUserKeys) ++ [suKey signingDevice]);
  Ok (mkMakeLinkRes link treeLoc None exported.*2 0 None None).

(** The link is signed by the keys it brings, not yet by the two devices. *)
Definition MakeProvisionLinkWithPub (uid : bytes) (host : HostID) (existingDevice newDevice : PublicSuite)
    (newDeviceRole : Role) (newUserKey : option SharedPrivateSuite25519) (deviceLabel : DeviceLabel) (seqno : Z)
    (prev : bytes) (root : TreeRoot) (subkey : option EntityPrivateEd25519) (now : Z) (r_dev r_loc : result bytes)
  : result MakeLinkRes :=
  '(rck, commit) ← Commit deviceLabel r_dev;
  let deviceID := psEntityID existingDevice in
  ske ← mapM_r ExportToSharedKey (opt_list newUserKey);
  '(deviceMember, hepk) ← PublicSuite_ExportToMember newDevice host;
  '(treeLoc, treeLocCommitment) ← MakeTreeLocation r_loc;
  let gc := mkGroupChange
    (mkHidingChainer (mkBaseChainer seqno (Some prev) root now) treeLocCommitment)
    (mkFQEntity uid host) (mkGroupChangeSigner deviceID None) [mkMemberRole newDeviceRole deviceMember] ske.*1
    [NewChangeMetadataWithDevicename commit] None in
  gc ← addSubkey gc subkey;
  link ← sign_link gc (((λ k, suKey (spSuite k)) <$> opt_list newUserKey) ++ opt_list subkey);
  Ok (mkMakeLinkRes link treeLoc None (ske.*2 ++ [hepk]) 0 (Some rck) None).

Definition OpenLinkV1 (link : LinkOuter) : result LinkOuterV1 :=
  v ← LinkOuter_GetV link;
  _ ← guard_err (negb (v =? LinkVersion_V1)%Z) (VersionNotSupportedError "can only support link V1s");
  LinkOuter_V1 link.
Definition CountersignProvisionLinkReturnSig (link : LinkOuter) (device : EntityPrivateEd25519)
  : result (Signature * LinkOuterV1) :=
  lov1 ← OpenLinkV1 link;
  sig ← Sign device lov1;
  Ok (sig, lov1).
Definition CountersignProvisionLink (link : LinkOuter) (device : EntityPrivateEd25519) : result LinkOuter :=
  '(sig, lov1) ← CountersignProvisionLinkReturnSig link device;
  Ok (NewLinkOuterWithV1 (mkLinkOuterV1 (lo1Inner lov1) (lo1Signatures lov1 ++ [sig]))).

Definition MakeProvisionLink (uid : bytes) (host : HostID) (existingDevice : PublicSuite) (newDevice : PrivateSuite25519)
    (newDeviceRole : Role) (newUserKey : option SharedPrivateSuite25519) (deviceLabel : DeviceLabel) (seqno : Z)
    (prev : bytes) (root : TreeRoot) (subkey : option EntityPrivateEd25519) (now : Z) (r_dev r_loc : result bytes)
  : result MakeLinkRes :=
  newDevicePub ← Publicize newDevice None;
  res ← MakeProvisionLinkWithPub uid host existingDevice newDevicePub newDeviceRole newUserKey deviceLabel seqno
          prev root subkey now r_dev r_loc;
  lo ← CountersignProvisionLink (mlLink res) (suKey newDevice);
  Ok (mkMakeLinkRes lo (mlNextTreeLocation res) (mlSubchainTreeLocationSeed res) (mlHEPKSet res) (mlSeqno res)
        (DevNameCommitmentKey res) (UsernameCommitmentKey res)).
End make.
