(* ===== verification/UserWriterFacts.v ===== *)
(** * The links that clients make are the links that loaders accept

    The other direction of [UserPlay]: where a step of the account machine is allowed, a client that holds
    the keys can make the link for it ([UserWriter]), and every loader opens and plays that link and
    arrives in the machine's next account. *)
From S2P Require Import Prelude Snowp MerkleTypes Role Roster TeamRoster TeamBoxes Sigs HostChain ChainLoader UserChain UserLoader UserAccount UserPlay UserFacts UserWriter.

(** What the encoder of inner links promises. *)
Class UserWriterLaws `{UserWriterLib} := {
  dec_enc_LinkInner : ∀ li b, enc_LinkInner li = Ok b → dec_LinkInner b = Ok li
}.

Lemma wrap_int_id z : (- 2 ^ 63 ≤ z < 2 ^ 63)%Z → wrap_int z = z.
Proof. intros Hz. unfold wrap_int. rewrite Z.mod_small by lia. lia. Qed.

Section signing.
Context `{Crypto} `{Codec} `{ChainLib} `{UserLoaderLib} `{UserWriterLib} `{!UserWriterLaws} `{!SignLaws}.

(** ** The signatures of a link *)
Definition signs (k : EntityPrivateEd25519) (v : LinkVerifier) : Prop := signs_for (T := LinkOuterV1) k v.

Definition signed_with (gc : GroupChange) (ks : list EntityPrivateEd25519) (link : LinkOuter) : Prop :=
  ∃ b lo, enc_LinkInner (NewLinkInnerWithGroupChange gc) = Ok b ∧
          SignStacked (mkLinkOuterV1 b []) ks = (lo, Ok ()) ∧ link = NewLinkOuterWithV1 lo.

Lemma sign_link_signed gc ks link : sign_link gc ks = Ok link → signed_with gc ks link.
Proof.
  unfold sign_link. intros Hs. apply bind_Ok in Hs as (b & Hb & Hs).
  destruct (SignStacked _ _) as [lo [[]|e]] eqn:E; [|done]. injection Hs as <-. by exists b, lo.
Qed.

Lemma sign_stack_snoc (s : LinkOuterV1) stack ks k s1 :
  GetSignatures s = stack → sign_stack s stack ks = (s1, Ok ()) →
  sign_stack s stack (ks ++ [k]) =
    match Sign k s1 with
    | Ok sig => (SetSignatures s1 (GetSignatures s1 ++ [sig]), Ok ())
    | Err e => (s1, Err e)
    end.
Proof.
  revert s stack. induction ks as [|k0 ks IH]; intros s stack Hs Hk; simpl in Hk |- *.
  { injection Hk as <-. subst stack. by destruct (Sign k s). }
  destruct (Sign k0 s); [|done]. by apply IH.
Qed.

Lemma countersigned gc ks link k link' :
  signed_with gc ks link → CountersignProvisionLink link k = Ok link' → signed_with gc (ks ++ [k]) link'.
Proof.
  intros (b & lo & Hb & Hs & ->) Hc. unfold CountersignProvisionLink, CountersignProvisionLinkReturnSig in Hc.
  cbn in Hc. apply bind_Ok in Hc as ([sig lov1] & Hc & [= <-]).
  apply bind_Ok in Hc as (sig' & Hsig & [= <- <-]).
  eexists b, _. split; [done|]. split; [|done]. unfold SignStacked in *.
  rewrite (sign_stack_snoc _ _ _ _ _ eq_refl Hs), Hsig. done.
Qed.

Lemma signed_opens gc ks vs link :
  signed_with gc ks link → ks ≠ [] → Forall2 signs ks vs →
  ∃ lov1, OpenGroupChange link = Ok (gc, lov1) ∧ (VerifyStackedSignature lov1 vs).2 = Ok ().
Proof.
  intros (b & lo & Hb & Hs & ->) Hne Hv. exists lo. split; [|by rewrite (sign_stacked_for _ _ _ _ Hne Hv Hs)].
  destruct (sign_stack_for _ [] _ _ _ Hv Hs) as (new & -> & _). unfold OpenGroupChange. cbn.
  by rewrite (dec_enc_LinkInner _ _ Hb).
Qed.

Lemma EntityID_Eq_refl e t : EntityID_Type e = Ok t → EntityID_Eq e e = true.
Proof.
  intros Ht. unfold EntityID_Eq. rewrite bool_decide_true by done. destruct e as [|b e]; [done|].
  unfold len. simpl. lia.
Qed.
Lemma HostID_Eq_refl h : HostID_Eq h h = true.
Proof. unfold HostID_Eq. by rewrite bool_decide_true. Qed.

Lemma made_opens gc ks link hs uid host sps ex nd raw sub vs :
  signed_with gc ks link → ks ≠ [] → Forall2 signs ks (map VShared sps ++ vs ++ [VEntity ex]) →
  gcEntity gc = mkFQEntity uid host → EntityID_Type uid = Ok EntityType_User →
  open_shared_keys None (gcSharedKeys gc) hs = Ok sps → (length (gcChanges gc) ≤ 1)%nat →
  gsKeyOwner (gcSigner gc) = None → ImportEntityPublic (gsKey (gcSigner gc)) = Ok ex →
  open_new_device gc hs host (mkEntityPublicAtHost ex host) = Ok (nd, raw, sub, vs) → OpenChainer gc = Ok () →
  ∃ lov1 vfs, OpenDeviceChange link hs (Some uid) host = Ok (mkOpenDeviceChangeRes gc lov1 vfs nd raw ex sps sub ex).
Proof.
  intros Hs Hne Hv He Ht Hk Hc Hko Hex Hnd Hch. destruct (signed_opens gc ks _ link Hs Hne Hv) as (lov1 & Ho & Hver).
  unfold OpenDeviceChange. rewrite Ho. cbn [mbind result_bind]. rewrite He. cbn [fqEntity fqHost]. rewrite Ht.
  cbn [mbind result_bind]. rewrite Z.eqb_refl, HostID_Eq_refl, (EntityID_Eq_refl _ _ Ht). cbn [negb guard_err mbind result_bind].
  unfold OpenSharedKeys. rewrite Hk. cbn [mbind result_bind]. replace (1 <? len (gcChanges gc))%Z with false by (unfold len; lia).
  rewrite Hko. unfold ImportEntityPublicWithHost. cbn [guard_err is_nil negb mbind result_bind]. rewrite Hex.
  cbn [mbind result_bind]. rewrite Hnd. cbn [mbind result_bind]. rewrite Hch. cbn [mbind result_bind epahEp].
  rewrite Hver. cbn [mbind result_bind]. by eexists _, _.
Qed.

(** ** The suites of devices and of the user *)
Definition device_types : list EntityType :=
  [EntityType_Device; EntityType_BackupKey; EntityType_PassphraseKey; EntityType_BotTokenKey].
Definition device_suite (s : PrivateSuite25519) (id : EntityID) : Prop :=
  ∃ typ priv, suKey s = NewEntityPrivateEd25519 typ priv ∧ typ ∈ device_types ∧ Suite_EntityID s = Ok id.
(** The shared keys of a user, as sign-up, rotation and the loading of keys make them. *)
Definition user_suite (s : SharedPrivateSuite25519) : Prop :=
  ∃ priv, suKey (spSuite s) = NewEntityPrivateEd25519 EntityType_PUKVerify priv.
Definition sub_suite (k : EntityPrivateEd25519) : Prop :=
  ∃ typ priv, k = NewEntityPrivateEd25519 typ priv ∧ IsEd25519 typ = true.
(** The identifier of a device: a byte for its type, and the 32 bytes of a key. *)
Definition device_id (id : EntityID) : Prop := ∃ typ b, typ ∈ device_types ∧ id = typ :: b ∧ length b = 32%nat.

Lemma device_type_spec typ : typ ∈ device_types → IsEd25519 typ = true ∧ wrap8 typ = typ ∧ typ ≠ EntityType_User ∧
  bool_decide (typ ∈ [EntityType_Device; EntityType_User; EntityType_NamedTeam; EntityType_BackupKey;
                      EntityType_PassphraseKey; EntityType_BotTokenKey]) = true.
Proof.
  unfold device_types. intros Ht.
  repeat (apply elem_of_cons in Ht as [->|Ht]; [by repeat split|]). by apply elem_of_nil in Ht.
Qed.

Lemma MakeEntityID_key typ priv id :
  IsEd25519 typ = true → MakeEntityID typ (ed25519_Public priv) = Ok id ↔ id = wrap8 typ :: ed25519_Public priv.
Proof.
  intros Ht. unfold MakeEntityID, EntityType_Len, len. rewrite Ht. simpl. rewrite length_Public. simpl.
  split; [by intros [= <-]|by intros ->].
Qed.

Lemma signs_entity typ priv id :
  IsEd25519 typ = true → MakeEntityID typ (ed25519_Public priv) = Ok id →
  signs (NewEntityPrivateEd25519 typ priv) (VEntity (EntityPublicEd25519 id)).
Proof.
  intros Ht Hid obj sig Hs. eapply (Sign_Verify typ priv); [done| |done].
  unfold EntityPrivate_EntityPublic. cbn. by rewrite Hid.
Qed.

Lemma device_suite_spec s id : device_suite s id →
  device_id id ∧ ImportEntityPublic id = Ok (EntityPublicEd25519 id) ∧ signs (suKey s) (VEntity (EntityPublicEd25519 id)).
Proof.
  intros (typ & priv & Hk & Ht & Hid). destruct (device_type_spec typ Ht) as (He & Hw & _ & _).
  unfold Suite_EntityID in Hid. rewrite Hk in Hid |- *. cbn in Hid.
  pose proof (signs_entity typ priv id He Hid) as Hs. apply MakeEntityID_key in Hid; [|done]. rewrite Hw in Hid. subst id.
  split; [exists typ, (ed25519_Public priv); repeat split; [done|apply length_Public]|]. split; [|done].
  unfold ImportEntityPublic, EntityID_Type. change 0%Z with (Z.of_nat 0). rewrite index_nat. cbn.
  replace (_ =? 0)%Z with false by (unfold len; simpl; lia). cbn. by rewrite He.
Qed.

Lemma device_id_Type id : device_id id → ∃ t, EntityID_Type id = Ok t ∧ t ∈ device_types.
Proof.
  intros (t & b & Ht & -> & _). exists t. split; [|done]. unfold EntityID_Type. change 0%Z with (Z.of_nat 0).
  by rewrite index_nat.
Qed.

Lemma device_id_fixed id host :
  device_id id → dev_key host id = Ok (mkFQEntityFixed (id ++ [0%Z]) host) ∧ Unfix (id ++ [0%Z]) = Ok id.
Proof.
  intros D. destruct (device_id_Type id D) as (t & Ht & Htd). destruct D as (typ & b & _ & -> & Hl).
  unfold dev_key, EntityID_Fixed, len. simpl. rewrite Hl. split; [done|].
  unfold Unfix, EntityID_Type in *. change 0%Z with (Z.of_nat 0) in Ht |- *. rewrite index_nat in Ht |- *. cbn in Ht |- *.
  injection Ht as <-. unfold EntityType_Len. destruct (device_type_spec typ Htd) as (-> & _).
  unfold slice_go, len. simpl. rewrite length_app, Hl. simpl. by rewrite take_app_length'.
Qed.

Lemma import_device s id hs host role c :
  device_suite s id → HEPK_Fingerprint (ExportHEPK s) = Ok c → hs !! c = Some (ExportHEPK s) → ∀ sub,
  ImportPublicSuite (mkMemberRole role (mkMember (mkFQEntityInHostScope id None) zero_Role
    (NewMemberKeysWithUser (mkUserMemberKeys c sub)))) hs host =
  Ok (mkPublicSuite (EntityPublicEd25519 id) (Some host) (ExportHEPK s) role None).
Proof.
  intros D Hc Hh sub. destruct (device_id_Type id) as (t & Ht & Htd); [by eapply device_suite_spec|].
  unfold ImportPublicSuite. cbn. unfold HEPKSet_Lookup. rewrite Hh. cbn. unfold importPublicSuiteHelper. cbn.
  rewrite Ht. cbn. by rewrite (proj2 (proj2 (proj2 (device_type_spec t Htd)))).
Qed.

(** A shared key whose signing key is an Ed25519 key. *)
Lemma exported_rolling s sk h typ priv :
  ExportToSharedKey s = Ok (sk, h) → suKey (spSuite s) = NewEntityPrivateEd25519 typ priv → IsEd25519 (RollingType typ) = true →
  h = ExportHEPK (spSuite s) ∧ HEPK_Fingerprint h = Ok (skHepkFp sk) ∧ skGen sk = spGen s ∧ skRole sk = suRole (spSuite s) ∧
  MakeEntityID (RollingType typ) (ed25519_Public priv) = Ok (skVerifyKey sk) ∧
  ∀ w, signs (suKey (spSuite s)) (VShared (mkSharedPublicSuite sk w)).
Proof.
  intros He Hk Ht. unfold ExportToSharedKey, RollingEntityID in He. rewrite Hk in He |- *. cbn in He.
  apply bind_Ok in He as (vk & Hvk & He). apply bind_Ok in He as (fp & Hfp & [= <- <-]).
  repeat split; [done..|]. intros w obj sig Hs.
  pose proof (signs_entity (RollingType typ) priv vk Ht Hvk obj sig Hs) as Hv. cbn in Hv.
  cbv [Verifier_Verify LinkVerifier_Verifier SharedPublicSuite_Verifier]. cbn.
  destruct (PublicKeyEd25519 vk) as [[key|]|]; simpl in *; done.
Qed.
Lemma exported_key s sk h : ExportToSharedKey s = Ok (sk, h) → user_suite s →
  h = ExportHEPK (spSuite s) ∧ HEPK_Fingerprint h = Ok (skHepkFp sk) ∧ skGen sk = spGen s ∧ skRole sk = suRole (spSuite s) ∧
  ∀ w, signs (suKey (spSuite s)) (VShared (mkSharedPublicSuite sk w)).
Proof. intros He (priv & Hk). destruct (exported_rolling s sk h EntityType_PUKVerify priv He Hk eq_refl) as (? & ? & ? & ? & _ & ?). done. Qed.

(** ** Shared keys *)
(** Every encryption key of [raw] is found by its fingerprint. *)
Definition holds (hs : HEPKSet) (raw : list HEPK) : Prop :=
  ∀ h fp, h ∈ raw → HEPK_Fingerprint h = Ok fp → hs !! fp = Some h.

(** The roles of the keys rise. *)
Definition rising (sks : list SharedKey) : Prop :=
  ∃ rks, Forall2 (λ sk rk, ImportRole (skRole sk) = Ok rk) sks rks ∧ StronglySorted rk_lt rks.

Definition suites_of (l : list (SharedKey * HEPK)) : list SharedPublicSuite :=
  (λ p, mkSharedPublicSuite p.1 p.2) <$> l.
Lemma suites_of_keys l : spsKey <$> suites_of l = l.*1.
Proof. unfold suites_of. by rewrite <- list_fmap_compose. Qed.

Lemma open_exported prev l hs rks :
  Forall (λ p, HEPK_Fingerprint p.2 = Ok (skHepkFp p.1)) l → holds hs l.*2 →
  Forall2 (λ sk rk, ImportRole (skRole sk) = Ok rk) l.*1 rks → StronglySorted rk_lt rks →
  match prev with
  | Some p => ∃ rk, ImportRole (skRole p) = Ok rk ∧ Forall (rk_lt rk) rks
  | None => True
  end →
  open_shared_keys prev l.*1 hs = Ok (suites_of l).
Proof.
  intros Hf. revert prev rks. induction Hf as [|[sk h] l Hfp Hf IH]; intros prev rks Hh Hr Hs Hp; [done|].
  cbn in Hr, Hfp. inversion Hr as [|? rk ? rks' Hrk Hr']; subst. inversion Hs as [|? ? Hs' Hlt]; subst. cbn.
  replace (match prev with None => Ok () | Some p => _ end) with (Ok () : result ()); cbn.
  - unfold HEPKSet_Lookup. rewrite (Hh h _ ltac:(set_solver) Hfp). cbn.
    rewrite (IH (Some sk) rks'); [done| |done|done|by exists rk]. intros h' fp' Hin. apply Hh. set_solver.
  - destruct prev as [p|]; [|done]. destruct Hp as (rkp & Hip & Hall). inversion Hall; subst.
    destruct (IsAtOrAbove_is_order _ _ _ _ Hip Hrk) as [_ ->]. cbn.
    rewrite (proj2 (LessThan_spec rkp rk)) by done. done.
Qed.

(** ** Playing *)
Implicit Types (u : UserLoader) (odc : OpenDeviceChangeRes).

(** What a link leaves as it was, and the device names that it takes. *)
Definition frame (arg : LoadUserArg) (n : Z) u u' : Prop :=
  hepks u' = hepks u ∧ allMerkleLeaves u' = allMerkleLeaves u ∧
  dnIdx u' = (if luMode arg =? LoadModeSelf then dnIdx u + n else dnIdx u)%Z.

(** In a load of oneself the next name that the server sent is the one of the label. *)
Definition name_at (arg : LoadUserArg) u (label : DeviceLabel) (key : bytes) : Prop :=
  luMode arg = LoadModeSelf →
  ∃ n nm, dnIdx u = Z.of_nat n ∧ luDeviceNames arg !! n = Some nm ∧ dnLabel (Dln nm) = label ∧ CommitmentKey nm = key.

Lemma playDeviceName_plays arg u label rnd rck com :
  Commit label rnd = Ok (rck, com) → name_at arg u label rck →
  ∃ u1 dn, playDeviceName arg u com = Ok (u1, dn) ∧ same_keys u u1 ∧ same_devices u u1 ∧ frame arg 1 u u1.
Proof.
  intros Hc Hn. unfold playDeviceName, frame. destruct (Z.eqb_spec (luMode arg) LoadModeSelf) as [E|E]; simpl.
  - destruct (Hn E) as (n & nm & Hi & Hnm & Hl & Hk). rewrite Hi.
    replace (len (luDeviceNames arg) <=? Z.of_nat n)%Z with false
      by (apply lookup_lt_Some in Hnm; unfold len; lia).
    cbn. rewrite index_nat, Hnm. cbn. rewrite Hl, Hk.
    unfold Commit in Hc. apply bind_Ok in Hc as (? & Ha & Hc). apply bind_Ok in Hc as (rck' & _ & Hc).
    apply bind_Ok in Hc as (com' & Hcom & [= -> ->]). unfold OpenCommitment. rewrite Ha. cbn. rewrite Hcom. cbn.
    rewrite bool_decide_true by done. cbn. by eexists _, _.
  - eexists _, _. by split.
Qed.

Lemma owner_GreaterThan r r2 rk :
  is_owner r → ImportRole r2 = Ok rk → rk_lt rk OwnerRole → Role_GreaterThan r r2 = Ok true.
Proof.
  intros Ho Hi Hlt. unfold Role_GreaterThan, Role_Cmp, RoleType_Cmp.
  rewrite (is_owner_GetT _ Ho), (GetT_imported _ _ Hi). cbn [mbind result_bind].
  pose proof (ImportRole_valid _ _ Hi) as Hv. unfold rk_valid in Hv. unfold rk_lt, OwnerRole, RoleType_OWNER in *. cbn in Hlt.
  destruct (Z.eqb_spec 3 (Typ rk)) as [E|].
  - exfalso. pose proof (rk_valid_level _ (ImportRole_valid _ _ Hi)) as Hl. rewrite Hl in Hlt; [lia|].
    rewrite <- E. done.
  - by replace (3 <? Typ rk)%Z with false by lia.
Qed.

Lemma AssertEq_same r1 r2 e rk : ImportRole r1 = Ok rk → ImportRole r2 = Ok rk → Role_AssertEq r1 r2 e = Ok ().
Proof.
  intros H1' H2'. apply AssertEq_Ok. unfold Role_Eq.
  rewrite (GetT_imported _ _ H1'), (GetT_imported _ _ H2'). cbn [mbind result_bind]. rewrite Z.eqb_refl. cbn [negb].
  destruct (Z.eqb_spec (Typ rk) RoleType_MEMBER) as [E|E]; [|done]. cbn [negb].
  rewrite (Member_imported _ _ H1'), (Member_imported _ _ H2') by done. cbn. by rewrite Z.eqb_refl.
Qed.

Lemma lookup_active u k r : active (acct u) !! k = Some r → ∃ p, keys u !! k = Some p ∧ psRole (Ps p) = r.
Proof. by rewrite active_acct. Qed.

Section steps.
Context (arg : LoadUserArg).

Definition active_signer u odc (P : Role → Prop) : Prop :=
  signer_in (luHost arg) (keys u) odc P ∧ LastSigner odc = ExistingDevice odc.

Lemma signer_checked u odc P : active_signer u odc P → checkSigner (luHost arg) u odc = Ok ().
Proof.
  intros [(k & p & Hk & Hp & _) Hl]. unfold checkSigner. rewrite Hl. unfold dev_key in Hk.
  apply bind_Ok in Hk as (fid & -> & [= <-]). cbn. by rewrite Hp.
Qed.

Lemma provision_opens u odc nd com :
  signer_in (luHost arg) (keys u) odc is_owner → length (gcChanges (odGc odc)) = 1%nat → newDevice odc = Some nd →
  Role_IsSet (psRole nd) = true → is_ok (ImportRole (psRole nd)) = true →
  gcMetadata (odGc odc) = [NewChangeMetadataWithDevicename com] →
  provision_keys (acct u) (psRole nd) (link_keys odc) →
  ∃ res, OpenDeviceProvision odc (keys u) (pukGens u) (luHost arg) = Ok res ∧
         prNewDevice res = nd ∧ prDeviceNameCommitment res = com ∧ prGc res = odGc odc.
Proof.
  intros (k & p & Hk & Hp & Ho) Hc Hn Hset Hrole Hm Hks. unfold OpenDeviceProvision, dev_key in *.
  apply bind_Ok in Hk as (fid & -> & [= <-]). unfold len. rewrite Hc, Hn. cbn. rewrite Hset. cbn.
  destruct (IsSet_GetT (psRole nd)) as [(t & Ht & Hne) _]; [done|]. rewrite Ht. cbn.
  replace (t =? RoleType_NONE)%Z with false by lia. cbn. rewrite Hp. cbn.
  rewrite (proj2 (AssertEq_owner _ _ ()) Ho). cbn. apply is_ok_Ok in Hrole as (rk & Hrk).
  assert (∃ b, Role_GreaterThan (psRole (Ps p)) (psRole nd) = Ok b) as (b & Hb).
  { unfold Role_GreaterThan, Role_Cmp. rewrite (is_owner_GetT _ Ho), (GetT_imported _ _ Hrk). cbn [mbind result_bind].
    destruct (nz _); cbn; eauto. }
  rewrite Hb, Hm. cbn. unfold link_keys in Hks. destruct Hks as [Hks|(sk & rk' & Hks & Hs & Hr & Hlt & Hg)].
  - apply fmap_nil_inv in Hks. rewrite Hks. cbn. by eexists.
  - rewrite Hrk in Hr. injection Hr as <-. destruct (odSharedKeys odc) as [|puk [|]]; try done. injection Hks as <-. cbn.
    unfold openDeviceProvisionPUK. rewrite (owner_GreaterThan _ _ _ Ho Hrk Hlt) in Hb. injection Hb as <-. cbn.
    rewrite Hs. cbn. unfold next_gen in Hg. simpl in Hg.
    replace (Role_AssertEq _ _ _) with (Ok () : result ()).
    + destruct (pukGens u !! rk) as [g|]; rewrite Hg; cbn; rewrite ?Z.eqb_refl; by eexists.
    + symmetry. by eapply AssertEq_same.
Qed.
(** The new keys that come last. *)
Lemma keys_added u ps a' :
  user_ok (luHost arg) u → new_keys (acct u) (spsKey <$> ps) a' →
  ∃ u', addPuks u ps = Ok u' ∧ user_ok (luHost arg) u' ∧ acct u' = a' ∧
        hepks u' = hepks u ∧ allMerkleLeaves u' = allMerkleLeaves u ∧ dnIdx u' = dnIdx u.
Proof.
  intros U Hn. destruct (addPuks_total u ps a' (uo_keys _ u U) Hn) as (u' & Hu' & Ha). exists u'.
  split; [done|]. split; [by eapply addPuks_user_ok|]. split; [done|].
  destruct (addPuks_new_keys u ps u' (uo_keys _ u U) Hu') as (_ & _ & ? & ? & ? & ? & ->). done.
Qed.

Lemma later_link u odc :
  (1 < link_seqno odc)%Z → playLink arg u odc = playLinkNonEldest arg u odc.
Proof.
  intros Hs. unfold link_seqno in Hs. unfold playLink, Seqno_IsValid, Seqno_IsEldest.
  replace (_ >=? 1)%Z with true by lia. by replace (_ =? 1)%Z with false by lia.
Qed.

Lemma username_kept u odc (mds : list Commitment) :
  gcMetadata (odGc odc) = NewChangeMetadataWithDevicename <$> mds →
  playUsernameChange u odc = Ok (set_names u (uncs u) (dnIdx u)).
Proof.
  intros Hm. unfold playUsernameChange. rewrite Hm.
  assert (∃ l, mapM_r (λ md, t ← ChangeMetadata_GetT md;
     if (t =? ChangeType_Username)%Z then c ← Username md; Ok [c] else Ok []) (NewChangeMetadataWithDevicename <$> mds)
     = Ok l ∧ concat l = []) as (l & -> & Hl).
  { clear Hm. induction mds as [|c mds (l & IH & Hl)]; [by exists []|]. exists ([] :: l). split; [|done].
    cbn [fmap list_fmap mapM_r]. cbn. cbn in IH. by rewrite IH. }
  cbn. by rewrite Hl, app_nil_r.
Qed.

Lemma provision_plays u odc nd raw com label rnd rck k a' :
  user_ok (luHost arg) u → active_signer u odc is_owner → gcChanges (odGc odc) = [raw] →
  RawNewDevice odc = Some raw → DstRole raw = psRole nd → newDevice odc = Some nd →
  Role_IsSet (psRole nd) = true → is_ok (ImportRole (psRole nd)) = true →
  gcMetadata (odGc odc) = [NewChangeMetadataWithDevicename com] → Commit label rnd = Ok (rck, com) →
  name_at arg u label rck → provision_keys (acct u) (psRole nd) (link_keys odc) →
  dev_key (luHost arg) (psEntityID nd) = Ok k → (1 < link_seqno odc ≤ len (allMerkleLeaves u))%Z →
  (len (allMerkleLeaves u) < 2 ^ 63)%Z → new_keys (add_device (acct u) k (psRole nd)) (link_keys odc) a' →
  ∃ u', playLink arg u odc = Ok u' ∧ user_ok (luHost arg) u' ∧ acct u' = a' ∧ frame arg 1 u u'.
Proof.
  intros U Hsig Hc Hraw Hdst Hnd Hset Hrole Hm Hcom Hname Hks Hk Hseq Hlv Hn.
  rewrite later_link by lia. unfold playLinkNonEldest. rewrite (signer_checked u odc _ Hsig). cbn [mbind result_bind].
  rewrite (username_kept u odc [com] Hm). cbn [mbind result_bind]. set (u0 := set_names u (uncs u) (dnIdx u)).
  unfold playDeviceChange. rewrite Hc, Hdst. destruct (IsSet_GetT (psRole nd)) as [(t & Ht & Hne) _]; [done|].
  rewrite Ht. cbn [mbind result_bind]. replace (t =? RoleType_NONE)%Z with false by lia. unfold playProvision.
  destruct Hsig as [Hsig _].
  destruct (provision_opens u0 odc nd com Hsig ltac:(by rewrite Hc) Hnd Hset Hrole Hm Hks) as (res & -> & Hrn & Hrc & Hrg).
  cbn [mbind result_bind]. rewrite Hraw. cbn [of_option mbind result_bind]. rewrite Hrc, Hrg, Hrn.
  destruct (playDeviceName_plays arg u0 label rnd rck com Hcom Hname) as (u1 & dn & -> & S1 & S2 & F).
  cbn [mbind result_bind]. unfold link_seqno in Hseq. unfold Seqno_IsValid. replace (_ >=? 1)%Z with true by lia.
  cbn [negb guard_err mbind result_bind]. destruct F as (F1 & F2 & F3).
  rewrite !(wrap_int_id (bcSeqno _)) by lia. rewrite wrap_int_id by lia. rewrite F2. change (allMerkleLeaves u0) with (allMerkleLeaves u).
  replace (_ - 1 <? 0)%Z with false by lia. replace (len _ <=? _)%Z with false by lia. cbn [guard_err mbind result_bind].
  destruct (lookup_lt_is_Some_2 (allMerkleLeaves u) (Z.to_nat (bcSeqno (hdBase (gcChainer (odGc odc))) - 1))) as [leaf Hleaf].
  { unfold len in *. lia. }
  unfold index. replace (_ && _) with true by (unfold len in *; lia). rewrite Hleaf. cbn [of_option mbind result_bind].
  pose proof (user_ok_same _ _ _ S1 S2 (user_ok_same _ u u0 ltac:(done) ltac:(done) U)) as U1.
  destruct (addDeviceKey (luHost arg) u1 nd (new_device_info odc dn raw leaf)) as [u2|] eqn:E.
  2: { rewrite addDeviceKey_put, Hk in E. done. }
  destruct (new_device_Ok arg u1 odc nd raw dn leaf u2 U1 Hdst E) as (k' & Hk' & -> & U2 & A2).
  rewrite Hk in Hk'. injection Hk' as <-. cbn [mbind result_bind].
  rewrite (acct_same u0 u1 S1 S2) in A2. change (acct u0) with (acct u) in A2. rewrite <- A2 in Hn.
  destruct (keys_added _ _ _ U2 Hn) as (u' & Hu' & U' & A' & G1 & G2 & G3). exists u'. split; [done|].
  split; [done|]. split; [done|]. unfold frame. rewrite G1, G2, G3. simpl. by rewrite F1, F2, F3.
Qed.

Lemma eldest_opens odc nd sp c_user c_dev c_sub t :
  length (gcChanges (odGc odc)) = 1%nat → newDevice odc = Some nd → is_owner (psRole nd) →
  psEntityID nd = gsKey (gcSigner (odGc odc)) → EntityID_Type (psEntityID nd) = Ok t → odSharedKeys odc = [sp] →
  gsKeyOwner (gcSigner (odGc odc)) = None → RollingEq (fqEntity (gcEntity (odGc odc))) (skVerifyKey (spsKey sp)) = Ok true →
  is_owner (skRole (spsKey sp)) → skGen (spsKey sp) = FirstGeneration →
  gcMetadata (odGc odc) = [NewChangeMetadataWithUsername c_user; NewChangeMetadataWithDevicename c_dev;
                           NewChangeMetadataWithEldest (mkEldestMetadata c_sub)] →
  link_seqno odc = 1%Z → bcPrev (hdBase (gcChainer (odGc odc))) = None →
  ToUID (fqEntity (gcEntity (odGc odc))) = Ok (luUid arg) →
  ∃ res, OpenEldestLinkWithODC odc = Ok res ∧ erUid res = luUid arg ∧ erDevice res = nd ∧ erUserKey res = sp ∧
         erDeviceNameCommitment res = c_dev.
Proof.
  intros Hc Hnd Ho Hid Ht Hsp Hko Hroll Hso Hsg Hm Hseq Hprev Huid. unfold OpenEldestLinkWithODC, len.
  rewrite Hc, Hnd, Hsp, Hm. cbn. assert (Role_IsSet (psRole nd) = true) as ->.
  { unfold Role_IsSet. by rewrite (is_owner_GetT _ Ho). }
  cbn. rewrite (proj2 (AssertEq_owner _ _ ()) Ho). cbn. rewrite <- Hid, (EntityID_Eq_refl _ _ Ht), Hko. cbn.
  rewrite Hroll. cbn. rewrite (proj2 (AssertEq_owner _ _ ()) Hso), Hsg. cbn.
  unfold CheckEldestChainer, Seqno_IsValid, Seqno_IsEldest. unfold link_seqno in Hseq. rewrite Hseq, Hprev. cbn.
  rewrite Huid. cbn. by eexists.
Qed.

Lemma eldest_plays u odc nd raw sp c_user c_dev c_sub t label rnd rck k a' :
  user_ok (luHost arg) u → gcChanges (odGc odc) = [raw] → RawNewDevice odc = Some raw → DstRole raw = psRole nd →
  newDevice odc = Some nd → is_owner (psRole nd) →
  psEntityID nd = gsKey (gcSigner (odGc odc)) → EntityID_Type (psEntityID nd) = Ok t → odSharedKeys odc = [sp] →
  gsKeyOwner (gcSigner (odGc odc)) = None → RollingEq (fqEntity (gcEntity (odGc odc))) (skVerifyKey (spsKey sp)) = Ok true →
  is_owner (skRole (spsKey sp)) → skGen (spsKey sp) = FirstGeneration →
  gcMetadata (odGc odc) = [NewChangeMetadataWithUsername c_user; NewChangeMetadataWithDevicename c_dev;
                           NewChangeMetadataWithEldest (mkEldestMetadata c_sub)] →
  link_seqno odc = 1%Z → bcPrev (hdBase (gcChainer (odGc odc))) = None →
  ToUID (fqEntity (gcEntity (odGc odc))) = Ok (luUid arg) → Commit label rnd = Ok (rck, c_dev) →
  name_at arg u label rck → allMerkleLeaves u ≠ [] → dev_key (luHost arg) (psEntityID nd) = Ok k →
  new_keys (add_device (acct u) k (psRole nd)) (link_keys odc) a' →
  ∃ u', playLink arg u odc = Ok u' ∧ user_ok (luHost arg) u' ∧ acct u' = a' ∧ frame arg 1 u u'.
Proof.
  intros U Hc Hraw Hdst Hnd Ho Hid Ht Hsp Hko Hroll Hso Hsg Hm Hseq Hprev Huid Hcom Hname Hlv Hk Hn.
  destruct (eldest_opens odc nd sp c_user c_dev c_sub t) as (res & Hres & Hru & Hrd & Hrk & Hrc); try done.
  { by rewrite Hc. }
  unfold playLink, Seqno_IsValid, Seqno_IsEldest. unfold link_seqno in Hseq. rewrite Hseq. cbn [Z.geb Z.eqb negb].
  unfold playLinkEldest. rewrite Hres. cbn. rewrite Hru, bool_decide_true by done. cbn. rewrite Hrc.
  destruct (playDeviceName_plays arg u label rnd rck c_dev Hcom Hname) as (u1 & dn & -> & S1 & S2 & F1 & F2 & F3).
  cbn [mbind result_bind]. rewrite F2. destruct (allMerkleLeaves u) as [|leaf leaves] eqn:El; [done|].
  replace (len _ =? 0)%Z with false by (unfold len; simpl; lia). cbn [guard_err mbind result_bind]. rewrite Hraw.
  cbn [of_option mbind result_bind]. change 0%Z with (Z.of_nat 0). rewrite index_nat. cbn [lookup list_lookup of_option mbind result_bind].
  rewrite Hrd, Hrk. pose proof (user_ok_same _ _ _ S1 S2 U) as U1.
  destruct (addDeviceKey (luHost arg) u1 nd (new_device_info odc dn raw leaf)) as [u2|] eqn:E.
  2: { rewrite addDeviceKey_put, Hk in E. done. }
  destruct (new_device_Ok arg u1 odc nd raw dn leaf u2 U1 Hdst E) as (k' & Hk' & -> & U2 & A2).
  rewrite Hk in Hk'. injection Hk' as <-. cbn [mbind result_bind].
  rewrite (acct_same u u1 S1 S2) in A2. rewrite <- A2 in Hn. set (u2 := put_device u1 k nd _) in *.
  set (u3 := set_names u2 _ _). unfold link_keys in Hn. rewrite Hsp in Hn.
  destruct (keys_added u3 [sp] a' (user_ok_same _ u2 u3 ltac:(done) ltac:(done) U2) Hn) as (u' & Hu' & U' & A' & G1 & G2 & G3).
  cbn in Hu'. apply bind_Ok in Hu' as (u'' & -> & [= ->]). eexists. split; [done|].
  split; [by eapply user_ok_same; [..|exact U']|]. split; [done|].
  unfold frame. cbn. rewrite G1, G2, G3. cbn. by rewrite F1, F2, F3.
Qed.

(** *** Revocation *)
Lemma mark_stale_total rk ps s :
  (∀ p, p ∈ ps → is_ok (ImportRole (skRole (spsKey p))) = true) → ∃ s', mark_stale rk ps s = Ok s'.
Proof.
  revert s. induction ps as [|p ps IH]; intros s Hp; [by eexists|]. cbn.
  destruct (is_ok_Ok _ (Hp p ltac:(set_solver))) as (r & ->). cbn. apply IH. set_solver.
Qed.

Lemma markPotentiallyStale_total u r rk :
  keys_ok u → ImportRole r = Ok rk →
  markPotentiallyStale u r = Ok (set_stale u (stalePUKs u ∪ filter (λ r, rk_le r rk) (dom (pukGens u)))).
Proof.
  intros K Hr. destruct (markPotentiallyStale u r) as [u'|e] eqn:E.
  { destruct (markPotentiallyStale_spec u r u' K E) as (rk' & Hr' & ->). rewrite Hr in Hr'. by injection Hr' as <-. }
  exfalso. unfold markPotentiallyStale in E. rewrite Hr in E. cbn in E.
  destruct (mark_stale_total rk (map_to_list (puks u)).*2 (stalePUKs u)) as (s' & Hs'); [|by rewrite Hs' in E].
  intros p Hp. apply list_elem_of_fmap in Hp as ([[r1 g1] p1] & -> & Hp).
  apply elem_of_map_to_list, (ko_puks u K) in Hp as (l & Hl & Hpl & _). cbn. by rewrite (ko_roles u K _ _ _ Hl Hpl).
Qed.

Lemma check_puks_plays sks rks gs found :
  Forall2 (λ sk rk, ImportRole (skRole sk) = Ok rk) sks rks → NoDup rks → (∀ r, r ∈ rks → r ∉ found) →
  (∀ sk, sk ∈ sks → ∃ r g, ImportRole (skRole sk) = Ok r ∧ gs !! r = Some g ∧ skGen sk = wrap64 (g + 1)) →
  check_puks sks gs found = Ok (list_to_set rks ∪ found).
Proof.
  intros Hr. revert found. induction Hr as [|sk rk sks rks Hrk Hr IH]; intros found Hd Hn Hg.
  { cbn. f_equal. set_solver. }
  cbn [check_puks]. rewrite Hrk. cbn [mbind result_bind].
  destruct (Hg sk ltac:(set_solver)) as (r & g & Hr' & Hgs & Hgen). rewrite Hrk in Hr'. injection Hr' as <-.
  rewrite Hgs. cbn. rewrite Hgen, Z.eqb_refl. cbn. rewrite bool_decide_false by (apply Hn; set_solver). cbn.
  apply NoDup_cons in Hd as [Hni Hd]. rewrite IH; [f_equal; set_solver|done| |set_solver]. set_solver.
Qed.

Lemma rising_NoDup rks : StronglySorted rk_lt rks → NoDup rks.
Proof.
  induction 1 as [|r rks _ IH Hlt]; constructor; [|done]. intros Hin. rewrite Forall_forall in Hlt.
  specialize (Hlt r Hin). unfold rk_lt in Hlt. lia.
Qed.

Lemma key_update_plays sks gs limit :
  rising sks → (∀ sk, sk ∈ sks → ∃ r g, ImportRole (skRole sk) = Ok r ∧ gs !! r = Some g ∧ skGen sk = wrap64 (g + 1)) →
  (∀ r, is_Some (gs !! r) → rk_le r limit → ∃ sk, sk ∈ sks ∧ ImportRole (skRole sk) = Ok r) →
  CheckSharedKeyUpdate sks gs limit = Ok ().
Proof.
  intros (rks & Hr & Hs) Hg Hcov. unfold CheckSharedKeyUpdate.
  rewrite (check_puks_plays sks rks gs ∅ Hr (rising_NoDup _ Hs) ltac:(set_solver) Hg). cbn [mbind result_bind].
  destruct (existsb _ _) eqn:E; [|done]. exfalso. apply existsb_exists in E as (rk & Hin & Hb).
  apply list_elem_of_In, list_elem_of_fmap in Hin as ([rk' g] & -> & Hin). apply elem_of_map_to_list in Hin. cbn [fst] in Hb.
  apply andb_true_iff in Hb as [Hle Hb]. apply LessThanOrEqual_spec in Hle.
  destruct (Hcov rk' (mk_is_Some _ _ Hin) Hle) as (sk & Hsk & Hri). rewrite bool_decide_true in Hb; [done|].
  apply elem_of_union_l, elem_of_list_to_set. apply list_elem_of_lookup in Hsk as (i & Hi).
  destruct (Forall2_lookup_l _ _ _ _ _ Hr Hi) as (rk2 & Hi2 & Hrk2). apply (list_elem_of_lookup_2 _ i). congruence.
Qed.

Lemma count_owners_plays target l :
  Forall (λ kp : FQEntityFixed * PublicSuiterWithSeqno,
    is_ok (Unfix (Entity kp.1)) = true ∧ is_ok (GetT (psRole (Ps kp.2))) = true) l → (Z.of_nat (length l) < 2 ^ 63)%Z →
  ∃ n, count_owners target l = Ok n ∧ (0 ≤ n ≤ Z.of_nat (length l))%Z ∧
    ∀ k p id, (k, p) ∈ l → Unfix (Entity k) = Ok id → EntityID_Eq id target = false → is_owner (psRole (Ps p)) → (0 < n)%Z.
Proof.
  induction 1 as [|[k p] l [Hu Ht] Hl IH]; intros Hlen.
  { exists 0%Z. split; [done|]. split; [done|]. intros ? ? ? Hin. by apply elem_of_nil in Hin. }
  cbn [length] in Hlen. destruct IH as (n & Hn & Hb & Hown); [lia|]. cbn in Hu, Ht.
  apply is_ok_Ok in Hu as (id & Hu). apply is_ok_Ok in Ht as (t & Ht). cbn [count_owners].
  rewrite Hu. cbn [mbind result_bind]. destruct (EntityID_Eq id target) eqn:E.
  - exists n. split; [done|]. split; [cbn [length]; lia|]. intros k' p' id' Hin Hid' Hne Ho.
    apply elem_of_cons in Hin as [[= -> ->]|Hin]; [congruence|by eapply Hown].
  - rewrite Ht. cbn [mbind result_bind]. rewrite Hn. cbn [mbind result_bind]. eexists. split; [done|].
    destruct (Z.eqb_spec t RoleType_OWNER) as [->|Hne]; cbn [length]; [rewrite wrap_int_id by lia|];
      (split; [lia|]); [lia|]. intros k' p' id' Hin Hid' Hne' Ho.
    apply elem_of_cons in Hin as [[= -> ->]|Hin]; [|by eapply Hown].
    rewrite (is_owner_GetT _ Ho) in Ht. congruence.
Qed.

(** The devices of an account that clients made: identifiers of devices, with roles that can be
    imported, and fewer than an [int] counts. *)
Definition made_account (a : account) : Prop :=
  (∀ k r, active a !! k = Some r → (∃ id, device_id id ∧ dev_key (luHost arg) id = Ok k) ∧ is_ok (ImportRole r) = true) ∧
  (Z.of_nat (size (active a)) < 2 ^ 63)%Z.

Lemma owners_counted u target k k' r' :
  made_account (acct u) → device_id target → dev_key (luHost arg) target = Ok k → k' ≠ k →
  active (acct u) !! k' = Some r' → is_owner r' →
  ∃ n, countRemainingOwners target (keys u) = Ok n ∧ n ≠ 0%Z.
Proof.
  intros [M Hsz] D Hk Hne Hk' Ho. unfold countRemainingOwners.
  destruct (count_owners_plays target (map_to_list (keys u))) as (n & Hn & _ & Hpos).
  - apply Forall_forall. intros [k0 p0] Hin. apply elem_of_map_to_list in Hin. cbn.
    destruct (M k0 (psRole (Ps p0))) as [(id & Hid & Hdk) Hr]; [by apply active_acct; eauto|].
    destruct (device_id_fixed id (luHost arg) Hid) as [Hf Hu]. rewrite Hdk in Hf. injection Hf as ->. cbn. rewrite Hu.
    split; [done|]. apply is_ok_Ok in Hr as (rk & Hr). by rewrite (GetT_imported _ _ Hr).
  - rewrite length_map_to_list. unfold acct in Hsz. cbn in Hsz. by rewrite map_size_fmap in Hsz.
  - exists n. split; [done|]. apply active_acct in Hk' as (p' & Hp' & <-).
    destruct (M k' (psRole (Ps p'))) as [(id & Hid & Hdk) _]; [by apply active_acct; eauto|].
    destruct (device_id_fixed id (luHost arg) Hid) as [Hf Hu]. rewrite Hdk in Hf. injection Hf as ->.
    enough (0 < n)%Z by lia. eapply (Hpos _ p' id); [by apply elem_of_map_to_list|done| |done].
    unfold EntityID_Eq. rewrite bool_decide_false; [by rewrite andb_false_r|]. intros ->. congruence.
Qed.

Lemma revoke_opens u odc target src k r rk :
  signer_in (luHost arg) (keys u) odc is_owner →
  gcChanges (odGc odc) = [mkMemberRole (NewRoleDefault RoleType_NONE)
                            (mkMember (mkFQEntityInHostScope target None) src NewMemberKeysWithNone)] →
  device_id target → dev_key (luHost arg) target = Ok k → active (acct u) !! k = Some r → ImportRole r = Ok rk →
  made_account (acct u) → (is_owner r → ∃ k' r', k' ≠ k ∧ active (acct u) !! k' = Some r' ∧ is_owner r') →
  revoke_keys (acct u) (EntityID_Eq (gsKey (gcSigner (odGc odc))) target) rk (gcSharedKeys (odGc odc)) →
  rising (gcSharedKeys (odGc odc)) → trEpno (bcRoot (hdBase (gcChainer (odGc odc)))) ≠ 0%Z →
  ∃ res, CheckDeviceRevokeOrRotate odc (luHost arg) (keys u) (pukGens u) = Ok res ∧ rrID res = Some target.
Proof.
  intros (ks & p & Hks & Hp & Hown) Hc D Hk Hr Hrk M Hlast Hkeys Hrise Hep.
  unfold CheckDeviceRevokeOrRotate, checkDeviceRevoke. rewrite Hc. set (c := mkMemberRole _ _).
  assert ((len [c] =? 1)%Z = true) as -> by done. assert (index [c] 0 = Ok c) as -> by done. cbn [mbind result_bind].
  change (hsHost (mId (mrMember c))) with (None : option HostID). change (hsEntity (mId (mrMember c))) with target.
  change (GetT (DstRole c)) with (Ok RoleType_NONE : result Z). cbn [guard_err mbind result_bind].
  change (MemberKeys_GetT (mKeys (mrMember c))) with (Ok MemberKeysType_None : result Z). cbn [mbind result_bind Z.eqb negb guard_err].
  apply active_acct in Hr as (pt & Hpt & Hptr). unfold dev_key in Hk. apply bind_Ok in Hk as (fid & Hfid & [= <-]).
  rewrite Hfid. cbn [mbind result_bind]. rewrite Hpt. cbn [of_option mbind result_bind]. rewrite Hptr, Hrk. cbn [mbind result_bind].
  set (self := EntityID_Eq _ target) in *. assert ((len (gcSharedKeys (odGc odc)) =? 0)%Z = self) as ->.
  { unfold revoke_keys in Hkeys. destruct self; [by rewrite Hkeys|]. destruct Hkeys as [Hne _].
    destruct (gcSharedKeys _); [done|]. unfold len. simpl. lia. }
  assert (negb self && self = false) as -> by (by destruct self). cbn [guard_err mbind result_bind].
  assert (self && negb self = false) as -> by (by destruct self). cbn [guard_err mbind result_bind].
  assert ((if (Typ rk =? RoleType_OWNER)%Z then n ← countRemainingOwners target (keys u);
             guard_err (n =? 0)%Z (RevokeError "cannot revoke last owner device") else Ok ()) = Ok ()) as ->.
  { destruct (Z.eqb_spec (Typ rk) RoleType_OWNER) as [E|]; [|done].
    destruct Hlast as (k' & r' & Hne & Hk' & Ho).
    { unfold is_owner. by rewrite (proj1 (proj2 (proj1 (ImportRole_Ok _ _) Hrk))). }
    destruct (owners_counted u target (mkFQEntityFixed fid (luHost arg)) k' r') as (n & -> & Hn0); try done.
    { unfold dev_key. by rewrite Hfid. }
    cbn [mbind result_bind]. by replace (n =? 0)%Z with false by lia. }
  cbn [mbind result_bind]. unfold checkRotateRevokeCommon, dev_key in *.
  apply bind_Ok in Hks as (fs & Hfs & [= <-]). rewrite Hfs. cbn [mbind result_bind]. rewrite Hp. cbn [of_option mbind result_bind].
  rewrite (proj2 (AssertEq_owner _ _ ()) Hown). cbn [mbind result_bind].
  assert ((if (0 <? len (gcSharedKeys (odGc odc)))%Z
           then CheckSharedKeyUpdate (gcSharedKeys (odGc odc)) (pukGens u) rk else Ok ()) = Ok ()) as ->.
  { unfold revoke_keys in Hkeys. destruct self; [by rewrite Hkeys|]. destruct Hkeys as (_ & H1' & H2').
    destruct (0 <? _)%Z; [|done]. by apply key_update_plays. }
  cbn [mbind result_bind]. replace (_ =? 0)%Z with false by lia. cbn. by eexists.
Qed.

Lemma playRevoke_drops u odc target k p rk res :
  user_ok (luHost arg) u → CheckDeviceRevokeOrRotate odc (luHost arg) (keys u) (pukGens u) = Ok res →
  rrID res = Some target → dev_key (luHost arg) target = Ok k → keys u !! k = Some p →
  ImportRole (psRole (Ps p)) = Ok rk →
  ∃ l di rv, devInfo u !! k = Some (l ++ [di]) ∧ playRevoke (luHost arg) u odc = Ok (drop_device u k l di rv rk).
Proof.
  intros U Hres Hid Hk Hp Hrk. unfold playRevoke. rewrite Hres. cbn [mbind result_bind]. rewrite Hid. cbn [default from_option id].
  unfold dev_key in Hk. apply bind_Ok in Hk as (fid & -> & [= Ek]). cbn [mbind result_bind]. rewrite Ek, Hp.
  cbn [of_option mbind result_bind].
  destruct (do_keys (luHost arg) u (uo_devices _ u U) k p Hp) as (di & Hlast & Hrev & _ & Hdst & _).
  destruct (devInfo u !! k) as [lst|]; [|done]. change (last lst = Some di) in Hlast.
  apply last_Some in Hlast as (l & ->). cbn [of_option mbind result_bind]. unfold len. rewrite length_app. cbn [length].
  replace (Z.of_nat (length l + 1) - 1)%Z with (Z.of_nat (length l)) by lia.
  rewrite index_nat, lookup_app_r, Nat.sub_diag by done.
  cbn [lookup list_lookup of_option mbind result_bind DstRole diKey]. rewrite Hdst. set (u1 := set_devices u _ _ _).
  assert (keys_ok u1) as K1 by (destruct U as [[] _]; by split).
  rewrite (markPotentiallyStale_total u1 _ rk K1 Hrk).
  eexists l, di, (mkRevokeInfo (gsKey (gcSigner (odGc odc))) (hdBase (gcChainer (odGc odc)))). split; [done|].
  f_equal. unfold u1, drop_device. f_equal. unfold set_devices. cbn. do 2 f_equal.
  rewrite Nat.add_sub. by rewrite insert_app_r_alt, Nat.sub_diag.
Qed.

Lemma revoke_plays u odc target src k r rk a' :
  user_ok (luHost arg) u → active_signer u odc is_owner →
  gcChanges (odGc odc) = [mkMemberRole (NewRoleDefault RoleType_NONE)
                            (mkMember (mkFQEntityInHostScope target None) src NewMemberKeysWithNone)] →
  device_id target → dev_key (luHost arg) target = Ok k → active (acct u) !! k = Some r → ImportRole r = Ok rk →
  made_account (acct u) → (is_owner r → ∃ k' r', k' ≠ k ∧ active (acct u) !! k' = Some r' ∧ is_owner r') →
  revoke_keys (acct u) (EntityID_Eq (gsKey (gcSigner (odGc odc))) target) rk (gcSharedKeys (odGc odc)) →
  rising (gcSharedKeys (odGc odc)) → trEpno (bcRoot (hdBase (gcChainer (odGc odc)))) ≠ 0%Z →
  gcMetadata (odGc odc) = [] → (1 < link_seqno odc)%Z →
  new_keys (remove_device (acct u) k rk) (link_keys odc) a' →
  ∃ u', playLink arg u odc = Ok u' ∧ user_ok (luHost arg) u' ∧ acct u' = a' ∧ frame arg 0 u u'.
Proof.
  intros U Hsig Hc D Hk Hr Hrk M Hlast Hkeys Hrise Hep Hm Hseq Hn. rewrite later_link by lia. unfold playLinkNonEldest.
  rewrite (signer_checked u odc _ Hsig). cbn [mbind result_bind]. rewrite (username_kept u odc [] Hm). cbn [mbind result_bind].
  set (u0 := set_names u (uncs u) (dnIdx u)). assert (user_ok (luHost arg) u0) as U0 by (by eapply user_ok_same; [..|exact U]).
  unfold playDeviceChange. rewrite Hc. cbn [DstRole mbind result_bind]. change (GetT (NewRoleDefault RoleType_NONE)) with (Ok RoleType_NONE : result Z).
  cbn [mbind result_bind]. rewrite Z.eqb_refl. destruct Hsig as [Hsig _].
  destruct (revoke_opens u0 odc target src k r rk) as (res & Hres & Hid); try done.
  apply active_acct in Hr as (p & Hp & <-).
  assert (CheckDeviceRevokeOrRotate odc (luHost arg) (keys u0) (pukGens u0) = Ok res) as Hres' by done.
  destruct (playRevoke_drops u0 odc target k p rk res U0 Hres' Hid Hk Hp Hrk) as (l & di & rv & El & Hrv).
  rewrite Hrv. cbn [mbind result_bind].
  change (remove_device (acct u) k rk) with (remove_device (acct u0) k rk) in Hn. rewrite <- (acct_drop_device u0 k l di rv rk) in Hn.
  destruct (keys_added _ _ _ (drop_device_ok _ u0 k l di rv rk U0 El) Hn) as (u' & Hu' & U' & A' & G1 & G2 & G3).
  exists u'. split; [done|]. split; [done|]. split; [done|]. unfold frame. rewrite G1, G2, G3. cbn.
  split; [done|]. split; [done|]. destruct (_ =? _)%Z; lia.
Qed.

(** *** New names and rotations *)
Lemma username_played u odc (mds : list Commitment) :
  gcMetadata (odGc odc) = NewChangeMetadataWithUsername <$> mds →
  playUsernameChange u odc = Ok (set_names u (uncs u ++ mds) (dnIdx u)).
Proof.
  intros Hm. unfold playUsernameChange. rewrite Hm.
  assert (mapM_r (λ md, t ← ChangeMetadata_GetT md;
     if (t =? ChangeType_Username)%Z then c ← Username md; Ok [c] else Ok []) (NewChangeMetadataWithUsername <$> mds)
     = Ok ((λ c, [c]) <$> mds)) as ->.
  { clear Hm. induction mds as [|c mds IH]; [done|]. cbn [fmap list_fmap mapM_r]. cbn. cbn in IH. by rewrite IH. }
  cbn. do 2 f_equal. f_equal. clear. induction mds; [done|]. cbn. congruence.
Qed.

Lemma other_plays u odc mds a' :
  user_ok (luHost arg) u → active_signer u odc (λ _, True) → gcChanges (odGc odc) = [] →
  gcMetadata (odGc odc) = NewChangeMetadataWithUsername <$> mds → (1 < link_seqno odc)%Z →
  new_keys (acct u) (link_keys odc) a' →
  ∃ u', playLink arg u odc = Ok u' ∧ user_ok (luHost arg) u' ∧ acct u' = a' ∧ frame arg 0 u u'.
Proof.
  intros U Hsig Hc Hm Hseq Hn. rewrite later_link by lia. unfold playLinkNonEldest.
  rewrite (signer_checked u odc _ Hsig). cbn [mbind result_bind]. rewrite (username_played u odc mds Hm). cbn [mbind result_bind].
  unfold playDeviceChange. rewrite Hc. cbn [mbind result_bind]. set (u0 := set_names u _ _).
  destruct (keys_added u0 _ a' (user_ok_same _ u u0 ltac:(done) ltac:(done) U) Hn) as (u' & Hu' & U' & A' & G1 & G2 & G3).
  exists u'. split; [done|]. split; [done|]. split; [done|]. unfold frame. rewrite G1, G2, G3. cbn.
  split; [done|]. split; [done|]. destruct (_ =? _)%Z; lia.
Qed.
End steps.

(** ** The parts of a made link *)
Lemma signer_ok_id typ priv i :
  EntityPrivate_EntityPublic (NewEntityPrivateEd25519 typ priv) = Ok i → IsEd25519 typ = true →
  ∃ id, i = EntityPublicEd25519 id ∧ ImportEntityPublic id = Ok i ∧ signs (NewEntityPrivateEd25519 typ priv) (VEntity i).
Proof.
  intros He Ht. unfold EntityPrivate_EntityPublic in He. cbn in He. apply bind_Ok in He as (id & Hid & [= <-]).
  exists id. split; [done|]. pose proof (signs_entity typ priv id Ht Hid) as Hs. split; [|done].
  apply MakeEntityID_key in Hid; [|done]. subst id. unfold ImportEntityPublic, EntityID_Type. change 0%Z with (Z.of_nat 0).
  rewrite index_nat. cbn. replace (_ =? 0)%Z with false by (unfold len; simpl; lia). cbn.
  assert (wrap8 typ = typ) as ->.
  { unfold IsEd25519 in Ht. apply bool_decide_eq_true in Ht.
    repeat (apply elem_of_cons in Ht as [->|Ht]; [reflexivity|]). by apply elem_of_nil in Ht. }
  by rewrite Ht.
Qed.

Definition made_member (role : Role) (id : EntityID) (fp : bytes) (sub : option EntityID) : proto_MemberRole :=
  mkMemberRole role (mkMember (mkFQEntityInHostScope id None) zero_Role (NewMemberKeysWithUser (mkUserMemberKeys fp sub))).

Lemma addSubkey_made gc role id fp subkey gc' :
  gcChanges gc = [made_member role id fp None] → (∀ s, subkey = Some s → sub_suite s) → addSubkey gc subkey = Ok gc' →
  ∃ sub, gc' = mkGroupChange (gcChainer gc) (gcEntity gc) (gcSigner gc) [made_member role id fp sub]
                 (gcSharedKeys gc) (gcMetadata gc) (gcLocationVRFID gc) ∧
         (∀ i, sub = Some i → ImportEntityPublic i = Ok (EntityPublicEd25519 i)) ∧
         Forall2 signs (opt_list subkey) ((λ i, VEntity (EntityPublicEd25519 i)) <$> opt_list sub).
Proof.
  intros Hc Hsub Ha. destruct subkey as [s|]; cbn in Ha.
  - apply bind_Ok in Ha as (ep & Hep & Ha). destruct (Hsub s eq_refl) as (typ & priv & -> & Ht).
    destruct (signer_ok_id typ priv ep Hep Ht) as (i & -> & Hi & Hs). rewrite Hc in Ha. cbn in Ha. injection Ha as <-.
    exists (Some i). split; [done|]. split; [by intros ? [= <-]|]. by repeat constructor.
  - injection Ha as <-. exists None. split; [rewrite <- Hc; by destruct gc|]. split; [done|constructor].
Qed.

Lemma made_device_opens gc hs host device id role fp sub ex t :
  gcChanges gc = [made_member role id fp sub] → GetT role = Ok t → t ≠ RoleType_NONE → device_suite device id →
  HEPK_Fingerprint (ExportHEPK device) = Ok fp → hs !! fp = Some (ExportHEPK device) →
  (∀ i, sub = Some i → ImportEntityPublic i = Ok (EntityPublicEd25519 i)) →
  (bcSeqno (hdBase (gcChainer gc)) = 1%Z → ex = mkEntityPublicAtHost (EntityPublicEd25519 id) host) →
  let nd := mkPublicSuite (EntityPublicEd25519 id) (Some host) (ExportHEPK device) role None in
  open_new_device gc hs host ex =
    Ok (Some nd, Some (made_member role id fp sub), EntityPublicEd25519 <$> sub,
        ((λ i, VEntity (EntityPublicEd25519 i)) <$> opt_list sub) ++
        (if (bcSeqno (hdBase (gcChainer gc)) =? 1)%Z then [] else [VSuite nd])).
Proof.
  intros Hc Ht Hne D Hfp Hh Hsub Hex nd. unfold open_new_device. rewrite Hc. cbn [DstRole made_member]. rewrite Ht.
  cbn [mbind result_bind]. replace (t =? RoleType_NONE)%Z with false by lia.
  pose proof (import_device device id hs host role fp D Hfp Hh sub) as Hi.
  change (ImportPublicSuite (made_member role id fp sub) hs host = Ok nd) in Hi. rewrite Hi. cbn.
  replace (match sub with Some k => s ← ImportEntityPublic k; Ok (Some s) | None => Ok None end)
    with (Ok (EntityPublicEd25519 <$> sub) : result (option EntityPublic)) by (destruct sub; [by rewrite Hsub|done]).
  cbn [mbind result_bind]. unfold Seqno_IsEldest. destruct (Z.eqb_spec (bcSeqno (hdBase (gcChainer gc))) 1) as [E|E].
  - rewrite (Hex E). unfold EntityPublicAtHost_Eq. cbn.
    destruct (device_id_Type id) as (t' & Ht' & _); [by eapply device_suite_spec|].
    change (psEntityID (mkPublicSuite (EntityPublicEd25519 id) (Some host) (ExportHEPK device) role None)) with id.
    rewrite (EntityID_Eq_refl _ _ Ht'), bool_decide_true by done. cbn. rewrite app_nil_r. by destruct sub.
  - by destruct sub.
Qed.
End signing.
