(* ===== verification/UserMade.v ===== *)
(** * Chains that clients make

    A client's links, one after the other: the first one made at sign-up, the later ones with the
    keys of a device that is active then.  Every loader that is served such a chain plays it to the
    client's account. *)
From S2P Require Import Prelude Snowp MerkleTypes Role Roster TeamRoster TeamBoxes Sigs HostChain ChainLoader UserChain UserLoader UserAccount UserPlay UserFacts UserWriter UserWriterFacts.

Section made.
Context `{Crypto} `{Codec} `{ChainLib} `{UserLoaderLib} `{UserWriterLib}.
Context (arg : LoadUserArg).

Definition holds_device (a : account) (s : PrivateSuite25519) (id : EntityID) (P : Role → Prop) : Prop :=
  device_suite s id ∧ ∃ k r, dev_key (luHost arg) id = Ok k ∧ active a !! k = Some r ∧ P r.
(** The commitment to the next location in the tree is not the zero value. *)
Definition real_location (r : result bytes) : Prop :=
  ∀ loc c, MakeTreeLocation r = Ok (loc, c) → Commitment_IsZero c = false.
(** The record of a device's name that the server keeps. *)
Definition named (label : DeviceLabel) (key : option bytes) (nm : DeviceLabelNameAndCommitmentKey) : Prop :=
  dnLabel (Dln nm) = label ∧ key = Some (CommitmentKey nm).
Definition sub_ok (subkey : option EntityPrivateEd25519) : Prop := ∀ s, subkey = Some s → sub_suite s.

(** A link that a client makes as the [n]-th one of its chain, on an account. *)
Inductive client_link (a : account) (n : Z)
  : LinkOuter → list HEPK → list DeviceLabelNameAndCommitmentKey → account → Prop :=
  | cl_eldest username device userKey label root subkey now r_name r_dev r_loc r_seed res id k sk h nm a' :
      n = 1%Z →
      MakeEldestLink (luHost arg) username device userKey label root subkey now r_name r_dev r_loc r_seed = Ok res →
      device_suite device id → suHostID device = Some (luHost arg) → user_suite userKey →
      is_owner (suRole (spSuite userKey)) → spGen userKey = FirstGeneration →
      signup_uid userKey = Ok (luUid arg) → sub_ok subkey → real_location r_loc →
      named label (DevNameCommitmentKey res) nm → dev_key (luHost arg) id = Ok k →
      ExportToSharedKey userKey = Ok (sk, h) →
      new_keys (add_device a k (NewRoleDefault RoleType_OWNER)) [sk] a' →
      client_link a n (mlLink res) (mlHEPKSet res) [nm] a'
  | cl_provision signer existing device id role userKey label prev root subkey now r_dev r_loc res link nm k exported a' :
      (1 < n)%Z → holds_device a signer (psEntityID existing) is_owner →
      MakeProvisionLink (luUid arg) (luHost arg) existing device role userKey label n prev root subkey now r_dev r_loc
        = Ok res →
      CountersignProvisionLink (mlLink res) (suKey signer) = Ok link →
      device_suite device id → Role_IsSet role = true → is_ok (ImportRole role) = true →
      (∀ s, userKey = Some s → user_suite s) → sub_ok subkey → real_location r_loc →
      named label (DevNameCommitmentKey res) nm → dev_key (luHost arg) id = Ok k →
      mapM_r ExportToSharedKey (opt_list userKey) = Ok exported → provision_keys a role exported.*1 →
      new_keys (add_device a k role) exported.*1 a' →
      client_link a n link (mlHEPKSet res) [nm] a'
  | cl_revoke signer sid target newUserKeys prev root now r_loc res k role rk exported a' :
      (1 < n)%Z → holds_device a signer sid is_owner →
      MakeRevokeLink (luUid arg) (luHost arg) signer (Some target) newUserKeys n prev root now r_loc = Ok res →
      device_id (psEntityID target) → dev_key (luHost arg) (psEntityID target) = Ok k →
      active a !! k = Some role → ImportRole role = Ok rk →
      (is_owner role → ∃ k' r', k' ≠ k ∧ active a !! k' = Some r' ∧ is_owner r') →
      trEpno root ≠ 0%Z → real_location r_loc → Forall user_suite newUserKeys →
      mapM_r ExportToSharedKey newUserKeys = Ok exported → rising exported.*1 →
      revoke_keys a (EntityID_Eq sid (psEntityID target)) rk exported.*1 →
      new_keys (remove_device a k rk) exported.*1 a' →
      client_link a n (mlLink res) (mlHEPKSet res) [] a'
  | cl_rotate signer sid newUserKeys prev root now r_loc res exported a' :
      (1 < n)%Z → holds_device a signer sid is_owner →
      MakeRevokeLink (luUid arg) (luHost arg) signer None newUserKeys n prev root now r_loc = Ok res →
      real_location r_loc → Forall user_suite newUserKeys →
      mapM_r ExportToSharedKey newUserKeys = Ok exported → rising exported.*1 → new_keys a exported.*1 a' →
      client_link a n (mlLink res) (mlHEPKSet res) [] a'
  | cl_username signer sid username prev root now r_name r_loc res :
      (1 < n)%Z → holds_device a signer sid (λ _, True) →
      MakeChangeUsernameLink (luUid arg) (luHost arg) signer username n prev root now r_name r_loc = Ok res →
      real_location r_loc → client_link a n (mlLink res) (mlHEPKSet res) [] a.

Inductive client_chain : list LinkOuter → list HEPK → list DeviceLabelNameAndCommitmentKey → account → Prop :=
  | cc_nil : client_chain [] [] [] no_account
  | cc_snoc links raw names a link raw' names' a' :
      client_chain links raw names a → client_link a (Z.of_nat (length links) + 1) link raw' names' a' →
      client_chain (links ++ [link]) (raw ++ raw') (names ++ names') a'.

(** What holds of the loader before a link. *)
Record ready (u : UserLoader) (a : account) (n : Z) (raw : list HEPK) (names : list DeviceLabelNameAndCommitmentKey)
  : Prop := {
  rd_ok : user_ok (luHost arg) u;
  rd_acct : acct u = a;
  rd_uid : EntityID_Type (luUid arg) = Ok EntityType_User;
  rd_hepks : holds (hepks u) raw;
  rd_made : made_account arg a;
  rd_leaves : (n ≤ len (allMerkleLeaves u) < 2 ^ 63)%Z;
  rd_names : luMode arg = LoadModeSelf →
    ∃ m, dnIdx u = Z.of_nat m ∧ ∀ i nm, names !! i = Some nm → luDeviceNames arg !! (m + i)%nat = Some nm
}.

(** What opening and playing a link leads to. *)
Definition plays_to (u : UserLoader) (link : LinkOuter) (a' : account) (m : Z) : Prop :=
  ∃ odc u', OpenDeviceChange link (hepks u) (Some (luUid arg)) (luHost arg) = Ok odc ∧ playLink arg u odc = Ok u' ∧
            user_ok (luHost arg) u' ∧ acct u' = a' ∧ frame arg m u u'.

Context `{!UserWriterLaws} `{!SignLaws}.

Lemma ready_name u a n raw nm label key :
  ready u a n raw [nm] → named label (Some key) nm → name_at arg u label key.
Proof.
  intros R [<- [= ->]] Hself. destruct (rd_names _ _ _ _ _ R Hself) as (m & Hm & Hn). exists m, nm.
  split; [done|]. rewrite <- (Nat.add_0_r m). split; [by apply Hn|done].
Qed.

Lemma holds_signer u a s id P gc lov1 vfs nd raw sps sub :
  acct u = a → holds_device a s id P →
  active_signer arg u (mkOpenDeviceChangeRes gc lov1 vfs nd raw (EntityPublicEd25519 id) sps sub (EntityPublicEd25519 id)) P.
Proof.
  intros <- (_ & k & r & Hk & Hr & HP). split; [|done]. apply active_acct in Hr as (p & Hp & <-). by exists k, p.
Qed.

Lemma exported_keys ks exported :
  mapM_r ExportToSharedKey ks = Ok exported → Forall user_suite ks →
  Forall (λ p, HEPK_Fingerprint p.2 = Ok (skHepkFp p.1)) exported ∧
  Forall2 signs ((λ k, suKey (spSuite k)) <$> ks) (map VShared (suites_of exported)).
Proof.
  intros Hm%mapM_r_Ok Hu. induction Hm as [|s [sk h] ks exported He Hm IH]; [by split|].
  inversion Hu; subst. destruct IH as [I1 I2]; [done|].
  destruct (exported_key s sk h He) as (_ & Hfp & _ & _ & Hs); [done|]. split; [by constructor|]. cbn. by constructor.
Qed.

Lemma chainer_opens gc seqno prev root now c r loc :
  gcChainer gc = mkHidingChainer (mkBaseChainer seqno prev root now) c → MakeTreeLocation r = Ok (loc, c) →
  real_location r → (1 ≤ seqno)%Z → (seqno = 1%Z ↔ prev = None) → OpenChainer gc = Ok ().
Proof.
  intros Hc Hl Hr Hs Hp. unfold OpenChainer. rewrite Hc. cbn [hdBase NextLocationCommitment bcSeqno bcPrev]. rewrite (Hr _ _ Hl). cbn.
  unfold Seqno_IsEldest, Seqno_IsValid. replace (seqno >=? 1)%Z with true by lia.
  destruct (Z.eqb_spec seqno 1), prev; try done; naive_solver.
Qed.

Lemma username_link_plays u a n signer sid username prev root now r_name r_loc res :
  ready u a n (mlHEPKSet res) [] → (1 < n)%Z → holds_device a signer sid (λ _, True) →
  MakeChangeUsernameLink (luUid arg) (luHost arg) signer username n prev root now r_name r_loc = Ok res →
  real_location r_loc → plays_to u (mlLink res) a 0.
Proof.
  intros R Hn Hd Hm Hloc. unfold MakeChangeUsernameLink in Hm. apply bind_Ok in Hm as (? & _ & Hm).
  apply bind_Ok in Hm as ([rck com] & _ & Hm). apply bind_Ok in Hm as (id & Hid & Hm).
  apply bind_Ok in Hm as ([loc c] & Hl & Hm). apply bind_Ok in Hm as (link & Hs & [= <-]). cbn [mlLink].
  pose proof (rd_acct _ _ _ _ _ R) as Ha.
  pose proof Hd as ((typ & priv & _ & _ & Hid') & _). rewrite Hid in Hid'. injection Hid' as ->.
  destruct (device_suite_spec signer sid) as (_ & Hi & Hsig); [by apply Hd|]. apply sign_link_signed in Hs. set (gc := mkGroupChange _ _ _ _ _ _ _) in *.
  destruct (made_opens gc _ link (hepks u) (luUid arg) (luHost arg) [] (EntityPublicEd25519 sid) None None None [] Hs)
    as (lov1 & vfs & Hodc); try done; [by repeat constructor|apply (rd_uid _ _ _ _ _ R)|cbn; lia| |].
  { eapply (chainer_opens gc n (Some prev)); [done..|lia|]. split; [lia|done]. }
  destruct (other_plays arg u _ [com] a (rd_ok _ _ _ _ _ R) (holds_signer u a signer sid (λ _, True) gc lov1 vfs None None [] None Ha Hd))
    as (u' & Hp & U' & A' & F); try done; [by rewrite Ha; constructor|].
  by exists (mkOpenDeviceChangeRes gc lov1 vfs None None (EntityPublicEd25519 sid) [] None (EntityPublicEd25519 sid)), u'.
Qed.

(** The shared part of revocations and rotations: the link with its new keys opens. *)
Lemma revoke_link_opens u a n signer sid target newUserKeys prev root now r_loc res exported P :
  ready u a n (mlHEPKSet res) [] → (1 < n)%Z → holds_device a signer sid P →
  MakeRevokeLink (luUid arg) (luHost arg) signer target newUserKeys n prev root now r_loc = Ok res →
  real_location r_loc → Forall user_suite newUserKeys → mapM_r ExportToSharedKey newUserKeys = Ok exported →
  rising exported.*1 →
  ∃ gc lov1 vfs, OpenDeviceChange (mlLink res) (hepks u) (Some (luUid arg)) (luHost arg) =
      Ok (mkOpenDeviceChangeRes gc lov1 vfs None None (EntityPublicEd25519 sid) (suites_of exported) None (EntityPublicEd25519 sid)) ∧
    gcSigner gc = mkGroupChangeSigner sid None ∧ gcSharedKeys gc = exported.*1 ∧ gcMetadata gc = [] ∧
    bcSeqno (hdBase (gcChainer gc)) = n ∧ bcRoot (hdBase (gcChainer gc)) = root ∧
    gcChanges gc = (λ t, mkMemberRole (NewRoleDefault RoleType_NONE)
      (mkMember (mkFQEntityInHostScope (psEntityID t) None) zero_Role NewMemberKeysWithNone)) <$> opt_list target.
Proof.
  intros R Hn Hd Hm Hloc Hus Hex (rks & Hrk & Hsort). unfold MakeRevokeLink in Hm.
  apply bind_Ok in Hm as (id & Hid & Hm). rewrite Hex in Hm. cbn [mbind result_bind] in Hm.
  apply bind_Ok in Hm as ([loc c] & Hl & Hm). apply bind_Ok in Hm as (link & Hs & [= <-]). cbn [mlLink mlHEPKSet] in *.
  pose proof Hd as ((typ & priv & _ & _ & Hid') & _). rewrite Hid in Hid'. injection Hid' as ->.
  destruct (device_suite_spec signer sid) as (_ & Hi & Hsig); [by apply Hd|]. apply sign_link_signed in Hs.
  destruct (exported_keys _ _ Hex Hus) as [Hfp Hsigs]. set (gc := mkGroupChange _ _ _ _ _ _ _) in *.
  destruct (made_opens gc _ link (hepks u) (luUid arg) (luHost arg) (suites_of exported) (EntityPublicEd25519 sid) None None None [] Hs)
    as (lov1 & vfs & Hodc); try done.
  - by destruct newUserKeys.
  - cbn. apply Forall2_app; [done|]. by repeat constructor.
  - apply (rd_uid _ _ _ _ _ R).
  - by apply (open_exported None exported (hepks u) rks Hfp (rd_hepks _ _ _ _ _ R)).
  - cbn. destruct target; cbn; lia.
  - unfold open_new_device. cbn. by destruct target.
  - eapply (chainer_opens gc n (Some prev)); [done..|lia|]. split; [lia|done].
  - exists gc, lov1, vfs. split; [done|]. repeat (split; [done|]). by destruct target.
Qed.

Lemma rotate_link_plays u a n signer sid newUserKeys prev root now r_loc res exported a' :
  ready u a n (mlHEPKSet res) [] → (1 < n)%Z → holds_device a signer sid is_owner →
  MakeRevokeLink (luUid arg) (luHost arg) signer None newUserKeys n prev root now r_loc = Ok res →
  real_location r_loc → Forall user_suite newUserKeys → mapM_r ExportToSharedKey newUserKeys = Ok exported →
  rising exported.*1 → new_keys a exported.*1 a' → plays_to u (mlLink res) a' 0.
Proof.
  intros R Hn Hd Hm Hloc Hus Hex Hr Hk. pose proof (rd_acct _ _ _ _ _ R) as Ha.
  destruct (revoke_link_opens u a n signer sid None newUserKeys prev root now r_loc res exported is_owner)
    as (gc & lov1 & vfs & Ho & _ & _ & Hmd & Hseq & _ & Hch); try done.
  set (odc := mkOpenDeviceChangeRes _ _ _ _ _ _ _ _ _) in Ho.
  assert (active_signer arg u odc (λ _, True)) as Hsig.
  { eapply (holds_signer u a signer sid); [done|]. destruct Hd as (? & k & r & ? & ? & _). split; [done|]. by exists k, r. }
  destruct (other_plays arg u odc [] a' (rd_ok _ _ _ _ _ R) Hsig) as (u' & Hp & U' & A' & F); try done.
  - unfold link_seqno. cbn. lia.
  - unfold link_keys. cbn [odSharedKeys odc]. by rewrite suites_of_keys, Ha.
  - by exists odc, u'.
Qed.

Lemma revoke_link_plays u a n signer sid target newUserKeys prev root now r_loc res k role rk exported a' :
  ready u a n (mlHEPKSet res) [] → (1 < n)%Z → holds_device a signer sid is_owner →
  MakeRevokeLink (luUid arg) (luHost arg) signer (Some target) newUserKeys n prev root now r_loc = Ok res →
  device_id (psEntityID target) → dev_key (luHost arg) (psEntityID target) = Ok k →
  active a !! k = Some role → ImportRole role = Ok rk →
  (is_owner role → ∃ k' r', k' ≠ k ∧ active a !! k' = Some r' ∧ is_owner r') →
  trEpno root ≠ 0%Z → real_location r_loc → Forall user_suite newUserKeys →
  mapM_r ExportToSharedKey newUserKeys = Ok exported → rising exported.*1 →
  revoke_keys a (EntityID_Eq sid (psEntityID target)) rk exported.*1 →
  new_keys (remove_device a k rk) exported.*1 a' → plays_to u (mlLink res) a' 0.
Proof.
  intros R Hn Hd Hm Htid Htk Hrole Hrk Hlast Hep Hloc Hus Hex Hr Hks Hk. pose proof (rd_acct _ _ _ _ _ R) as Ha.
  destruct (revoke_link_opens u a n signer sid (Some target) newUserKeys prev root now r_loc res exported is_owner)
    as (gc & lov1 & vfs & Ho & Hsg & Hsk & Hmd & Hseq & Hroot & Hch); try done.
  set (odc := mkOpenDeviceChangeRes _ _ _ _ _ _ _ _ _) in Ho. subst a.
  destruct (revoke_plays arg u odc (psEntityID target) zero_Role k role rk a' (rd_ok _ _ _ _ _ R)
    (holds_signer u (acct u) signer sid is_owner _ _ _ _ _ _ _ eq_refl Hd)) as (u' & Hp & U' & A' & F); try done.
  - apply (rd_made _ _ _ _ _ R).
  - cbn [odGc odc]. by rewrite Hsg, Hsk.
  - cbn [odGc odc]. by rewrite Hsk.
  - cbn [odGc odc]. by rewrite Hroot.
  - unfold link_seqno. cbn. lia.
  - unfold link_keys. cbn [odSharedKeys odc]. by rewrite suites_of_keys.
  - by exists odc, u'.
Qed.

(** The inner part of a provision link, and that the link is signed by everyone it names. *)
Lemma provision_link_made existing device id role userKey label n prev root subkey now r_dev r_loc res signer link exported :
  MakeProvisionLink (luUid arg) (luHost arg) existing device role userKey label n prev root subkey now r_dev r_loc
    = Ok res →
  CountersignProvisionLink (mlLink res) (suKey signer) = Ok link → device_suite device id → sub_ok subkey →
  mapM_r ExportToSharedKey (opt_list userKey) = Ok exported →
  ∃ rck com loc c fp sub, Commit label r_dev = Ok (rck, com) ∧ DevNameCommitmentKey res = Some rck ∧
    MakeTreeLocation r_loc = Ok (loc, c) ∧ HEPK_Fingerprint (ExportHEPK device) = Ok fp ∧
    mlHEPKSet res = exported.*2 ++ [ExportHEPK device] ∧
    (∀ i, sub = Some i → ImportEntityPublic i = Ok (EntityPublicEd25519 i)) ∧
    Forall2 signs (opt_list subkey) ((λ i, VEntity (EntityPublicEd25519 i)) <$> opt_list sub) ∧
    signed_with
      (mkGroupChange (mkHidingChainer (mkBaseChainer n (Some prev) root now) c) (mkFQEntity (luUid arg) (luHost arg))
         (mkGroupChangeSigner (psEntityID existing) None) [made_member role id fp sub] exported.*1
         [NewChangeMetadataWithDevicename com] None)
      (((((λ k, suKey (spSuite k)) <$> opt_list userKey) ++ opt_list subkey) ++ [suKey device]) ++ [suKey signer]) link.
Proof.
  intros Hm Hcs Hdev Hsub Hex. unfold MakeProvisionLink in Hm.
  apply bind_Ok in Hm as (pub & Hpub & Hm). apply bind_Ok in Hm as (res0 & Hm0 & Hm). apply bind_Ok in Hm as (lo & Hlo & [= <-]).
  unfold MakeProvisionLinkWithPub in Hm0. apply bind_Ok in Hm0 as ([rck com] & Hcom & Hm0).
  rewrite Hex in Hm0. cbn [mbind result_bind] in Hm0. apply bind_Ok in Hm0 as ([m hepk] & Hmem & Hm0).
  apply bind_Ok in Hm0 as ([loc c] & Hl & Hm0). apply bind_Ok in Hm0 as (gc & Hgc & Hm0).
  apply bind_Ok in Hm0 as (link0 & Hs & [= <-]). cbn [mlLink mlHEPKSet DevNameCommitmentKey] in *.
  unfold Publicize in Hpub. destruct Hdev as (typ & priv & _ & _ & Hid). rewrite Hid in Hpub. cbn in Hpub. injection Hpub as <-.
  unfold PublicSuite_ExportToMember in Hmem. apply bind_Ok in Hmem as (fp & Hfp & [= <- <-]). cbn in Hfp.
  pose proof (λ Hc, addSubkey_made _ role id fp subkey gc Hc Hsub Hgc) as Hadd.
  destruct (Hadd eq_refl) as (sub & -> & Hsubi & Hsubs). clear Hadd Hgc. exists rck, com, loc, c, fp, sub.
  do 7 (split; [done|]). apply sign_link_signed in Hs. eapply countersigned; [|done]. by eapply countersigned.
Qed.

Lemma provision_link_plays u a n signer existing device id role userKey label prev root subkey now r_dev r_loc res link nm k exported a' :
  ready u a n (mlHEPKSet res) [nm] → (1 < n)%Z → holds_device a signer (psEntityID existing) is_owner →
  MakeProvisionLink (luUid arg) (luHost arg) existing device role userKey label n prev root subkey now r_dev r_loc
    = Ok res →
  CountersignProvisionLink (mlLink res) (suKey signer) = Ok link →
  device_suite device id → Role_IsSet role = true → is_ok (ImportRole role) = true →
  (∀ s, userKey = Some s → user_suite s) → sub_ok subkey → real_location r_loc →
  named label (DevNameCommitmentKey res) nm → dev_key (luHost arg) id = Ok k →
  mapM_r ExportToSharedKey (opt_list userKey) = Ok exported → provision_keys a role exported.*1 →
  new_keys (add_device a k role) exported.*1 a' → plays_to u link a' 1.
Proof.
  intros R Hn Hd Hm Hcs Hdev Hset Hrole Hus Hsub Hloc Hnm Hk Hex Hpk Hnk.
  pose proof (rd_acct _ _ _ _ _ R) as <-. pose proof (rd_uid _ _ _ _ _ R) as Huid.
  destruct (provision_link_made existing device id role userKey label n prev root subkey now r_dev r_loc res signer link exported)
    as (rck & com & loc & c & fp & sub & Hcom & Hrck & Hl & Hfp & Hhs & Hsubi & Hsubs & Hs); try done.
  rewrite Hrck in Hnm. pose proof (rd_hepks _ _ _ _ _ R) as Hholds. rewrite Hhs in Hholds. set (gc := mkGroupChange _ _ _ _ _ _ _) in *.
  destruct (exported_keys _ _ Hex) as [Hfps Hsigs].
  { destruct userKey; [|constructor]. constructor; [by apply Hus|constructor]. }
  destruct (device_suite_spec signer (psEntityID existing)) as (_ & Hi & Hsig); [by apply Hd|].
  destruct (device_suite_spec device id Hdev) as (_ & _ & Hdsig). destruct (IsSet_GetT role) as [(t & Ht & Hne) _]; [done|].
  assert (hepks u !! fp = Some (ExportHEPK device)) as Hh by (apply Hholds; [set_solver|done]).
  pose proof (made_device_opens gc (hepks u) (luHost arg) device id role fp sub
    (mkEntityPublicAtHost (EntityPublicEd25519 (psEntityID existing)) (luHost arg)) t eq_refl Ht Hne Hdev Hfp Hh Hsubi ltac:(cbn; lia)) as Hnd.
  cbn zeta in Hnd. cbn [gcChainer gc hdBase bcSeqno] in Hnd. replace (n =? 1)%Z with false in Hnd by lia. set (nd := mkPublicSuite _ _ _ _ _) in Hnd.
  assert (rising exported.*1) as (rks & Hr1 & Hr2).
  { destruct Hpk as [->|(sk & rk & -> & Hri & _)]; [exists []|exists [rk]]; by repeat constructor. }
  destruct (made_opens gc _ link (hepks u) (luUid arg) (luHost arg) (suites_of exported) (EntityPublicEd25519 (psEntityID existing))
    (Some nd) (Some (made_member role id fp sub)) (EntityPublicEd25519 <$> sub)
    (((λ i, VEntity (EntityPublicEd25519 i)) <$> opt_list sub) ++ [VSuite nd]) Hs) as (lov1 & vfs & Hodc); try done.
  - intros Hnil. by apply app_eq_nil in Hnil as [_ ?].
  - rewrite <- !app_assoc. apply Forall2_app; [done|]. apply Forall2_app; [done|]. by repeat constructor.
  - apply (open_exported None exported (hepks u) rks Hfps); try done. intros h f Hin. apply Hholds. set_solver.
  - eapply (chainer_opens gc n (Some prev)); [done..|lia|]. split; [lia|done].
  - set (odc := mkOpenDeviceChangeRes _ _ _ _ _ _ _ _ _) in Hodc.
    assert (link_keys odc = exported.*1) as Hlk by apply suites_of_keys. pose proof (rd_leaves _ _ _ _ _ R) as Hlv.
    destruct (provision_plays arg u odc nd (made_member role id fp sub) com label r_dev rck k a' (rd_ok _ _ _ _ _ R)
      (holds_signer u (acct u) signer (psEntityID existing) is_owner _ _ _ _ _ _ _ eq_refl Hd)) as (u' & Hp & U' & A' & F);
      rewrite ?Hlk; try done; [by eapply ready_name|unfold link_seqno; cbn; lia|lia|]. by exists odc, u'.
Qed.

Lemma user_ids userKey uid sk h :
  user_suite userKey → signup_uid userKey = Ok uid → ExportToSharedKey userKey = Ok (sk, h) →
  EntityID_Type uid = Ok EntityType_User ∧ ToUID uid = Ok uid ∧ Persistent (skVerifyKey sk) PartyType_User = Ok uid ∧
  RollingEq uid (skVerifyKey sk) = Ok true.
Proof.
  intros (priv & Hk) Huid Hex. unfold signup_uid, Suite_EntityID in Huid. rewrite Hk in Huid. cbn [pk_typ pk_pub NewEntityPrivateEd25519] in Huid.
  unfold ExportToSharedKey, RollingEntityID in Hex. rewrite Hk in Hex. cbn in Hex.
  apply bind_Ok in Hex as (vk & Hvk & Hex). apply bind_Ok in Hex as (fp & _ & [= <- _]). cbn [skVerifyKey].
  apply bind_Ok in Huid as (pid & Hpid & Huid). apply MakeEntityID_key in Hpid; [|done]. apply MakeEntityID_key in Hvk; [|done]. subst pid vk.
  pose proof (length_Public priv) as Hl. set (b := ed25519_Public priv) in *.
  change (wrap8 EntityType_PUKVerify) with EntityType_PUKVerify in *.
  assert (∀ t : Z, EntityID_Type (t :: b) = Ok t) as Ht.
  { intros t. unfold EntityID_Type. change 0%Z with (Z.of_nat 0). by rewrite index_nat. }
  assert (∀ t : Z, len (t :: b) = 33%Z) as Hlen by (intros t; unfold len; simpl; lia).
  assert (Persistent (EntityType_PUKVerify :: b) PartyType_User = Ok (EntityType_User :: b)) as Hper.
  { unfold Persistent. rewrite Hlen, Ht. cbn. unfold MakeEntityID. change (wrap8 EntityType_User) with EntityType_User. rewrite drop_0.
    cbn. by rewrite ?Hlen. }
  assert (ToUID (EntityType_User :: b) = Ok (EntityType_User :: b)) as Hto.
  { unfold ToUID. rewrite Ht. cbn. by rewrite ?Hlen. }
  rewrite Hper in Huid. cbn [mbind result_bind] in Huid. rewrite Hto in Huid. injection Huid as <-. split; [apply Ht|].
  split; [done|]. split; [done|]. unfold RollingEq. rewrite !Hlen, !Ht. cbn. by rewrite bool_decide_true.
Qed.

(** The inner part of a first link. *)
Lemma eldest_link_made username device userKey label root subkey now r_name r_dev r_loc r_seed res id sk h :
  MakeEldestLink (luHost arg) username device userKey label root subkey now r_name r_dev r_loc r_seed = Ok res →
  device_suite device id → suHostID device = Some (luHost arg) → user_suite userKey →
  signup_uid userKey = Ok (luUid arg) → sub_ok subkey → ExportToSharedKey userKey = Ok (sk, h) →
  ∃ rck c_dev c_user c_sub loc c fp sub, Commit label r_dev = Ok (rck, c_dev) ∧ DevNameCommitmentKey res = Some rck ∧
    MakeTreeLocation r_loc = Ok (loc, c) ∧ HEPK_Fingerprint (ExportHEPK device) = Ok fp ∧
    mlHEPKSet res = [h; ExportHEPK device] ∧
    (∀ i, sub = Some i → ImportEntityPublic i = Ok (EntityPublicEd25519 i)) ∧
    Forall2 signs (opt_list subkey) ((λ i, VEntity (EntityPublicEd25519 i)) <$> opt_list sub) ∧
    signed_with
      (mkGroupChange (mkHidingChainer (mkBaseChainer 1 None root now) c) (mkFQEntity (luUid arg) (luHost arg))
         (mkGroupChangeSigner id None) [made_member (NewRoleDefault RoleType_OWNER) id fp sub] [sk]
         [NewChangeMetadataWithUsername c_user; NewChangeMetadataWithDevicename c_dev;
          NewChangeMetadataWithEldest (mkEldestMetadata c_sub)] None)
      ([suKey (spSuite userKey)] ++ opt_list subkey ++ [suKey device]) (mlLink res).
Proof.
  intros Hm Hdev Hhost Hus Huid Hsub Hex. destruct (user_ids userKey (luUid arg) sk h Hus Huid Hex) as (_ & _ & Hper & _).
  unfold MakeEldestLink in Hm. apply bind_Ok in Hm as (? & _ & Hm). apply bind_Ok in Hm as ([rn c_user] & _ & Hm).
  apply bind_Ok in Hm as ([rck c_dev] & Hcom & Hm). destruct Hdev as (typ & priv & _ & _ & Hid). rewrite Hid in Hm.
  cbn [mbind result_bind] in Hm. rewrite Hex in Hm. cbn [mbind result_bind] in Hm. rewrite Hper in Hm. cbn [mbind result_bind] in Hm.
  apply bind_Ok in Hm as (m & Hmem & Hm). apply bind_Ok in Hm as ([loc c] & Hl & Hm).
  apply bind_Ok in Hm as ([sd c_sub] & _ & Hm). apply bind_Ok in Hm as (gc & Hgc & Hm).
  apply bind_Ok in Hm as (link & Hs & [= <-]). cbn [mlLink mlHEPKSet DevNameCommitmentKey].
  unfold ExportToMember, exportToMember in Hmem. rewrite Hid, Hhost in Hmem. cbn [mbind result_bind] in Hmem.
  apply bind_Ok in Hmem as (fp & Hfp & [= <-]). unfold PickHostIDInScope in Hgc. rewrite HostID_Eq_refl in Hgc.
  pose proof (λ Hc, addSubkey_made _ (NewRoleDefault RoleType_OWNER) id fp subkey gc Hc Hsub Hgc) as Hadd.
  destruct (Hadd eq_refl) as (sub & -> & Hsubi & Hsubs). clear Hadd Hgc. exists rck, c_dev, c_user, c_sub, loc, c, fp, sub.
  do 7 (split; [done|]). by apply sign_link_signed.
Qed.

Lemma eldest_link_plays u a username device userKey label root subkey now r_name r_dev r_loc r_seed res id k sk h nm a' :
  ready u a 1 (mlHEPKSet res) [nm] →
  MakeEldestLink (luHost arg) username device userKey label root subkey now r_name r_dev r_loc r_seed = Ok res →
  device_suite device id → suHostID device = Some (luHost arg) → user_suite userKey →
  is_owner (suRole (spSuite userKey)) → spGen userKey = FirstGeneration →
  signup_uid userKey = Ok (luUid arg) → sub_ok subkey → real_location r_loc →
  named label (DevNameCommitmentKey res) nm → dev_key (luHost arg) id = Ok k →
  ExportToSharedKey userKey = Ok (sk, h) →
  new_keys (add_device a k (NewRoleDefault RoleType_OWNER)) [sk] a' → plays_to u (mlLink res) a' 1.
Proof.
  intros R Hm Hdev Hhost Hus Hown Hgen Huid Hsub Hloc Hnm Hk Hex Hnk. pose proof (rd_acct _ _ _ _ _ R) as <-.
  destruct (user_ids userKey (luUid arg) sk h Hus Huid Hex) as (Hut & Htu & _ & Hroll).
  destruct (eldest_link_made username device userKey label root subkey now r_name r_dev r_loc r_seed res id sk h)
    as (rck & c_dev & c_user & c_sub & loc & c & fp & sub & Hcom & Hrck & Hl & Hfp & Hhs & Hsubi & Hsubs & Hs); try done.
  rewrite Hrck in Hnm. pose proof (rd_hepks _ _ _ _ _ R) as Hholds. rewrite Hhs in Hholds. set (gc := mkGroupChange _ _ _ _ _ _ _) in *.
  destruct (exported_key userKey sk h Hex Hus) as (_ & Hfps & Hskg & Hskr & Hsigs).
  destruct (device_suite_spec device id Hdev) as (Hdid & Hi & Hdsig). destruct (device_id_Type id Hdid) as (t & Ht & _).
  assert (hepks u !! fp = Some (ExportHEPK device)) as Hh by (apply Hholds; [set_solver|done]).
  pose proof (made_device_opens gc (hepks u) (luHost arg) device id (NewRoleDefault RoleType_OWNER) fp sub
    (mkEntityPublicAtHost (EntityPublicEd25519 id) (luHost arg)) RoleType_OWNER eq_refl eq_refl ltac:(done) Hdev Hfp Hh Hsubi ltac:(done)) as Hnd.
  cbn zeta in Hnd. cbn [gcChainer gc hdBase bcSeqno Z.eqb Pos.eqb] in Hnd. rewrite app_nil_r in Hnd. set (nd := mkPublicSuite _ _ _ _ _) in Hnd.
  destruct (made_opens gc _ (mlLink res) (hepks u) (luUid arg) (luHost arg) [mkSharedPublicSuite sk h] (EntityPublicEd25519 id)
    (Some nd) (Some (made_member (NewRoleDefault RoleType_OWNER) id fp sub)) (EntityPublicEd25519 <$> sub)
    ((λ i, VEntity (EntityPublicEd25519 i)) <$> opt_list sub) Hs) as (lov1 & vfs & Hodc); try done.
  - constructor; [apply Hsigs|]. apply Forall2_app; [done|]. by repeat constructor.
  - cbn. unfold HEPKSet_Lookup. by rewrite (Hholds h _ ltac:(set_solver) Hfps).
  - by eapply (chainer_opens gc 1 None).
  - set (odc := mkOpenDeviceChangeRes _ _ _ _ _ _ _ _ _) in Hodc.
    destruct (eldest_plays arg u odc nd (made_member (NewRoleDefault RoleType_OWNER) id fp sub) (mkSharedPublicSuite sk h)
      c_user c_dev c_sub t label r_dev rck k a' (rd_ok _ _ _ _ _ R)) as (u' & Hp & U' & A' & F); try done.
    + cbn. by rewrite Hskr.
    + cbn. by rewrite Hskg.
    + by eapply ready_name.
    + pose proof (rd_leaves _ _ _ _ _ R) as Hlv. intros E. rewrite E in Hlv. unfold len in Hlv. simpl in Hlv. lia.
    + by exists odc, u'.
Qed.

Lemma client_link_plays u a n link raw names a' :
  ready u a n raw names → client_link a n link raw names a' → plays_to u link a' (Z.of_nat (length names)).
Proof.
  intros R Hl. destruct Hl; subst.
  - by eapply eldest_link_plays.
  - by eapply provision_link_plays.
  - by eapply revoke_link_plays.
  - by eapply rotate_link_plays.
  - by eapply username_link_plays.
Qed.

(** ** The chain *)
(** The devices of a client's account are devices that it made. *)
Definition made_devices (a : account) (m : nat) : Prop :=
  (∀ k r, active a !! k = Some r → (∃ id, device_id id ∧ dev_key (luHost arg) id = Ok k) ∧ is_ok (ImportRole r) = true) ∧
  (size (active a) ≤ m)%nat.

Lemma made_add a m k id r :
  made_devices a m → device_id id → dev_key (luHost arg) id = Ok k → is_ok (ImportRole r) = true →
  made_devices (add_device a k r) (S m).
Proof.
  intros [M Hm] D Hk Hr. split; cbn.
  - intros k' r'. rewrite lookup_insert. case_decide as E; [|apply M]. intros [= <-]. subst k'. eauto.
  - destruct (active a !! k) eqn:E; [rewrite map_size_insert_Some by eauto|rewrite map_size_insert_None by done]; lia.
Qed.
Lemma made_mono a a' m m' : active a' ⊆ active a → (m ≤ m')%nat → made_devices a m → made_devices a' m'.
Proof.
  intros Hs Hle [M Hm]. split; [|apply map_subseteq_size in Hs; lia].
  intros k r Hk. apply M. by eapply lookup_weaken.
Qed.

Lemma client_link_devices a n link raw names a' m :
  client_link a n link raw names a' → made_devices a m → made_devices a' (S m).
Proof.
  intros Hl M. destruct Hl; try match goal with Hk : new_keys _ _ _ |- _ => apply new_keys_active in Hk as Hn end.
  - eapply (made_mono (add_device a k (NewRoleDefault RoleType_OWNER))); [by rewrite Hn|done|].
    eapply made_add; [done|by eapply device_suite_spec|done|done].
  - eapply (made_mono (add_device a k role)); [by rewrite Hn|done|].
    eapply made_add; [done|by eapply device_suite_spec|done|done].
  - eapply (made_mono a _ m); [|lia|done]. rewrite Hn. cbn. apply delete_subseteq.
  - eapply (made_mono a _ m); [by rewrite Hn|lia|done].
  - eapply (made_mono a _ m); [done|lia|done].
Qed.

Lemma client_chain_devices links raw names a : client_chain links raw names a → made_devices a (length links).
Proof.
  induction 1 as [|links raw names a link raw' names' a' _ IH Hl].
  - split; [|done]. intros k r. cbn. by rewrite lookup_empty.
  - rewrite length_app, Nat.add_1_r. by eapply client_link_devices.
Qed.

Lemma client_chain_uid links raw names a :
  client_chain links raw names a → links ≠ [] → EntityID_Type (luUid arg) = Ok EntityType_User.
Proof.
  induction 1 as [|links raw names a link raw' names' a' _ IH Hl]; [done|intros _].
  destruct Hl; [by eapply user_ids|..]; apply IH; intros ->; simpl in *; lia.
Qed.

(** Every encryption key that a client sends has a fingerprint. *)
Definition printed (raw : list HEPK) : Prop := Forall (λ h, is_ok (HEPK_Fingerprint h) = true) raw.

Lemma exported_printed ks exported : mapM_r ExportToSharedKey ks = Ok exported → printed exported.*2.
Proof.
  intros Hm%mapM_r_Ok. induction Hm as [|s [sk h] ks exported He _ IH]; constructor; [|done].
  unfold ExportToSharedKey in He. apply bind_Ok in He as (vk & _ & He). apply bind_Ok in He as (fp & Hfp & [= <- <-]).
  cbn. by rewrite Hfp.
Qed.

Lemma revoke_printed uid host s t ks n prev root now r res :
  MakeRevokeLink uid host s t ks n prev root now r = Ok res → printed (mlHEPKSet res).
Proof.
  unfold MakeRevokeLink. intros Hm. apply bind_Ok in Hm as (? & _ & Hm). apply bind_Ok in Hm as (exported & Hex & Hm).
  apply bind_Ok in Hm as ([? ?] & _ & Hm). apply bind_Ok in Hm as (? & _ & [= <-]). by eapply exported_printed.
Qed.

Lemma client_link_printed a n link raw names a' : client_link a n link raw names a' → printed raw.
Proof.
  intros Hl. destruct Hl as [| | | |signer sid username prev root now r_name r_loc res _ _ Hm _].
  - edestruct (eldest_link_made) as (? & ? & ? & ? & ? & ? & ? & ? & ? & ? & ? & Hfp & -> & _); try done.
    destruct (exported_key userKey sk h) as (_ & Hh & _); [done..|]. repeat constructor; [by rewrite Hh|by rewrite Hfp].
  - edestruct (provision_link_made) as (? & ? & ? & ? & ? & ? & ? & ? & ? & Hfp & -> & _); try done.
    apply Forall_app. split; [by eapply exported_printed|]. repeat constructor. by rewrite Hfp.
  - by eapply revoke_printed.
  - by eapply revoke_printed.
  - unfold MakeChangeUsernameLink in Hm. apply bind_Ok in Hm as (? & _ & Hm). apply bind_Ok in Hm as ([? ?] & _ & Hm).
    apply bind_Ok in Hm as (? & _ & Hm). apply bind_Ok in Hm as ([? ?] & _ & Hm). apply bind_Ok in Hm as (? & _ & [= <-]).
    constructor.
Qed.
Lemma client_chain_printed links raw names a : client_chain links raw names a → printed raw.
Proof.
  induction 1 as [|links raw names a link raw' names' a' _ IH Hl]; [constructor|].
  apply Forall_app. split; [done|by eapply client_link_printed].
Qed.

(** No two of the keys share a fingerprint. *)
Definition distinct_prints (raw : list HEPK) : Prop :=
  ∀ h h' fp, h ∈ raw → h' ∈ raw → HEPK_Fingerprint h = Ok fp → HEPK_Fingerprint h' = Ok fp → h = h'.

Lemma NoDup_prints raw : NoDup (HEPK_Fingerprint <$> raw) → distinct_prints raw.
Proof.
  intros Hnd h h' fp [i Hi]%list_elem_of_lookup [j Hj]%list_elem_of_lookup Hf Hf'.
  assert (i = j) as -> by (eapply (NoDup_lookup _ i j (Ok fp) Hnd); by rewrite list_lookup_fmap, ?Hi, ?Hj; cbn; f_equal).
  congruence.
Qed.

Lemma import_finds raw ret :
  printed raw → ∃ hs, import_hepks raw ret = Ok hs ∧
    ∀ h fp, HEPK_Fingerprint h = Ok fp → (∀ h', h' ∈ raw → HEPK_Fingerprint h' = Ok fp → h' = h) →
      h ∈ raw ∨ ret !! fp = Some h → hs !! fp = Some h.
Proof.
  intros Hp. revert ret. induction Hp as [|v raw Hv Hp IH]; intros ret.
  { exists ret. split; [done|]. intros h fp _ _ [Hin|?]; [by apply elem_of_nil in Hin|done]. }
  apply is_ok_Ok in Hv as (fv & Hv). destruct (IH (<[fv := v]> ret)) as (hs & Hi & Hhs). exists hs.
  cbn. rewrite Hv. split; [done|]. intros h fp Hfp Hd Hor. apply Hhs; [done|set_solver|].
  destruct (decide (fv = fp)) as [->|Hne].
  - right. rewrite lookup_insert_eq. f_equal. apply Hd; [set_solver|done].
  - rewrite lookup_insert_ne by done. destruct Hor as [Hin|?]; [|by right].
    apply elem_of_cons in Hin as [->|?]; [congruence|by left].
Qed.
Lemma import_holds raw : printed raw → distinct_prints raw → ∃ hs, ImportHEPKSet raw = Ok hs ∧ holds hs raw.
Proof.
  intros Hp Hd. destruct (import_finds raw ∅ Hp) as (hs & Hi & Hhs). exists hs. split; [done|].
  intros h fp Hin Hfp. apply Hhs; [done| |by left]. intros h' Hin' Hfp'. by eapply Hd.
Qed.

Lemma open_links_snoc hs n links link odcs odc :
  open_links arg hs n links = Ok odcs → OpenDeviceChange link hs (Some (luUid arg)) (luHost arg) = Ok odc →
  open_links arg hs n (links ++ [link]) = Ok (odcs ++ [odc]).
Proof.
  revert n odcs. induction links as [|l links IH]; intros n odcs Ho Hl; cbn in Ho |- *.
  { injection Ho as <-. by rewrite Hl. }
  apply bind_Ok in Ho as (o & -> & Ho). apply bind_Ok in Ho as (rest & Hr & [= <-]). cbn. by rewrite (IH _ _ Hr Hl).
Qed.
Lemma playLinks_snoc u odcs odc u1 u2 :
  playLinks arg u odcs = Ok u1 → playLink arg u1 odc = Ok u2 → playLinks arg u (odcs ++ [odc]) = Ok u2.
Proof.
  revert u. induction odcs as [|o odcs IH]; intros u Hp Hl; cbn in Hp |- *.
  { injection Hp as ->. by rewrite Hl. }
  apply bind_Ok in Hp as (u' & -> & Hp). cbn. by apply IH.
Qed.

Lemma client_chain_plays links raw names a leaves hs :
  client_chain links raw names a → holds hs raw → (Z.of_nat (length links) ≤ len leaves < 2 ^ 63)%Z →
  (luMode arg = LoadModeSelf → names `prefix_of` luDeviceNames arg) →
  let u0 := set_hepks (new_UserLoader leaves) hs in
  ∃ odcs u, open_links arg hs 0 links = Ok odcs ∧ playLinks arg u0 odcs = Ok u ∧ user_ok (luHost arg) u ∧ acct u = a ∧
    frame arg (Z.of_nat (length names)) u0 u.
Proof.
  intros Hc Hh Hlv Hnm u0. induction Hc as [|links raw names a link raw' names' a' Hc IH Hl].
  { exists [], u0. split; [done|]. split; [done|]. split; [apply user_ok_hepks, new_UserLoader_ok|].
    split; [by unfold acct, no_account; cbn; rewrite fmap_empty|]. split; [done|]. split; [done|]. by destruct (_ =? _)%Z. }
  rewrite length_app in Hlv. cbn in Hlv. destruct IH as (odcs & u & Ho & Hp & U & A & F1 & F2 & F3).
  { intros h fp Hin. apply Hh. set_solver. }
  { lia. }
  { intros Hs. etrans; [|by apply Hnm]. by apply prefix_app_r. }
  assert (EntityID_Type (luUid arg) = Ok EntityType_User) as Huid.
  { eapply (client_chain_uid (links ++ [link])); [by econstructor|]. by destruct links. }
  assert (ready u a (Z.of_nat (length links) + 1) raw' names') as R.
  { split; try done.
    - rewrite F1. intros h fp Hin. apply Hh. set_solver.
    - destruct (client_chain_devices _ _ _ _ Hc) as [M Hm]. split; [done|]. lia.
    - rewrite F2. cbn. lia.
    - intros Hs. exists (length names). rewrite Hs in F3. split; [by rewrite F3|]. intros i nm Hi.
      destruct (Hnm Hs) as (rest & ->). rewrite <- app_assoc. rewrite lookup_app_r by lia.
      replace (length names + i - length names)%nat with i by lia. rewrite lookup_app_l; [done|by eapply lookup_lt_Some]. }
  destruct (client_link_plays u a _ link raw' names' a' R Hl) as (odc & u' & Hod & Hpl & U' & A' & G1 & G2 & G3).
  rewrite F1 in Hod. exists (odcs ++ [odc]), u'. split; [by apply open_links_snoc|]. split; [by eapply playLinks_snoc|].
  split; [done|]. split; [done|]. split; [by rewrite G1|]. split; [by rewrite G2|].
  rewrite G3, F3, length_app. destruct (_ =? _)%Z; lia.
Qed.

End made.
