(* ===== verification/UserMadeExamples.v ===== *)
(** * A chain that a client makes, and its load

    The client of a user signs up, adds a member device with its key, revokes it and changes the user's name; the
    third-party code is a toy, and the encoder of links is a table. *)
From S2P Require Import Prelude Snowp MerkleTypes Role Roster TeamRoster TeamBoxes Sigs HostChain ChainLoader UserChain UserLoader UserAccount UserPlay UserFacts UserWriter UserWriterFacts UserMade.

#[local] Instance TreeRoot_dec : EqDecision TreeRoot.
Proof. solve_decision. Defined.
#[local] Instance BaseChainer_dec : EqDecision BaseChainer.
Proof. solve_decision. Defined.
#[local] Instance HidingChainer_dec : EqDecision HidingChainer.
Proof. solve_decision. Defined.
#[local] Instance FQEntity_dec : EqDecision FQEntity.
Proof. solve_decision. Defined.
#[local] Instance FQEntityInHostScope_dec : EqDecision FQEntityInHostScope.
Proof. solve_decision. Defined.
#[local] Instance KeyOwner_dec : EqDecision KeyOwner.
Proof. solve_decision. Defined.
#[local] Instance GroupChangeSigner_dec : EqDecision GroupChangeSigner.
Proof. solve_decision. Defined.
#[local] Instance UserMemberKeys_dec : EqDecision UserMemberKeys.
Proof. solve_decision. Defined.
#[local] Instance MemberKeys_dec : EqDecision MemberKeys.
Proof. solve_decision. Defined.
#[local] Instance proto_Member_dec : EqDecision proto_Member.
Proof. solve_decision. Defined.
#[local] Instance proto_MemberRole_dec : EqDecision proto_MemberRole.
Proof. solve_decision. Defined.
#[local] Instance SharedKey_dec : EqDecision SharedKey.
Proof. solve_decision. Defined.
#[local] Instance EldestMetadata_dec : EqDecision EldestMetadata.
Proof. solve_decision. Defined.
#[local] Instance ChangeMetadata_dec : EqDecision ChangeMetadata.
Proof. solve_decision. Defined.
#[local] Instance GroupChange_dec : EqDecision GroupChange.
Proof. solve_decision. Defined.

(** ** The third-party code *)
Definition um_pad (n : nat) (b : bytes) : bytes := take n (b ++ replicate n 0%Z).
Definition um_sum (m : bytes) : Z := (fold_left (λ a b, (2 * a + b) mod 251) m 0)%Z.
Definition um_sig (key m : bytes) : bytes := um_pad 64 (take 2 key ++ [um_sum m]).
#[local] Instance um_crypto : Crypto := {|
  ed25519_verify k m s := bool_decide (s = um_sig k m);
  ed25519_Sign p m := um_sig (um_pad 32 p) m;
  ed25519_Public p := um_pad 32 p;
  EcdsaKey := ();
  UnmarshalCompressed _ := None;
  ecdsa_Verify _ _ _ := false;
  asn1_Unmarshal _ := Err (GoError "asn1");
  Sum512_256 m := [um_sum m];
  TypeUniqueID_Encode _ := Ok []
|}.
#[local] Instance um_sign_laws : SignLaws.
Proof.
  split; [intros; by apply bool_decide_eq_true|].
  intros priv. cbn. unfold um_pad. rewrite length_take, length_app, length_replicate. lia.
Qed.
#[local] Instance um_codec : Codec := {|
  uid_bytes _ := [];
  sha512_256 m := um_pad 32 m;
  enc_MerkleNode _ := Err (GoError "not used");
  enc_MerkleRoot _ := Err (GoError "not used");
  enc_MerkleBackPointers _ := Err (GoError "not used");
  dec_MerkleRoot _ := Err (GoError "not used");
  dec_Signature _ := Err (GoError "not used")
|}.
#[local] Instance um_chain_lib : ChainLib := {|
  enc_LinkOuter _ := Err (GoError "not used");
  enc_MerkleTreeRFInput _ := Err (GoError "not used");
  enc_TreeLocation l := Ok (shortest (MBin l));
  enc_ChainLocationDerivation _ := Err (GoError "not used");
  dec_LinkOuter _ := Err (GoError "not used");
  hmac_sha512_256 k m := k ++ m
|}.
#[local] Instance um_loader_lib : UserLoaderLib := {|
  enc_DeviceLabel l := Ok (dlName l);
  slices_SortFunc A _ l := l
|}.
Definition um_enc_hepk (h : HEPK) : bytes :=
  shortest (MArr [MInt (hepk_V h); MBin (default [] (hepk_F1 h ≫= λ v, dh_F0 (Classical v)))]).

(** Inner links are encoded as their position in a table. *)
Definition um_user_lib (table : list GroupChange) : UserLib := {|
  GenericLink := Empty_set;
  dec_LinkInner b :=
    match b with
    | [n] => gc ← of_option (GoError "decode") (table !! Z.to_nat n); Ok (NewLinkInnerWithGroupChange gc)
    | _ => Err (GoError "decode")
    end;
  enc_LinkOuterV1 l :=
    Ok (shortest (MArr [MBin (lo1Inner l);
          match lo1Signatures l with [] => MNil | sigs => MArr (map (λ s, MBin (default [] (sig_F0 s))) sigs) end]));
  enc_HEPK h := Ok (um_enc_hepk h)
|}.
Definition um_position (table : list GroupChange) (gc : GroupChange) : option nat := fst <$> list_find (gc =.) table.
Definition um_user_writer_lib (table : list GroupChange) : UserWriterLib (H := um_user_lib table) := {|
  enc_LinkInner l :=
    match l with
    | mkLinkInner 1 (Some gc) None => n ← of_option (GoError "encode") (um_position table gc); Ok [Z.of_nat n]
    | _ => Err (GoError "encode")
    end;
  enc_NameCommitment n := Ok (ncName n)
|}.
Lemma um_position_lookup table gc n : um_position table gc = Some n → table !! n = Some gc.
Proof.
  unfold um_position. intros Hn. destruct (list_find (gc =.) table) as [[n' gc']|] eqn:E; [|discriminate Hn]. injection Hn as <-.
  by apply list_find_Some in E as (Hl & <- & _).
Qed.
Lemma um_user_writer_laws table : @UserWriterLaws (um_user_lib table) (um_user_writer_lib table).
Proof.
  split. intros [t f0 f1] b Hb. cbn -[um_position] in Hb |- *.
  destruct (decide (t = 1%Z)) as [->|Ht]; [|by destruct t as [|[]|]].
  destruct f0 as [gc|]; [|done]. destruct f1 as [[]|]. apply bind_Ok in Hb as (n & Hn & [= <-]).
  destruct (um_position table gc) as [m|] eqn:E; [|done]. injection Hn as <-.
  by rewrite Nat2Z.id, (um_position_lookup _ _ _ E).
Qed.

(** ** The keys *)
Definition um_host : HostID := 2%Z :: replicate 32 9%Z.
Definition um_key (t n : Z) : EntityPrivateEd25519 := NewEntityPrivateEd25519 t [n; n].
Definition um_suite (t n : Z) (r : Role) : PrivateSuite25519 :=
  mkPrivateSuite25519 r (um_key t n) [n] (mkKemEncapKey 1 None) (Some um_host).
Definition um_owner : Role := NewRoleDefault RoleType_OWNER.
Definition um_member : Role := NewRoleWithMember 0.
Definition um_dev (n : Z) (r : Role) : PrivateSuite25519 := um_suite EntityType_Device n r.
Definition um_puk (n : Z) (r : Role) (g : Generation) : SharedPrivateSuite25519 :=
  mkSharedPrivateSuite25519 (um_suite EntityType_PUKVerify n r) g.
Definition um_id (t n : Z) : EntityID := t :: um_pad 32 [n; n].
Definition um_uid : EntityID := um_id EntityType_User 1.
Definition um_name : NameCommitment := mkNameCommitment [97; 98]%Z 1.
Definition um_label (n : Z) : DeviceLabel := mkDeviceLabel 1 [97; 98]%Z n.
Definition um_root : TreeRoot := {| trEpno := 5; trHash := [] |}.
Definition um_fp (n : Z) : bytes := um_pad 32 (um_enc_hepk (ExportHEPK (um_dev n um_owner))).
Definition um_loc (n : Z) : bytes := um_pad 32 (shortest (MBin [n])).
Definition um_pub (n : Z) (r : Role) : PublicSuite :=
  mkPublicSuite (EntityPublicEd25519 (um_id EntityType_Device n)) None (ExportHEPK (um_dev n r)) r None.

(** The inner links. *)
Definition um_gc (seqno loc signer : Z) (changes : list proto_MemberRole) (ks : list SharedKey) (md : list ChangeMetadata) :=
  mkGroupChange
    (mkHidingChainer (mkBaseChainer seqno (if (seqno =? 1)%Z then None else Some [7%Z]) um_root 0) (um_loc loc))
    (mkFQEntity um_uid um_host) (mkGroupChangeSigner (um_id EntityType_Device signer) None) changes ks md None.
Definition um_sk (n : Z) (r : Role) (g : Generation) : SharedKey := mkSharedKey g r (um_id EntityType_PUKVerify n) (um_fp n).
Definition um_commit (k : Z) : bytes := [k; 97; 98]%Z.
Definition um_table : list GroupChange := [
  um_gc 1 1 2 [made_member um_owner (um_id EntityType_Device 2) (um_fp 2) None] [um_sk 1 um_owner 1]
    [NewChangeMetadataWithUsername (um_commit 11); NewChangeMetadataWithDevicename (um_commit 12);
     NewChangeMetadataWithEldest (mkEldestMetadata (um_loc 2))];
  um_gc 2 3 2 [made_member um_member (um_id EntityType_Device 3) (um_fp 3) (Some (um_id EntityType_Device 6))] [um_sk 4 um_member 1]
    [NewChangeMetadataWithDevicename (um_commit 13)];
  um_gc 3 4 2 [mkMemberRole (NewRoleDefault RoleType_NONE)
      (mkMember (mkFQEntityInHostScope (um_id EntityType_Device 3) None) zero_Role NewMemberKeysWithNone)] [um_sk 5 um_member 2] [];
  um_gc 4 5 2 [] [] [NewChangeMetadataWithUsername (um_commit 14)]].

#[local] Instance um_lib : UserLib := um_user_lib um_table.
#[local] Instance um_writer_lib : UserWriterLib := um_user_writer_lib um_table.
#[local] Instance um_writer_laws : UserWriterLaws := um_user_writer_laws um_table.

(** ** The links *)
Definition um_eldest : result MakeLinkRes :=
  MakeEldestLink um_host um_name (um_dev 2 um_owner) (um_puk 1 um_owner 1) (um_label 1) um_root None 0
    (Ok [11%Z]) (Ok [12%Z]) (Ok [1%Z]) (Ok [2%Z]).
Definition um_provision : result MakeLinkRes :=
  MakeProvisionLink um_uid um_host (um_pub 2 um_owner) (um_dev 3 um_member) um_member (Some (um_puk 4 um_member 1)) (um_label 2)
    2 [7%Z] um_root (Some (um_key EntityType_Device 6)) 0 (Ok [13%Z]) (Ok [3%Z]).
Definition um_revoke : result MakeLinkRes :=
  MakeRevokeLink um_uid um_host (um_dev 2 um_owner) (Some (um_pub 3 um_member)) [um_puk 5 um_member 2] 3 [7%Z] um_root 0 (Ok [4%Z]).
Definition um_rename : result MakeLinkRes :=
  MakeChangeUsernameLink um_uid um_host (um_dev 2 um_owner) um_name 4 [7%Z] um_root 0 (Ok [14%Z]) (Ok [5%Z]).
(** The result of an operation that succeeds. *)
Definition um_the (r : result MakeLinkRes) : MakeLinkRes :=
  match r with Ok m => m | Err _ => mkMakeLinkRes (mkLinkOuter 0 None) [] None [] 0 None None end.
Definition um_link2 : LinkOuter :=
  match CountersignProvisionLink (mlLink (um_the um_provision)) (um_key EntityType_Device 2) with
  | Ok l => l | Err _ => mkLinkOuter 0 None end.
Definition um_record (n key : Z) : DeviceLabelNameAndCommitmentKey :=
  mkDeviceLabelNameAndCommitmentKey (mkDeviceLabelAndName (um_label n) 0 [97; 98]%Z) [key].
Definition um_names : list DeviceLabelNameAndCommitmentKey := [um_record 1 12; um_record 2 13].
Definition um_load : LoadUserArg := mkLoadUserArg um_uid um_host LoadModeSelf um_names.

(** The accounts. *)
Definition um_k (n : Z) : FQEntityFixed := mkFQEntityFixed (um_id EntityType_Device n ++ [0%Z]) um_host.
Definition um_with (a : account) (rk : RoleKey) (g : Generation) : account :=
  mkAccount (active a) (<[rk := g]> (gens a)) (stale a ∖ {[rk]}).
Definition um_rk_owner : RoleKey := mkRoleKey RoleType_OWNER 0.
Definition um_rk_member : RoleKey := mkRoleKey RoleType_MEMBER 0.
Definition um_a1 : account := um_with (add_device no_account (um_k 2) um_owner) um_rk_owner 1.
Definition um_a2 : account := um_with (add_device um_a1 (um_k 3) um_member) um_rk_member 1.
Definition um_a3 : account := um_with (remove_device um_a2 (um_k 3) um_rk_member) um_rk_member 2.

Lemma um_located n : Commitment_IsZero (um_loc n) = false → real_location (Ok [n]).
Proof. by intros Hz loc c [= <- <-]. Qed.
Lemma um_device n r : device_suite (um_dev n r) (um_id EntityType_Device n).
Proof. exists EntityType_Device, [n; n]. split; [done|]. split; [unfold device_types; set_solver|done]. Qed.
Lemma um_user n r g : user_suite (um_puk n r g).
Proof. by exists [n; n]. Qed.
#[local] Hint Resolve um_device um_user um_located : core.
Lemma um_holds a (P : Role → Prop) :
  active a !! um_k 2 = Some um_owner → P um_owner →
  holds_device um_load a (um_dev 2 um_owner) (um_id EntityType_Device 2) P.
Proof. intros Ha HP. split; [done|]. by exists (um_k 2), um_owner. Qed.

Lemma um_client_eldest :
  client_link um_load no_account 1 (mlLink (um_the um_eldest)) (mlHEPKSet (um_the um_eldest)) [um_record 1 12] um_a1.
Proof.
  eapply (cl_eldest _ _ _ um_name (um_dev 2 um_owner) (um_puk 1 um_owner 1) (um_label 1) um_root None 0
    (Ok [11%Z]) (Ok [12%Z]) (Ok [1%Z]) (Ok [2%Z]) _ (um_id EntityType_Device 2) (um_k 2)); try done; [by apply um_located|].
  eapply (nk_cons _ _ um_rk_owner); [done|by intros g [=]|constructor].
Qed.

Lemma um_client_provision :
  client_link um_load um_a1 2 um_link2 (mlHEPKSet (um_the um_provision)) [um_record 2 13] um_a2.
Proof.
  eapply (cl_provision _ _ _ (um_dev 2 um_owner) (um_pub 2 um_owner) (um_dev 3 um_member) (um_id EntityType_Device 3)
    um_member (Some (um_puk 4 um_member 1)) (um_label 2) [7%Z] um_root (Some (um_key EntityType_Device 6)) 0
    (Ok [13%Z]) (Ok [3%Z]) _ _ _ (um_k 3)); try done.
  - by apply um_holds.
  - by intros s [= <-].
  - intros s [= <-]. by exists EntityType_Device, [6; 6]%Z.
  - by apply um_located.
  - right. exists (um_sk 4 um_member 1), um_rk_member. repeat split; vm_compute; try done; try (by left).
  - eapply (nk_cons _ _ um_rk_member); [done| |constructor]. vm_compute. by intros g [=].
Qed.

Lemma um_below_member r : is_Some (gens um_a2 !! r) → rk_le r um_rk_member → r = um_rk_member.
Proof.
  intros [g Hg]. unfold um_a2, um_a1, um_with, add_device in Hg. simpl in Hg.
  apply lookup_insert_Some in Hg as [[<- _]|[_ Hg]]; [done|]. apply lookup_insert_Some in Hg as [[<- _]|[_ [=]]].
  intros []; vm_compute in *; try done. lia.
Qed.

Lemma um_client_revoke :
  client_link um_load um_a2 3 (mlLink (um_the um_revoke)) (mlHEPKSet (um_the um_revoke)) [] um_a3.
Proof.
  eapply (cl_revoke _ _ _ (um_dev 2 um_owner) (um_id EntityType_Device 2) (um_pub 3 um_member) [um_puk 5 um_member 2] [7%Z]
    um_root 0 (Ok [4%Z]) _ (um_k 3) um_member um_rk_member); try done.
  - by apply um_holds.
  - by apply (device_suite_spec (um_dev 3 um_member)).
  - by apply um_located.
  - by repeat constructor.
  - exists [um_rk_member]. by repeat constructor.
  - split; [done|]. split.
    + intros sk ->%list_elem_of_singleton. by exists um_rk_member, 1%Z.
    + intros r Hr Hle. exists (um_sk 5 um_member 2). rewrite (um_below_member r Hr Hle). split; [set_solver|done].
  - eapply (nk_cons _ _ um_rk_member); [done| |constructor]. vm_compute. by intros g [= <-].
Qed.

Lemma um_client_rename :
  client_link um_load um_a3 4 (mlLink (um_the um_rename)) (mlHEPKSet (um_the um_rename)) [] um_a3.
Proof.
  eapply (cl_username _ _ _ (um_dev 2 um_owner) (um_id EntityType_Device 2) um_name [7%Z] um_root 0 (Ok [14%Z]) (Ok [5%Z]));
    [done|by apply um_holds|done|by apply um_located].
Qed.

(** ** The chain and its load *)
Definition um_leaf : MerkleLeaf := {| Key := []; Value := [] |}.
Definition um_links : list LinkOuter := [mlLink (um_the um_eldest); um_link2; mlLink (um_the um_revoke); mlLink (um_the um_rename)].
Definition um_raw : list HEPK :=
  mlHEPKSet (um_the um_eldest) ++ mlHEPKSet (um_the um_provision) ++ mlHEPKSet (um_the um_revoke) ++ mlHEPKSet (um_the um_rename).
Lemma um_chain : client_chain um_load um_links um_raw um_names um_a3.
Proof.
  pose proof (cc_snoc _ _ _ _ _ _ _ _ _ (cc_nil um_load) um_client_eldest) as C1.
  pose proof (cc_snoc _ _ _ _ _ _ _ _ _ C1 um_client_provision) as C2.
  pose proof (cc_snoc _ _ _ _ _ _ _ _ _ C2 um_client_revoke) as C3.
  exact (cc_snoc _ _ _ _ _ _ _ _ _ C3 um_client_rename).
Qed.
Lemma um_distinct : distinct_prints um_raw.
Proof. apply NoDup_prints. vm_compute. repeat constructor; rewrite ?elem_of_cons, elem_of_nil; naive_solver. Qed.

