(* ===== verification/TeamChain.v ===== *)
(** * The links of a team's sigchain ([lib/team/chain.go])

    A link of a team is opened against the roster before it: it is signed by the team keys
    that it brings and by the key of the member who makes it, its changes have to be ones that the member
    may make, and the roster after it is what the next link is opened against.

    As in [UserWriter], what is random and the time are arguments of the makers of links. *)
From S2P Require Import Prelude Snowp MerkleTypes Rational Role Roster RosterAuth TeamRoster TeamBoxes Sigs HostChain ChainLoader TeamIndex UserChain UserLoader UserWriter.

(** ** The metadata of team links ([proto/lib/chains.go]) *)
Definition Teamname (c : ChangeMetadata) : result Commitment :=
  v ← of_option GoPanic (cm_F0 c);
  _ ← guard_err (negb (cm_T c =? ChangeType_Teamname)%Z) GoPanic; Ok v.
Definition Teamindexrange (c : ChangeMetadata) : result proto_RationalRange :=
  v ← of_option GoPanic (cm_F2 c);
  _ ← guard_err (negb (cm_T c =? ChangeType_TeamIndexRange)%Z) GoPanic; Ok v.
Definition Memberloadfloor (c : ChangeMetadata) : result Role :=
  v ← of_option GoPanic (cm_F3 c);
  _ ← guard_err (negb (cm_T c =? ChangeType_MemberLoadFloor)%Z) GoPanic; Ok v.
Definition Rosterdelegationfloor (c : ChangeMetadata) : result Role :=
  v ← of_option GoPanic (cm_F4 c);
  _ ← guard_err (negb (cm_T c =? ChangeType_RosterDelegationFloor)%Z) GoPanic; Ok v.
Definition NewChangeMetadataWithTeamname (v : Commitment) : ChangeMetadata :=
  mkChangeMetadata ChangeType_Teamname (Some v) None None None None.
Definition NewChangeMetadataWithTeamindexrange (v : proto_RationalRange) : ChangeMetadata :=
  mkChangeMetadata ChangeType_TeamIndexRange None None (Some v) None None.
Definition NewChangeMetadataWithMemberloadfloor (v : Role) : ChangeMetadata :=
  mkChangeMetadata ChangeType_MemberLoadFloor None None None (Some v) None.
Definition NewChangeMetadataWithRosterdelegationfloor (v : Role) : ChangeMetadata :=
  mkChangeMetadata ChangeType_RosterDelegationFloor None None None None (Some v).

(** ** Entities and roles ([proto/lib/extras.go]) *)
Definition EntityType_IsNamedTeam (t : EntityType) : bool := (t =? EntityType_NamedTeam)%Z.
Definition EntityType_IsAdHocTeam (t : EntityType) : bool := (t =? EntityType_AdHocTeam)%Z.
Definition PartyType_NamedTeam : PartyType := 2.
Definition FQEntity_Eq (f1 f2 : FQEntity) : bool := EntityID_Eq (fqEntity f1) (fqEntity f2) && HostID_Eq (fqHost f1) (fqHost f2).
Definition ScopeToHost (e : EntityID) (h : HostID) : FQEntity := mkFQEntity e h.
Definition AtHost (f : FQEntity) (h : HostID) : FQEntityInHostScope :=
  mkFQEntityInHostScope (fqEntity f) (if HostID_Eq (fqHost f) h then None else Some (fqHost f)).
Definition ToTeamMemberKeys (k : SharedKey) (tir : option proto_RationalRange) : TeamMemberKeys :=
  mkTeamMemberKeys (skVerifyKey k) (skHepkFp k) (skGen k) None tir.
Definition proto_OwnerRole : Role := NewRoleDefault RoleType_OWNER.
Definition proto_AdminRole : Role := NewRoleDefault RoleType_ADMIN.
Definition DefaultRole : Role := NewRoleWithMember 0.
Definition MinKVRole : Role := NewRoleWithMember VizLevelKvMin.
Definition DefaultMemberLoadFloor : Role := DefaultRole.
Definition WithDefaultMemberLoadFloor (r : option Role) : Role := default DefaultMemberLoadFloor r.

(** ** Opening a link *)
Record OpenTeamLinkRes := mkOpenTeamLinkRes {
  otGc : GroupChange;
  otSharedKeys : list SharedPublicSuite;
  otSigner : EntityPublic;
  RosterPost : TRoster;
  otSched : KeySchedule;
  Tnc : option Commitment;
  otRange : option proto_RationalRange;
  RosterDelegationFloor : option Role
}.

(** The errors of the comparison of roles are dropped. *)
Fixpoint FindChangeForMember (changes : list proto_MemberRole) (ko : KeyOwner) : option proto_MemberRole :=
  match changes with
  | [] => None
  | chng :: rest =>
      if EntityID_Eq (hsEntity (mId (mrMember chng))) (koParty ko) && is_nil (hsHost (mId (mrMember chng))) &&
         match Role_Eq (mSrcRole (mrMember chng)) (koSrcRole ko) with Ok eq => eq | Err _ => false end
      then Some chng else FindChangeForMember rest ko
  end.
Fixpoint findSharedKeyForRole (k : list SharedKey) (role : Role) : result (option SharedKey) :=
  match k with
  | [] => Ok None
  | sk :: k => eq ← Role_Eq (skRole sk) role; if eq : bool then Ok (Some sk) else findSharedKeyForRole k role
  end.
Fixpoint checkAdHocMembersAreLocalUsers (changes : list proto_MemberRole) : result () :=
  match changes with
  | [] => Ok ()
  | ch :: rest =>
      t ← EntityID_Type (hsEntity (mId (mrMember ch)));
      _ ← guard_err (negb (EntityType_IsUser t)) (LinkError "ad-hoc team members must be users, not teams");
      _ ← guard_err (negb (is_nil (hsHost (mId (mrMember ch)))))
            (LinkError "ad-hoc team members must be local (same-host) users");
      checkAdHocMembersAreLocalUsers rest
  end.

(** The loop over the metadata: the name, the index range and the floor that were seen so far. *)
Record TeamMetadata := mkTeamMetadata {
  tmdTnc : option Commitment; tmdRng : option proto_RationalRange; tmdRdf : option Role
}.
Fixpoint open_metadata (acc : TeamMetadata) (mds : list ChangeMetadata) : result TeamMetadata :=
  match mds with
  | [] => Ok acc
  | md :: mds =>
      typ ← ChangeMetadata_GetT md;
      acc ← (if (typ =? ChangeType_Teamname)%Z then
               _ ← guard_err (negb (is_nil (tmdTnc acc))) (LinkError "only one teamname commitment allowed");
               tmp ← Teamname md;
               Ok (mkTeamMetadata (Some tmp) (tmdRng acc) (tmdRdf acc))
             else if (typ =? ChangeType_TeamIndexRange)%Z then
               _ ← guard_err (negb (is_nil (tmdRng acc))) (LinkError "only one team index range allowed");
               tmp ← Teamindexrange md;
               Ok (mkTeamMetadata (tmdTnc acc) (Some tmp) (tmdRdf acc))
             else if (typ =? ChangeType_RosterDelegationFloor)%Z then
               _ ← guard_err (negb (is_nil (tmdRdf acc))) (LinkError "only one roster delegation floor allowed");
               tmp ← Rosterdelegationfloor md;
               _ ← CheckRosterDelegationFloor tmp;
               Ok (mkTeamMetadata (tmdTnc acc) (tmdRng acc) (Some tmp))
             else Ok acc);
      open_metadata acc mds
  end.
Definition has_admin_metadata (md : TeamMetadata) : bool :=
  negb (is_nil (tmdTnc md)) || negb (is_nil (tmdRng md)) || negb (is_nil (tmdRdf md)).

Section open.
Context `{Crypto} `{Codec} `{UserLib} `{SortLib}.

Definition link_mrq (gc : GroupChange) : list MemberRoleSeqno :=
  map (λ ch, mkMemberRoleSeqno ch (bcSeqno (hdBase (gcChainer gc))) (bcTime (hdBase (gcChainer gc)))) (gcChanges gc).

Definition ExtractTeamAndSeqno (link : LinkOuter) : result (TeamID * Z) :=
  '(gc, _) ← OpenGroupChange link;
  tid ← ToTeamID (fqEntity (gcEntity gc));
  Ok (tid, bcSeqno (hdBase (gcChainer gc))).

Definition OpenTeamLink (link : LinkOuter) (hepks : HEPKSet) (team : option TeamID) (hostID : HostID)
    (rPre : option TRoster) (priorFloor : option Role) : result OpenTeamLinkRes :=
  '(gc, lo1) ← OpenGroupChange link;
  t ← EntityID_Type (fqEntity (gcEntity gc));
  _ ← guard_err (negb (EntityType_IsTeam t)) (LinkError "expected a link for a Team entity");
  _ ← guard_err (negb (HostID_Eq hostID (fqHost (gcEntity gc)))) (LinkError "wrong host given");
  _ ← (if EntityType_IsAdHocTeam t then checkAdHocMembersAreLocalUsers (gcChanges gc) else Ok ());
  _ ← guard_err (match team with Some t => negb (EntityID_Eq t (fqEntity (gcEntity gc))) | None => false end)
        (LinkError "wrong user given");
  '(verifiers, sharedKeys) ← OpenSharedKeys gc hepks;
  signerEp ← ImportEntityPublic (gsKey (gcSigner gc));
  ko ← of_option (LinkError "team links must specify siging key owners") (gsKeyOwner (gcSigner gc));
  _ ← (VerifyStackedSignature lo1 (verifiers ++ [VEntity signerEp])).2;
  _ ← OpenChainer gc;
  md ← open_metadata (mkTeamMetadata None None None) (gcMetadata gc);
  floorKey ← RosterDelegationFloorActive priorFloor;
  let gpOpts := mkGameplanOpts false false floorKey (has_admin_metadata md) in
  '(rPost, sched) ← Roster_Gameplan rPre ko hostID (link_mrq gc) (Some (gsKey (gcSigner gc))) (Some gpOpts);
  Ok (mkOpenTeamLinkRes gc sharedKeys signerEp rPost sched (tmdTnc md) (tmdRng md) (tmdRdf md)).
End open.

(** ** The first link *)
Record OpenTeamEldestRes := mkOpenTeamEldestRes {
  teOtlr : OpenTeamLinkRes; Stltc : bytes; teMemberLoadFloor : option Role
}.
Definition MemberLoadFloorOrDefault (o : OpenTeamEldestRes) : Role := WithDefaultMemberLoadFloor (teMemberLoadFloor o).
Definition set_otRange (o : OpenTeamLinkRes) (r : proto_RationalRange) : OpenTeamLinkRes :=
  mkOpenTeamLinkRes (otGc o) (otSharedKeys o) (otSigner o) (RosterPost o) (otSched o) (Tnc o) (Some r)
    (RosterDelegationFloor o).
(** The metadata entry [i], which has to have the type [typ]. *)
Definition metadata_at (mds : list ChangeMetadata) (i : Z) (typ : ChangeType) (e : error) : result ChangeMetadata :=
  md ← index mds i;
  t ← ChangeMetadata_GetT md;
  _ ← guard_err (negb (t =? typ)%Z) e;
  Ok md.

Definition OpenEldestLinkWithOTLR (otlr : OpenTeamLinkRes) : result OpenTeamEldestRes :=
  let gc := otGc otlr in
  t ← EntityID_Type (fqEntity (gcEntity gc));
  let isNamed := EntityType_IsNamedTeam t in
  let nNeededMetadata := (2 + Z.b2z isNamed)%Z in
  _ ← guard_err (len (gcMetadata gc) <? nNeededMetadata)%Z
        (LinkError "eldest link must have at least three metadata entries");
  i ← (if isNamed then
         _ ← metadata_at (gcMetadata gc) 0 ChangeType_Teamname
               (LinkError "first metadata entry must be a teamname commitment");
         _ ← guard_err (is_nil (Tnc otlr)) (LinkError "eldest link must have a teamname commitment");
         Ok 1%Z
       else Ok 0%Z);
  md ← metadata_at (gcMetadata gc) i ChangeType_Eldest (LinkError "second metadata entry must be an eldest metadata");
  em ← Eldest md;
  md ← metadata_at (gcMetadata gc) (i + 1) ChangeType_TeamIndexRange
         (LinkError "third metadata entry must be a team index range");
  rng ← Teamindexrange md;
  mlf ← (if (i + 2 <? len (gcMetadata gc))%Z then
           md ← metadata_at (gcMetadata gc) (i + 2) ChangeType_MemberLoadFloor
                  (LinkError "fourth metadata entry must be a member load floor");
           f ← Memberloadfloor md;
           Ok (Some f)
         else Ok None);
  _ ← CheckEldestChainer (hdBase (gcChainer gc));
  ko ← of_option GoPanic (gsKeyOwner (gcSigner gc));
  signerChange ← of_option (LinkError "signer must be a member of the team") (FindChangeForMember (gcChanges gc) ko);
  _ ← Role_AssertEq (DstRole signerChange) proto_OwnerRole (LinkError "signer must be an owner");
  adminKey ← match findSharedKeyForRole (gcSharedKeys gc) proto_AdminRole with
             | Ok (Some k) => Ok k
             | _ => Err (LinkError "an owner key must exist for a new team")
             end;
  req ← RollingEq (fqEntity (gcEntity gc)) (skVerifyKey adminKey);
  _ ← guard_err (negb req) (LinkError "team ID mismatch");
  Ok (mkOpenTeamEldestRes (set_otRange otlr rng) (SubchainTreeLocationSeedCommitment em) mlf).

Definition OpenEldestTeamLink `{Crypto} `{Codec} `{UserLib} `{SortLib} (link : LinkOuter) (hepks : HEPKSet) (hostID : HostID)
  : result OpenTeamEldestRes :=
  otlr ← OpenTeamLink link hepks None hostID None None;
  OpenEldestLinkWithOTLR otlr.

(** ** Making links *)
Record TeamMakeLinkRes := mkTeamMakeLinkRes {
  tmlLink : LinkOuter;
  tmlNextTreeLocation : bytes;
  tmlSubchainTreeLocationSeed : option bytes;
  TeamnameCommitmentKey : option bytes;
  tmlTeamID : EntityID
}.
Definition exportToMemberRole (role : Role) (host : HostID) (fqe : FQEntity) (sk : SharedKey) (trkc : option bytes)
  : proto_MemberRole :=
  let tmk := ToTeamMemberKeys sk None in
  let tmk := mkTeamMemberKeys (VerifyKey tmk) (HepkFp tmk) (tmkGen tmk) trkc (Tir tmk) in
  mkMemberRole role (mkMember (AtHost fqe host) (skRole sk) (NewMemberKeysWithTeam tmk)).
Definition EldestRoles : list Role := [MinKVRole; DefaultRole; NewRoleDefault RoleType_ADMIN; NewRoleDefault RoleType_OWNER].

Fixpoint check_founders (host : HostID) (owner : KeyOwner) (founders : list proto_MemberRole) : result () :=
  match founders with
  | [] => Ok ()
  | mr :: rest =>
      isNone ← Role_IsNone (DstRole mr);
      _ ← guard_err isNone (LinkError "cannot have a NONE role as a founding member");
      _ ← guard_err (FQEntity_Eq (WithHost (mId (mrMember mr)) host) (ScopeToHost (koParty owner) host))
            (LinkError "owner must not be a founding member");
      check_founders host owner rest
  end.
Definition melCheckArgs (name : option NameCommitment) (otherFoundingMembers : list proto_MemberRole) (host : HostID)
    (owner : KeyOwner) (removalKeyCommitment : option bytes) : result () :=
  _ ← match name with
      | None =>
          guard_err (negb (is_nil removalKeyCommitment))
            (LinkError "removal key commitment is not allowed for adhoc teams")
      | Some _ =>
          _ ← guard_err (0 <? len otherFoundingMembers)%Z
                (LinkError "other founding members are not allowed for named teams");
          guard_err (is_nil removalKeyCommitment) (LinkError "removal key commitment is required for named teams")
      end;
  check_founders host owner otherFoundingMembers.

Section make.
Context `{Crypto} `{Codec} `{ChainLib} `{UserLoaderLib} `{UserWriterLib}.

(** The exported team keys, and the last one for admins. *)
Fixpoint export_team_keys (adminTke : option SharedKey) (teamKeys : list SharedPrivateSuite25519)
  : result (list SharedKey * option SharedKey) :=
  match teamKeys with
  | [] => Ok ([], adminTke)
  | tk :: teamKeys =>
      '(tke, _) ← ExportToSharedKey tk;
      r ← GetT (skRole tke);
      let adminTke := if (r =? RoleType_ADMIN)%Z then Some tke else adminTke in
      '(tkes, adminTke) ← export_team_keys adminTke teamKeys;
      Ok (tke :: tkes, adminTke)
  end.

Definition MakeTeamEldestLink (host : HostID) (name : option NameCommitment) (owner : KeyOwner)
    (uotKey : SharedPrivateSuite25519) (teamKeys : list SharedPrivateSuite25519) (root : TreeRoot)
    (removalKeyCommitment : option bytes) (otherFoundingMembers : list proto_MemberRole) (now : Z)
    (r_name r_loc r_seed : result bytes) : result TeamMakeLinkRes :=
  _ ← melCheckArgs name otherFoundingMembers host owner removalKeyCommitment;
  commit ← match name with
           | Some n => c ← Commit n r_name; Ok (Some c)
           | None => Ok None
           end;
  signerID ← Suite_EntityID (spSuite uotKey);
  '(tkes, adminTke) ← export_team_keys None teamKeys;
  _ ← guard_err (negb (len teamKeys =? len EldestRoles)%Z) (LinkError "need 4 PTKs for a new team");
  adminTke ← of_option (LinkError "need an ADMIN PTK for a new team") adminTke;
  let pt := if is_nil name then PartyType_AdHocTeam else PartyType_NamedTeam in
  team ← Persistent (skVerifyKey adminTke) pt;
  '(treeLoc, treeLocCommitment) ← MakeTreeLocation r_loc;
  '(sctl, sctlc) ← MakeTreeLocation r_seed;
  '(ownerSharedKey, _) ← ExportToSharedKey uotKey;
  let ownerChange := exportToMemberRole proto_OwnerRole host (ScopeToHost (koParty owner) host) ownerSharedKey
                       removalKeyCommitment in
  let changes := ownerChange :: otherFoundingMembers in
  let md := match commit with Some (_, teamCom) => [NewChangeMetadataWithTeamname teamCom] | None => [] end ++
            [NewChangeMetadataWithEldest (mkEldestMetadata sctlc);
             NewChangeMetadataWithTeamindexrange NewDefaultRange;
             NewChangeMetadataWithMemberloadfloor DefaultMemberLoadFloor] in
  let gc := mkGroupChange
    (mkHidingChainer (mkBaseChainer 1 None root now) treeLocCommitment)
    (mkFQEntity team host) (mkGroupChangeSigner signerID (Some owner)) changes tkes md None in
  link ← sign_link gc (((λ k, suKey (spSuite k)) <$> teamKeys) ++ [suKey (spSuite uotKey)]);
  Ok (mkTeamMakeLinkRes link treeLoc (Some sctl) (fst <$> commit) team).

Definition MakeTeamLink (host : HostID) (team : TeamID) (signerKO : KeyOwner) (signerKey : SharedPrivateSuite25519)
    (changes : list proto_MemberRole) (newTeamKeys : list SharedPrivateSuite25519) (seqno : Z) (prev : bytes)
    (root : TreeRoot) (md : list ChangeMetadata) (now : Z) (r_loc : result bytes) : result (LinkOuter * bytes) :=
  exported ← mapM_r ExportToSharedKey newTeamKeys;
  '(treeLoc, treeLocCommitment) ← MakeTreeLocation r_loc;
  '(signerPubKey, _) ← ExportToSharedKey signerKey;
  let gc := mkGroupChange
    (mkHidingChainer (mkBaseChainer seqno (Some prev) root now) treeLocCommitment)
    (mkFQEntity team host) (mkGroupChangeSigner (skVerifyKey signerPubKey) (Some signerKO)) changes exported.*1 md None in
  link ← sign_link gc (((λ k, suKey (spSuite k)) <$> newTeamKeys) ++ [suKey (spSuite signerKey)]);
  Ok (link, treeLoc).
End make.

(** ** The plan of the client that edits a team ([client/libclient/team_minder_edit.go])

    The changes are planned without a sequence number and a time, which the link will have. *)
Definition runGameplan `{Crypto} `{SortLib} (pre : option TRoster) (rosterDelegationFloor : option Role) (keyOwner : KeyOwner) (host : HostID)
    (changes : list proto_MemberRole) (signPriv : SharedPrivateSuite25519) (cmd : list ChangeMetadata) : result (TRoster * KeySchedule) :=
  let mrq := map (λ v, mkMemberRoleSeqno v 0 0) changes in
  vk ← Suite_EntityID (spSuite signPriv);
  floorKey ← RosterDelegationFloorActive rosterDelegationFloor;
  Roster_Gameplan pre keyOwner host mrq (Some vk) (Some (mkGameplanOpts false true floorKey (0 <? len cmd)%Z)).
