(* ===== verification/TeamLoader.v ===== *)
(** * The client's loader of teams ([client/libclient/team_loader.go], [client/libclient/team_keyring.go])

    The loader opens the links of a team one after the other, each against the roster and the delegation
    floor that the links before it left, and plays them: the public team keys go to a key ring, one sequence of
    generations for each role, and the index range of the team may only shrink.  The chain and Merkle checks
    are those of [ChainLoader].

    The private keys of the ring, the member details, the removal key, the tokens and the name are left out.
    What an operation that fails has written to the loader is not modelled: its error is the error of the load. *)
From S2P Require Import Prelude Snowp MerkleTypes Rational Role Roster RosterAuth TeamRoster TeamBoxes Sigs HostChain ChainLoader TeamIndex UserChain UserLoader UserWriter TeamChain.

(** ** The key ring *)
Record SharedKeyWithInfo := mkSharedKeyWithInfo { skiSk : SharedKey; skiPi : ProvisionInfo; skiRi : option RevokeInfo }.
Record SharedKeyParcel := mkSharedKeyParcel { parBox : SharedKeyBox; parSender : EntityID; parSeedChain : list SeedChainBox }.
Record TeamKeysForRole := mkTeamKeysForRole { kfrPub : list SharedKeyWithInfo; kfrPrivBoxed : list SharedKeyParcel }.
Definition new_TeamKeysForRole : TeamKeysForRole := mkTeamKeysForRole [] [].
(** The index holds pointers into the sequences: the role and the position of a key. *)
Record TeamKeyRing := mkTeamKeyRing { krT : gmap RoleKey TeamKeysForRole; krI : gmap FixedEntityID (RoleKey * nat) }.
Definition NewTeamKeyRing : TeamKeyRing := mkTeamKeyRing ∅ ∅.

Definition keysForRole (r : TeamKeyRing) (rk : RoleKey) : TeamKeysForRole := default new_TeamKeysForRole (krT r !! rk).
Definition set_Ri (k : SharedKeyWithInfo) (ri : RevokeInfo) : SharedKeyWithInfo :=
  mkSharedKeyWithInfo (skiSk k) (skiPi k) (Some ri).

(** [int] of a generation wraps. *)
Definition AddPub (r : TeamKeyRing) (k : SharedKeyWithInfo) : result TeamKeyRing :=
  rk ← ImportRole (skRole (skiSk k));
  let kfr := keysForRole r rk in
  let nPubKeys := len (kfrPub kfr) in
  let nextGen := (nPubKeys + FirstGeneration)%Z in
  _ ← guard_err (negb (nextGen =? wrap_int (skGen (skiSk k)))%Z)
        (ChainLoaderError false (CLBadKeySequenceError "pub" (skGen (skiSk k))));
  let ri := mkRevokeInfo (pvSigner (skiPi k)) (pvChain (skiPi k)) in
  let pub := if (FirstGeneration <? nPubKeys)%Z
             then alter (λ p, set_Ri p ri) (length (kfrPub kfr) - 1)%nat (kfrPub kfr) else kfrPub kfr in
  fe ← EntityID_Fixed (skVerifyKey (skiSk k));
  Ok (mkTeamKeyRing (<[rk := mkTeamKeysForRole (pub ++ [k]) (kfrPrivBoxed kfr)]> (krT r))
        (<[fe := (rk, length (kfrPub kfr))]> (krI r))).

Definition AddPrivBoxed (r : TeamKeyRing) (p : SharedKeyParcel) : result TeamKeyRing :=
  rk ← ImportRole (skbRole (parBox p));
  let kfr := keysForRole r rk in
  _ ← guard_err (len (kfrPub kfr) =? 0)%Z (TeamKeyError "cannot add privBoxed before pub");
  Ok (mkTeamKeyRing (<[rk := mkTeamKeysForRole (kfrPub kfr) (kfrPrivBoxed kfr ++ [p])]> (krT r)) (krI r)).

Definition ToKeyGens (r : TeamKeyRing) : KeyGens := omap (λ kfr, skGen ∘ skiSk <$> last (kfrPub kfr)) (krT r).
Definition CurrentPublicKeyAtRole (r : TeamKeyRing) (rk : RoleKey) : option SharedKeyWithInfo :=
  last (kfrPub (keysForRole r rk)).
Definition AdminOrOwnerKey (r : TeamKeyRing) : option TeamKeysForRole :=
  match krT r !! AdminRole with Some k => Some k | None => krT r !! OwnerRole end.
(** A key of the index, through its pointer. *)
Definition ring_at (r : TeamKeyRing) (p : RoleKey * nat) : option SharedKeyWithInfo := kfrPub (keysForRole r p.1) !! p.2.
Definition TeamWrapper_BookendSigningKey (r : TeamKeyRing) (e : EntityID) : result (option KeyBookends) :=
  fe ← EntityID_Fixed e;
  p ← of_option (KeyNotFoundError "PTK") (krI r !! fe);
  key ← of_option GoPanic (ring_at r p);
  Ok (mkKeyBookends (skiPi key) <$> skiRi key).

Section ring.
Context `{SortLib}.
Definition sortedKeys (r : TeamKeyRing) : list RoleKey := SortFunc RoleKey_Cmp (elements (dom (krT r))).
Definition TeamKeyRing_Export (r : TeamKeyRing) : list SharedKeyWithInfo * list SharedKeyParcel :=
  (rk ← sortedKeys r; kfrPub (keysForRole r rk), rk ← sortedKeys r; kfrPrivBoxed (keysForRole r rk)).
Definition ExportToPTKGens (r : TeamKeyRing) : list (Role * Generation) :=
  rk ← sortedKeys r;
  match last (kfrPub (keysForRole r rk)) with
  | Some k => [(Role.Export rk, skGen (skiSk k))]
  | None => []
  end.
End ring.

(** ** The loader *)
Record LoadTeamArg := mkLoadTeamArg { laTeam : TeamID; laHost : HostID; laAs : FQEntity }.

(** The parts of a saved state that concern the chain. *)
Record TeamChainState := mkTeamChainState {
  tsTail : HidingChainer;
  tsLastHash : bytes;
  tsPtks : list SharedKeyWithInfo;
  tsMembers : list MemberRoleSeqno;
  tsSctlsc : bytes;
  tsMerkleLeaves : list MerkleLeaf;
  tsPrivateKeys : list SharedKeyParcel;
  tsHepks : list HEPK;
  tsTir : proto_RationalRange;
  tsMemberLoadFloor : option Role;
  tsRosterDelegationFloor : option Role;
  RosterDelegationFloorTracked : bool
}.
Record TeamLoader := mkTeamLoader {
  tlExisting : option TeamChainState;
  tlPtks : TeamKeyRing;
  rosterPre : option TRoster;
  rosterPost : option TRoster;
  tlLeaves : list MerkleLeaf;
  tlSctlsc : option bytes;
  tlMemberLoadFloor : option Role;
  tlFloor : option Role;
  tncs : list Commitment;
  tlHepks : HEPKSet;
  indexRange : option proto_RationalRange
}.
Definition NewTeamLoader (leaves : list MerkleLeaf) : TeamLoader :=
  mkTeamLoader None NewTeamKeyRing None None leaves None None None [] ∅ None.
Definition set_tlHepks (l : TeamLoader) (hs : HEPKSet) : TeamLoader :=
  mkTeamLoader (tlExisting l) (tlPtks l) (rosterPre l) (rosterPost l) (tlLeaves l) (tlSctlsc l) (tlMemberLoadFloor l)
    (tlFloor l) (tncs l) hs (indexRange l).
Definition set_rosterPost (l : TeamLoader) (r : option TRoster) : TeamLoader :=
  mkTeamLoader (tlExisting l) (tlPtks l) (rosterPre l) r (tlLeaves l) (tlSctlsc l) (tlMemberLoadFloor l)
    (tlFloor l) (tncs l) (tlHepks l) (indexRange l).
Definition set_floor (l : TeamLoader) (f : option Role) : TeamLoader :=
  mkTeamLoader (tlExisting l) (tlPtks l) (rosterPre l) (rosterPost l) (tlLeaves l) (tlSctlsc l) (tlMemberLoadFloor l)
    (match f with Some _ => f | None => tlFloor l end) (tncs l) (tlHepks l) (indexRange l).
Definition set_eldest (l : TeamLoader) (stltc : bytes) (mlf : option Role) : TeamLoader :=
  mkTeamLoader (tlExisting l) (tlPtks l) (rosterPre l) (rosterPost l) (tlLeaves l) (Some stltc) mlf
    (tlFloor l) (tncs l) (tlHepks l) (indexRange l).
Definition add_tnc (l : TeamLoader) (c : option Commitment) : TeamLoader :=
  mkTeamLoader (tlExisting l) (tlPtks l) (rosterPre l) (rosterPost l) (tlLeaves l) (tlSctlsc l) (tlMemberLoadFloor l)
    (tlFloor l) (tncs l ++ opt_list c) (tlHepks l) (indexRange l).
Definition set_ptks (l : TeamLoader) (r : TeamKeyRing) : TeamLoader :=
  mkTeamLoader (tlExisting l) r (rosterPre l) (rosterPost l) (tlLeaves l) (tlSctlsc l) (tlMemberLoadFloor l)
    (tlFloor l) (tncs l) (tlHepks l) (indexRange l).
Definition set_indexRange (l : TeamLoader) (r : proto_RationalRange) : TeamLoader :=
  mkTeamLoader (tlExisting l) (tlPtks l) (rosterPre l) (rosterPost l) (tlLeaves l) (tlSctlsc l) (tlMemberLoadFloor l)
    (tlFloor l) (tncs l) (tlHepks l) (Some r).

(** *** Playing *)
Definition TeamLoader_playLinkEldest (l : TeamLoader) (otlr : OpenTeamLinkRes) : result TeamLoader :=
  res ← OpenEldestLinkWithOTLR otlr;
  Ok (set_floor (set_eldest l (Stltc res) (teMemberLoadFloor res)) (RosterDelegationFloor (teOtlr res))).

Definition AdHocTeamImmutableMsg : string := "ad-hoc teams have fixed membership and cannot be edited".
Definition rejectAdHocMembershipChange (teamID : TeamID) (seqno nChanges : Z) : result () :=
  t ← EntityID_Type teamID;
  if negb (EntityType_IsAdHocTeam t) || ChainLoader.Seqno_IsEldest seqno || (nChanges =? 0)%Z then Ok ()
  else Err (ChainLoaderError false (TeamError AdHocTeamImmutableMsg)).

Definition getIndexRange (l : TeamLoader) : option proto_RationalRange :=
  match indexRange l with Some r => Some r | None => tsTir <$> tlExisting l end.
Definition addIndexRangeEldest (l : TeamLoader) (rng : option proto_RationalRange) : result TeamLoader :=
  rng ← of_option (InternalError "eldest link must have an index range") rng;
  _ ← guard_err (negb (is_nil (indexRange l))) (InternalError "eldest link must be the first link");
  Ok (set_indexRange l rng).
Definition addIndexRange (l : TeamLoader) (r : option proto_RationalRange) (q : Z) : result TeamLoader :=
  if ChainLoader.Seqno_IsEldest q then addIndexRangeEldest l r
  else
    prev ← of_option (InternalError "index range must be set after first link") (getIndexRange l);
    match r with
    | None => Ok l
    | Some r =>
        eq ← Range_Eq prev r;
        _ ← guard_err eq (ChainLoaderError false (CLIndexRangeError "new index range is the same as previous" q));
        inc ← Range_Includes prev r;
        _ ← guard_err (negb inc)
              (ChainLoaderError false (CLIndexRangeError "new index range does not include previous" q));
        Ok (set_indexRange l r)
    end.

Fixpoint add_pubs (r : TeamKeyRing) (otlr : OpenTeamLinkRes) (leaf : MerkleLeaf) (sks : list SharedPublicSuite)
  : result TeamKeyRing :=
  match sks with
  | [] => Ok r
  | sk :: sks =>
      r ← AddPub r (mkSharedKeyWithInfo (spsKey sk)
            (mkProvisionInfo (gsKey (gcSigner (otGc otlr))) (hdBase (gcChainer (otGc otlr))) leaf) None);
      add_pubs r otlr leaf sks
  end.

Definition TeamLoader_playLink (arg : LoadTeamArg) (l : TeamLoader) (otlr : OpenTeamLinkRes) : result TeamLoader :=
  let q := bcSeqno (hdBase (gcChainer (otGc otlr))) in
  _ ← rejectAdHocMembershipChange (laTeam arg) q (len (gcChanges (otGc otlr)));
  let l := add_tnc l (Tnc otlr) in
  _ ← guard_err (negb (Seqno_IsValid q)) (InternalError "invalid seqno; refusing to -1 on 0");
  let idx := wrap_int (wrap_int q - 1) in
  _ ← guard_err (idx <? 0)%Z (InternalError "invalid seqno; wound up with < 0 index");
  _ ← guard_err (len (tlLeaves l) <=? idx)%Z (InternalError "ran out of merkle leaves for seqno");
  leaf ← index (tlLeaves l) idx;
  ptks ← add_pubs (tlPtks l) otlr leaf (otSharedKeys otlr);
  l ← addIndexRange (set_ptks l ptks) (otRange otlr) q;
  Ok (set_floor l (RosterDelegationFloor otlr)).

Fixpoint TeamLoader_playLinks (arg : LoadTeamArg) (l : TeamLoader) (otlrs : list OpenTeamLinkRes) : result TeamLoader :=
  match otlrs with
  | [] => Ok l
  | otlr :: otlrs =>
      l ← (if ChainLoader.Seqno_IsEldest (bcSeqno (hdBase (gcChainer (otGc otlr)))) then TeamLoader_playLinkEldest l otlr else Ok l);
      l ← TeamLoader_playLink arg l otlr;
      TeamLoader_playLinks arg l otlrs
  end.

(** *** Boxes from the server *)
Definition check_box_target (arg : LoadTeamArg) (p : SharedKeyParcel) : result () :=
  let local := HostID_Eq (fqHost (laAs arg)) (laHost arg) in
  let targ := Targ (parBox p) in
  let myerr msg := ChainLoaderError false (CLBoxError msg (skbGen (parBox p))) in
  _ ← guard_err (negb (EntityID_Eq (Eid targ) (fqEntity (laAs arg)))) (myerr "bad box target; not equal to loader");
  _ ← guard_err (xorb local (is_nil (tgHost targ))) (myerr "bad box target; local mismatch");
  guard_err (negb local && negb (match tgHost targ with Some h => HostID_Eq h (fqHost (laAs arg)) | None => false end))
    (myerr "bad box target host; not equal to As.Host").
Fixpoint add_boxes (arg : LoadTeamArg) (r : TeamKeyRing) (boxes : list SharedKeyParcel) : result TeamKeyRing :=
  match boxes with
  | [] => Ok r
  | p :: boxes => _ ← check_box_target arg p; r ← AddPrivBoxed r p; add_boxes arg r boxes
  end.
Definition loadBoxesFromServer (arg : LoadTeamArg) (l : TeamLoader) (boxes : list SharedKeyParcel) : result TeamLoader :=
  ptks ← add_boxes arg (tlPtks l) boxes; Ok (set_ptks l ptks).

(** *** Reading the saved state *)
Fixpoint fold_r {A S} (f : S → A → result S) (s : S) (l : list A) : result S :=
  match l with [] => Ok s | a :: l => s ← f s a; fold_r f s l end.
Definition TeamLoader_readKeysFromState (st : TeamChainState) : result TeamKeyRing :=
  r ← fold_r AddPub NewTeamKeyRing (tsPtks st);
  fold_r AddPrivBoxed r (tsPrivateKeys st).
Definition readRoster (arg : LoadTeamArg) (st : TeamChainState) (kg : KeyGens) : result TRoster :=
  Roster_Load (NewRosterWithKeyGens kg) (tsMembers st) (laHost arg).

Section load.
Context `{Crypto} `{Codec} `{UserLib} `{SortLib}.

(** [None]: no state was saved.  A roster that does not load is passed over in silence. *)
Definition loadExistingTeam (arg : LoadTeamArg) (l : TeamLoader) (saved : option TeamChainState) : result TeamLoader :=
  match saved with
  | None => Ok l
  | Some st =>
      if negb (RosterDelegationFloorTracked st) then Ok l
      else
        ptks ← TeamLoader_readKeysFromState st;
        match readRoster arg st (ToKeyGens ptks) with
        | Err _ => Ok l
        | Ok roster =>
            hs ← ImportHEPKSet (tsHepks st);
            Ok (mkTeamLoader (Some st) ptks (Some roster) (rosterPost l) (tlLeaves l) (Some (tsSctlsc st))
                  (tsMemberLoadFloor st) (tsRosterDelegationFloor st) (tncs l) hs (indexRange l))
        end
  end.
Definition TeamLoader_updateHEPKs (l : TeamLoader) (raw : list HEPK) : result TeamLoader :=
  s2 ← ImportHEPKSet raw;
  Ok (set_tlHepks l (HEPKSet_Merge (tlHepks l) s2)).

(** *** Opening *)
Fixpoint open_team_links (arg : LoadTeamArg) (hs : HEPKSet) (roster : option TRoster) (floor : option Role) (n : Z)
    (links : list LinkOuter) : result (list OpenTeamLinkRes * option TRoster) :=
  match links with
  | [] => Ok ([], roster)
  | link :: links =>
      otlr ← match OpenTeamLink link hs (Some (laTeam arg)) (laHost arg) roster floor with
             | Ok o => Ok o
             | Err e => Err (ChainLoaderError false (CLOpenLinkError e n))
             end;
      let floor := match RosterDelegationFloor otlr with Some f => Some f | None => floor end in
      '(rest, post) ← open_team_links arg hs (Some (RosterPost otlr)) floor (n + 1) links;
      Ok (otlr :: rest, post)
  end.
Definition TeamLoader_openLinks (arg : LoadTeamArg) (l : TeamLoader) (links : list LinkOuter)
  : result (list OpenTeamLinkRes * TeamLoader) :=
  '(otlrs, post) ← open_team_links arg (tlHepks l) (rosterPre l) (tlFloor l) 0 links;
  Ok (otlrs, set_rosterPost l post).

(** *** Saving *)
Definition exportIndexRange (l : TeamLoader) : result proto_RationalRange :=
  of_option (InternalError "no index range loaded") (getIndexRange l).
(** With no new links and no tokens the state stays as it was. *)
Definition TeamLoader_saveState (arg : LoadTeamArg) (l : TeamLoader) (otlrs : list OpenTeamLinkRes) (tokens : bool)
    (lastHash : option bytes) : result TeamChainState :=
  match tlExisting l, last otlrs with
  | None, None => Err (InternalError "no links in team sigchain")
  | existing, tail =>
      match existing, tail, tokens with
      | Some st, None, false => Ok st
      | _, _, _ =>
          tail ← of_option GoPanic (match tail with Some o => Some (gcChainer (otGc o)) | None => tsTail <$> existing end);
          ir ← exportIndexRange l;
          lastHash ← of_option GoPanic lastHash;
          post ← of_option GoPanic (rosterPost l);
          members ← Roster_Export post (laHost arg);
          sctlsc ← of_option (InternalError "no 'sctlsc' set; it should be set in save(); refusing to save") (tlSctlsc l);
          Ok {| tsTail := tail; tsLastHash := lastHash; tsPtks := (TeamKeyRing_Export (tlPtks l)).1; tsMembers := members;
                tsSctlsc := sctlsc; tsMerkleLeaves := tlLeaves l; tsPrivateKeys := (TeamKeyRing_Export (tlPtks l)).2;
                tsHepks := (map_to_list (tlHepks l)).*2; tsTir := ir; tsMemberLoadFloor := tlMemberLoadFloor l;
                tsRosterDelegationFloor := tlFloor l; RosterDelegationFloorTracked := true |}
      end
  end.

(** Opening and playing what the server sent over what was saved. *)
Definition team_play_over (arg : LoadTeamArg) (saved : option TeamChainState) (raw : list HEPK) (links : list LinkOuter)
    (leaves : list MerkleLeaf) (boxes : list SharedKeyParcel) (tokens : bool) (lastHash : option bytes)
  : result (TeamLoader * TeamChainState) :=
  l ← loadExistingTeam arg (NewTeamLoader leaves) saved;
  l ← TeamLoader_updateHEPKs l raw;
  '(otlrs, l) ← TeamLoader_openLinks arg l links;
  l ← TeamLoader_playLinks arg l otlrs;
  l ← loadBoxesFromServer arg l boxes;
  st ← TeamLoader_saveState arg l otlrs tokens lastHash;
  Ok (l, st).
End load.
