(* ===== verification/TeamEdit.v ===== *)
(** * The client's plan of an edit

    A client plans an edit without the sequence number and the time that the link will have, and asks that an owner remains;
    whoever opens the link plans it with both, and with the floor of its own copy of the team.  What the
    client's plan accepts, the plan over the link accepts, with the same schedule and the same roster but
    for the position and time of the changed entries. *)
From S2P Require Import Prelude Snowp MerkleTypes Rational Role Roster RosterAuth TeamRoster TeamBoxes Sigs HostChain ChainLoader TeamIndex UserChain UserLoader TeamRosterFacts UserWriter TeamChain.

(** ** Stamps *)
(** The entries that a plan left without a position get that of the link, and its time. *)
Definition stamp (n now : Z) (i : MemberInfo) : MemberInfo :=
  if (miSeqno i =? 0)%Z then mkMemberInfo (miRole i) (miGen i) n now else i.
Definition stamp_change (n now : Z) (c : Change) : Change := mkChange (chMember c) (stamp n now (chInfo c)).
Definition stamp_core (n now : Z) (r : RosterCore) : RosterCore := mkRosterCore (stamp n now <$> members r) (roleIndex r).
Definition stamp_roster (n now : Z) (r : TRoster) : TRoster := mkRoster (stamp_core n now <$> rCore r) (rKeyGens r) (rMks r).

(** Every entry was made by one of the links before the [n]-th. *)
Definition core_before (n : Z) (r : RosterCore) : Prop := ∀ m i, members r !! m = Some i → (1 ≤ miSeqno i < n)%Z.
Definition roster_before (n : Z) (r : TRoster) : Prop := ∀ core, rCore r = Some core → core_before n core.

(** Two sets of options: what the first lets pass, the second does. *)
Definition opts_weaker (o o' : GameplanOpts) : Prop :=
  TestingNoCheck o = false ∧ TestingNoCheck o' = false ∧ RequireOwner o' = false ∧ DelegationFloor o' = DelegationFloor o ∧
  (LinkHasAdminMetadata o' = true → LinkHasAdminMetadata o = true).

Section stamps.
Context (n now : Z).
Implicit Types (r : RosterCore) (cs : ChangeSet).
Local Notation st := (stamp_change n now).

Lemma stamp_role i : miRole (stamp n now i) = miRole i.
Proof. unfold stamp. by destruct (_ =? _)%Z. Qed.
Lemma stamp_gen i : miGen (stamp n now i) = miGen i.
Proof. unfold stamp. by destruct (_ =? _)%Z. Qed.
Lemma stamp_before i : (1 ≤ miSeqno i)%Z → stamp n now i = i.
Proof. unfold stamp. intros ?. by replace (miSeqno i =? 0)%Z with false by lia. Qed.
Lemma stamp_core_before r m : core_before m r → stamp_core n now r = r.
Proof.
  intros Hr. destruct r as [ms ix]. unfold stamp_core. cbn. f_equal. apply map_eq. intros id. rewrite lookup_fmap.
  destruct (ms !! id) as [i|] eqn:E; [|done]. cbn. f_equal. apply stamp_before. by apply (Hr id i E).
Qed.

(** *** Changes *)
Lemma MakeChange_stamp ch mh c k :
  MakeChange (mkMemberRoleSeqno ch 0 0) mh = Ok (c, k) → MakeChange (mkMemberRoleSeqno ch n now) mh = Ok (st c, k).
Proof.
  unfold MakeChange. cbn [Mr mrqSeqno mrqTime]. intros Hm.
  apply bind_Ok in Hm as (dst & -> & Hm). apply bind_Ok in Hm as (? & Hg1 & Hm). apply bind_Ok in Hm as (typ & Ht & Hm).
  apply bind_Ok in Hm as (src & Hs & Hm). apply bind_Ok in Hm as (? & Hg2 & Hm). apply bind_Ok in Hm as (fqe & Hf & Hm).
  cbn [mbind result_bind]. rewrite Hg1. cbn [mbind result_bind]. rewrite Ht. cbn [mbind result_bind]. rewrite Hs. cbn [mbind result_bind].
  rewrite Hg2. cbn [mbind result_bind]. rewrite Hf. cbn [mbind result_bind].
  destruct (Typ dst =? RoleType_NONE)%Z; apply bind_Ok in Hm as (? & -> & Hm); cbn [mbind result_bind].
  - by injection Hm as <- <-.
  - apply bind_Ok in Hm as (tk & -> & Hm). cbn [mbind result_bind]. by injection Hm as <- <-.
Qed.
Lemma make_changes_stamp changes mh ads cs mks :
  make_changes (map (λ ch, mkMemberRoleSeqno ch 0 0) changes) mh ads = Ok (cs, mks) →
  make_changes (map (λ ch, mkMemberRoleSeqno ch n now) changes) mh ads = Ok (map st cs, mks).
Proof.
  revert ads cs mks. induction changes as [|ch changes IH]; intros ads cs mks Hm; cbn [map make_changes] in *; [by injection Hm as <- <-|].
  apply bind_Ok in Hm as ([c k] & Hc & Hm). apply bind_Ok in Hm as (ads1 & Ha & Hm). apply bind_Ok in Hm as ([rest ads2] & Hr & [= <- <-]).
  rewrite (MakeChange_stamp _ _ _ _ Hc). cbn [mbind result_bind chMember stamp_change]. rewrite Ha. cbn [mbind result_bind].
  by rewrite (IH _ _ _ Hr).
Qed.

(** *** The check *)
Lemma check_distinct_stamp cs found : check_distinct found (map st cs) = check_distinct found cs.
Proof. revert found. induction cs as [|c cs IH]; intros found; [done|]. cbn [map check_distinct chMember stamp_change]. by rewrite IH. Qed.
Lemma delegated_changes_stamp r doer cs : delegated_changes r doer (map st cs) = delegated_changes r doer cs.
Proof.
  induction cs as [|c cs IH]; [done|]. cbn [map delegated_changes chMember chInfo stamp_change].
  by rewrite stamp_role, IH.
Qed.
Lemma find_stamp cs m rk : find (map st cs) m rk = stamp n now <$> find cs m rk.
Proof. induction cs as [|c cs IH]; [done|]. cbn [map find chMember chInfo stamp_change]. rewrite stamp_role, IH. by case_match. Qed.
Lemma check_doer_role_stamp r i i' cs : miRole i' = miRole i → check_doer_role r i' (map st cs) = check_doer_role r i cs.
Proof.
  intros Hi. induction cs as [|c cs IH]; [done|]. cbn [map check_doer_role chMember chInfo stamp_change]. by rewrite stamp_role, Hi, IH.
Qed.
Lemma check_local_admins_stamp doer cs : check_local_admins doer (map st cs) = check_local_admins doer cs.
Proof. induction cs as [|c cs IH]; [done|]. cbn [map check_local_admins chMember chInfo stamp_change]. by rewrite stamp_role, IH. Qed.
(** An entry of the roster is not the same as one of the link, which has a later position. *)
Lemma check_generations_stamp r cs :
  core_before n r → Forall (λ c, miSeqno (chInfo c) = 0%Z) cs → check_generations r cs = Ok () → check_generations r (map st cs) = Ok ().
Proof.
  intros Hr Hz. induction Hz as [|c cs Hc Hz IH]; [done|]. cbn [map check_generations chMember chInfo stamp_change].
  rewrite stamp_role, stamp_gen. intros Hk. apply bind_Ok in Hk as (? & -> & Hk). apply bind_Ok in Hk as (? & -> & Hk).
  apply bind_Ok in Hk as (? & He & Hk). rewrite (IH Hk). cbn [mbind result_bind].
  destruct (members r !! chMember c) as [e|] eqn:Em; [|done]. apply bind_Ok in He as (? & _ & He).
  replace (MemberInfo_Eq e (stamp n now (chInfo c))) with false; [cbn [guard_err mbind result_bind]; by rewrite He|].
  symmetry. unfold MemberInfo_Eq, stamp. rewrite Hc. cbn. pose proof (Hr _ _ Em). replace (miSeqno e =? n)%Z with false by lia. apply andb_false_r.
Qed.

Lemma delegated_allowed_stamp r o o' di di' doer cs :
  opts_weaker o o' → miRole di' = miRole di → delegatedChangesAllowedLocked r (Some o) di doer cs = Ok () →
  delegatedChangesAllowedLocked r (Some o') di' doer (map st cs) = Ok ().
Proof.
  intros (_ & _ & _ & Hf & Hm) Hi. unfold delegatedChangesAllowedLocked. rewrite Hf, Hi, delegated_changes_stamp.
  unfold len. rewrite length_map. destruct (DelegationFloor o); [|done]. intros Hd.
  apply bind_Ok in Hd as (? & -> & Hd). apply bind_Ok in Hd as (? & Hg & Hd). apply guard_err_Ok in Hg.
  destruct (LinkHasAdminMetadata o'); [by rewrite Hm in Hg|]. done.
Qed.

Lemma check_doer_stamp r o o' doer cs create di :
  opts_weaker o o' → check_doer r doer cs create (Some o) = Ok di →
  ∃ di', check_doer r doer (map st cs) create (Some o') = Ok di' ∧ miRole di' = miRole di.
Proof.
  intros Ho. unfold check_doer. destruct create; intros Hd.
  - apply bind_Ok in Hd as (? & -> & Hd). rewrite find_stamp. apply of_option_Ok in Hd. rewrite Hd. cbn. eexists. split; [done|apply stamp_role].
  - apply bind_Ok in Hd as (i & -> & Hd). cbn [mbind result_bind]. apply bind_Ok in Hd as ([] & Hd & [= <-]).
    destruct (negb (Typ (miRole i) =? RoleType_ADMIN)%Z && _); [|by exists i].
    rewrite (delegated_allowed_stamp r o o' i i doer cs Ho eq_refl Hd). by exists i.
Qed.

Lemma check_stamp r o o' doer cs create :
  opts_weaker o o' → core_before n r → Forall (λ c, miSeqno (chInfo c) = 0%Z) cs →
  checkChangesLocked r doer cs create (Some o) = Ok () → checkChangesLocked r doer (map st cs) create (Some o') = Ok ().
Proof.
  intros Ho Hr Hz Hc. unfold checkChangesLocked in *. rewrite check_distinct_stamp, check_local_admins_stamp.
  apply bind_Ok in Hc as (? & -> & Hc). apply bind_Ok in Hc as (di & Hd & Hc). destruct (check_doer_stamp _ _ _ _ _ _ _ Ho Hd) as (di' & Hd' & Hi).
  cbn [mbind result_bind]. rewrite Hd'. cbn [mbind result_bind]. rewrite (check_doer_role_stamp r di di' cs Hi).
  apply bind_Ok in Hc as (? & -> & Hc). apply bind_Ok in Hc as (? & -> & Hc). cbn [mbind result_bind]. by apply check_generations_stamp.
Qed.

(** *** The roster *)
Lemma apply_change_stamp r c : apply_change (stamp_core n now r) (st c) = stamp_core n now (apply_change r c).
Proof.
  unfold apply_change, stamp_core. cbn [members roleIndex chMember chInfo stamp_change]. rewrite stamp_role, lookup_fmap.
  assert (match stamp n now <$> members r !! chMember c with Some e => index_del (roleIndex r) (miRole e) (chMember c) | None => roleIndex r end =
          match members r !! chMember c with Some e => index_del (roleIndex r) (miRole e) (chMember c) | None => roleIndex r end) as ->.
  { destruct (members r !! chMember c); cbn; [by rewrite stamp_role|done]. }
  destruct (_ =? _)%Z; cbn [members roleIndex]; f_equal; [by rewrite fmap_delete|by rewrite fmap_insert].
Qed.
Lemma Apply_stamp r cs : Apply (stamp_core n now r) (map st cs) = stamp_core n now (Apply r cs).
Proof. unfold Apply. revert r. induction cs as [|c cs IH]; intros r; [done|]. cbn [map foldl]. by rewrite apply_change_stamp, IH. Qed.
End stamps.

(** *** The schedule *)
Lemma foldl_perm {A B} (f : B → A → B) l l' w :
  (∀ w x y, f (f w x) y = f (f w y) x) → l ≡ₚ l' → foldl f w l = foldl f w l'.
Proof.
  intros Hf Hl. revert w. induction Hl as [|x l l' _ IH|x y l|l l' l'' _ IH1 _ IH2]; intros w; cbn [foldl]; [done|apply IH|by rewrite Hf|].
  by rewrite IH1.
Qed.
Lemma foldl_foldl {A A' B} (f : B → A → B) (g : B → A' → B) l l' w :
  (∀ w x y, f (g w y) x = g (f w x) y) → foldl f (foldl g w l') l = foldl g (foldl f w l) l'.
Proof.
  intros Hfg. assert (∀ x w, f (foldl g w l') x = foldl g (f w x) l') as Hx.
  { intros x. induction l' as [|y l' IH]; intros w'; cbn [foldl]; [done|]. by rewrite IH, Hfg. }
  revert w. induction l as [|x l IH]; intros w; cbn [foldl]; [done|]. by rewrite Hx, IH.
Qed.
Lemma foldl_map {A A' B} (f : B → A' → B) (g : A → A') l w : foldl (λ b a, f b (g a)) w l = foldl f w (map g l).
Proof. revert w. induction l as [|x l IH]; intros w; cbn [foldl map]; [done|apply IH]. Qed.

(** A loop over the members that asks for their roles only, in any order. *)
Lemma foldl_members {B} (f : B → MemberID * RoleKey → B) (ms ms' : gmap MemberID MemberInfo) w :
  (∀ w x y, f (f w x) y = f (f w y) x) → miRole <$> ms = miRole <$> ms' →
  foldl (λ ws p, f ws (p.1, miRole p.2)) w (map_to_list ms) = foldl (λ ws p, f ws (p.1, miRole p.2)) w (map_to_list ms').
Proof.
  intros Hf Hms. rewrite !(foldl_map f (λ p : MemberID * MemberInfo, (p.1, miRole p.2))). apply foldl_perm; [done|].
  assert (∀ m : gmap MemberID MemberInfo, map (λ p, (p.1, miRole p.2)) (map_to_list m) ≡ₚ map_to_list (miRole <$> m)) as Hp.
  { intros m. rewrite map_to_list_fmap. done. }
  by rewrite !Hp, Hms.
Qed.

Lemma add_rekey_comm k m k' m' w : add_rekey k m (add_rekey k' m' w) = add_rekey k' m' (add_rekey k m w).
Proof. unfold add_rekey. cbn. f_equal. set_solver. Qed.

Section schedule.
Context (r r' : RosterCore) (Hroles : miRole <$> members r = miRole <$> members r').

Lemma keyAtLevel_roles k ws : keyAtLevel r k ws = keyAtLevel r' k ws.
Proof.
  unfold keyAtLevel. apply (foldl_members (λ ws p, if LessThanOrEqual k p.2 then add_rekey k p.1 ws else ws)); [|done].
  intros w x y. repeat case_match; try done. apply add_rekey_comm.
Qed.
Lemma keyFlood_roles all k floor ws : keyFlood r all k floor ws = keyFlood r' all k floor ws.
Proof.
  unfold keyFlood. apply (foldl_members (λ ws p, foldl (λ ws role,
    if LessThanOrEqual role p.2 && LessThanOrEqual role k && above_floor floor role
    then add_rekey role p.1 (add_include role (add_incr role ws)) else ws) ws (elements all))); [|done].
  intros w x y. apply foldl_foldl. intros w' a b. repeat case_match; try done.
  unfold add_rekey, add_include, add_incr. cbn. f_equal; set_solver.
Qed.
Lemma plan_change_stamp r0 kg all ws n now c :
  plan_change r0 kg r all ws (stamp_change n now c) = plan_change r0 kg r' all ws c.
Proof.
  unfold plan_change. cbn [chMember chInfo stamp_change]. rewrite stamp_role, stamp_gen, keyAtLevel_roles.
  destruct (members r0 !! chMember c) as [e|]; [|done]. by rewrite keyFlood_roles.
Qed.
Lemma planChanges_stamp `{SortLib} r0 cs kg force n now :
  planChangesLocked r0 (map (stamp_change n now) cs) kg r force = planChangesLocked r0 cs kg r' force.
Proof.
  unfold planChangesLocked. f_equal. generalize newWorkingSchedule. induction cs as [|c cs IH]; intros w; [done|].
  cbn [map foldl]. by rewrite plan_change_stamp, IH.
Qed.
End schedule.

(** ** The plan over the link *)
Lemma Gameplan_stamp `{SortLib} n now o o' cs doer rPre kg rPost sched kg' :
  opts_weaker o o' → (∀ r, rPre = Some r → core_before n r) → (1 ≤ n)%Z → Forall (λ c, miSeqno (chInfo c) = 0%Z) cs →
  Gameplan cs doer rPre kg (Some o) = Ok (rPost, sched, kg') →
  Gameplan (map (stamp_change n now) cs) doer rPre kg (Some o') = Ok (stamp_core n now rPost, sched, kg').
Proof.
  intros Ho Hr Hn Hz Hg. pose proof Ho as (Hc & Hc' & Hq & _). unfold Gameplan in *. apply bind_Ok in Hg as (? & -> & Hg). cbn [mbind result_bind].
  unfold no_check in *. rewrite Hc in Hg. rewrite Hc'. unfold require_owner at 1. rewrite Hq. cbn [andb guard_err mbind result_bind].
  assert (∀ r0 create keys force, core_before n r0 →
    (_ ← checkChangesLocked r0 doer cs create (Some o);
     _ ← guard_err (require_owner (Some o) && hasOwnerLocked r0 && negb (hasOwnerLocked (Apply (Roster_Clone (Some r0)) cs)))
           (TeamRosterError "change would leave team without an owner");
     let '(sched, keysPost) := planChangesLocked r0 cs keys (Apply (Roster_Clone (Some r0)) cs) force in
     Ok (Apply (Roster_Clone (Some r0)) cs, sched, keysPost)) = Ok (rPost, sched, kg') →
    (_ ← checkChangesLocked r0 doer (map (stamp_change n now) cs) create (Some o');
     _ ← Ok ();
     let '(sched, keysPost) := planChangesLocked r0 (map (stamp_change n now) cs) keys
                                 (Apply (Roster_Clone (Some r0)) (map (stamp_change n now) cs)) force in
     Ok (Apply (Roster_Clone (Some r0)) (map (stamp_change n now) cs), sched, keysPost)) = Ok (stamp_core n now rPost, sched, kg')) as Hstep.
  { intros r0 create keys force Hr0 Hk. apply bind_Ok in Hk as ([] & Hk1 & Hk). apply bind_Ok in Hk as (? & _ & Hk).
    rewrite (check_stamp n now r0 o o' doer cs create Ho Hr0 Hz Hk1). cbn [mbind result_bind].
    assert (Apply (Roster_Clone (Some r0)) (map (stamp_change n now) cs) = stamp_core n now (Apply (Roster_Clone (Some r0)) cs)) as ->.
    { assert (core_before n (Roster_Clone (Some r0))) as Hb by (destruct r0; exact Hr0).
      rewrite <- (stamp_core_before n now _ n Hb) at 1. apply Apply_stamp. }
    rewrite (planChanges_stamp _ (Apply (Roster_Clone (Some r0)) cs)).
    - destruct (planChangesLocked _ _ _ _ _). by injection Hk as <- <- <-.
    - cbn. rewrite <- map_fmap_compose. apply map_fmap_ext. intros ? ? _. cbn. apply stamp_role. }
  destruct rPre as [r0|]; (apply Hstep; [|done]); [by apply Hr|]. intros m i. cbn. by rewrite lookup_empty.
Qed.

Lemma make_changes_seqno changes n now mh ads cs mks :
  make_changes (map (λ ch, mkMemberRoleSeqno ch n now) changes) mh ads = Ok (cs, mks) → Forall (λ c, miSeqno (chInfo c) = n) cs.
Proof.
  revert ads cs mks. induction changes as [|ch changes IH]; intros ads cs mks Hm; cbn [map make_changes] in Hm; [by injection Hm as <- <-|].
  apply bind_Ok in Hm as ([c k] & Hc & Hm). apply bind_Ok in Hm as (ads1 & Ha & Hm). apply bind_Ok in Hm as ([rest ads2] & Hr & [= <- <-]).
  constructor; [|by eapply IH]. clear -Hc. unfold MakeChange in Hc. cbn [Mr mrqSeqno mrqTime] in Hc.
  apply bind_Ok in Hc as (? & _ & Hc). apply bind_Ok in Hc as (? & _ & Hc). apply bind_Ok in Hc as (? & _ & Hc).
  apply bind_Ok in Hc as (? & _ & Hc). apply bind_Ok in Hc as (? & _ & Hc). apply bind_Ok in Hc as (? & _ & Hc).
  destruct (_ =? _)%Z; apply bind_Ok in Hc as (? & _ & Hc); [by injection Hc as <- _|]. apply bind_Ok in Hc as (? & _ & Hc). by injection Hc as <- _.
Qed.

Lemma Roster_Gameplan_stamp `{SortLib} n now pre ko host changes vk o o' post sched :
  opts_weaker o o' → roster_before n pre → (1 ≤ n)%Z →
  Roster_Gameplan (Some pre) ko host (map (λ ch, mkMemberRoleSeqno ch 0 0) changes) vk (Some o) = Ok (post, sched) →
  Roster_Gameplan (Some pre) ko host (map (λ ch, mkMemberRoleSeqno ch n now) changes) vk (Some o') = Ok (stamp_roster n now post, sched).
Proof.
  intros Ho Hb Hn Hg. unfold Roster_Gameplan in *. apply bind_Ok in Hg as ([cs mks] & Hcs & Hg). unfold MakeChangeSet in *.
  rewrite (make_changes_stamp n now _ _ _ _ _ Hcs). cbn [mbind result_bind]. apply make_changes_seqno in Hcs.
  unfold GameplanWithChanges in *. cbn [default from_option id] in *. apply bind_Ok in Hg as (? & -> & Hg).
  apply bind_Ok in Hg as (doer & -> & Hg). cbn [mbind result_bind]. apply bind_Ok in Hg as (? & -> & Hg).
  apply bind_Ok in Hg as ([[rPost s] kp] & Hp & [= <- <-]). cbn [mbind result_bind].
  by rewrite (Gameplan_stamp n now o o' cs _ _ _ rPost s kp Ho Hb Hn Hcs Hp).
Qed.

(** The entries of the roster after a link are older, or the link's. *)
Lemma Apply_from r cs m i : members (Apply r cs) !! m = Some i → members r !! m = Some i ∨ ∃ c, c ∈ cs ∧ i = chInfo c.
Proof.
  unfold Apply. revert r. induction cs as [|c cs IH]; intros r Hi; [by left|]. cbn [foldl] in Hi. apply IH in Hi as [Hi|(c' & Hc' & ->)].
  - unfold apply_change in Hi. destruct (_ =? _)%Z; cbn [members] in Hi.
    + apply lookup_delete_Some in Hi as [_ Hi]. by left.
    + apply lookup_insert_Some in Hi as [[_ <-]|[_ Hi]]; [right; exists c; split; [left|done]|by left].
  - right. exists c'. split; [by right|done].
Qed.
Lemma Roster_Gameplan_before `{SortLib} n now pre ko host changes vk opts post sched :
  (∀ r, pre = Some r → roster_before n r) → (1 ≤ n)%Z →
  Roster_Gameplan pre ko host (map (λ ch, mkMemberRoleSeqno ch n now) changes) vk opts = Ok (post, sched) → roster_before (n + 1) post.
Proof.
  intros Hb Hn Hg. unfold Roster_Gameplan in Hg. apply bind_Ok in Hg as ([cs mks] & Hcs & Hg). apply make_changes_seqno in Hcs.
  unfold GameplanWithChanges in Hg. apply bind_Ok in Hg as (? & _ & Hg). apply bind_Ok in Hg as (doer & _ & Hg). apply bind_Ok in Hg as (? & _ & Hg).
  apply bind_Ok in Hg as ([[rPost s] kp] & Hp & [= <- <-]). intros core [= <-] m i Hi.
  apply Gameplan_apply in Hp. rewrite Hp in Hi. apply Apply_from in Hi as [Hi|(c & Hc & ->)].
  - destruct pre as [r|]; cbn in Hi; [|by rewrite lookup_empty in Hi]. specialize (Hb r eq_refl). unfold roster_before in Hb.
    destruct (rCore r) as [core|]; cbn in Hi; [|by rewrite lookup_empty in Hi]. specialize (Hb core eq_refl m i Hi). lia.
  - rewrite Forall_forall in Hcs. rewrite (Hcs c Hc). lia.
Qed.
