(* ===== verification/TeamPlay.v ===== *)
(** * Loaded team chains are runs of the roster policy

    The specification of a team's chain: the first link founds the team, it is signed by the key that the team is
    named after and its signer is an owner; every later link is signed with the key on record of a member, and
    changes what the policy of [RosterAuth] allows that member to change.  A chain that the
    loader of [TeamLoader] opens and plays is a run of it. *)
From S2P Require Import Prelude Snowp MerkleTypes Rational Role Roster RosterAuth TeamRoster TeamBoxes Sigs HostChain ChainLoader TeamIndex UserChain UserLoader UserAccount TeamRosterFacts UserWriter TeamChain TeamLoader.

(** ** The specification *)
Section spec.
Context (arg : LoadTeamArg).
Implicit Types (otlr : OpenTeamLinkRes) (r post : TRoster) (floor : option Role).

Definition team_seqno otlr : Z := bcSeqno (hdBase (gcChainer (otGc otlr))).
Definition floor_after floor otlr : option Role :=
  match RosterDelegationFloor otlr with Some f => Some f | None => floor end.
(** What the link says beside its changes, and the floor that is in force. *)
Definition link_opts floorKey otlr : option GameplanOpts :=
  Some (mkGameplanOpts false false floorKey
          (has_admin_metadata (mkTeamMetadata (Tnc otlr) (otRange otlr) (RosterDelegationFloor otlr)))).

(** The changes of a link with the keys that they record, and the member in whose name it is signed. *)
Record link_by otlr (doer : MemberID) (cs : ChangeSet) (mks : MemberKeysSet) : Prop := {
  lb_changes : MakeChangeSet (link_mrq (otGc otlr)) (laHost arg) = Ok (cs, mks);
  lb_owner : ∃ ko, gsKeyOwner (gcSigner (otGc otlr)) = Some ko ∧ doer_id ko (laHost arg) doer
}.

(** The first link: the team is named after the admin key that it brings, and the signer is made an owner. *)
Definition team_founded otlr post : Prop :=
  team_seqno otlr = 1%Z ∧ bcPrev (hdBase (gcChainer (otGc otlr))) = None ∧
  ∃ doer cs mks adminKey, link_by otlr doer cs mks ∧
    authorized NewRosterCore doer cs true (link_opts None otlr) ∧
    rCore post = Some (Apply NewRosterCore cs) ∧ rMks post = Some mks ∧
    adminKey ∈ (spsKey <$> otSharedKeys otlr) ∧ is_role (skRole adminKey) AdminRole ∧
    RollingEq (laTeam arg) (skVerifyKey adminKey) = Ok true.

(** A later link: its signing key is the one on record for the member. *)
Definition team_edited r floor otlr post : Prop :=
  (1 < team_seqno otlr)%Z ∧
  ∃ doer cs mks' core mks tk floorKey, link_by otlr doer cs mks' ∧ RosterDelegationFloorActive floor = Ok floorKey ∧
    rCore r = Some core ∧ rMks r = Some mks ∧
    mksMembers mks !! doer = Some (Some tk) ∧ gsKey (gcSigner (otGc otlr)) = VerifyKey tk ∧
    authorized core doer cs false (link_opts floorKey otlr) ∧
    rCore post = Some (Apply core cs) ∧ rMks post = Some (CloneAndOverwriteWith (Some mks) mks').

Inductive team_run : list OpenTeamLinkRes → TRoster → option Role → Prop :=
  | tr_found otlr post : team_founded otlr post → team_run [otlr] post (RosterDelegationFloor otlr)
  | tr_edit otlrs r floor otlr post :
      team_run otlrs r floor → team_edited r floor otlr post → team_run (otlrs ++ [otlr]) post (floor_after floor otlr).

(** The members of a roster are filed by role, and have the keys of their generations on record. *)
Definition team_ok post : Prop :=
  ∃ core mks, rCore post = Some core ∧ rMks post = Some mks ∧ roster_ok core ∧ keys_ok core mks.

Lemma team_run_ok otlrs post floor : team_run otlrs post floor → team_ok post.
Proof.
  induction 1 as [otlr post (_ & _ & doer & cs & mks & ak & Hb & _ & Hc & Hm & _)
                 |otlrs r floor otlr post _ (core & mks & Hc & Hm & Ho & Hk)
                  (_ & doer & cs & mks' & core' & mks2 & tk & fk & Hb & _ & Hc' & Hm' & _ & _ & _ & Hp & Hq)].
  - exists (Apply NewRosterCore cs), mks. split; [done|]. split; [done|]. split; [apply Apply_ok, roster_ok_empty|].
    eapply keys_ok_load, Hb.
  - rewrite Hc in Hc'. rewrite Hm in Hm'. injection Hc' as <-. injection Hm' as <-.
    exists (Apply core cs), (CloneAndOverwriteWith (Some mks) mks'). split; [done|]. split; [done|].
    split; [by apply Apply_ok|]. eapply keys_ok_edit; [done|apply Hb].
Qed.
End spec.

(** A link that was opened: it is signed by the team keys that it brings, and then by its signer. *)
Record team_signatures `{Crypto} `{UserLib} (link : LinkOuter) (lo : LinkOuterV1) (otlr : OpenTeamLinkRes) : Prop := {
  ts_inner : OpenGroupChange link = Ok (otGc otlr, lo);
  ts_keys : spsKey <$> otSharedKeys otlr = gcSharedKeys (otGc otlr);
  ts_signer : GetEntityID (otSigner otlr) = gsKey (gcSigner (otGc otlr));
  ts_length : length (lo1Signatures lo) = S (length (otSharedKeys otlr));
  ts_stack : stack_verified lo [] (zip (lo1Signatures lo) (map VShared (otSharedKeys otlr) ++ [VEntity (otSigner otlr)]))
}.
Definition signed_team_link `{Crypto} `{UserLib} (link : LinkOuter) (otlr : OpenTeamLinkRes) : Prop :=
  ∃ lo, team_signatures link lo otlr.

(** ** Opening *)
Section opening.
Context `{Crypto} `{Codec} `{UserLib} `{SortLib}.
Implicit Types (arg : LoadTeamArg) (otlr : OpenTeamLinkRes) (r post : TRoster) (floor : option Role).

Lemma EntityID_Eq_true e e2 : EntityID_Eq e e2 = true → e = e2.
Proof. unfold EntityID_Eq. by intros [_ He%bool_decide_eq_true]%andb_true_iff. Qed.

(** What [OpenTeamLink] has checked when it succeeds. *)
Lemma OpenTeamLink_Ok link hs team host rPre floor otlr :
  OpenTeamLink link hs (Some team) host rPre floor = Ok otlr →
  signed_team_link link otlr ∧ fqEntity (gcEntity (otGc otlr)) = team ∧
  (1 ≤ team_seqno otlr)%Z ∧ (team_seqno otlr = 1%Z ↔ bcPrev (hdBase (gcChainer (otGc otlr))) = None) ∧
  ∃ ko floorKey, gsKeyOwner (gcSigner (otGc otlr)) = Some ko ∧ RosterDelegationFloorActive floor = Ok floorKey ∧
    Roster_Gameplan rPre ko host (link_mrq (otGc otlr)) (Some (gsKey (gcSigner (otGc otlr)))) (link_opts floorKey otlr)
      = Ok (RosterPost otlr, otSched otlr).
Proof.
  unfold OpenTeamLink. intros Ho. apply bind_Ok in Ho as ([gc lo] & Hg & Ho).
  do 4 (apply bind_Ok in Ho as (? & _ & Ho)). apply bind_Ok in Ho as (? & Ht & Ho).
  apply bind_Ok in Ho as ([vs sks] & Hs & Ho). apply bind_Ok in Ho as (ep & Hep & Ho).
  apply bind_Ok in Ho as (ko & Hko%of_option_Ok & Ho). apply bind_Ok in Ho as ([] & Hv & Ho).
  apply bind_Ok in Ho as ([] & Hc & Ho). apply bind_Ok in Ho as (md & _ & Ho).
  apply bind_Ok in Ho as (fk & Hf & Ho). apply bind_Ok in Ho as ([post sched] & Hp & [= <-]).
  unfold OpenSharedKeys in Hs. apply bind_Ok in Hs as (sks' & Hs & [= <- <-]).
  apply verify_stacked_ok in Hv as (_ & Hlen & Hst). rewrite length_app, length_map in Hlen. simpl in Hlen.
  split. { exists lo. split; [done|by eapply open_shared_keys_keys|by apply ImportEntityPublic_id|simpl; lia|done]. }
  apply guard_err_Ok, negb_false_iff in Ht. split; [by apply EntityID_Eq_true in Ht|]. cbn [otGc].
  unfold OpenChainer in Hc. do 2 (apply bind_Ok in Hc as (? & ?%guard_err_Ok & Hc)). apply guard_err_Ok in Hc.
  unfold team_seqno, ChainLoader.Seqno_IsEldest, Seqno_IsValid in *. cbn [otGc]. split; [lia|]. split.
  - destruct (Z.eqb_spec (bcSeqno (hdBase (gcChainer gc))) 1), (bcPrev (hdBase (gcChainer gc))); simpl in *; split; congruence.
  - exists ko, fk. split; [done|]. split; [done|]. by destruct md.
Qed.

Lemma findSharedKeyForRole_Some ks role k :
  findSharedKeyForRole ks role = Ok (Some k) → k ∈ ks ∧ Role_Eq (skRole k) role = Ok true.
Proof.
  induction ks as [|k' ks IH]; [done|]. cbn [findSharedKeyForRole]. intros Hf. apply bind_Ok in Hf as (b & Hb & Hf).
  destruct b; [injection Hf as ->; split; [set_solver|done]|]. destruct (IH Hf). split; [set_solver|done].
Qed.

(** The first link: who founds the team, and the key that names it. *)
Lemma OpenEldestLinkWithOTLR_Ok otlr res :
  OpenEldestLinkWithOTLR otlr = Ok res →
  team_seqno otlr = 1%Z ∧ bcPrev (hdBase (gcChainer (otGc otlr))) = None ∧
  RosterDelegationFloor (teOtlr res) = RosterDelegationFloor otlr ∧
  ∃ adminKey, adminKey ∈ gcSharedKeys (otGc otlr) ∧ is_role (skRole adminKey) AdminRole ∧
    RollingEq (fqEntity (gcEntity (otGc otlr))) (skVerifyKey adminKey) = Ok true.
Proof.
  unfold OpenEldestLinkWithOTLR. intros Ho. do 8 (apply bind_Ok in Ho as (? & _ & Ho)).
  apply bind_Ok in Ho as ([] & Hc & Ho). do 3 (apply bind_Ok in Ho as (? & _ & Ho)).
  apply bind_Ok in Ho as (k & Hk & Ho). apply bind_Ok in Ho as (req & Hreq & Ho).
  apply bind_Ok in Ho as (? & Hr%guard_err_Ok & [= <-]). unfold CheckEldestChainer in Hc.
  do 2 (apply bind_Ok in Hc as (? & ?%guard_err_Ok & Hc)). apply guard_err_Ok in Hc.
  unfold team_seqno, ChainLoader.Seqno_IsEldest in *. split; [lia|]. split; [by destruct (bcPrev _)|]. split; [done|].
  destruct (findSharedKeyForRole _ _) as [[k'|]|] eqn:E; [|done..]. injection Hk as ->.
  apply findSharedKeyForRole_Some in E as [Hin He]. exists k. split; [done|]. split; [by apply Role_Eq_Export|].
  destruct req; [done|discriminate].
Qed.

Lemma link_by_gameplan arg rPre otlr ko opts post sched :
  gsKeyOwner (gcSigner (otGc otlr)) = Some ko →
  Roster_Gameplan rPre ko (laHost arg) (link_mrq (otGc otlr)) (Some (gsKey (gcSigner (otGc otlr)))) opts = Ok (post, sched) →
  ∃ doer cs mks core' kg', link_by arg otlr doer cs mks ∧
    matchSigningKey (rMks (default NewEmptyRoster rPre)) doer (Some (gsKey (gcSigner (otGc otlr)))) = Ok () ∧
    Gameplan cs doer (rCore (default NewEmptyRoster rPre)) (rKeyGens (default NewEmptyRoster rPre)) opts = Ok (core', sched, kg') ∧
    post = mkRoster (Some core') (Some kg') (Some (CloneAndOverwriteWith (rMks (default NewEmptyRoster rPre)) mks)).
Proof.
  intros Hko Hg. apply bind_Ok in Hg as ([cs mks] & Hm & Hg).
  apply GameplanWithChanges_Ok in Hg as (doer & core' & kg' & Hd & Hs & Hp & ->).
  exists doer, cs, mks, core', kg'. split; [|done]. split; [done|]. by exists ko.
Qed.

Lemma opened_founds arg link hs otlr res :
  OpenTeamLink link hs (Some (laTeam arg)) (laHost arg) None None = Ok otlr → OpenEldestLinkWithOTLR otlr = Ok res →
  team_founded arg otlr (RosterPost otlr).
Proof.
  intros Ho He. apply OpenTeamLink_Ok in Ho as ((lo & Hs) & Ht & _ & _ & ko & fk & Hko & [= <-] & Hg).
  apply OpenEldestLinkWithOTLR_Ok in He as (Hq & Hprev & _ & ak & Hak & Hrole & Hroll). split; [done|]. split; [done|].
  destruct (link_by_gameplan arg None otlr ko _ _ _ Hko Hg) as (doer & cs & mks & core' & kg' & Hb & _ & Hp & ->).
  cbn [default NewEmptyRoster rCore rKeyGens rMks] in *. apply Gameplan_create in Hp as (Ha & -> & _). exists doer, cs, mks, ak. split; [done|]. split; [by apply Ha|].
  split; [done|]. split; [done|]. rewrite (ts_keys _ _ _ Hs). by rewrite <- Ht.
Qed.

Lemma opened_edits arg link hs r floor otlr :
  OpenTeamLink link hs (Some (laTeam arg)) (laHost arg) (Some r) floor = Ok otlr → team_ok r → team_seqno otlr ≠ 1%Z →
  team_edited arg r floor otlr (RosterPost otlr).
Proof.
  intros Ho (core & mks & Hc & Hm & _) Hq. apply OpenTeamLink_Ok in Ho as (_ & _ & Hle & _ & ko & fk & Hko & Hf & Hg).
  split; [lia|]. destruct (link_by_gameplan arg (Some r) otlr ko _ _ _ Hko Hg) as (doer & cs & mks' & core' & kg' & Hb & Hs & Hp & ->).
  cbn [default id from_option] in *. rewrite Hc in Hp. rewrite Hm in Hs |- *. unfold matchSigningKey in Hs. cbn [of_option mbind result_bind] in Hs.
  apply bind_Ok in Hs as (memb & Hmb%of_option_Ok & Hs). apply bind_Ok in Hs as (tk & ->%of_option_Ok & Hs).
  apply guard_err_Ok, negb_false_iff, EntityID_Eq_true in Hs. destruct (rKeyGens r) as [kg|]; [|done].
  apply Gameplan_edit in Hp as (Ha & -> & _). exists doer, cs, mks', core, mks, tk, fk. repeat (split; [done|]). split; [by apply Ha|done].
Qed.
End opening.

(** ** Playing *)
Section playing.
Context `{Crypto} `{Codec} `{UserLib} `{SortLib}.
Implicit Types (arg : LoadTeamArg) (l : TeamLoader) (otlr : OpenTeamLinkRes).

(** What playing a link leaves as it was. *)
Definition team_frame l l' : Prop :=
  tlExisting l' = tlExisting l ∧ rosterPost l' = rosterPost l ∧ tlLeaves l' = tlLeaves l ∧ tlHepks l' = tlHepks l.

Lemma addIndexRange_Ok l r q l' :
  addIndexRange l r q = Ok l' → is_Some (getIndexRange l') ∧
  (q = 1%Z → indexRange l = None ∧ is_Some (indexRange l')) ∧ (q ≠ 1%Z → is_Some (getIndexRange l)) ∧
  (is_Some (indexRange l) → is_Some (indexRange l')) ∧
  ∃ ir, l' = mkTeamLoader (tlExisting l) (tlPtks l) (rosterPre l) (rosterPost l) (tlLeaves l) (tlSctlsc l) (tlMemberLoadFloor l)
               (tlFloor l) (tncs l) (tlHepks l) ir.
Proof.
  unfold addIndexRange, ChainLoader.Seqno_IsEldest. destruct (Z.eqb_spec q 1) as [->|Hq]; intros Ha.
  - apply bind_Ok in Ha as (rng & _ & Ha). apply bind_Ok in Ha as (? & Hi%guard_err_Ok & [= <-]).
    destruct (indexRange l) eqn:E; [done|]. cbn. split; [done|]. repeat split; try done. by eexists.
  - apply bind_Ok in Ha as (prev & Hp%of_option_Ok & Ha). destruct r as [r|].
    + do 4 (apply bind_Ok in Ha as (? & _ & Ha)). injection Ha as <-. cbn. split; [done|]. split; [done|].
      split; [by eexists|]. split; [done|]. by eexists.
    + injection Ha as <-. split; [by eexists|]. split; [done|]. split; [by eexists|]. split; [done|]. exists (indexRange l). by destruct l.
Qed.

Lemma playLink_Ok arg l otlr l' :
  TeamLoader_playLink arg l otlr = Ok l' → team_frame l l' ∧ tlFloor l' = floor_after (tlFloor l) otlr ∧
  (team_seqno otlr = 1%Z → indexRange l = None ∧ is_Some (indexRange l')) ∧
  (team_seqno otlr ≠ 1%Z → is_Some (getIndexRange l)) ∧ (is_Some (indexRange l) → is_Some (indexRange l')).
Proof.
  unfold TeamLoader_playLink. intros Hp. do 5 (apply bind_Ok in Hp as (? & _ & Hp)).
  apply bind_Ok in Hp as (ptks & _ & Hp). apply bind_Ok in Hp as (l1 & Ha & [= <-]).
  apply addIndexRange_Ok in Ha as (_ & H1' & H2' & H3' & ir & ->). cbn in *. split; [done|].
  split; [unfold floor_after; by destruct (RosterDelegationFloor otlr)|]. done.
Qed.

Lemma playLinks_later arg l otlrs l' :
  TeamLoader_playLinks arg l otlrs = Ok l' → is_Some (indexRange l) →
  Forall (λ o, team_seqno o ≠ 1%Z) otlrs ∧ team_frame l l' ∧ tlFloor l' = foldl floor_after (tlFloor l) otlrs.
Proof.
  revert l. induction otlrs as [|o otlrs IH]; intros l Hp Hi; cbn [TeamLoader_playLinks] in Hp.
  { injection Hp as <-. by repeat split. }
  apply bind_Ok in Hp as (l1 & H1' & Hp). apply bind_Ok in Hp as (l2 & H2' & Hp).
  assert (indexRange l1 = indexRange l ∧ (team_seqno o ≠ 1%Z → l1 = l)) as [Hir Hl1].
  { unfold ChainLoader.Seqno_IsEldest, team_seqno in *. destruct (Z.eqb_spec (bcSeqno (hdBase (gcChainer (otGc o)))) 1).
    - unfold TeamLoader_playLinkEldest in H1'. apply bind_Ok in H1' as (? & _ & [= <-]). done.
    - injection H1' as ->. done. }
  apply playLink_Ok in H2' as ((F1 & F2 & F3 & F4) & Hfl & Heq & _ & Hs). rewrite <- Hir in Hi.
  assert (team_seqno o ≠ 1%Z) as Hne by (intros E; destruct (Heq E) as [E' _]; rewrite E' in Hi; by destruct Hi).
  rewrite (Hl1 Hne) in *. destruct (IH l2 Hp (Hs Hi)) as (Hall & (G1 & G2 & G3 & G4) & Hfl'). split; [by constructor|].
  split; [unfold team_frame; by rewrite G1, G2, G3, G4|]. cbn. by rewrite Hfl', Hfl.
Qed.

Lemma playLinks_first arg l o otlrs l' :
  TeamLoader_playLinks arg l (o :: otlrs) = Ok l' → tlExisting l = None → indexRange l = None → tlFloor l = None →
  (∃ res, OpenEldestLinkWithOTLR o = Ok res) ∧ Forall (λ o, team_seqno o ≠ 1%Z) otlrs ∧
  team_frame l l' ∧ tlFloor l' = foldl floor_after (RosterDelegationFloor o) otlrs.
Proof.
  intros Hp He Hi Hf. cbn [TeamLoader_playLinks] in Hp. apply bind_Ok in Hp as (l1 & H1' & Hp).
  apply bind_Ok in Hp as (l2 & H2' & Hp). apply playLink_Ok in H2' as ((F1 & F2 & F3 & F4) & Hfl & Heq & Hne & _).
  unfold ChainLoader.Seqno_IsEldest, team_seqno in *. destruct (Z.eqb_spec (bcSeqno (hdBase (gcChainer (otGc o)))) 1) as [E|E].
  - unfold TeamLoader_playLinkEldest in H1'. apply bind_Ok in H1' as (res & Hr & [= <-]). split; [by exists res|].
    apply OpenEldestLinkWithOTLR_Ok in Hr as (_ & _ & Hrdf & _). destruct (Heq E) as [_ Hs].
    destruct (playLinks_later _ _ _ _ Hp Hs) as (Hall & (G1 & G2 & G3 & G4) & Hfl'). split; [done|].
    split; [unfold team_frame; by rewrite G1, G2, G3, G4, F1, F2, F3, F4|]. rewrite Hfl', Hfl. f_equal.
    unfold floor_after. cbn. rewrite Hrdf, Hf. by destruct (RosterDelegationFloor o).
  - injection H1' as <-. destruct (Hne E) as [x Hx]. unfold getIndexRange in Hx. by rewrite Hi, He in Hx.
Qed.

Lemma open_team_links_run arg hs r floor n links otlrs post pre :
  open_team_links arg hs (Some r) floor n links = Ok (otlrs, post) → Forall (λ o, team_seqno o ≠ 1%Z) otlrs →
  team_run arg pre r floor →
  ∃ post', post = Some post' ∧ team_run arg (pre ++ otlrs) post' (foldl floor_after floor otlrs).
Proof.
  revert r floor n otlrs pre. induction links as [|link links IH]; intros r floor n otlrs pre Ho Hall R; cbn [open_team_links] in Ho.
  { injection Ho as <- <-. exists r. by rewrite app_nil_r. }
  apply bind_Ok in Ho as (o & Hl & Ho). apply bind_Ok in Ho as ([rest post1] & Ho & [= <- <-]).
  inversion Hall as [|? ? Hne Hall']; subst. destruct (OpenTeamLink _ _ _ _ _ _) as [o'|] eqn:E; [|done]. injection Hl as ->.
  destruct (IH _ _ _ _ (pre ++ [o]) Ho Hall') as (post' & -> & R').
  { constructor 2 with r; [done|]. eapply opened_edits; [done| |done]. by eapply team_run_ok. }
  exists post'. by rewrite <- app_assoc in R'.
Qed.

Lemma open_team_links_signed arg hs r floor n links otlrs post :
  open_team_links arg hs r floor n links = Ok (otlrs, post) → Forall2 signed_team_link links otlrs.
Proof.
  revert r floor n otlrs post. induction links as [|link links IH]; intros r floor n otlrs post Ho; cbn [open_team_links] in Ho.
  { injection Ho as <- <-. constructor. }
  apply bind_Ok in Ho as (o & Hl & Ho). apply bind_Ok in Ho as ([rest post1] & Ho & [= <- <-]).
  destruct (OpenTeamLink _ _ _ _ _ _) as [o'|] eqn:E; [|done]. injection Hl as ->.
  constructor; [by eapply OpenTeamLink_Ok|by eapply IH].
Qed.

(** The run of the loader, taken apart. *)
Lemma team_play_over_Ok arg raw links leaves boxes tokens lastHash l st :
  team_play_over arg None raw links leaves boxes tokens lastHash = Ok (l, st) →
  ∃ l1 l2 otlrs post hs, open_team_links arg hs None None 0 links = Ok (otlrs, post) ∧
    l1 = set_rosterPost (set_tlHepks (NewTeamLoader leaves) hs) post ∧
    TeamLoader_playLinks arg l1 otlrs = Ok l2 ∧ loadBoxesFromServer arg l2 boxes = Ok l ∧
    TeamLoader_saveState arg l otlrs tokens lastHash = Ok st.
Proof.
  unfold team_play_over. intros Hp. apply bind_Ok in Hp as (l0 & [= <-] & Hp). apply bind_Ok in Hp as (l1 & Hu & Hp).
  apply bind_Ok in Hp as ([otlrs l2] & Ho & Hp). apply bind_Ok in Hp as (l3 & Hl & Hp).
  apply bind_Ok in Hp as (l4 & Hb & Hp). apply bind_Ok in Hp as (st' & Hs & [= -> ->]).
  unfold TeamLoader_updateHEPKs in Hu. apply bind_Ok in Hu as (s2 & _ & [= <-]).
  unfold TeamLoader_openLinks in Ho. apply bind_Ok in Ho as ([otlrs' post] & Ho & [= -> <-]). cbn in Ho. eauto 10.
Qed.
(** C5: A team's chain that a client opens and plays from its first link is a run of the roster policy: every link
    has the signatures of the team keys that it brings and of its signer, the first one is signed by the key
    that the team is named after and its signer becomes an owner, and each later one is signed with the key on record
    of a member, who is an admin or owner or stays within what the delegation floor allows. *)
Theorem team_links_authorised arg raw links leaves boxes tokens lastHash l st :
  team_play_over arg None raw links leaves boxes tokens lastHash = Ok (l, st) →
  ∃ otlrs post, Forall2 signed_team_link links otlrs ∧ rosterPost l = Some post ∧
    team_run arg otlrs post (tlFloor l) ∧ team_ok post.
Proof.
  intros (l1 & l3 & otlrs & post & hs & Ho & -> & Hl & Hb & Hs)%team_play_over_Ok.
  unfold loadBoxesFromServer in Hb. apply bind_Ok in Hb as (ptks & _ & [= <-]).
  pose proof (open_team_links_signed _ _ _ _ _ _ _ _ Ho) as Hsig. destruct links as [|link links]; cbn [open_team_links] in Ho.
  { injection Ho as <- <-. cbn in Hl. injection Hl as <-. done. }
  apply bind_Ok in Ho as (o & Hlk & Ho). apply bind_Ok in Ho as ([rest post1] & Ho & [= <- <-]).
  destruct (OpenTeamLink _ _ _ _ _ _) as [o'|] eqn:E; [|done]. injection Hlk as ->.
  destruct (playLinks_first _ _ _ _ _ Hl) as ((res & Hres) & Hall & (_ & F2 & _) & Hfl); [done..|].
  destruct (open_team_links_run _ _ _ _ _ _ _ _ [o] Ho Hall) as (post' & -> & R).
  { assert (RosterDelegationFloor o = match RosterDelegationFloor o with Some f => Some f | None => None end) as <-
      by (by destruct (RosterDelegationFloor o)). constructor. by eapply opened_founds. }
  exists (o :: rest), post'. split; [done|]. cbn. rewrite F2. split; [done|].
  assert (team_run arg (o :: rest) post' (tlFloor l3)) as R'.
  { rewrite Hfl. replace (RosterDelegationFloor o) with (match RosterDelegationFloor o with Some f => Some f | None => None end); [done|].
    by destruct (RosterDelegationFloor o). }
  split; [done|]. by eapply team_run_ok.
Qed.
End playing.
