(* ===== verification/TeamRing.v ===== *)
(** * The key ring of a loaded team

    The public keys that a played chain leaves in the ring: for each role the keys that the links brought, in the
    order of the chain, numbered from one without holes, and who revoked them. *)
From S2P Require Import Prelude Snowp MerkleTypes Rational Role Roster RosterAuth TeamRoster TeamBoxes Sigs HostChain ChainLoader TeamIndex UserChain UserLoader UserAccount TeamRosterFacts UserWriter TeamChain TeamLoader TeamPlay.

(** ** The sequences *)
Definition role_is (rk : RoleKey) (sk : SharedKey) : bool :=
  match ImportRole (skRole sk) with Ok r => bool_decide (r = rk) | Err _ => false end.
Definition pub_keys (r : TeamKeyRing) (rk : RoleKey) : list SharedKeyWithInfo := kfrPub (keysForRole r rk).
Definition revoker_of (k : SharedKeyWithInfo) : RevokeInfo := mkRevokeInfo (pvSigner (skiPi k)) (pvChain (skiPi k)).
(** The mark on the key at a position: none on the first and on the last key. *)
Definition mark_at (seq : list SharedKeyWithInfo) (i : nat) : option RevokeInfo :=
  if (1 <=? i)%nat then revoker_of <$> seq !! S i else None.
Definition seq_ok (seq : list SharedKeyWithInfo) : Prop :=
  ∀ i k, seq !! i = Some k → wrap_int (skGen (skiSk k)) = (Z.of_nat i + 1)%Z ∧ skiRi k = mark_at seq i.

(** The last key is marked, unless it is the first. *)
Definition mark_last (seq : list SharedKeyWithInfo) (ri : RevokeInfo) : list SharedKeyWithInfo :=
  if (FirstGeneration <? len seq)%Z then alter (λ p, set_Ri p ri) (length seq - 1)%nat seq else seq.

Lemma mark_last_lookup seq ri i :
  mark_last seq ri !! i = (λ p, if bool_decide (2 ≤ length seq ∧ S i = length seq)%nat then set_Ri p ri else p) <$> seq !! i.
Proof.
  unfold mark_last, FirstGeneration, len. destruct (seq !! i) as [k|] eqn:E; simpl.
  - destruct (Z.ltb_spec 1 (Z.of_nat (length seq))) as [Hl|Hl].
    + destruct (decide (S i = length seq)) as [Hi|Hi].
      * rewrite bool_decide_true by lia. replace (length seq - 1)%nat with i by lia. rewrite list_lookup_alter_eq. by rewrite E.
      * rewrite bool_decide_false by lia. rewrite list_lookup_alter_ne by lia. done.
    + rewrite bool_decide_false by lia. done.
  - apply lookup_ge_None in E. apply lookup_ge_None. destruct (_ <? _)%Z; [by rewrite length_alter|done].
Qed.
Lemma mark_last_sk seq ri : skiSk <$> mark_last seq ri = skiSk <$> seq.
Proof. apply list_eq. intros i. rewrite !list_lookup_fmap, mark_last_lookup. destruct (seq !! i); simpl; [|done]. by case_bool_decide. Qed.
Lemma mark_last_length seq ri : length (mark_last seq ri) = length seq.
Proof. unfold mark_last. destruct (_ <? _)%Z; [by rewrite length_alter|done]. Qed.

Lemma seq_ok_snoc seq k :
  seq_ok seq → wrap_int (skGen (skiSk k)) = (len seq + 1)%Z → skiRi k = None → seq_ok (mark_last seq (revoker_of k) ++ [k]).
Proof.
  intros S Hg Hr i k' Hk. unfold mark_at. destruct (decide (i < length seq)%nat) as [Hi|Hi].
  - rewrite lookup_app_l in Hk by (by rewrite mark_last_length). rewrite mark_last_lookup in Hk.
    destruct (seq !! i) as [k0|] eqn:E; [|done]. destruct (S i k0 E) as [Hg0 Hr0]. simpl in Hk. injection Hk as <-.
    split; [by case_bool_decide|]. unfold mark_at in Hr0. case_bool_decide as Hb.
    + destruct (Nat.leb_spec 1 i); [|lia]. rewrite lookup_app_r by (rewrite mark_last_length; lia).
      rewrite mark_last_length. by replace (_ - _)%nat with 0%nat by lia.
    + rewrite Hr0. destruct (Nat.leb_spec 1 i); [|done]. rewrite lookup_app_l by (rewrite mark_last_length; lia).
      rewrite mark_last_lookup. destruct (seq !! Datatypes.S i) as [k1|]; simpl; [|done]. by case_bool_decide.
  - rewrite lookup_app_r in Hk by (rewrite mark_last_length; lia). rewrite mark_last_length in Hk.
    destruct (i - length seq)%nat as [|n] eqn:En; [|done]. simpl in Hk. injection Hk as <-. unfold len in Hg. split; [lia|].
    rewrite Hr. destruct (1 <=? i)%nat; [|done]. rewrite lookup_ge_None_2; [done|]. rewrite length_app, mark_last_length. simpl. lia.
Qed.

(** A ring that holds the keys [ks], in this order. *)
Definition ring_of (r : TeamKeyRing) (ks : list SharedKey) : Prop :=
  ∀ rk, skiSk <$> pub_keys r rk = filter (role_is rk) ks ∧ seq_ok (pub_keys r rk).

Lemma ring_of_new : ring_of NewTeamKeyRing [].
Proof. intros rk. unfold pub_keys, keysForRole. cbn. rewrite lookup_empty. split; [done|]. by intros i k Hk. Qed.

Lemma pub_keys_put r rk kfr i rk' :
  pub_keys (mkTeamKeyRing (<[rk := kfr]> (krT r)) i) rk' = if decide (rk = rk') then kfrPub kfr else pub_keys r rk'.
Proof.
  unfold pub_keys, keysForRole. cbn. destruct (decide (rk = rk')) as [->|Hne]; [by rewrite lookup_insert_eq|by rewrite lookup_insert_ne].
Qed.

Lemma AddPub_ring r k r' ks : AddPub r k = Ok r' → skiRi k = None → ring_of r ks → ring_of r' (ks ++ [skiSk k]).
Proof.
  unfold AddPub. intros Ha Hr R. apply bind_Ok in Ha as (rk & Hrk & Ha). apply bind_Ok in Ha as (? & Hg%guard_err_Ok & Ha).
  apply bind_Ok in Ha as (fe & _ & [= <-]). intros rk'. rewrite filter_app, pub_keys_put. cbn [kfrPub].
  apply negb_false_iff, Z.eqb_eq in Hg. destruct (decide (rk = rk')) as [<-|Hne].
  - destruct (R rk) as [Hsk Hok]. change (kfrPub (keysForRole r rk)) with (pub_keys r rk) in *.
    change (if (_ <? _)%Z then _ else _) with (mark_last (pub_keys r rk) (revoker_of k)).
    rewrite fmap_app, mark_last_sk, Hsk. split; [|by apply seq_ok_snoc].
    f_equal. cbn [fmap list_fmap]. rewrite filter_cons_True, filter_nil; [done|]. unfold role_is. rewrite Hrk. by rewrite bool_decide_true.
  - destruct (R rk') as [Hsk' Hok']. split; [|done].
    rewrite filter_cons_False, filter_nil, app_nil_r; [done|]. unfold role_is. rewrite Hrk. rewrite bool_decide_false by done. by intros [].
Qed.

Lemma add_pubs_ring r o leaf sks r' ks :
  add_pubs r o leaf sks = Ok r' → ring_of r ks → ring_of r' (ks ++ (spsKey <$> sks)).
Proof.
  revert r ks. induction sks as [|sk sks IH]; intros r ks Ha R; cbn [add_pubs] in Ha.
  { injection Ha as <-. by rewrite app_nil_r. }
  apply bind_Ok in Ha as (r1 & H1 & Ha). eapply AddPub_ring in H1; [|done..]. eapply IH in Ha; [|done].
  by rewrite <- app_assoc in Ha.
Qed.

Lemma AddPrivBoxed_pubs r p r' rk : AddPrivBoxed r p = Ok r' → pub_keys r' rk = pub_keys r rk ∧ krI r' = krI r.
Proof.
  unfold AddPrivBoxed. intros Ha. apply bind_Ok in Ha as (rk' & _ & Ha). apply bind_Ok in Ha as (? & _ & [= <-]).
  rewrite pub_keys_put. split; [|done]. by destruct (decide _) as [->|].
Qed.
Lemma add_boxes_pubs arg r boxes r' rk : add_boxes arg r boxes = Ok r' → pub_keys r' rk = pub_keys r rk ∧ krI r' = krI r.
Proof.
  revert r. induction boxes as [|p boxes IH]; intros r Ha; cbn [add_boxes] in Ha; [by injection Ha as <-|].
  apply bind_Ok in Ha as (? & _ & Ha). apply bind_Ok in Ha as (r1 & H1 & Ha).
  destruct (IH _ Ha) as [-> ->]. by eapply AddPrivBoxed_pubs.
Qed.

(** ** The ring after a chain *)
Section chain.
Context `{Crypto} `{Codec} `{UserLib} `{SortLib}.

Lemma playLink_ring arg l o l' ks :
  TeamLoader_playLink arg l o = Ok l' → ring_of (tlPtks l) ks → ring_of (tlPtks l') (ks ++ (spsKey <$> otSharedKeys o)).
Proof.
  unfold TeamLoader_playLink. intros Hp R. do 5 (apply bind_Ok in Hp as (? & _ & Hp)).
  apply bind_Ok in Hp as (ptks & Hk & Hp). apply bind_Ok in Hp as (l1 & Ha & [= <-]).
  apply addIndexRange_Ok in Ha as (_ & _ & _ & _ & ir & ->). cbn in *. by eapply add_pubs_ring.
Qed.

Lemma playLinks_ring arg l otlrs l' ks :
  TeamLoader_playLinks arg l otlrs = Ok l' → ring_of (tlPtks l) ks →
  ring_of (tlPtks l') (ks ++ (otlrs ≫= λ o, spsKey <$> otSharedKeys o)).
Proof.
  revert l ks. induction otlrs as [|o otlrs IH]; intros l ks Hp R; cbn [TeamLoader_playLinks] in Hp.
  { injection Hp as <-. by rewrite app_nil_r. }
  apply bind_Ok in Hp as (l1 & H1' & Hp). apply bind_Ok in Hp as (l2 & H2' & Hp).
  assert (tlPtks l1 = tlPtks l) as Hl1.
  { destruct (ChainLoader.Seqno_IsEldest _); [|by injection H1' as ->]. unfold TeamLoader_playLinkEldest in H1'.
    by apply bind_Ok in H1' as (? & _ & [= <-]). }
  rewrite <- Hl1 in R. eapply playLink_ring in H2'; [|done]. eapply IH in Hp; [|done]. cbn. by rewrite <- app_assoc in Hp.
Qed.


Lemma team_play_over_signed arg raw links leaves boxes tokens lastHash l st :
  team_play_over arg None raw links leaves boxes tokens lastHash = Ok (l, st) →
  ∃ otlrs l2, Forall2 signed_team_link links otlrs ∧ ring_of (tlPtks l2) (otlrs ≫= λ o, spsKey <$> otSharedKeys o) ∧
    (∀ rk, pub_keys (tlPtks l) rk = pub_keys (tlPtks l2) rk) ∧ krI (tlPtks l) = krI (tlPtks l2).
Proof.
  intros (l1 & l2 & otlrs & post & hs & Ho & -> & Hl & Hb & _)%team_play_over_Ok. exists otlrs, l2.
  split; [by eapply open_team_links_signed|]. split.
  - apply (playLinks_ring _ _ _ _ [] Hl). apply ring_of_new.
  - unfold loadBoxesFromServer in Hb. apply bind_Ok in Hb as (ptks & Hb & [= <-]). cbn.
    split; [intros rk; by eapply add_boxes_pubs|by eapply (add_boxes_pubs _ _ _ _ AdminRole)].
Qed.


(** The first key of a role is never taken for revoked: whatever keys follow it, the bounds on the time in which it
    could sign have no end. *)
Theorem first_team_key_never_revoked arg raw links leaves boxes tokens lastHash l st rk k fe :
  team_play_over arg None raw links leaves boxes tokens lastHash = Ok (l, st) →
  pub_keys (tlPtks l) rk !! 0%nat = Some k → EntityID_Fixed (skVerifyKey (skiSk k)) = Ok fe →
  krI (tlPtks l) !! fe = Some (rk, 0%nat) →
  TeamWrapper_BookendSigningKey (tlPtks l) (skVerifyKey (skiSk k)) = Ok None.
Proof.
  intros (otlrs & l2 & _ & R & Hp & _)%team_play_over_signed Hk Hfe Hi. unfold TeamWrapper_BookendSigningKey, ring_at.
  rewrite Hfe. cbn [mbind result_bind]. rewrite Hi. cbn [of_option mbind result_bind fst snd].
  change (kfrPub (keysForRole (tlPtks l) rk)) with (pub_keys (tlPtks l) rk). rewrite Hk. cbn [of_option mbind result_bind].
  rewrite Hp in Hk. destruct (R rk) as [_ Hok]. destruct (Hok 0%nat k Hk) as [_ ->]. done.
Qed.
End chain.
