(* ===== verification/TeamMade.v ===== *)
(** * Team chains that clients make

    A client founds a team and edits it with the keys that the members have on record.  The founding is one that the roster
    policy accepts, and each edit one that the client's own plan ([runGameplan]) accepts.  Each loader that is served the links
    plays them to the roster that the client planned, with the positions and times of the links. *)
From S2P Require Import Prelude Snowp MerkleTypes Rational Role Roster RosterAuth TeamRoster TeamBoxes Sigs HostChain ChainLoader TeamIndex UserChain UserLoader UserAccount UserPlay UserFacts TeamRosterFacts UserWriter UserWriterFacts UserMade TeamChain TeamLoader TeamEdit TeamPlay TeamRing.

(** ** The client *)
Record team_acct := mkTeamAcct {
  ta_roster : TRoster;
  ta_floor : option Role;
  ta_gens : RoleKey → nat;
  ta_range : proto_RationalRange
}.

(** The keys of a user or a team, and of a team.  A client makes the first keys of a team with the type of teams, and
    later ones (and the keys that it loads) with the type of verification keys; the keys of a user have the latter type too. *)
Definition team_types : list EntityType := [EntityType_NamedTeam; EntityType_AdHocTeam; EntityType_PTKVerify].
Definition party_types : list EntityType := EntityType_User :: EntityType_PUKVerify :: team_types.
Definition party_suite `{Crypto} (s : SharedPrivateSuite25519) : Prop :=
  ∃ typ priv, suKey (spSuite s) = NewEntityPrivateEd25519 typ priv ∧ typ ∈ party_types.
Definition team_suite `{Crypto} (s : SharedPrivateSuite25519) : Prop :=
  ∃ typ priv, suKey (spSuite s) = NewEntityPrivateEd25519 typ priv ∧ typ ∈ team_types.
(** The keys that a client edits with. *)
Definition editor_suite `{Crypto} (s : SharedPrivateSuite25519) : Prop :=
  ∃ typ priv, suKey (spSuite s) = NewEntityPrivateEd25519 typ priv ∧ typ ∈ [EntityType_PUKVerify; EntityType_PTKVerify].

(** New keys: each is the next one of its role. *)
Inductive new_team_keys : (RoleKey → nat) → list SharedKey → (RoleKey → nat) → Prop :=
  | ntk_nil g : new_team_keys g [] g
  | ntk_cons g sk rk sks g' :
      ImportRole (skRole sk) = Ok rk → skGen sk = (Z.of_nat (g rk) + 1)%Z → (skGen sk < 2 ^ 63)%Z →
      new_team_keys (λ rk', if decide (rk = rk') then S (g rk') else g rk') sks g' → new_team_keys g (sk :: sks) g'.
(** A new index range is another one inside the old one. *)
Definition range_step (prev : proto_RationalRange) (r : option proto_RationalRange) (next : proto_RationalRange) : Prop :=
  match r with
  | None => next = prev
  | Some r => Range_Eq prev r = Ok false ∧ Range_Includes prev r = Ok true ∧ next = r
  end.
(** What the members of a new ad-hoc team have to be. *)
Definition founders_ok (team : EntityID) (changes : list proto_MemberRole) : Prop :=
  EntityID_Type team = Ok EntityType_AdHocTeam → checkAdHocMembersAreLocalUsers changes = Ok ().
Definition changes_at (changes : list proto_MemberRole) (n now : Z) : list MemberRoleSeqno :=
  map (λ ch, mkMemberRoleSeqno ch n now) changes.

Section made.
Context `{Crypto} `{Codec} `{ChainLib} `{UserLoaderLib} `{UserWriterLib} `{SortLib}.
Context (arg : LoadTeamArg).

Definition edit_opts (floorKey : option RoleKey) (metadata : bool) : option GameplanOpts :=
  Some (mkGameplanOpts false false floorKey metadata).
Definition no_metadata : TeamMetadata := mkTeamMetadata None None None.

(** The link of a client that founds a team. *)
Inductive team_client_found : LinkOuter → list HEPK → team_acct → Prop :=
  | tcf name owner uotKey teamKeys root trkc others now r_name r_loc r_seed res exported ownerSk h t post sched g :
      MakeTeamEldestLink (laHost arg) name owner uotKey teamKeys root trkc others now r_name r_loc r_seed = Ok res →
      laTeam arg = tmlTeamID res → party_suite uotKey → Forall team_suite teamKeys → real_location r_loc →
      mapM_r ExportToSharedKey teamKeys = Ok exported → rising exported.*1 → new_team_keys (λ _, 0%nat) exported.*1 g →
      ExportToSharedKey uotKey = Ok (ownerSk, h) → Role_Eq (skRole ownerSk) (koSrcRole owner) = Ok true →
      EntityID_Type (koParty owner) = Ok t →
      let changes := exportToMemberRole proto_OwnerRole (laHost arg) (ScopeToHost (koParty owner) (laHost arg)) ownerSk trkc :: others in
      founders_ok (laTeam arg) changes →
      (∀ signerID, Suite_EntityID (spSuite uotKey) = Ok signerID →
        Roster_Gameplan None owner (laHost arg) (changes_at changes 1 now) (Some signerID) (edit_opts None true) = Ok (post, sched)) →
      team_client_found (tmlLink res) exported.*2 (mkTeamAcct post None g NewDefaultRange).

(** A link that edits the team. *)
Inductive team_client_edit (a : team_acct) (n : Z) : LinkOuter → list HEPK → team_acct → Prop :=
  | tce ko signerKey changes newTeamKeys prev root mds now r_loc link loc exported signerSk h md floorKey t post sched g rng :
      (1 < n)%Z →
      MakeTeamLink (laHost arg) (laTeam arg) ko signerKey changes newTeamKeys n prev root mds now r_loc = Ok (link, loc) →
      party_suite signerKey → Forall team_suite newTeamKeys → real_location r_loc →
      mapM_r ExportToSharedKey newTeamKeys = Ok exported → rising exported.*1 → new_team_keys (ta_gens a) exported.*1 g →
      ExportToSharedKey signerKey = Ok (signerSk, h) →
      EntityID_Type (laTeam arg) = Ok t → (t = EntityType_AdHocTeam → changes = []) →
      open_metadata no_metadata mds = Ok md → range_step (ta_range a) (tmdRng md) rng →
      RosterDelegationFloorActive (ta_floor a) = Ok floorKey →
      Roster_Gameplan (Some (ta_roster a)) ko (laHost arg) (changes_at changes n now) (Some (skVerifyKey signerSk))
        (edit_opts floorKey (has_admin_metadata md)) = Ok (post, sched) →
      team_client_edit a n link exported.*2
        (mkTeamAcct post (match tmdRdf md with Some f => Some f | None => ta_floor a end) g rng).

Inductive team_client_chain : list LinkOuter → list HEPK → team_acct → Prop :=
  | tcc_found link raw a : team_client_found link raw a → team_client_chain [link] raw a
  | tcc_edit links raw a link raw' a' :
      team_client_chain links raw a → team_client_edit a (Z.of_nat (length links) + 1) link raw' a' →
      team_client_chain (links ++ [link]) (raw ++ raw') a'.

(** An edit as the client makes it: the plan is the client's, which has no position and no time yet, and the link gives its
    own to the entries that the plan changed. *)
Inductive team_editor_edit (a : team_acct) (n : Z) : LinkOuter → list HEPK → team_acct → Prop :=
  | tee ko signerKey changes newTeamKeys prev root mds now r_loc link loc exported signerSk h md t planned sched g rng :
      (1 < n)%Z →
      runGameplan (Some (ta_roster a)) (ta_floor a) ko (laHost arg) changes signerKey mds = Ok (planned, sched) →
      MakeTeamLink (laHost arg) (laTeam arg) ko signerKey changes newTeamKeys n prev root mds now r_loc = Ok (link, loc) →
      editor_suite signerKey → Forall team_suite newTeamKeys → real_location r_loc →
      mapM_r ExportToSharedKey newTeamKeys = Ok exported → rising exported.*1 → new_team_keys (ta_gens a) exported.*1 g →
      ExportToSharedKey signerKey = Ok (signerSk, h) →
      EntityID_Type (laTeam arg) = Ok t → (t = EntityType_AdHocTeam → changes = []) →
      open_metadata no_metadata mds = Ok md → range_step (ta_range a) (tmdRng md) rng →
      team_editor_edit a n link exported.*2
        (mkTeamAcct (stamp_roster n now planned) (match tmdRdf md with Some f => Some f | None => ta_floor a end) g rng).

Inductive team_editor_chain : list LinkOuter → list HEPK → team_acct → Prop :=
  | tec_found link raw a : team_client_found link raw a → team_editor_chain [link] raw a
  | tec_edit links raw a link raw' a' :
      team_editor_chain links raw a → team_editor_edit a (Z.of_nat (length links) + 1) link raw' a' →
      team_editor_chain (links ++ [link]) (raw ++ raw') a'.

Context `{!UserWriterLaws} `{!SignLaws}.

(** ** Suites *)
Lemma team_party s : team_suite s → party_suite s.
Proof.
  intros (typ & priv & Hk & Ht). exists typ, priv. split; [done|]. unfold party_types. by do 2 right.
Qed.
Lemma party_type typ : typ ∈ party_types → IsEd25519 typ = true ∧ IsEd25519 (RollingType typ) = true ∧ wrap8 typ = typ ∧
  wrap8 (RollingType typ) = RollingType typ.
Proof. unfold party_types, team_types. intros Ht. repeat (apply elem_of_cons in Ht as [->|Ht]; [done|]). by apply elem_of_nil in Ht. Qed.

Lemma ed25519_import id typ b : id = wrap8 typ :: b → wrap8 typ = typ → IsEd25519 typ = true → ImportEntityPublic id = Ok (EntityPublicEd25519 id).
Proof.
  intros -> Hw He. unfold ImportEntityPublic, EntityID_Type. change 0%Z with (Z.of_nat 0). rewrite index_nat. cbn.
  replace (_ =? 0)%Z with false by (unfold len; simpl; lia). cbn. by rewrite Hw, He.
Qed.

(** The identifier that a party signs with, and the one on record. *)
Lemma party_signs s id : party_suite s → Suite_EntityID (spSuite s) = Ok id →
  ImportEntityPublic id = Ok (EntityPublicEd25519 id) ∧ signs (suKey (spSuite s)) (VEntity (EntityPublicEd25519 id)).
Proof.
  intros (typ & priv & Hk & Ht) Hid. destruct (party_type typ Ht) as (He & _ & Hw & _). unfold Suite_EntityID in Hid. rewrite Hk in Hid |- *.
  cbn in Hid. pose proof (signs_entity typ priv id He Hid) as Hs. apply MakeEntityID_key in Hid; [|done]. split; [|done].
  by eapply (ed25519_import id typ (ed25519_Public priv)).
Qed.
Lemma party_exported s sk h : party_suite s → ExportToSharedKey s = Ok (sk, h) →
  HEPK_Fingerprint h = Ok (skHepkFp sk) ∧ skGen sk = spGen s ∧ skRole sk = suRole (spSuite s) ∧
  ImportEntityPublic (skVerifyKey sk) = Ok (EntityPublicEd25519 (skVerifyKey sk)) ∧
  signs (suKey (spSuite s)) (VEntity (EntityPublicEd25519 (skVerifyKey sk))) ∧ is_ok (EntityID_Fixed (skVerifyKey sk)) = true ∧
  ∀ w, signs (suKey (spSuite s)) (VShared (mkSharedPublicSuite sk w)).
Proof.
  intros (typ & priv & Hk & Ht) He. destruct (party_type typ Ht) as (_ & Hr & _ & Hw).
  destruct (exported_rolling s sk h typ priv He Hk Hr) as (_ & Hfp & Hg & Hro & Hid & Hs).
  pose proof (signs_entity (RollingType typ) priv _ Hr Hid) as Hse. apply MakeEntityID_key in Hid; [|done].
  repeat (split; [done|]). split; [by eapply (ed25519_import _ (RollingType typ) (ed25519_Public priv))|].
  split; [by rewrite Hk|]. split; [|done]. rewrite Hid. unfold EntityID_Fixed, len. simpl. by rewrite length_Public.
Qed.
Lemma team_exported ks exported :
  mapM_r ExportToSharedKey ks = Ok exported → Forall team_suite ks →
  Forall (λ p, HEPK_Fingerprint p.2 = Ok (skHepkFp p.1)) exported ∧
  Forall (λ sk, is_ok (EntityID_Fixed (skVerifyKey sk)) = true) exported.*1 ∧
  Forall2 signs ((λ k, suKey (spSuite k)) <$> ks) (map VShared (suites_of exported)).
Proof.
  intros Hm%mapM_r_Ok Hu. induction Hm as [|s [sk h] ks exported He Hm IH]; [by repeat constructor|].
  inversion Hu; subst. destruct IH as (I1 & I2 & I3); [done|].
  destruct (party_exported s sk h) as (Hfp & _ & _ & _ & _ & Hfx & Hs); [by apply team_party|done|].
  cbn. repeat split; by constructor.
Qed.

(** ** Opening *)
Lemma team_type_tests t : EntityType_IsTeam t = true → EntityType_IsAdHocTeam t = true → t = EntityType_AdHocTeam.
Proof. unfold EntityType_IsAdHocTeam. lia. Qed.

Lemma made_team_opens gc ks link hs rPre floor floorKey ko id sps md post sched t :
  signed_with gc ks link → ks ≠ [] → Forall2 signs ks (map VShared sps ++ [VEntity (EntityPublicEd25519 id)]) →
  gcEntity gc = mkFQEntity (laTeam arg) (laHost arg) → EntityID_Type (laTeam arg) = Ok t → EntityType_IsTeam t = true →
  (t = EntityType_AdHocTeam → checkAdHocMembersAreLocalUsers (gcChanges gc) = Ok ()) →
  open_shared_keys None (gcSharedKeys gc) hs = Ok sps → gcSigner gc = mkGroupChangeSigner id (Some ko) →
  ImportEntityPublic id = Ok (EntityPublicEd25519 id) → OpenChainer gc = Ok () →
  open_metadata no_metadata (gcMetadata gc) = Ok md → RosterDelegationFloorActive floor = Ok floorKey →
  Roster_Gameplan rPre ko (laHost arg) (link_mrq gc) (Some id) (edit_opts floorKey (has_admin_metadata md)) = Ok (post, sched) →
  OpenTeamLink link hs (Some (laTeam arg)) (laHost arg) rPre floor =
    Ok (mkOpenTeamLinkRes gc sps (EntityPublicEd25519 id) post sched (tmdTnc md) (tmdRng md) (tmdRdf md)).
Proof.
  intros Hs Hne Hv He Ht Hteam Hadhoc Hk Hsg Hid Hch Hmd Hf Hg.
  destruct (signed_opens gc ks _ link Hs Hne Hv) as (lov1 & Ho & Hver).
  unfold OpenTeamLink. rewrite Ho. cbn [mbind result_bind]. rewrite He. cbn [fqEntity fqHost]. rewrite Ht. cbn [mbind result_bind].
  rewrite Hteam, HostID_Eq_refl, (EntityID_Eq_refl _ _ Ht). cbn [negb guard_err mbind result_bind].
  replace (if EntityType_IsAdHocTeam t then _ else _) with (Ok () : result ()).
  2:{ destruct (EntityType_IsAdHocTeam t) eqn:E; [|done]. by rewrite Hadhoc by (by apply team_type_tests). }
  cbn [mbind result_bind]. unfold OpenSharedKeys. rewrite Hk. cbn [mbind result_bind]. rewrite Hsg. cbn [gsKey gsKeyOwner].
  rewrite Hid. cbn [mbind result_bind of_option]. rewrite Hver. cbn [mbind result_bind]. rewrite Hch. cbn [mbind result_bind].
  fold no_metadata. rewrite Hmd. cbn [mbind result_bind]. rewrite Hf. cbn [mbind result_bind]. unfold edit_opts in Hg. by rewrite Hg.
Qed.

(** ** Playing *)
Definition ring_gens (r : TeamKeyRing) (g : RoleKey → nat) : Prop := ∀ rk, length (pub_keys r rk) = g rk.

Lemma add_pubs_plays r o leaf sps g g' :
  ring_gens r g → new_team_keys g (spsKey <$> sps) g' →
  Forall (λ sk, is_ok (EntityID_Fixed (skVerifyKey sk)) = true) (spsKey <$> sps) →
  ∃ r', add_pubs r o leaf sps = Ok r' ∧ ring_gens r' g'.
Proof.
  revert r g. induction sps as [|sp sps IH]; intros r g R Hn Hf; simpl in Hn; inversion Hn; subst; cbn [add_pubs]; [by exists r|].
  inversion Hf as [|? ? Hfe Hf']; subst. apply is_ok_Ok in Hfe as (fe & Hfe).
  unfold AddPub at 1. cbn [skiSk]. match goal with Hr : ImportRole _ = Ok ?k |- _ => rename Hr into Hrk; rename k into rk0 end.
  rewrite Hrk. cbn [mbind result_bind]. pose proof (R rk0) as Hl. unfold pub_keys in Hl.
  rewrite wrap_int_id by lia. unfold len, FirstGeneration. rewrite Hl.
  replace (Z.of_nat (g rk0) + 1 =? skGen (spsKey sp))%Z with true by lia. cbn [negb guard_err mbind result_bind].
  rewrite Hfe. cbn [mbind result_bind]. eapply IH; [|done|done]. intros rk'. rewrite pub_keys_put. cbn [kfrPub].
  destruct (decide (rk0 = rk')) as [<-|Hne]; [|apply R]. rewrite length_app. simpl.
  destruct (_ <? _)%Z; rewrite ?length_alter, Hl; lia.
Qed.

(** The loader after links of a client. *)
Record team_ready (l : TeamLoader) (a : team_acct) : Prop := {
  tr_ring : ring_gens (tlPtks l) (ta_gens a);
  tr_range : indexRange l = Some (ta_range a);
  tr_floor : tlFloor l = ta_floor a
}.
Definition fresh_loader (l : TeamLoader) (n : Z) : Prop :=
  ring_gens (tlPtks l) (λ _, 0%nat) ∧ indexRange l = None ∧ tlFloor l = None ∧ (n ≤ len (tlLeaves l) < 2 ^ 63)%Z.

Lemma leaf_found l n : (1 ≤ n)%Z → (n ≤ len (tlLeaves l) < 2 ^ 63)%Z →
  (wrap_int (wrap_int n - 1) <? 0)%Z = false ∧ (len (tlLeaves l) <=? wrap_int (wrap_int n - 1))%Z = false ∧
  ∃ leaf, index (tlLeaves l) (wrap_int (wrap_int n - 1)) = Ok leaf.
Proof.
  intros Hn Hl. rewrite (wrap_int_id n) by lia. rewrite wrap_int_id by lia. split; [lia|]. split; [lia|].
  replace (n - 1)%Z with (Z.of_nat (Z.to_nat (n - 1))) by lia. rewrite index_nat.
  destruct (lookup_lt_is_Some_2 (tlLeaves l) (Z.to_nat (n - 1))) as [leaf Hleaf]; [unfold len in Hl; lia|]. rewrite Hleaf. by exists leaf.
Qed.

(** Playing a link but for its index range. *)
Lemma team_link_plays l o g g' t :
  ring_gens (tlPtks l) g → new_team_keys g (spsKey <$> otSharedKeys o) g' →
  Forall (λ sk, is_ok (EntityID_Fixed (skVerifyKey sk)) = true) (spsKey <$> otSharedKeys o) →
  (1 ≤ team_seqno o)%Z → (team_seqno o ≤ len (tlLeaves l) < 2 ^ 63)%Z → EntityID_Type (laTeam arg) = Ok t →
  (t = EntityType_AdHocTeam → team_seqno o = 1%Z ∨ gcChanges (otGc o) = []) →
  ∃ ptks, ring_gens ptks g' ∧
    TeamLoader_playLink arg l o =
      (l ← addIndexRange (set_ptks (add_tnc l (Tnc o)) ptks) (otRange o) (team_seqno o); Ok (set_floor l (RosterDelegationFloor o))).
Proof.
  intros R Hn Hf Hs Hl Ht Hah. destruct (leaf_found l (team_seqno o) Hs Hl) as (L1 & L2 & leaf & L3).
  destruct (add_pubs_plays (tlPtks l) o leaf (otSharedKeys o) g g' R Hn Hf) as (ptks & Hp & Hg). exists ptks. split; [done|].
  unfold TeamLoader_playLink, rejectAdHocMembershipChange. fold (team_seqno o). rewrite Ht. cbn [mbind result_bind].
  replace (negb (EntityType_IsAdHocTeam t) || _ || _) with true.
  2:{ symmetry. unfold EntityType_IsAdHocTeam, ChainLoader.Seqno_IsEldest. destruct (Z.eqb_spec t EntityType_AdHocTeam) as [E|]; [|done].
      destruct (Hah E) as [->| ->]; [done|]. cbn. by rewrite orb_true_r. }
  cbn [mbind result_bind add_tnc tlLeaves tlPtks]. replace (Seqno_IsValid (team_seqno o)) with true by (unfold Seqno_IsValid; lia).
  cbn [negb guard_err mbind result_bind]. rewrite L1. cbn [guard_err mbind result_bind]. rewrite L2. cbn [guard_err mbind result_bind].
  rewrite L3. cbn [mbind result_bind]. by rewrite Hp.
Qed.

Lemma edit_link_plays l a o g rng t :
  team_ready l a → new_team_keys (ta_gens a) (spsKey <$> otSharedKeys o) g →
  Forall (λ sk, is_ok (EntityID_Fixed (skVerifyKey sk)) = true) (spsKey <$> otSharedKeys o) →
  (1 < team_seqno o)%Z → (team_seqno o ≤ len (tlLeaves l) < 2 ^ 63)%Z → EntityID_Type (laTeam arg) = Ok t →
  (t = EntityType_AdHocTeam → gcChanges (otGc o) = []) → range_step (ta_range a) (otRange o) rng →
  ∃ l', TeamLoader_playLinks arg l [o] = Ok l' ∧
    team_ready l' (mkTeamAcct (RosterPost o) (floor_after (ta_floor a) o) g rng) ∧ team_frame l l'.
Proof.
  intros [R1 R2 R3] Hn Hf Hs Hl Ht Hah Hr.
  destruct (team_link_plays l o (ta_gens a) g t) as (ptks & Hg & Hp); [done..|lia|done|done|by right; apply Hah|].
  cbn [TeamLoader_playLinks]. unfold ChainLoader.Seqno_IsEldest. fold (team_seqno o).
  replace (team_seqno o =? 1)%Z with false by lia. cbn [mbind result_bind]. rewrite Hp.
  set (l1 := set_ptks (add_tnc l (Tnc o)) ptks). assert (getIndexRange l1 = Some (ta_range a)) as Hgi by (unfold getIndexRange; cbn; by rewrite R2).
  unfold addIndexRange, ChainLoader.Seqno_IsEldest. replace (team_seqno o =? 1)%Z with false by lia. rewrite Hgi. cbn [of_option mbind result_bind].
  destruct (otRange o) as [r|]; cbn [range_step] in Hr.
  - destruct Hr as (-> & -> & ->). cbn [mbind result_bind guard_err negb]. eexists. split; [done|]. split; [|done].
    split; [done|done|]. cbn. rewrite R3. unfold floor_after. by destruct (RosterDelegationFloor o).
  - subst rng. cbn [mbind result_bind]. eexists. split; [done|]. split; [|done].
    split; [done|done|]. cbn. rewrite R3. unfold floor_after. by destruct (RosterDelegationFloor o).
Qed.

Lemma eldest_team_plays l o g t res rng :
  fresh_loader l 1 → new_team_keys (λ _, 0%nat) (spsKey <$> otSharedKeys o) g →
  Forall (λ sk, is_ok (EntityID_Fixed (skVerifyKey sk)) = true) (spsKey <$> otSharedKeys o) →
  OpenEldestLinkWithOTLR o = Ok res → EntityID_Type (laTeam arg) = Ok t → otRange o = Some rng → RosterDelegationFloor o = None →
  ∃ l', TeamLoader_playLinks arg l [o] = Ok l' ∧ team_ready l' (mkTeamAcct (RosterPost o) None g rng) ∧ team_frame l l'.
Proof.
  intros (R1 & R2 & R3 & Hl) Hn Hf He Ht Hr Hrd. destruct (OpenEldestLinkWithOTLR_Ok o res He) as (Hs & _ & Hrd' & _).
  cbn [TeamLoader_playLinks]. unfold ChainLoader.Seqno_IsEldest. fold (team_seqno o). rewrite Hs. cbn [Z.eqb Pos.eqb].
  unfold TeamLoader_playLinkEldest. rewrite He. cbn [mbind result_bind]. rewrite Hrd', Hrd.
  set (l0 := set_floor (set_eldest l _ _) None).
  destruct (team_link_plays l0 o (λ _, 0%nat) g t) as (ptks & Hg & Hp); [done..|by rewrite Hs|by rewrite Hs|done|by left|].
  rewrite Hp, Hs, Hr, Hrd. unfold addIndexRange, addIndexRangeEldest. cbn [ChainLoader.Seqno_IsEldest Z.eqb Pos.eqb of_option mbind result_bind].
  cbn [set_ptks add_tnc l0 set_floor set_eldest indexRange]. rewrite R2. cbn [is_nil negb guard_err mbind result_bind].
  eexists. split; [done|]. split; [|done]. by split.
Qed.

(** ** The first link *)
Lemma export_team_keys_Ok ks ak tkes adminTke exported :
  export_team_keys ak ks = Ok (tkes, adminTke) → mapM_r ExportToSharedKey ks = Ok exported →
  tkes = exported.*1 ∧ (adminTke = ak ∨ ∃ k, adminTke = Some k ∧ k ∈ tkes ∧ GetT (skRole k) = Ok RoleType_ADMIN).
Proof.
  revert ak tkes adminTke exported. induction ks as [|s ks IH]; intros ak tkes at' exported He Hm; cbn in He, Hm.
  { injection He as <- <-. injection Hm as <-. split; [done|by left]. }
  apply bind_Ok in He as ([tke h] & Htk & He). apply bind_Ok in He as (r & Hr & He). apply bind_Ok in He as ([tkes1 at1] & He & [= <- <-]).
  rewrite Htk in Hm. cbn in Hm. apply bind_Ok in Hm as (ex1 & Hm & [= <-]). destruct (IH _ _ _ _ He Hm) as [-> Ha]. split; [done|].
  destruct Ha as [->|(k & -> & Hk & Hg)]; [|right; exists k; split; [done|]; split; [set_solver|done]].
  destruct (Z.eqb_spec r RoleType_ADMIN) as [->|]; [|by left]. right. exists tke. split; [done|]. split; [set_solver|done].
Qed.

Lemma admin_role k rk : GetT (skRole k) = Ok RoleType_ADMIN → ImportRole (skRole k) = Ok rk → rk = AdminRole.
Proof.
  intros Hg Hi. rewrite (GetT_imported _ _ Hi) in Hg. injection Hg as Hg. destruct rk as [ty lv]. cbn in Hg. subst ty.
  pose proof (rk_valid_level _ (ImportRole_valid _ _ Hi)) as Hl. cbn in Hl. rewrite Hl by done. done.
Qed.

Lemma find_admin sks rks k :
  Forall2 (λ sk rk, ImportRole (skRole sk) = Ok rk) sks rks → StronglySorted rk_lt rks → k ∈ sks →
  GetT (skRole k) = Ok RoleType_ADMIN → findSharedKeyForRole sks proto_AdminRole = Ok (Some k).
Proof.
  intros Hf. revert k. induction Hf as [|sk rk sks rks Hi Hf IH]; intros k Hs Hk Hg; [by apply elem_of_nil in Hk|].
  inversion Hs as [|? ? Hs' Hlt]; subst. cbn [findSharedKeyForRole]. apply elem_of_cons in Hk as [->|Hk].
  - assert (rk = AdminRole) as -> by (by eapply admin_role). assert (Role_Eq (skRole sk) proto_AdminRole = Ok true) as ->; [|done].
    apply (Role_Eq_Export _ AdminRole). apply ImportRole_Ok in Hi as (_ & Hi1 & Hi2). by split.
  - assert (rk_lt rk AdminRole) as Hl.
    { apply list_elem_of_lookup in Hk as (i & Hk). destruct (Forall2_lookup_l _ _ _ _ _ Hf Hk) as (rk' & Hrk' & Hi').
      rewrite (admin_role k rk' Hg Hi') in Hrk'. rewrite Forall_forall in Hlt. apply Hlt. by eapply list_elem_of_lookup_2. }
    assert (Role_Eq (skRole sk) proto_AdminRole = Ok false) as ->; [|by apply IH].
    unfold Role_Eq. rewrite (GetT_imported _ _ Hi). cbn. destruct (Z.eqb_spec (Typ rk) RoleType_ADMIN) as [E|]; [|done].
    exfalso. pose proof (rk_valid_level _ (ImportRole_valid _ _ Hi)) as Hv. unfold rk_lt, AdminRole in Hl. cbn in Hl. rewrite E, Hv in Hl by (by rewrite E). lia.
Qed.

(** The name of a team: the type of teams, and the bytes of its admin key. *)
Lemma team_named ks exported k pt team :
  mapM_r ExportToSharedKey ks = Ok exported → Forall team_suite ks → k ∈ exported.*1 → Persistent (skVerifyKey k) pt = Ok team →
  let t := if (pt =? PartyType_AdHocTeam)%Z then EntityType_AdHocTeam else EntityType_NamedTeam in
  EntityID_Type team = Ok t ∧ RollingEq team (skVerifyKey k) = Ok true.
Proof.
  intros Hm%mapM_r_Ok Hu Hk Hp. apply list_elem_of_fmap in Hk as ([k' h] & -> & Hk).
  apply list_elem_of_lookup in Hk as (i & Hk). destruct (Forall2_lookup_r _ _ _ _ _ Hm Hk) as (s & Hs & He).
  rewrite Forall_lookup in Hu. destruct (Hu _ _ Hs) as (typ & priv & Hkey & Ht). cbn [fst] in *.
  assert (RollingType typ = EntityType_PTKVerify) as Hr.
  { unfold team_types in Ht. repeat (apply elem_of_cons in Ht as [->|Ht]; [done|]). by apply elem_of_nil in Ht. }
  destruct (exported_rolling s k' h typ priv He Hkey) as (_ & _ & _ & _ & Hid & _); [by rewrite Hr|]. rewrite Hr in Hid.
  apply MakeEntityID_key in Hid; [|done]. change (wrap8 EntityType_PTKVerify) with EntityType_PTKVerify in Hid. rewrite Hid in *.
  unfold Persistent in Hp. apply bind_Ok in Hp as (? & _ & Hp).
  unfold EntityID_Type in Hp at 1. change 0%Z with (Z.of_nat 0) in Hp. rewrite index_nat in Hp. cbn [lookup list_lookup of_option mbind result_bind] in Hp.
  unfold PersistentType in Hp. cbn [Z.eqb Pos.eqb EntityType_PTKVerify EntityType_PUKVerify] in Hp. cbn [drop] in Hp. rewrite ?drop_0 in Hp.
  pose proof (length_Public priv) as Hlen. set (b := ed25519_Public priv) in *. clearbody b.
  destruct (pt =? PartyType_AdHocTeam)%Z; unfold MakeEntityID, len in Hp; cbn in Hp; rewrite Hlen in Hp; cbn in Hp; injection Hp as <-;
    (split; [done|]); unfold RollingEq, len; cbn; rewrite Hlen; cbn; by rewrite bool_decide_true.
Qed.

(** The inner part of the first link. *)
Lemma eldest_team_made name owner uotKey teamKeys root trkc others now r_name r_loc r_seed res exported ownerSk h :
  MakeTeamEldestLink (laHost arg) name owner uotKey teamKeys root trkc others now r_name r_loc r_seed = Ok res →
  mapM_r ExportToSharedKey teamKeys = Ok exported → ExportToSharedKey uotKey = Ok (ownerSk, h) →
  ∃ signerID adminTke teamCom loc c sctlc,
    Suite_EntityID (spSuite uotKey) = Ok signerID ∧ adminTke ∈ exported.*1 ∧ GetT (skRole adminTke) = Ok RoleType_ADMIN ∧
    Persistent (skVerifyKey adminTke) (if is_nil name then PartyType_AdHocTeam else PartyType_NamedTeam) = Ok (tmlTeamID res) ∧
    MakeTreeLocation r_loc = Ok (loc, c) ∧ (is_nil name = is_nil teamCom) ∧
    signed_with (mkGroupChange (mkHidingChainer (mkBaseChainer 1 None root now) c) (mkFQEntity (tmlTeamID res) (laHost arg))
        (mkGroupChangeSigner signerID (Some owner))
        (exportToMemberRole proto_OwnerRole (laHost arg) (ScopeToHost (koParty owner) (laHost arg)) ownerSk trkc :: others) exported.*1
        ((NewChangeMetadataWithTeamname <$> opt_list teamCom) ++
         [NewChangeMetadataWithEldest (mkEldestMetadata sctlc); NewChangeMetadataWithTeamindexrange NewDefaultRange;
          NewChangeMetadataWithMemberloadfloor DefaultMemberLoadFloor]) None)
      (((λ k, suKey (spSuite k)) <$> teamKeys) ++ [suKey (spSuite uotKey)]) (tmlLink res).
Proof.
  unfold MakeTeamEldestLink. intros Hm Hex Hown. apply bind_Ok in Hm as (? & _ & Hm). apply bind_Ok in Hm as (commit & Hcom & Hm).
  apply bind_Ok in Hm as (signerID & Hsid & Hm). apply bind_Ok in Hm as ([tkes at'] & Hk & Hm).
  apply bind_Ok in Hm as (? & _ & Hm). apply bind_Ok in Hm as (adminTke & Hat%of_option_Ok & Hm). subst at'.
  apply bind_Ok in Hm as (team & Hteam & Hm). apply bind_Ok in Hm as ([loc c] & Hl & Hm). apply bind_Ok in Hm as ([sctl sctlc] & _ & Hm).
  rewrite Hown in Hm. cbn [mbind result_bind] in Hm. apply bind_Ok in Hm as (link & Hs & [= <-]). cbn [tmlLink tmlTeamID].
  destruct (export_team_keys_Ok _ _ _ _ _ Hk Hex) as [-> [?|(k & [= <-] & Hin & Hadm)]]; [done|].
  exists signerID, adminTke, (snd <$> commit), loc, c, sctlc. do 5 (split; [done|]).
  split. { destruct name; [apply bind_Ok in Hcom as (? & _ & [= <-]); done|]. by injection Hcom as <-. }
  apply sign_link_signed. destruct commit as [[rck com]|]; done.
Qed.

Lemma found_metadata teamCom sctlc :
  open_metadata no_metadata ((NewChangeMetadataWithTeamname <$> opt_list teamCom) ++
    [NewChangeMetadataWithEldest (mkEldestMetadata sctlc); NewChangeMetadataWithTeamindexrange NewDefaultRange;
     NewChangeMetadataWithMemberloadfloor DefaultMemberLoadFloor]) =
  Ok (mkTeamMetadata teamCom (Some NewDefaultRange) None).
Proof. by destruct teamCom. Qed.

Lemma founder_found owner host sk trkc others t :
  EntityID_Type (koParty owner) = Ok t → Role_Eq (skRole sk) (koSrcRole owner) = Ok true →
  let ch := exportToMemberRole proto_OwnerRole host (ScopeToHost (koParty owner) host) sk trkc in
  FindChangeForMember (ch :: others) owner = Some ch.
Proof.
  intros Ht Hr ch. cbn [FindChangeForMember ch exportToMemberRole mrMember mId mSrcRole AtHost ScopeToHost hsEntity hsHost fqEntity fqHost].
  by rewrite (EntityID_Eq_refl _ _ Ht), HostID_Eq_refl, Hr.
Qed.

Lemma found_eldest_opens o root now c team host signerID owner sk trkc others sks teamCom sctlc t tp rks adminTke :
  otGc o = mkGroupChange (mkHidingChainer (mkBaseChainer 1 None root now) c) (mkFQEntity team host)
    (mkGroupChangeSigner signerID (Some owner))
    (exportToMemberRole proto_OwnerRole host (ScopeToHost (koParty owner) host) sk trkc :: others) sks
    ((NewChangeMetadataWithTeamname <$> opt_list teamCom) ++
     [NewChangeMetadataWithEldest (mkEldestMetadata sctlc); NewChangeMetadataWithTeamindexrange NewDefaultRange;
      NewChangeMetadataWithMemberloadfloor DefaultMemberLoadFloor]) None →
  Tnc o = teamCom → EntityID_Type team = Ok t → EntityType_IsNamedTeam t = negb (is_nil teamCom) →
  EntityID_Type (koParty owner) = Ok tp → Role_Eq (skRole sk) (koSrcRole owner) = Ok true →
  Forall2 (λ sk rk, ImportRole (skRole sk) = Ok rk) sks rks → StronglySorted rk_lt rks → adminTke ∈ sks →
  GetT (skRole adminTke) = Ok RoleType_ADMIN → RollingEq team (skVerifyKey adminTke) = Ok true →
  ∃ r, OpenEldestLinkWithOTLR o = Ok r.
Proof.
  intros Hgc Htnc Ht Hnamed Htp Hrole Hrk Hsort Hin Hadm Hroll. unfold OpenEldestLinkWithOTLR. rewrite Hgc.
  cbn [gcEntity gcMetadata gcChainer gcSigner gcChanges gcSharedKeys fqEntity gsKeyOwner]. rewrite Ht. cbn [mbind result_bind].
  pose proof (founder_found owner host sk trkc others tp Htp Hrole) as Hff. cbn zeta in Hff.
  rewrite Hnamed, Htnc, (find_admin sks rks adminTke Hrk Hsort Hin Hadm).
  destruct teamCom; cbn -[FindChangeForMember exportToMemberRole]; rewrite Hff; cbn; rewrite Hroll; cbn; by eexists.
Qed.

Lemma found_link_opens link raw a hs :
  team_client_found link raw a → holds hs raw →
  ∃ o res t, OpenTeamLink link hs (Some (laTeam arg)) (laHost arg) None None = Ok o ∧ OpenEldestLinkWithOTLR o = Ok res ∧
    RosterPost o = ta_roster a ∧ EntityID_Type (laTeam arg) = Ok t ∧ new_team_keys (λ _, 0%nat) (spsKey <$> otSharedKeys o) (ta_gens a) ∧
    Forall (λ sk, is_ok (EntityID_Fixed (skVerifyKey sk)) = true) (spsKey <$> otSharedKeys o) ∧
    otRange o = Some (ta_range a) ∧ RosterDelegationFloor o = None ∧ ta_floor a = None.
Proof.
  intros Hf Hh. destruct Hf as [name owner uotKey teamKeys root trkc others now r_name r_loc r_seed res exported ownerSk h tp post sched g
    Hm Hteam Hparty Hts Hloc Hex Hris Hn Hown Hrole Htp changes Hfo Hg].
  destruct (eldest_team_made _ _ _ _ _ _ _ _ _ _ _ _ _ _ _ Hm Hex Hown)
    as (signerID & adminTke & teamCom & loc & c & sctlc & Hsid & Hin & Hadm & Hper & Hl & Hnil & Hs).
  rewrite <- Hteam in *. destruct (team_named _ _ _ _ _ Hex Hts Hin Hper) as [Htype Hroll]. destruct Hris as (rks & Hrk & Hsort).
  destruct (team_exported _ _ Hex Hts) as (Hfp & Hfx & Hsigs). destruct (party_signs uotKey signerID Hparty Hsid) as [Himp Hsig].
  set (gc := mkGroupChange _ _ _ _ _ _ _) in Hs. set (t := if (_ =? _)%Z then EntityType_AdHocTeam else EntityType_NamedTeam) in Htype.
  eassert (OpenTeamLink (tmlLink res) hs (Some (laTeam arg)) (laHost arg) None None = Ok _) as Ho.
  { apply (made_team_opens gc _ _ hs None None None owner signerID (suites_of exported)
      (mkTeamMetadata teamCom (Some NewDefaultRange) None) post sched t Hs); try done.
    - by destruct teamKeys.
    - apply Forall2_app; [done|]. by repeat constructor.
    - unfold t. by destruct (_ =? _)%Z.
    - intros E. apply Hfo. by rewrite Htype, E.
    - by apply (open_exported None exported hs rks).
    - by eapply (chainer_opens gc 1 None).
    - apply found_metadata.
    - unfold has_admin_metadata. cbn [tmdTnc tmdRng tmdRdf is_nil negb]. rewrite orb_true_r. by apply Hg. }
  rewrite Ho. set (o := mkOpenTeamLinkRes _ _ _ _ _ _ _ _) in *.
  assert (∃ r, OpenEldestLinkWithOTLR o = Ok r) as (r & Hr).
  { eapply (found_eldest_opens o); try done. unfold t. rewrite <- Hnil. by destruct name. }
  exists o, r, t. repeat (split; [done|]). cbn [otSharedKeys o]. rewrite suites_of_keys. by repeat (split; [done|]).
Qed.

(** ** Later links *)
Lemma edit_link_opens a n link raw a' hs :
  team_client_edit a n link raw a' → holds hs raw → (∀ t, EntityID_Type (laTeam arg) = Ok t → EntityType_IsTeam t = true) →
  ∃ o t rng, OpenTeamLink link hs (Some (laTeam arg)) (laHost arg) (Some (ta_roster a)) (ta_floor a) = Ok o ∧
    a' = mkTeamAcct (RosterPost o) (floor_after (ta_floor a) o) (ta_gens a') rng ∧ team_seqno o = n ∧ (1 < n)%Z ∧
    EntityID_Type (laTeam arg) = Ok t ∧ (t = EntityType_AdHocTeam → gcChanges (otGc o) = []) ∧
    new_team_keys (ta_gens a) (spsKey <$> otSharedKeys o) (ta_gens a') ∧
    Forall (λ sk, is_ok (EntityID_Fixed (skVerifyKey sk)) = true) (spsKey <$> otSharedKeys o) ∧ range_step (ta_range a) (otRange o) rng.
Proof.
  intros He Hh Hteam. destruct He as [ko signerKey changes newTeamKeys prev root mds now r_loc link loc exported signerSk h md floorKey t
    post sched g rng Hn Hm Hparty Hts Hloc Hex Hris Hnk Hsg Ht Hah Hmd Hrg Hfl Hg].
  unfold MakeTeamLink in Hm. rewrite Hex in Hm. cbn [mbind result_bind] in Hm. apply bind_Ok in Hm as ([loc' c] & Hl & Hm).
  rewrite Hsg in Hm. cbn [mbind result_bind] in Hm. apply bind_Ok in Hm as (link' & Hs & [= -> ->]). apply sign_link_signed in Hs.
  destruct (team_exported _ _ Hex Hts) as (Hfp & Hfx & Hsigs). destruct Hris as (rks & Hrk & Hsort).
  destruct (party_exported signerKey signerSk h Hparty Hsg) as (_ & _ & _ & Himp & Hsig & _). set (gc := mkGroupChange _ _ _ _ _ _ _) in Hs.
  eassert (OpenTeamLink link hs (Some (laTeam arg)) (laHost arg) (Some (ta_roster a)) (ta_floor a) = Ok _) as Ho.
  { apply (made_team_opens gc _ _ hs _ _ floorKey ko (skVerifyKey signerSk) (suites_of exported) md post sched t Hs); try done.
    - by destruct newTeamKeys.
    - apply Forall2_app; [done|]. by repeat constructor.
    - by apply Hteam.
    - intros E. cbn. by rewrite (Hah E).
    - by apply (open_exported None exported hs rks).
    - eapply (chainer_opens gc n (Some prev)); [done..|lia|]. split; [lia|done]. }
  eexists _, t, rng. split; [exact Ho|]. cbn [otSharedKeys otGc RosterPost otRange]. rewrite suites_of_keys. by repeat (split; [done|]).
Qed.

(** ** The chain *)
Lemma open_team_links_snoc hs roster floor n links otlrs post link o :
  open_team_links arg hs roster floor n links = Ok (otlrs, post) →
  OpenTeamLink link hs (Some (laTeam arg)) (laHost arg) post (foldl floor_after floor otlrs) = Ok o →
  open_team_links arg hs roster floor n (links ++ [link]) = Ok (otlrs ++ [o], Some (RosterPost o)).
Proof.
  revert roster floor n otlrs. induction links as [|l links IH]; intros roster floor n otlrs Ho Hl; cbn [open_team_links app] in Ho |- *.
  { injection Ho as <- <-. cbn in Hl. by rewrite Hl. }
  apply bind_Ok in Ho as (o1 & -> & Ho). apply bind_Ok in Ho as ([rest p1] & Ho & [= <- <-]). cbn [mbind result_bind].
  by rewrite (IH _ _ _ _ Ho Hl).
Qed.
Lemma team_playLinks_app l otlrs l1 otlrs' l2 :
  TeamLoader_playLinks arg l otlrs = Ok l1 → TeamLoader_playLinks arg l1 otlrs' = Ok l2 →
  TeamLoader_playLinks arg l (otlrs ++ otlrs') = Ok l2.
Proof.
  revert l. induction otlrs as [|o otlrs IH]; intros l H1' H2'; cbn [TeamLoader_playLinks app] in H1' |- *; [by injection H1' as ->|].
  apply bind_Ok in H1' as (la & -> & H1'). apply bind_Ok in H1' as (lb & Hb & H1'). cbn [mbind result_bind]. rewrite Hb. cbn. by apply IH.
Qed.

Lemma found_team_type link raw a t : team_client_found link raw a → EntityID_Type (laTeam arg) = Ok t → EntityType_IsTeam t = true.
Proof.
  intros Hf Ht. destruct Hf as [? ? ? ? ? ? ? ? ? ? ? ? ? ? ? ? ? ? ? Hm Hteam _ Hts _ Hex _ _ Hown].
  destruct (eldest_team_made _ _ _ _ _ _ _ _ _ _ _ _ _ _ _ Hm Hex Hown) as (? & ? & ? & ? & ? & ? & _ & Hin & _ & Hper & _).
  destruct (team_named _ _ _ _ _ Hex Hts Hin Hper) as [Htype _]. rewrite <- Hteam, Ht in Htype. injection Htype as ->.
  by destruct (_ =? _)%Z.
Qed.
Lemma chain_team_type links raw a t : team_client_chain links raw a → EntityID_Type (laTeam arg) = Ok t → EntityType_IsTeam t = true.
Proof. induction 1; [by eapply found_team_type|done]. Qed.

Lemma team_chain_plays links raw a hs :
  team_client_chain links raw a → holds hs raw →
  ∃ otlrs, open_team_links arg hs None None 0 links = Ok (otlrs, Some (ta_roster a)) ∧ foldl floor_after None otlrs = ta_floor a ∧
    ∀ l0, fresh_loader l0 (Z.of_nat (length links)) →
      ∃ l, TeamLoader_playLinks arg l0 otlrs = Ok l ∧ team_ready l a ∧ team_frame l0 l.
Proof.
  intros Hc Hh. induction Hc as [link raw a Hf|links raw a link raw' a' Hc IH He].
  - destruct (found_link_opens link raw a hs Hf Hh) as (o & res & t & Ho & Her & Hp & Ht & Hn & Hfx & Hr & Hrd & Hfl).
    exists [o]. cbn [open_team_links]. rewrite Ho. cbn. rewrite Hp. split; [done|]. unfold floor_after. rewrite Hrd, Hfl. split; [done|].
    intros l0 F. destruct (eldest_team_plays l0 o (ta_gens a) t res (ta_range a)) as (l & Hl & Hrdy & Hfr); [done..|].
    exists l. split; [done|]. split; [|done]. by destruct a; simpl in *; subst.
  - destruct IH as (otlrs & Ho & Hfl & Hpl). { intros h fp Hin. apply Hh. set_solver. }
    destruct (edit_link_opens a _ link raw' a' hs He) as (o & t & rng & Hop & Ha' & Hsq & Hn & Ht & Hah & Hk & Hfx & Hr).
    { intros h fp Hin. apply Hh. set_solver. }
    { intros t. by eapply chain_team_type. }
    exists (otlrs ++ [o]). rewrite Ha'. cbn [ta_roster ta_floor]. split; [by eapply open_team_links_snoc; [|rewrite Hfl]|].
    split; [by rewrite foldl_snoc, Hfl|]. rewrite length_app. cbn. intros l0 (F1 & F2 & F3 & F4).
    destruct (Hpl l0) as (l1 & Hl1 & Hrdy & (G1 & G2 & G3 & G4)). { repeat split; try done; lia. }
    destruct (edit_link_plays l1 a o (ta_gens a') rng t) as (l & Hl & Hrdy' & (K1 & K2 & K3 & K4)); try done; [lia|rewrite G3; lia|].
    exists l. split; [by eapply team_playLinks_app|]. split; [done|]. unfold team_frame. by rewrite K1, K2, K3, K4.
Qed.

Lemma team_chain_printed links raw a : team_client_chain links raw a → printed raw.
Proof.
  induction 1 as [link raw a Hf|links raw a link raw' a' _ IH He].
  - destruct Hf. by eapply exported_printed.
  - apply Forall_app. split; [done|]. destruct He. by eapply exported_printed.
Qed.

Lemma team_chain_loads links raw a leaves :
  team_client_chain links raw a → distinct_prints raw → (Z.of_nat (length links) ≤ len leaves < 2 ^ 63)%Z →
  ∃ l0 otlrs l1 l, TeamLoader_updateHEPKs (NewTeamLoader leaves) raw = Ok l0 ∧ TeamLoader_openLinks arg l0 links = Ok (otlrs, l1) ∧
    TeamLoader_playLinks arg l1 otlrs = Ok l ∧ rosterPost l = Some (ta_roster a) ∧ team_ready l a.
Proof.
  intros Hc Hd Hlv. destruct (import_holds raw) as (hs & Hi & Hh); [by eapply team_chain_printed|done|].
  assert (HEPKSet_Merge ∅ hs = hs) as Hmerge by (unfold HEPKSet_Merge; by rewrite (right_id_L ∅ (∪))).
  destruct (team_chain_plays links raw a hs Hc Hh) as (otlrs & Ho & _ & Hpl).
  set (l1 := set_rosterPost (set_tlHepks (NewTeamLoader leaves) hs) (Some (ta_roster a))).
  destruct (Hpl l1) as (l & Hl & Hr & (_ & F2 & _)). { repeat split; try done; apply Hlv. }
  exists (set_tlHepks (NewTeamLoader leaves) hs), otlrs, l1, l. unfold TeamLoader_updateHEPKs. rewrite Hi. cbn [mbind result_bind NewTeamLoader tlHepks].
  rewrite Hmerge. split; [done|]. unfold TeamLoader_openLinks. cbn [tlHepks set_tlHepks rosterPre tlFloor NewTeamLoader]. rewrite Ho. done.
Qed.

(** ** The client's plans are those of the links *)
Lemma editor_party s : editor_suite s → party_suite s.
Proof. intros (typ & priv & Hk & Ht). exists typ, priv. split; [done|]. unfold party_types, team_types. set_solver. Qed.
(** The identifier that the client plans with is the one on record, which the link names. *)
Lemma editor_id s sk h : editor_suite s → ExportToSharedKey s = Ok (sk, h) → Suite_EntityID (spSuite s) = Ok (skVerifyKey sk).
Proof.
  intros (typ & priv & Hk & Ht) He. assert (RollingType typ = typ ∧ IsEd25519 typ = true) as [Hr Hi].
  { repeat (apply elem_of_cons in Ht as [->|Ht]; [done|]). by apply elem_of_nil in Ht. }
  destruct (exported_rolling s sk h typ priv He Hk) as (_ & _ & _ & _ & Hid & _); rewrite Hr in *; [done|].
  unfold Suite_EntityID. by rewrite Hk.
Qed.
Lemma admin_metadata_listed mds md : open_metadata no_metadata mds = Ok md → has_admin_metadata md = true → (0 <? len mds)%Z = true.
Proof. destruct mds; [by intros [= <-]|]. intros _ _. unfold len. simpl. lia. Qed.

Lemma editor_edit_planned a n link raw a' :
  roster_before n (ta_roster a) → team_editor_edit a n link raw a' → team_client_edit a n link raw a' ∧ roster_before (n + 1) (ta_roster a').
Proof.
  intros Hb He. destruct He as [ko signerKey changes newTeamKeys prev root mds now r_loc link loc exported signerSk h md t planned sched g rng
    Hn Hp Hm Hed Hts Hloc Hex Hris Hnk Hsg Ht Hah Hmd Hrg].
  unfold runGameplan in Hp. rewrite (editor_id _ _ _ Hed Hsg) in Hp. cbn [mbind result_bind] in Hp. apply bind_Ok in Hp as (floorKey & Hfl & Hp).
  apply (Roster_Gameplan_stamp n now _ _ _ _ _ _ (mkGameplanOpts false false floorKey (has_admin_metadata md))) in Hp; [|..|done|lia].
  2:{ repeat split; try done. cbn. by apply admin_metadata_listed. }
  split; [by eapply tce; try done; apply editor_party|]. eapply Roster_Gameplan_before; [|..|exact Hp]; [by intros ? [= <-]|lia].
Qed.
Lemma found_before link raw a : team_client_found link raw a → roster_before 2 (ta_roster a).
Proof.
  intros Hf. destruct Hf as [name owner uotKey teamKeys root trkc others now r_name r_loc r_seed res exported ownerSk h t post sched g
    Hm _ _ _ _ Hex _ _ Hown _ _ changes _ Hg].
  destruct (eldest_team_made _ _ _ _ _ _ _ _ _ _ _ _ _ _ _ Hm Hex Hown) as (signerID & ? & ? & ? & ? & ? & Hsid & _).
  by refine (Roster_Gameplan_before 1 now None _ _ _ _ _ _ _ _ _ (Hg signerID Hsid)).
Qed.
Lemma editor_chain_planned links raw a :
  team_editor_chain links raw a → team_client_chain links raw a ∧ roster_before (Z.of_nat (length links) + 1) (ta_roster a).
Proof.
  induction 1 as [link raw a Hf|links raw a link raw' a' _ [IH Hb] He]; [by split; [constructor|eapply found_before]|].
  destruct (editor_edit_planned _ _ _ _ _ Hb He) as [He' Hb']. split; [by econstructor|]. rewrite length_app. cbn. by replace (_ + _)%Z with (Z.of_nat (length links) + 1 + 1)%Z by lia.
Qed.


Lemma unmatched_schedule s item :
  item ∈ Items s → NewKeyGen item = true → is_ok (MatchPublicKeys s []) = false.
Proof.
  intros Hin Hnew. unfold MatchPublicKeys. induction (Items s) as [|it items IH]; [by apply elem_of_nil in Hin|]. cbn [match_public_keys].
  destruct (NewKeyGen it) eqn:E; cbn; [done|]. apply IH. apply elem_of_cons in Hin as [->|]; [congruence|done].
Qed.

(** C28: The loader does not ask for the keys that a link's schedule calls for: an edit with no new keys at all, say one that removes a member, is
    played to the edited roster with the old keys, although the check of posted keys refuses it. *)
Theorem rotation_not_enforced links raw a leaves ko signerKey changes prev root now r_loc link loc signerSk h floorKey t post sched :
  team_client_chain links raw a → distinct_prints raw → (Z.of_nat (length links) + 1 ≤ len leaves < 2 ^ 63)%Z →
  MakeTeamLink (laHost arg) (laTeam arg) ko signerKey changes [] (Z.of_nat (length links) + 1) prev root [] now r_loc = Ok (link, loc) →
  party_suite signerKey → real_location r_loc → ExportToSharedKey signerKey = Ok (signerSk, h) →
  EntityID_Type (laTeam arg) = Ok t → t ≠ EntityType_AdHocTeam → RosterDelegationFloorActive (ta_floor a) = Ok floorKey →
  Roster_Gameplan (Some (ta_roster a)) ko (laHost arg) (changes_at changes (Z.of_nat (length links) + 1) now) (Some (skVerifyKey signerSk))
    (edit_opts floorKey false) = Ok (post, sched) →
  (∃ l0 otlrs l1 l, TeamLoader_updateHEPKs (NewTeamLoader leaves) raw = Ok l0 ∧ TeamLoader_openLinks arg l0 (links ++ [link]) = Ok (otlrs, l1) ∧
     TeamLoader_playLinks arg l1 otlrs = Ok l ∧ rosterPost l = Some post ∧ ∀ rk, length (pub_keys (tlPtks l) rk) = ta_gens a rk) ∧
  ∀ item, item ∈ Items sched → NewKeyGen item = true → is_ok (MatchPublicKeys sched []) = false.
Proof.
  intros Hc Hd Hlv Hm Hp Hl Hs Ht Hah Hf Hg. split; [|intros item; apply unmatched_schedule].
  assert (team_client_chain (links ++ [link]) (raw ++ []) (mkTeamAcct post (ta_floor a) (ta_gens a) (ta_range a))) as Hc'.
  { econstructor; [done|]. eapply (tce a _ ko signerKey changes [] prev root [] now r_loc link loc [] signerSk h no_metadata floorKey t post sched (ta_gens a) (ta_range a)); try done.
    - assert (length links ≠ 0%nat); [|lia]. destruct Hc; [done|]. rewrite length_app. simpl. lia.
    - exists []. by repeat constructor.
    - constructor. }
  rewrite app_nil_r in Hc'. destruct (team_chain_loads _ raw _ leaves Hc' Hd) as (l0 & otlrs & l1 & l & Hu & Ho & Hpl & Hr & [R1 _ _]).
  { rewrite length_app. simpl. lia. }
  by exists l0, otlrs, l1, l.
Qed.
End made.
