(* ===== verification/TeamLoaderExamples.v ===== *)
(** * A team's chain in use

    A user founds a named team, adds a member, and removes the member again, with new keys for the roles that the
    member could see or (the last link in another version) without.  The third-party code is that of
    [UserMadeExamples]. *)
From S2P Require Import Prelude Snowp MerkleTypes Rational Role Roster RosterAuth TeamRoster TeamBoxes Sigs HostChain ChainLoader TeamIndex UserChain UserLoader UserAccount UserPlay UserFacts TeamRosterFacts UserWriter UserWriterFacts UserMade UserMadeExamples TeamChain TeamLoader TeamEdit TeamPlay TeamRing TeamMade.

#[local] Existing Instance merge_sort_func.
#[local] Existing Instance um_crypto.
#[local] Existing Instance um_sign_laws.
#[local] Existing Instance um_codec.
#[local] Existing Instance um_chain_lib.
#[local] Existing Instance um_loader_lib.

(** ** Keys and members *)
Definition tl_user (n : Z) : EntityID := um_id EntityType_User n.
Definition tl_puk (n : Z) : SharedPrivateSuite25519 := um_puk n um_owner 1.
Definition tl_ptk (n : Z) (r : Role) (g : Generation) : SharedPrivateSuite25519 :=
  mkSharedPrivateSuite25519 (um_suite EntityType_NamedTeam n r) g.
Definition tl_ptk_next (n : Z) (r : Role) (g : Generation) : SharedPrivateSuite25519 :=
  mkSharedPrivateSuite25519 (um_suite EntityType_PTKVerify n r) g.
Definition tl_pub (n : Z) (r : Role) (g : Generation) : SharedKey := mkSharedKey g r (um_id EntityType_PTKVerify n) (um_fp n).
Definition tl_owner (n : Z) : KeyOwner := mkKeyOwner (tl_user n) um_owner.
Definition tl_member (n : Z) (role : Role) (trkc : option bytes) : proto_MemberRole :=
  exportToMemberRole role um_host (mkFQEntity (tl_user n) um_host) (um_sk n um_owner 1) trkc.
Definition tl_remove (n : Z) : proto_MemberRole :=
  mkMemberRole (NewRoleDefault RoleType_NONE) (mkMember (mkFQEntityInHostScope (tl_user n) None) um_owner NewMemberKeysWithNone).
Definition tl_team : EntityID := um_id EntityType_NamedTeam 23.
Definition tl_arg : LoadTeamArg := mkLoadTeamArg tl_team um_host (mkFQEntity (tl_user 1) um_host).
Definition tl_keys1 : list SharedPrivateSuite25519 :=
  [tl_ptk 21 MinKVRole 1; tl_ptk 22 DefaultRole 1; tl_ptk 23 proto_AdminRole 1; tl_ptk 24 proto_OwnerRole 1].
Definition tl_keys3 : list SharedPrivateSuite25519 := [tl_ptk_next 25 MinKVRole 2; tl_ptk_next 26 DefaultRole 2].
Definition tl_pubs1 : list SharedKey :=
  [tl_pub 21 MinKVRole 1; tl_pub 22 DefaultRole 1; tl_pub 23 proto_AdminRole 1; tl_pub 24 proto_OwnerRole 1].
Definition tl_pubs3 : list SharedKey := [tl_pub 25 MinKVRole 2; tl_pub 26 DefaultRole 2].

(** ** The inner links *)
Definition tl_gc (seqno loc signer : Z) (changes : list proto_MemberRole) (ks : list SharedKey) (md : list ChangeMetadata) :=
  mkGroupChange (mkHidingChainer (mkBaseChainer seqno (if (seqno =? 1)%Z then None else Some [7%Z]) um_root 0) (um_loc loc))
    (mkFQEntity tl_team um_host) (mkGroupChangeSigner (um_id EntityType_PUKVerify signer) (Some (tl_owner signer))) changes ks md None.
Definition tl_table : list GroupChange := [
  tl_gc 1 1 1 [tl_member 1 proto_OwnerRole (Some [9%Z])] tl_pubs1
    [NewChangeMetadataWithTeamname (um_commit 11); NewChangeMetadataWithEldest (mkEldestMetadata (um_loc 2));
     NewChangeMetadataWithTeamindexrange NewDefaultRange; NewChangeMetadataWithMemberloadfloor DefaultMemberLoadFloor];
  tl_gc 2 3 1 [tl_member 2 DefaultRole (Some [8%Z])] [] [NewChangeMetadataWithRosterdelegationfloor (NewRoleWithMember 1)];
  tl_gc 3 4 1 [tl_remove 2] tl_pubs3 [];
  tl_gc 3 4 1 [tl_remove 2] [] []].
#[local] Instance tl_lib : UserLib := um_user_lib tl_table.
#[local] Instance tl_writer_lib : UserWriterLib := um_user_writer_lib tl_table.
#[local] Instance tl_writer_laws : UserWriterLaws := um_user_writer_laws tl_table.

(** ** The links *)
Definition tl_found : result TeamMakeLinkRes :=
  MakeTeamEldestLink um_host (Some um_name) (tl_owner 1) (tl_puk 1) tl_keys1 um_root (Some [9%Z]) [] 0 (Ok [11%Z]) (Ok [1%Z]) (Ok [2%Z]).
Definition tl_edit (n loc : Z) (changes : list proto_MemberRole) (ks : list SharedPrivateSuite25519) (md : list ChangeMetadata)
  : result (LinkOuter * bytes) :=
  MakeTeamLink um_host tl_team (tl_owner 1) (tl_puk 1) changes ks n [7%Z] um_root md 0 (Ok [loc]).
Definition tl_add : result (LinkOuter * bytes) :=
  tl_edit 2 3 [tl_member 2 DefaultRole (Some [8%Z])] [] [NewChangeMetadataWithRosterdelegationfloor (NewRoleWithMember 1)].
Definition tl_removal : result (LinkOuter * bytes) := tl_edit 3 4 [tl_remove 2] tl_keys3 [].
Definition tl_unrotated : result (LinkOuter * bytes) := tl_edit 3 4 [tl_remove 2] [] [].

Definition tl_zero : LinkOuter := mkLinkOuter 0 None.
Definition tl_res1 : TeamMakeLinkRes :=
  match tl_found with Ok r => r | Err _ => mkTeamMakeLinkRes tl_zero [] None None [] end.
Definition tl_link1 : LinkOuter := tmlLink tl_res1.
Definition tl_the (r : result (LinkOuter * bytes)) : LinkOuter := match r with Ok (l, _) => l | Err _ => tl_zero end.
Definition tl_hepks (ks : list SharedPrivateSuite25519) : list HEPK := (λ k, ExportHEPK (spSuite k)) <$> ks.
Definition tl_links : list LinkOuter := [tl_link1; tl_the tl_add; tl_the tl_removal].
Definition tl_raw : list HEPK := tl_hepks tl_keys1 ++ [] ++ tl_hepks tl_keys3.
Definition tl_run (links : list LinkOuter) (raw : list HEPK) : result (TeamLoader * TeamChainState) :=
  team_play_over tl_arg None raw links (replicate 3 um_leaf) [] false (Some []).

(** ** The load *)
Definition tl_no_state : TeamChainState :=
  mkTeamChainState (mkHidingChainer (mkBaseChainer 0 None um_root 0) []) [] [] [] [] [] [] [] NewDefaultRange None None false.
Definition tl_out : TeamLoader * TeamChainState :=
  match tl_run tl_links tl_raw with Ok r => r | Err _ => (NewTeamLoader [], tl_no_state) end.
Lemma tl_out_Ok :
  team_play_over tl_arg None tl_raw tl_links (replicate 3 um_leaf) [] false (Some []) = Ok (tl_out.1, tl_out.2).
Proof.
  change (tl_run tl_links tl_raw = Ok (tl_out.1, tl_out.2)).
  assert (is_ok (tl_run tl_links tl_raw) = true) as Hok by (vm_compute; reflexivity).
  unfold tl_out. by destruct (tl_run tl_links tl_raw) as [[]|].
Qed.

Lemma team_links_authorised_witness :
  length tl_links = 3%nat ∧
  ∃ otlrs post, Forall2 signed_team_link tl_links otlrs ∧ rosterPost tl_out.1 = Some post ∧
    team_run tl_arg otlrs post (tlFloor tl_out.1) ∧ team_ok post.
Proof. split; [done|]. eapply team_links_authorised. exact tl_out_Ok. Defined.

Definition tl_first : SharedKeyWithInfo :=
  mkSharedKeyWithInfo (tl_pub 22 DefaultRole 1) (mkProvisionInfo (um_id EntityType_PUKVerify 1) (mkBaseChainer 1 None um_root 0) um_leaf) None.
Definition tl_second : SharedKeyWithInfo :=
  mkSharedKeyWithInfo (tl_pub 26 DefaultRole 2)
    (mkProvisionInfo (um_id EntityType_PUKVerify 1) (mkBaseChainer 3 (Some [7%Z]) um_root 0) um_leaf) None.
Lemma tl_member_keys : pub_keys (tlPtks tl_out.1) MemberRole = [tl_first; tl_second].
Proof. vm_compute. reflexivity. Qed.


Lemma first_team_key_never_revoked_witness :
  CurrentPublicKeyAtRole (tlPtks tl_out.1) MemberRole = Some tl_second ∧
  TeamWrapper_BookendSigningKey (tlPtks tl_out.1) (um_id EntityType_PTKVerify 22) = Ok None.
Proof.
  split; [unfold CurrentPublicKeyAtRole; by change (kfrPub _) with (pub_keys (tlPtks tl_out.1) MemberRole); rewrite tl_member_keys|].
  apply (first_team_key_never_revoked tl_arg tl_raw tl_links (replicate 3 um_leaf) [] false (Some []) tl_out.1 tl_out.2 MemberRole tl_first
    (um_id EntityType_PTKVerify 22 ++ [0%Z])); [exact tl_out_Ok|by rewrite tl_member_keys|reflexivity|vm_compute; reflexivity].
Defined.

(** ** The client *)
Definition tl_vk : EntityID := um_id EntityType_PUKVerify 1.
Definition tl_plan (r : option TRoster) (changes : list proto_MemberRole) (n : Z) (floorKey : option RoleKey) (md : bool) :=
  Roster_Gameplan r (tl_owner 1) um_host (changes_at changes n 0) (Some tl_vk) (edit_opts floorKey md).
Definition tl_planned (r : TRoster) (floor : option Role) (changes : list proto_MemberRole) (mds : list ChangeMetadata) :=
  runGameplan (Some r) floor (tl_owner 1) um_host changes (tl_puk 1) mds.
Definition tl_post (r : result (TRoster * KeySchedule)) : TRoster * KeySchedule :=
  match r with Ok p => p | Err _ => (NewEmptyRoster, mkKeySchedule [] [] []) end.
Lemma tl_post_Ok r : is_ok r = true → r = Ok ((tl_post r).1, (tl_post r).2).
Proof. by destruct r as [[]|]. Qed.
Definition tl_plan1 := tl_plan None [tl_member 1 proto_OwnerRole (Some [9%Z])] 1 None true.
Definition tl_r1 : TRoster := (tl_post tl_plan1).1.
Definition tl_plan2 := tl_planned tl_r1 None [tl_member 2 DefaultRole (Some [8%Z])] [NewChangeMetadataWithRosterdelegationfloor (NewRoleWithMember 1)].
Definition tl_r2 : TRoster := stamp_roster 2 0 (tl_post tl_plan2).1.
Definition tl_plan3 := tl_planned tl_r2 (Some (NewRoleWithMember 1)) [tl_remove 2] [].
Definition tl_r3 : TRoster := stamp_roster 3 0 (tl_post tl_plan3).1.
(** The plan of whoever opens the link without new keys. *)
Definition tl_plan3u := tl_plan (Some tl_r2) [tl_remove 2] 3 (Some (mkRoleKey RoleType_MEMBER 1)) false.
Definition tl_r3u : TRoster := (tl_post tl_plan3u).1.

Definition tl_bump (g : RoleKey → nat) (rk : RoleKey) : RoleKey → nat := λ rk', if decide (rk = rk') then S (g rk') else g rk'.
Definition tl_g1 : RoleKey → nat := tl_bump (tl_bump (tl_bump (tl_bump (λ _, 0%nat) KVMinRole) MemberRole) AdminRole) OwnerRole.
Definition tl_g3 : RoleKey → nat := tl_bump (tl_bump tl_g1 KVMinRole) MemberRole.
Definition tl_a1 : team_acct := mkTeamAcct tl_r1 None tl_g1 NewDefaultRange.
Definition tl_a2 : team_acct := mkTeamAcct tl_r2 (Some (NewRoleWithMember 1)) tl_g1 NewDefaultRange.
Definition tl_a3 : team_acct := mkTeamAcct tl_r3 (Some (NewRoleWithMember 1)) tl_g3 NewDefaultRange.

Lemma tl_party n : party_suite (tl_puk n).
Proof. exists EntityType_PUKVerify, [n; n]. split; [done|]. unfold party_types. set_solver. Qed.
Lemma tl_editor n : editor_suite (tl_puk n).
Proof. exists EntityType_PUKVerify, [n; n]. split; [done|]. set_solver. Qed.
Lemma tl_team_suite n r g : team_suite (tl_ptk n r g).
Proof. exists EntityType_NamedTeam, [n; n]. split; [done|]. unfold team_types. set_solver. Qed.
Lemma tl_team_suite_next n r g : team_suite (tl_ptk_next n r g).
Proof. exists EntityType_PTKVerify, [n; n]. split; [done|]. unfold team_types. set_solver. Qed.

Lemma tl_client_found : team_client_found tl_arg tl_link1 (tl_hepks tl_keys1) tl_a1.
Proof.
  assert (is_ok tl_plan1 = true) as Hok by (vm_compute; reflexivity).
  assert (tl_found = Ok tl_res1 ∧ tmlTeamID tl_res1 = tl_team) as [Hres Hteam] by (split; vm_compute; reflexivity).
  assert (mapM_r ExportToSharedKey tl_keys1 = Ok (zip tl_pubs1 (tl_hepks tl_keys1))) as Hex by (vm_compute; reflexivity).
  assert (tl_hepks tl_keys1 = (zip tl_pubs1 (tl_hepks tl_keys1)).*2) as -> by (vm_compute; reflexivity).
  apply (tcf tl_arg (Some um_name) (tl_owner 1) (tl_puk 1) tl_keys1 um_root (Some [9%Z]) [] 0 (Ok [11%Z]) (Ok [1%Z]) (Ok [2%Z]) tl_res1
    (zip tl_pubs1 (tl_hepks tl_keys1)) (um_sk 1 um_owner 1) (ExportHEPK (spSuite (tl_puk 1))) EntityType_User tl_r1 (tl_post tl_plan1).2 tl_g1).
  - exact Hres.
  - symmetry. exact Hteam.
  - apply tl_party.
  - repeat constructor; apply tl_team_suite.
  - by apply um_located.
  - exact Hex.
  - exists [KVMinRole; MemberRole; AdminRole; OwnerRole]. split; [repeat constructor|].
    repeat first [apply SSorted_nil|apply SSorted_cons|apply Forall_nil_2|apply Forall_cons_2|by apply LessThan_spec].
  - repeat (eapply ntk_cons; [reflexivity|reflexivity|reflexivity|]). apply ntk_nil.
  - vm_compute. reflexivity.
  - reflexivity.
  - reflexivity.
  - intros Ht. vm_compute in Ht. discriminate Ht.
  - intros signerID Hid. assert (signerID = tl_vk) as -> by (vm_compute in Hid; by injection Hid as <-). exact (tl_post_Ok tl_plan1 Hok).
Qed.

(** An edit by user 1, with the record of the client's plan. *)
Lemma tl_editor_edit a n loc changes ks pubs mds md plan g r :
  (1 < n)%Z → tl_edit n loc changes ks mds = Ok (tl_the r, [loc]) → Commitment_IsZero (um_loc loc) = false →
  Forall team_suite ks → mapM_r ExportToSharedKey ks = Ok (zip pubs (tl_hepks ks)) → rising (zip pubs (tl_hepks ks)).*1 →
  new_team_keys (ta_gens a) (zip pubs (tl_hepks ks)).*1 g → open_metadata no_metadata mds = Ok md → tmdRng md = None →
  is_ok plan = true → plan = tl_planned (ta_roster a) (ta_floor a) changes mds →
  team_editor_edit tl_arg a n (tl_the r) (zip pubs (tl_hepks ks)).*2
    (mkTeamAcct (stamp_roster n 0 (tl_post plan).1) (match tmdRdf md with Some f => Some f | None => ta_floor a end) g (ta_range a)).
Proof.
  intros Hn Hm Hz Hts Hex Hr Hk Hmd Hrng Hok Hp.
  apply (tee tl_arg a n (tl_owner 1) (tl_puk 1) changes ks [7%Z] um_root mds 0 (Ok [loc]) (tl_the r) [loc] (zip pubs (tl_hepks ks))
    (um_sk 1 um_owner 1) (ExportHEPK (spSuite (tl_puk 1))) md EntityType_NamedTeam (tl_post plan).1 (tl_post plan).2 g (ta_range a)); try assumption.
  - rewrite <- (tl_post_Ok plan Hok), Hp. reflexivity.
  - apply tl_editor.
  - by apply um_located.
  - vm_compute. reflexivity.
  - reflexivity.
  - intros Ht. vm_compute in Ht. discriminate Ht.
  - by rewrite Hrng.
Qed.

Lemma tl_client_add : team_editor_edit tl_arg tl_a1 2 (tl_the tl_add) [] tl_a2.
Proof.
  apply (tl_editor_edit tl_a1 2 3 [tl_member 2 DefaultRole (Some [8%Z])] [] [] [NewChangeMetadataWithRosterdelegationfloor (NewRoleWithMember 1)]
    (mkTeamMetadata None None (Some (NewRoleWithMember 1))) tl_plan2 tl_g1 tl_add); try reflexivity; try (vm_compute; reflexivity).
  - constructor.
  - exists []. repeat constructor.
  - constructor.
Qed.
Lemma tl_client_removal : team_editor_edit tl_arg tl_a2 3 (tl_the tl_removal) (tl_hepks tl_keys3) tl_a3.
Proof.
  assert (tl_hepks tl_keys3 = (zip tl_pubs3 (tl_hepks tl_keys3)).*2) as -> by (vm_compute; reflexivity).
  apply (tl_editor_edit tl_a2 3 4 [tl_remove 2] tl_keys3 tl_pubs3 [] no_metadata tl_plan3 tl_g3 tl_removal);
    try reflexivity; try (vm_compute; reflexivity).
  - repeat constructor; apply tl_team_suite_next.
  - exists [KVMinRole; MemberRole]. split; [repeat constructor|].
    repeat first [apply SSorted_nil|apply SSorted_cons|apply Forall_nil_2|apply Forall_cons_2|by apply LessThan_spec].
  - repeat (eapply ntk_cons; [reflexivity|reflexivity|reflexivity|]). apply ntk_nil.
Qed.
Lemma tl_chain2 : team_editor_chain tl_arg [tl_link1; tl_the tl_add] (tl_hepks tl_keys1) tl_a2.
Proof.
  pose proof (tec_edit _ _ _ _ _ _ _ (tec_found _ _ _ _ tl_client_found) tl_client_add) as C2. by rewrite app_nil_r in C2.
Qed.
Lemma tl_chain3 : team_editor_chain tl_arg tl_links tl_raw tl_a3.
Proof. exact (tec_edit _ _ _ _ _ _ _ tl_chain2 tl_client_removal). Qed.
Ltac prints_distinct := apply NoDup_prints; vm_compute; repeat constructor; rewrite ?elem_of_cons, elem_of_nil; naive_solver.


(** The removal without new keys: the schedule of the plan has two of them. *)
Definition tl_id2 : MemberID := mkMemberID (mkFQEntityFixed (tl_user 2 ++ [0%Z]) um_host) OwnerRole.
Lemma rotation_not_enforced_witness :
  (tl_g1 MemberRole = 1%nat ∧ rCore tl_r2 ≫= (λ c, members c !! tl_id2) ≠ None ∧ rCore tl_r3u ≫= (λ c, members c !! tl_id2) = None ∧
   NewKeyGen <$> Items (tl_post tl_plan3u).2 = [true; true]) ∧
  (∃ l0 otlrs l1 l, TeamLoader_updateHEPKs (NewTeamLoader (replicate 3 um_leaf)) (tl_hepks tl_keys1) = Ok l0 ∧
     TeamLoader_openLinks tl_arg l0 ([tl_link1; tl_the tl_add] ++ [tl_the tl_unrotated]) = Ok (otlrs, l1) ∧
     TeamLoader_playLinks tl_arg l1 otlrs = Ok l ∧ rosterPost l = Some tl_r3u ∧ ∀ rk, length (pub_keys (tlPtks l) rk) = tl_g1 rk) ∧
  ∀ item, item ∈ Items (tl_post tl_plan3u).2 → NewKeyGen item = true → is_ok (MatchPublicKeys (tl_post tl_plan3u).2 []) = false.
Proof.
  split. { split; [reflexivity|]. split; [vm_compute; discriminate|]. split; vm_compute; reflexivity. }
  apply (rotation_not_enforced tl_arg [tl_link1; tl_the tl_add] (tl_hepks tl_keys1) tl_a2 (replicate 3 um_leaf) (tl_owner 1) (tl_puk 1) [tl_remove 2]
    [7%Z] um_root 0 (Ok [4%Z]) (tl_the tl_unrotated) [4%Z] (um_sk 1 um_owner 1) (ExportHEPK (spSuite (tl_puk 1))) (Some (mkRoleKey RoleType_MEMBER 1))
    EntityType_NamedTeam tl_r3u (tl_post tl_plan3u).2).
  - exact (proj1 (editor_chain_planned _ _ _ _ tl_chain2)).
  - prints_distinct.
  - split; [vm_compute; discriminate|reflexivity].
  - vm_compute. reflexivity.
  - apply tl_party.
  - by apply um_located.
  - vm_compute. reflexivity.
  - reflexivity.
  - discriminate.
  - reflexivity.
  - apply (tl_post_Ok tl_plan3u). vm_compute. reflexivity.
Defined.
